(* ===== verification/_CoqProject ===== *)
-Q . S2P
Prelude.v
GoFloat.v
GoStd.v
Decimal.v
Json.v
Rfc3339.v
Logger.v
Duration.v
Resource.v
CloudSpecs.v
Tracing.v
SpecsJson.v
NodeScan.v
PvcScan.v
VscScan.v
RedisScan.v
ClusterTracking.v
Effects.v
Libraries.v
Clients.v
Process.v
Samples.v
ProcessSpec.v
QueueSpec.v
KubeconfigProvider.v
Concurrency.v
Retry.v
EdpPayload.v
PayloadJson.v
EdpClient.v
EdpCollector.v
EdpCollectorSpec.v
UnifiedMetering.v
Scanners.v
Kmc.v
WorkerLog.v
Traces.v
TokenSecrecy.v
KebClient.v
Polling.v
ResponseBodies.v
FilterClusters.v
Metrics.v
Liveness.v
Options.v
Server.v
Main.v
RandomString.v
Fixtures.v
ScanTests.v
FlowTests.v
