(* ===== verification/Prelude.v ===== *)
(** * Kyma Metrics Collector: a verification library

    The Kyma Metrics Collector (KMC) bills the clusters of a Kyma control plane.  One
    goroutine polls the Kyma Environment Broker (KEB) for runtimes and keeps a cache of the
    billable ones, keyed by sub-account, and a work queue of their sub-accounts.  A pool of
    workers takes sub-accounts from the queue, fetches the kubeconfig of the cluster, scans
    its nodes, volumes, snapshots and Redis instances, converts the scans to measurements,
    sends their sum to the Event Data Platform (EDP) and puts the sub-account back into the queue.

    ** Files

    - Prelude: 64-bit integers with wrap-around, shared tactics and hint database.
    - GoFloat: Go's [float64] as IEEE binary64 (the standard library's [SpecFloat]), conversions
      to and from [int64], rounding theory.
    - GoStd: errors as values ([errors.Is], [errors.Join], [fmt.Errorf]), strings, the contract
      of [sort.Slice].
    - Decimal: digits, number literals, and the shortest decimal text of a float, as Go prints it.
    - Json: values, the text [encoding/json] gives them, a reader, and that it reads the text back.
    - Rfc3339: instants with nanoseconds, the calendar, and the text [time.RFC3339] gives them, which drops the nanoseconds.
    - Logger ([pkg/logger/logger.go]): keys, core, named loggers with fields, log entries.
    - Duration: [time.ParseDuration] and [Duration.String], and that the first undoes the second.
    - Resource ([pkg/resource], [pkg/runtime/runtime.go]): measurements, and the interface
      [ScanConverter] as a type class with laws.
    - CloudSpecs ([pkg/config]): machine types and Redis tiers; SpecsJson: the JSON document they are read from.
    - Tracing ([pkg/otel/span_attributes.go]): spans, contexts, the attributes of a runtime.
    - NodeScan, PvcScan, VscScan, RedisScan ([pkg/resource/*/scan.go]): conversion of a scan to
      an EDP measurement, in the float and integer arithmetic of the code.
    - ClusterTracking ([pkg/process/cluster_tracking.go]): which runtimes are billable.
    - Effects: the calls the collector makes as a data type, and code as trees of them.
    - Libraries: go-cache, ttlcache, client-go's delaying queue and Prometheus vectors as type classes with
      laws; the meaning of a call; concrete instances of them all.
    - Clients ([pkg/runtime/clients.go]): the clients of a cluster over one HTTP client.
    - Process ([pkg/process]): [populateCacheAndQueue], [processSubAccountID], the worker and
      poller loop bodies, metrics.
    - Samples: concrete instances and data for running the model.
    - ProcessSpec: one poll against a per-sub-account specification.
    - QueueSpec: one queue item.
    - Concurrency ([Start]): threads that interleave at every call, the poller from building its request on; the
      invariant of all reachable states.
    - Retry: the contract of retry-go.
    - EdpPayload, PayloadJson, EdpClient, EdpCollector, EdpCollectorSpec ([pkg/collector/edp]): aggregation, the
      JSON text of the event and the schema it is held against, HTTP client, collection with fallback to
      previous scans.
    - UnifiedMetering ([pkg/collector/unifiedmetering]): the other collector, which [main] does not use.
    - Scanners ([pkg/resource/*/scanner.go]): the four scanners over the cluster's API.
    - Kmc ([cmd/main.go]): the components put together; end-to-end billing; what is sent; connections are released; no panics.
    - WorkerLog: the log entries with the number of a worker for one queue item, exactly.
    - Traces: the calls of the tracer replayed into trees of finished spans.
    - TokenSecrecy: two collectors with different EDP tokens, each with an EDP that knows its token.
    - KebClient ([pkg/keb]): pages with retries, pagination over one request that is changed in place.
    - Polling ([pollKEBForRuntimes]): fetching and reconciling as one goroutine.
    - ResponseBodies: the responses of EDP and KEB that are open during a run.
    - KubeconfigProvider ([pkg/runtime/kubeconfigprovider]): kubeconfigs in a cache that all workers share,
      with jittered lifetimes, and the log entries of a load.
    - FilterClusters ([pkg/process/filter_clusters.go], [process.New]): skipped accounts.
    - Metrics (the declarations in [pkg/*/metrics.go], [pkg/queue], [pkg/metrics]): all metric vectors, their
      registration, and the label values they are used with.
    - Liveness: infinite fair executions of the threads of Concurrency.
    - Options ([options/options.go]): the command line.
    - Server ([pkg/service/server.go]): serving until a signal, as a step relation with the history of events.
    - Main ([cmd/main.go], [pkg/otel/otel.go]): the start-up sequence.
    - RandomString, Fixtures ([pkg/testing/helpers.go], [pkg/*/stubs]): random names; stubs as instances of the interfaces.
    - ScanTests, FlowTests: the tables of the repository's unit tests, evaluated on the model.

    ** How code is modelled

    Pure functions are Rocq functions.  Code that touches the caches, the queue, metrics, spans or the
    outside is a [prog] of Effects: a tree with one node per call, log entries and deferred calls included.  [run] of Libraries runs it alone;
    the step relation of Concurrency runs one call of one thread at a time.  Panics and
    [log.Fatal] are leaves of the tree.  The environment ([Env]: clock, Kubernetes API, HTTP peers, the
    order of a [range] over a map) answers as it likes; the theorems hold for every environment,
    where needed one whose map orders are permutations.  Errors are values, [option error] or
    a sum.  Integers keep their 64-bit width and floats are binary64.

    The components meet at type classes: [CollectorSender], [ConfigProvider] and [ClientFactory]
    (Process) state what [process] needs, [ScanConverter] (Resource) and [scanner_ok] (EdpCollector) what the
    collector needs; the theorems of a client are proved against the class, and Kmc discharges the
    classes with the implementations.  Code outside the repository (go-cache, the work queue, Prometheus,
    retry-go, ttlcache, zap, envconfig, client-go, Kubernetes quantities, YAML decoding, UUID validation) and some
    parts of Go's library (decoding of KEB's and the cluster's JSON, URL parsing) are parameters; what is assumed of
    them is a class of laws with a concrete instance.

    ** What the theorems show

    - No interleaving of the poller and the workers loses a cached cluster or processes one twice at the same
      time, if the components keep their interfaces (Concurrency); with the components of [main] none panics, unless the
      TTL of kubeconfigs is one of those for which the jitter panics (Kmc); in every fair execution a
      cluster that stays cached is processed again and again (Liveness); every metric call has the labels its vector declares (Metrics).
    - A poll leaves cache, queue and metrics as the per-sub-account specification says (ProcessSpec); a queue
      item is rescheduled exactly if its cluster is still cached (QueueSpec); from KEB's pages to the gauge of
      cached clusters, an iteration of the poller mirrors all runtimes or changes nothing (Polling).
    - A collection without error billed fresh scans of every resource completely, and EDP answered 201; a failing one bills what it
      can from previous scans (EdpCollectorSpec); retries are bounded, and sending succeeds exactly on a 201 (EdpClient); what is
      sent decodes to the payload, and when the event's schema admits it (PayloadJson); a worker sends nothing but events of
      its cluster, whose timestamp denotes the second the collection began, and closes the connections it opened (Kmc).
    - The EDP token goes nowhere but into the [Authorization] header and into debug entries of the log
      (TokenSecrecy); the spans of a queue item are well nested, all ended, and those of what failed are
      marked, with one exception (Traces); the log says how a queue item ended, with one error entry of the worker exactly if
      the collection was not complete (WorkerLog); no response of EDP or KEB is left open (ResponseBodies).
    - The measurements are the ones the price model describes, exactly, including float rounding and the
      rounding of volumes to 32 GB (NodeScan, PvcScan, VscScan, RedisScan), and their sum does not depend on
      the order of Go's maps, as long as only one of them has CPU and memory or these are whole numbers (EdpPayload); the prices are those of the JSON document in the
      configuration (SpecsJson).
    - A runtime is billable according to its latest operation, in agreement with the documented life
      cycle except for upgrades and updates of clusters that are not billable (ClusterTracking).
    - Pagination terminates with all runtimes for a consistent server and diverges for an inconsistent one
      (KebClient); kubeconfigs live for the jittered TTL, and which TTLs panic (KubeconfigProvider).
    - The collector starts completely or not at all (Main), with the options the command line says (Options), and a
      server returns exactly when it was shut down successfully, after a signal (Server).
    - What the authors' unit tests expect of the code holds of the model (ScanTests, FlowTests).

    ** Bounds

    [GetAllRuntimes] takes fuel; one unit more than there are runtimes is enough, as every page of a
    consistent server carries one.  The readers of JSON and of durations take the length of the text as fuel, as each
    step takes a character.  How long kubeconfigs live is evaluated for every whole second from 200 up to an hour and every
    whole minute up to a day (shorter TTLs are not jittered); the default TTL is thirty minutes.  Sums are exact below [2^53] (floats) and [2^63] (integers); that a float has a
    decimal text is proved for zero and for magnitudes between about [2^-947] and [2^1023], which no sum of
    machine sizes leaves; the theorems state these bounds as hypotheses.

    ** Not modelled

    The log calls of the poller, the workers, the kubeconfig provider and the two HTTP clients are modelled, with level, logger, fields, format and
    arguments; the line zap makes of them is not.  Those of [main], of the HTTP service and of a worker's end (which does
    not come) are left out, except those that end the process.  The durations observed by latency histograms
    are not kept.  client-go's clients, the HTTP transport, zap, the OpenTelemetry SDK and the exposition of
    Prometheus are libraries.  The JSON of KEB and of the cluster's API is decoded into types declared outside the repository
    (RuntimesPage, the Kubernetes and cloud-manager objects), and so its decoders stay parameters.  In Concurrency
    the answer of [GetAllRuntimes] to the poller is arbitrary; Polling puts the fetch and the poll together for one
    goroutine.  Of the test helpers, the HTTP test servers, the services, the typed Redis lists and the gathering of
    metrics are left out. *)
From stdpp Require Export prelude gmap strings list sorting.
From Stdlib Require Export ZArith Lia.

#[global] Open Scope Z_scope.
#[export] Set Warnings "-register-all,-clear-no-such-hyp,-level-tolerance".

(** ** Automation *)

(** The lemmas that split the obligations of a component's code along its structure. *)
Create HintDb kmc.

(** Decide a closed decidable goal by evaluation. *)
Ltac vm_decide := refine (bool_decide_unpack _ _); vm_compute; exact I.

(** ** Machine integers *)

(** Go's [int64], and [int] on the 64-bit platforms the collector is built for:
    a [Z] in range, arithmetic reduced modulo [2^64]. *)
Definition min_int64 : Z := - 2 ^ 63.
Definition max_int64 : Z := 2 ^ 63 - 1.
Definition in_int64 (z : Z) : Prop := min_int64 ≤ z ≤ max_int64.
Definition wrap64 (z : Z) : Z := (z + 2 ^ 63) mod 2 ^ 64 - 2 ^ 63.
Definition add64 (a b : Z) : Z := wrap64 (a + b).
Definition mul64 (a b : Z) : Z := wrap64 (a * b).

#[global] Instance in_int64_dec z : Decision (in_int64 z).
Proof. unfold in_int64. apply _. Defined.

Lemma wrap64_in z : in_int64 (wrap64 z).
Proof.
  unfold in_int64, wrap64, min_int64, max_int64.
  pose proof (Z.mod_pos_bound (z + 2 ^ 63) (2 ^ 64) eq_refl). lia.
Qed.

Lemma wrap64_id z : in_int64 z → wrap64 z = z.
Proof.
  unfold in_int64, wrap64, min_int64, max_int64. intros ?.
  rewrite Z.mod_small; lia.
Qed.

Lemma add64_id a b : in_int64 (a + b) → add64 a b = a + b.
Proof. apply wrap64_id. Qed.

Lemma mul64_id a b : in_int64 (a * b) → mul64 a b = a * b.
Proof. apply wrap64_id. Qed.

(** Reduction modulo [2^64] is a ring morphism: only the last wrap matters. *)
Lemma wrap64_wrap_l a b : wrap64 (wrap64 a + b) = wrap64 (a + b).
Proof.
  unfold wrap64. f_equal.
  replace ((a + 2 ^ 63) mod 2 ^ 64 - 2 ^ 63 + b + 2 ^ 63)
    with ((a + 2 ^ 63) mod 2 ^ 64 + b) by lia.
  rewrite Z.add_mod_idemp_l by done. f_equal. lia.
Qed.

(** ** Lists *)

Lemma length_omap_le {A B} (f : A → option B) (l : list A) : (length (omap f l) ≤ length l)%nat.
Proof. induction l as [|x l IH]; csimpl; [done|]. destruct (f x); csimpl; lia. Qed.
