(* ===== verification/GoFloat.v ===== *)
(** * GoFloat: Go's [float64] *)
From S2P Require Import Prelude.
From Stdlib Require Export SpecFloat.

Abbreviation float64 := spec_float.
Definition prec : Z := 53.
Definition emax : Z := 1024.

Definition float64_of_int64 (z : Z) : float64 := binary_normalize prec emax z 0 false.
Definition fadd : float64 → float64 → float64 := SFadd prec emax.
Definition fmul : float64 → float64 → float64 := SFmul prec emax.
Definition fdiv : float64 → float64 → float64 := SFdiv prec emax.

(** [math.Ceil] *)
Definition fceil (x : float64) : float64 :=
  match x with
  | S754_finite s m e =>
      if 0 <=? e then x else
      let q := Zpos m / 2 ^ (- e) in
      let n := if s then q else if Zpos m mod 2 ^ (- e) =? 0 then q else q + 1 in
      match n with
      | Z0 => S754_zero s
      | _ => binary_normalize prec emax (if s then - n else n) 0 s
      end
  | _ => x
  end.

(** [int64(x)] *)
Definition int64_of_float64 (x : float64) : Z :=
  match x with
  | S754_zero _ => 0
  | S754_finite s m e =>
      let q := if 0 <=? e then Zpos m * 2 ^ e else Zpos m / 2 ^ (- e) in
      let n := if s then - q else q in
      if bool_decide (in_int64 n) then n else min_int64
  | _ => min_int64
  end.


Lemma int64_of_float64_in x : in_int64 (int64_of_float64 x).
Proof.
  assert (in_int64 min_int64 ∧ in_int64 0) as [? ?] by (unfold in_int64, min_int64, max_int64; lia).
  destruct x; simpl; try done. by case_bool_decide.
Qed.

(** ** Rounding *)

(** [approx X D mrs]: the shift record [mrs] describes [X / D]: its mantissa is
    the integer part, its two sticky bits say how the remainder compares with
    [0] and with [D / 2]. *)
Definition approx (X D : Z) (mrs : shr_record) : Prop :=
  let rem := X - shr_m mrs * D in
  0 ≤ shr_m mrs ∧ 0 ≤ rem < D ∧
  (shr_r mrs = true ↔ D ≤ 2 * rem) ∧
  (shr_s mrs = true ↔ rem ≠ 0 ∧ 2 * rem ≠ D).

Lemma shr_1_approx X D mrs : approx X D mrs → approx X (2 * D) (shr_1 mrs).
Proof.
  destruct mrs as [m r s]. unfold approx; simpl. intros (Hm & Hrem & Hr & Hs).
  destruct m as [|[p|p|]|p]; simpl; destruct r, s; simpl in *; repeat split; intros; try lia; try done.
Qed.

Lemma iter_shr_1_approx X p : ∀ D mrs, approx X D mrs →
  approx X (2 ^ Zpos p * D) (iter_pos shr_1 p mrs).
Proof.
  induction p as [p IH|p IH|]; intros D mrs H; simpl iter_pos.
  - apply shr_1_approx, IH, IH in H. rewrite (Pos2Z.inj_xI p).
    replace (2 ^ (2 * Zpos p + 1) * D) with (2 ^ Zpos p * (2 ^ Zpos p * (2 * D))); [done|].
    rewrite Z.pow_add_r, <- (Z.add_diag (Zpos p)), Z.pow_add_r by lia. lia.
  - apply IH, IH in H. rewrite (Pos2Z.inj_xO p).
    replace (2 ^ (2 * Zpos p) * D) with (2 ^ Zpos p * (2 ^ Zpos p * D)); [done|].
    rewrite <- (Z.add_diag (Zpos p)), Z.pow_add_r by lia. lia.
  - apply shr_1_approx. done.
Qed.

Lemma shr_approx X D mrs e n : 0 ≤ n → approx X D mrs →
  approx X (2 ^ n * D) (shr mrs e n).1 ∧ (shr mrs e n).2 = e + n.
Proof.
  intros Hn H. destruct n as [|p|p]; simpl; [|split; [by apply iter_shr_1_approx|done]|lia].
  split; [|lia]. replace (2 ^ 0 * D) with D by lia. done.
Qed.

Lemma approx_div X D mrs : approx X D mrs → shr_m mrs = X / D.
Proof. intros (_ & Hrem & _). apply (Z.div_unique_pos _ _ _ (X - shr_m mrs * D)); lia. Qed.

Lemma digits2_bounds m : 0 < m → 2 ^ (Zdigits2 m - 1) ≤ m < 2 ^ Zdigits2 m.
Proof.
  destruct m as [|p|]; [lia| |lia]. intros _. simpl Zdigits2.
  induction p as [p IH|p IH|]; simpl digits2_pos; [| |by vm_compute];
    rewrite Pos2Z.inj_succ; replace (Z.succ (Zpos (digits2_pos p)) - 1)
      with (Z.succ (Zpos (digits2_pos p) - 1)) by lia;
    rewrite !Z.pow_succ_r by lia;
    [rewrite (Pos2Z.inj_xI p)|rewrite (Pos2Z.inj_xO p)]; lia.
Qed.

Lemma digits2_unique m d : 0 < d → 2 ^ (d - 1) ≤ m < 2 ^ d → Zdigits2 m = d.
Proof.
  intros Hd Hm. assert (0 < 2 ^ (d - 1)) by (apply Z.pow_pos_nonneg; lia).
  destruct (digits2_bounds m) as [H1 H2]; [lia|].
  assert (0 < Zdigits2 m) by (destruct m; simpl; lia).
  assert (Zdigits2 m - 1 < d) by (apply (Z.pow_lt_mono_r_iff 2); lia).
  assert (d - 1 < Zdigits2 m) by (apply (Z.pow_lt_mono_r_iff 2); lia).
  lia.
Qed.

(** The nearest-even choice is within half a unit of the described quotient. *)
Lemma round_nearest_even_spec X D mrs : approx X D mrs →
  let r := round_nearest_even (shr_m mrs) (loc_of_shr_record mrs) in
  X / D ≤ r ≤ X / D + 1 ∧ 2 * Z.abs (r * D - X) ≤ D.
Proof.
  intros H. rewrite <- (approx_div _ _ _ H).
  destruct mrs as [m [] []], H as (Hm & Hrem & Hr & Hs); simpl in *;
    try (destruct (Z.even m)); lia.
Qed.

(** The float [s r * 2^u] for a rounded mantissa [r], renormalised when the
    rounding reached the next power of two. *)
Definition mkfloat (s : bool) (r u : Z) : float64 :=
  if r =? 2 ^ 53 then S754_finite s (Z.to_pos (2 ^ 52)) (u + 1)
  else S754_finite s (Z.to_pos r) u.

Lemma shr_fexp_exact m e : 2 ^ 52 ≤ m ≤ 2 ^ 53 → - 1074 ≤ e →
  shr_fexp prec emax m e loc_Exact =
    (if m =? 2 ^ 53 then (Build_shr_record (2 ^ 52) false false, e + 1)
     else (Build_shr_record m false false, e)).
Proof.
  intros Hm He. unfold shr_fexp, fexp, emin, prec, emax.
  destruct (Z.eqb_spec m (2 ^ 53)) as [->|Hne].
  - rewrite (digits2_unique (2 ^ 53) 54) by lia.
    rewrite Z.max_l by lia. replace (54 + e - 53 - e) with 1 by lia. done.
  - rewrite (digits2_unique m 53) by lia. rewrite Z.max_l by lia.
    replace (53 + e - 53 - e) with 0 by lia. done.
Qed.

(** Correct rounding in the normal range: rounding [X / D * 2^e], whose integer
    part [m] has at least 53 digits, gives [r * 2^(e+n)] with [r] the integer
    nearest to [X / (D * 2^n)]. *)
Lemma binary_round_aux_spec s m e l X D :
  let n := Zdigits2 m - 53 in
  let D' := 2 ^ n * D in
  0 < D → 2 ^ 52 ≤ m → approx X D (shr_record_of_loc m l) →
  - 1074 ≤ e + n → e + n < 971 →
  ∃ r, binary_round_aux prec emax s m e l = mkfloat s r (e + n) ∧
    2 ^ 52 ≤ r ≤ 2 ^ 53 ∧ X / D' ≤ r ≤ X / D' + 1 ∧ 2 * Z.abs (r * D' - X) ≤ D' ∧
    2 ^ 52 * D' ≤ X < 2 ^ 53 * D'.
Proof.
  intros n D' HD Hm Happ Hlo Hhi.
  destruct (digits2_bounds m) as [Hd1 Hd2]; [lia|].
  assert (Hn : 0 ≤ n).
  { unfold n. destruct (Z.le_gt_cases 53 (Zdigits2 m)) as [?|Hlt]; [lia|exfalso].
    assert (2 ^ Zdigits2 m ≤ 2 ^ 52) by (apply Z.pow_le_mono_r; lia). lia. }
  assert (Hpn : 0 < 2 ^ n) by (apply Z.pow_pos_nonneg; lia).
  unfold binary_round_aux. unfold shr_fexp at 1.
  replace (fexp prec emax (Zdigits2 m + e) - e) with n
    by (unfold fexp, emin, prec, emax, n in *; lia).
  destruct (shr_approx X D (shr_record_of_loc m l) e n Hn Happ) as [H1 H2].
  destruct (shr (shr_record_of_loc m l) e n) as [mrs e']. simpl in H1, H2. subst e'.
  destruct (round_nearest_even_spec _ _ _ H1) as [Hr Hhalf].
  set (r := round_nearest_even _ _) in *.
  assert (HX : 2 ^ 52 * D' ≤ X < 2 ^ 53 * D').
  { destruct Happ as (_ & Hrem & _).
    assert (shr_m (shr_record_of_loc m l) = m) as Hm' by (by destruct l as [|[]]).
    rewrite Hm' in Hrem.
    replace (Zdigits2 m - 1) with (52 + n) in Hd1 by lia.
    replace (Zdigits2 m) with (53 + n) in Hd2 by lia.
    rewrite Z.pow_add_r in Hd1, Hd2 by lia. unfold D'. nia. }
  assert (HD' : 0 < D') by (unfold D'; nia).
  assert (2 ^ 52 ≤ X / D') by (apply Z.div_le_lower_bound; lia).
  assert (X / D' < 2 ^ 53) by (apply Z.div_lt_upper_bound; lia).
  fold D' in Hr, Hhalf.
  exists r. split_and!; try lia.
  rewrite shr_fexp_exact by lia. unfold mkfloat.
  destruct (Z.eqb_spec r (2 ^ 53)); simpl.
  - replace (e + n + 1 <=? emax - prec) with true by (unfold emax, prec; lia). done.
  - destruct r as [|p|p] eqn:Er; [lia| |lia]. simpl.
    replace (e + n <=? emax - prec) with true by (unfold emax, prec; lia). done.
Qed.

(** ** Positive normal numbers *)

(** [S754_finite false m e] with a full mantissa. *)
Definition posfloat (m e : Z) : float64 := S754_finite false (Z.to_pos m) e.
Definition mantissa (m : Z) : Prop := 2 ^ 52 ≤ m < 2 ^ 53.

Lemma mkfloat_posfloat r u : 2 ^ 52 ≤ r ≤ 2 ^ 53 →
  ∃ m e, mkfloat false r u = posfloat m e ∧ mantissa m ∧
    (e = u ∧ m = r ∨ e = u + 1 ∧ m = 2 ^ 52 ∧ r = 2 ^ 53).
Proof.
  intros Hr. unfold mkfloat, mantissa. destruct (Z.eqb_spec r (2 ^ 53)).
  - exists (2 ^ 52), (u + 1). repeat split; lia.
  - exists r, u. repeat split; lia.
Qed.

Lemma mkfloat_mantissa m u : mantissa m → mkfloat false m u = posfloat m u.
Proof. unfold mantissa, mkfloat. intros ?. by rewrite (proj2 (Z.eqb_neq m (2 ^ 53))) by lia. Qed.

Lemma mantissa_digits m : mantissa m → Zdigits2 m = 53.
Proof. intros ?. apply digits2_unique; unfold mantissa in *; lia. Qed.

Lemma approx_exact m : 0 ≤ m → approx m 1 (shr_record_of_loc m loc_Exact).
Proof. intros ?. unfold approx; simpl. repeat split; intros; try done; lia. Qed.

Lemma iter_xO p d : Zpos (Pos.iter xO p d) = Zpos p * 2 ^ Zpos d.
Proof.
  induction d as [|d IH] using Pos.peano_ind; [simpl; lia|].
  rewrite Pos.iter_succ, (Pos2Z.inj_xO (Pos.iter _ _ _)), IH, Pos2Z.inj_succ, Z.pow_succ_r; lia.
Qed.

Lemma digits2_range z k : 0 < z < 2 ^ k → 0 < Zdigits2 z ≤ k.
Proof.
  intros Hz. destruct (digits2_bounds z) as [Hd1 Hd2]; [lia|].
  split; [destruct z; simpl; lia|].
  assert (Zdigits2 z - 1 < k); [|lia].
  destruct (Z.le_gt_cases 0 k); [|rewrite (Z.pow_neg_r 2 k) in Hz by lia; lia].
  apply (Z.pow_lt_mono_r_iff 2); lia.
Qed.

Lemma pow2_pos k : 0 ≤ k → 0 < 2 ^ k.
Proof. intros. apply Z.pow_pos_nonneg; lia. Qed.

Lemma fexp_small d : 0 < d → fexp prec emax (d + 0) = d - 53.
Proof. unfold fexp, emin, prec, emax. lia. Qed.

(** [float64(z)] below [2^52]: exact, the mantissa shifted to full width. *)
Lemma float64_of_int64_small z : 0 < z < 2 ^ 52 →
  let d := Zdigits2 z in
  0 < d ≤ 52 ∧ mantissa (z * 2 ^ (53 - d)) ∧
  float64_of_int64 z = posfloat (z * 2 ^ (53 - d)) (d - 53).
Proof.
  intros Hz d. pose proof (digits2_range z 52 Hz) as Hd. fold d in Hd.
  destruct (digits2_bounds z) as [Hd1 Hd2]; [lia|]. fold d in Hd1, Hd2.
  assert (Hman : mantissa (z * 2 ^ (53 - d))).
  { unfold mantissa. pose proof (pow2_pos (53 - d)).
    replace (2 ^ 52) with (2 ^ (d - 1) * 2 ^ (53 - d)) by (rewrite <- Z.pow_add_r by lia; f_equal; lia).
    replace (2 ^ 53) with (2 ^ d * 2 ^ (53 - d)) by (rewrite <- Z.pow_add_r by lia; f_equal; lia).
    nia. }
  split_and!; [lia|lia|done|].
  destruct z as [|p|]; [lia| |lia].
  unfold float64_of_int64, binary_normalize, binary_round, shl_align.
  change (Zpos (digits2_pos p)) with d. rewrite fexp_small, Z.sub_0_r by lia.
  destruct (d - 53) as [|q|q] eqn:Eq; [lia|lia|]. rewrite <- Eq.
  rewrite iter_xO. replace (Zpos q) with (53 - d) by lia. set (mz := _ * _) in *.
  destruct (binary_round_aux_spec false mz (d - 53) loc_Exact mz 1) as (r & -> & _ & _ & Hhalf & _);
    rewrite ?(mantissa_digits _ Hman); unfold mantissa in Hman; [lia|lia|apply approx_exact; lia|lia|lia|].
  rewrite (mantissa_digits _ Hman) in Hhalf. change (2 ^ (53 - 53) * 1) with 1 in Hhalf.
  assert (r = mz) as -> by lia. rewrite mkfloat_mantissa by done. f_equal. lia.
Qed.

(** [float64(z)] from [2^52] on: the nearest multiple of [2^u]. *)
Lemma float64_of_int64_large z : 2 ^ 52 ≤ z < 2 ^ 63 →
  ∃ r u, float64_of_int64 z = mkfloat false r u ∧ 2 ^ 52 ≤ r ≤ 2 ^ 53 ∧ 0 ≤ u ≤ 10 ∧
    z / 2 ^ u ≤ r ∧ 2 * Z.abs (r * 2 ^ u - z) ≤ 2 ^ u ∧ 2 ^ 52 * 2 ^ u ≤ z.
Proof.
  intros Hz. pose proof (digits2_range z 63) as Hd.
  destruct (digits2_bounds z) as [Hd1 Hd2]; [lia|].
  assert (53 ≤ Zdigits2 z).
  { destruct (Z.le_gt_cases 53 (Zdigits2 z)); [done|].
    assert (2 ^ Zdigits2 z ≤ 2 ^ 52) by (apply Z.pow_le_mono_r; lia). lia. }
  destruct (binary_round_aux_spec false z 0 loc_Exact z 1)
    as (r & Heq & Hr & Hfl & Hhalf & HX); [lia|lia|apply approx_exact; lia|lia|lia|].
  exists r, (Zdigits2 z - 53). rewrite Z.mul_1_r in Hfl, Hhalf, HX.
  split_and!; try lia. rewrite Z.add_0_l in Heq. rewrite <- Heq.
  destruct z as [|p|]; [lia| |lia].
  unfold float64_of_int64, binary_normalize, binary_round, shl_align.
  change (Zpos (digits2_pos p)) with (Zdigits2 (Zpos p)). rewrite fexp_small, Z.sub_0_r by lia.
  destruct (Zdigits2 (Zpos p) - 53) eqn:Eq; [done|done|lia].
Qed.

(** [float64(z)] of a positive [int64]: the nearest number [N] with a 53-digit
    mantissa; exact below [2^53] and on multiples of [2^10]. *)
Lemma float64_of_int64_pos z : 0 < z < 2 ^ 63 →
  ∃ m e N, float64_of_int64 z = posfloat m e ∧ mantissa m ∧ - 52 ≤ e ≤ 11 ∧
    m * 2 ^ (64 + e) = N * 2 ^ 64 ∧ (z < 2 ^ 53 → N = z) ∧ Z.abs (N - z) ≤ 512 ∧
    (∀ a, a * 2 ^ 10 ≤ z → a * 2 ^ 10 ≤ N) ∧ (z mod 2 ^ 10 = 0 → N = z).
Proof.
  intros Hz. destruct (Z.lt_ge_cases z (2 ^ 52)) as [Hlt|Hge].
  { destruct (float64_of_int64_small z) as (Hd & Hm & ->); [lia|].
    eexists _, _, z. split_and!; [done|done|lia|lia| |lia|lia|lia|lia].
    rewrite <- Z.mul_assoc, <- Z.pow_add_r by lia. do 2 f_equal. lia. }
  destruct (float64_of_int64_large z) as (r & u & -> & Hr & Hu & Hfl & Hhalf & HX); [lia|].
  pose proof (pow2_pos u). assert (2 ^ u ≤ 2 ^ 10) by (apply Z.pow_le_mono_r; lia).
  assert (Hdv : 2 ^ 10 = 2 ^ (10 - u) * 2 ^ u) by (rewrite <- Z.pow_add_r by lia; f_equal; lia).
  destruct (mkfloat_posfloat r u Hr) as (m & e & -> & Hm & Hme).
  exists m, e, (r * 2 ^ u). split_and!; [done|done|lia|lia| | |lia| |].
  - destruct Hme as [[-> ->]|(-> & -> & ->)]; rewrite <- !Z.mul_assoc, <- !Z.pow_add_r by lia;
      [do 2 f_equal; lia|f_equal; lia].
  - lia.
  - intros a Ha. rewrite Hdv in *.
    assert (a * 2 ^ (10 - u) ≤ z / 2 ^ u) by (apply Z.div_le_lower_bound; lia). nia.
  - intros [c ->]%Z.mod_divide; [|lia]. rewrite Hdv, !Z.mul_assoc in *.
    set (w := c * 2 ^ (10 - u)) in *. rewrite <- Z.mul_sub_distr_r, Z.abs_mul in Hhalf.
    f_equal. nia.
Qed.

(** ** Division and multiplication of positive normal numbers *)

Lemma to_pos_id m : 0 < m → Zpos (Z.to_pos m) = m.
Proof. apply Z2Pos.id. Qed.

Lemma new_location_approx X D : 0 ≤ X → 0 < D →
  approx X D (shr_record_of_loc (X / D) (new_location D (X mod D))).
Proof.
  intros HX HD. pose proof (Z.mod_pos_bound X D HD). pose proof (Z.div_mod X D).
  assert (0 ≤ X / D) by (apply Z.div_pos; lia).
  assert (Hodd : Z.even D = false → ∃ k, D = 2 * k + 1).
  { rewrite <- Z.negb_odd, negb_false_iff. apply Z.odd_spec. }
  unfold new_location, new_location_even, new_location_odd.
  destruct (Z.even D); [clear Hodd|destruct Hodd as [k Hk]; [done|]];
    destruct (Z.eqb_spec (X mod D) 0);
    try destruct (Z.compare_spec (2 * (X mod D)) D);
    try destruct (Z.compare_spec (2 * (X mod D) + 1) D);
    unfold approx; simpl; repeat split; intros; done || lia.
Qed.

Lemma fdiv_spec m1 e1 m2 e2 : mantissa m1 → mantissa m2 → - 900 ≤ e1 - e2 ≤ 900 →
  ∃ n r, let D' := 2 ^ n * m2 in
    fdiv (posfloat m1 e1) (posfloat m2 e2) = mkfloat false r (e1 - e2 - 53 + n) ∧
    0 ≤ n ≤ 1 ∧ 2 ^ 52 ≤ r ≤ 2 ^ 53 ∧ m1 * 2 ^ 53 / D' ≤ r ∧
    2 * Z.abs (r * D' - m1 * 2 ^ 53) ≤ D' ∧ 2 ^ 52 * D' ≤ m1 * 2 ^ 53.
Proof.
  intros H1 H2 He. pose proof (mantissa_digits _ H1) as Hd1. pose proof (mantissa_digits _ H2) as Hd2.
  unfold mantissa in H1, H2. set (X := m1 * 2 ^ 53) in *.
  assert (Hq1 : 2 ^ 52 ≤ X / m2) by (apply Z.div_le_lower_bound; lia).
  assert (Hq2 : X / m2 < 2 ^ 54) by (apply Z.div_lt_upper_bound; lia).
  pose proof (digits2_range (X / m2) 54).
  destruct (digits2_bounds (X / m2)) as [Hb1 Hb2]; [lia|].
  assert (53 ≤ Zdigits2 (X / m2)).
  { destruct (Z.le_gt_cases 53 (Zdigits2 (X / m2))); [done|].
    assert (2 ^ Zdigits2 (X / m2) ≤ 2 ^ 52) by (apply Z.pow_le_mono_r; lia). lia. }
  destruct (binary_round_aux_spec false (X / m2) (e1 - e2 - 53)
    (new_location m2 (X mod m2)) X m2) as (r & Heq & Hr & Hfl & Hhalf & HX);
    [lia|lia|apply new_location_approx; lia|lia|lia|].
  exists (Zdigits2 (X / m2) - 53), r. split_and!; try lia. rewrite <- Heq.
  unfold fdiv, posfloat, SFdiv, SFdiv_core_binary. rewrite !to_pos_id, Hd1, Hd2 by lia.
  replace (fexp prec emax (53 + e1 - (53 + e2)) `min` (e1 - e2)) with (e1 - e2 - 53)
    by (unfold fexp, emin, prec, emax; lia).
  replace (e1 - e2 - (e1 - e2 - 53)) with 53 by lia. rewrite Z.shiftl_mul_pow2 by lia.
  fold X. rewrite (surjective_pairing (Z.div_eucl X m2)). done.
Qed.

(** Dividing and multiplying by a power of two only moves the exponent. *)
Lemma fdiv_pow2 m e k : mantissa m → - 400 ≤ e ≤ 400 → - 400 ≤ k ≤ 400 →
  fdiv (posfloat m e) (posfloat (2 ^ 52) (k - 52)) = posfloat m (e - k).
Proof.
  intros Hm He Hk. destruct (fdiv_spec m e (2 ^ 52) (k - 52)) as (n & r & -> & Hn & Hr & Hfl & Hhalf & HX);
    [done|unfold mantissa; lia|lia|].
  assert (n = 0 ∨ n = 1) as [-> | ->] by lia; unfold mantissa in Hm; [|].
  - change (2 ^ 0 * 2 ^ 52) with (2 ^ 52) in *.
    assert (r = 2 ^ 53) as -> by lia. assert (m = 2 ^ 52) as -> by lia.
    unfold mkfloat, posfloat. rewrite Z.eqb_refl. f_equal. lia.
  - change (2 ^ 1 * 2 ^ 52) with (2 ^ 53) in *. assert (r = m) as -> by lia.
    rewrite mkfloat_mantissa by done. f_equal. lia.
Qed.

Lemma fmul_pow2 m e k : mantissa m → - 400 ≤ e ≤ 400 → - 400 ≤ k ≤ 400 →
  fmul (posfloat m e) (posfloat (2 ^ 52) (k - 52)) = posfloat m (e + k).
Proof.
  intros Hm He Hk. pose proof Hm as [Hm1 Hm2].
  assert (Hd : Zdigits2 (m * 2 ^ 52) = 105) by (apply digits2_unique; lia).
  unfold fmul, posfloat, SFmul. rewrite Pos2Z.inj_mul, !to_pos_id by lia.
  destruct (binary_round_aux_spec false (m * 2 ^ 52) (e + (k - 52)) loc_Exact (m * 2 ^ 52) 1)
    as (r & Heq & _ & _ & Hhalf & _); rewrite ?Hd; [lia|lia|apply approx_exact; lia|lia|lia|].
  simpl xorb. rewrite Heq, Hd. rewrite Hd in Hhalf. change (2 ^ (105 - 53) * 1) with (2 ^ 52) in Hhalf.
  assert (r = m) as -> by lia. rewrite mkfloat_mantissa by done. unfold posfloat. f_equal. lia.
Qed.

(** ** Truncation and ceiling *)

Lemma int64_of_posfloat m e : mantissa m → e ≤ 0 → 
  int64_of_float64 (posfloat m e) = m / 2 ^ (- e).
Proof.
  intros Hm He. unfold int64_of_float64, posfloat. rewrite to_pos_id by (unfold mantissa in Hm; lia).
  assert (m / 2 ^ (- e) ≤ m).
  { pose proof (pow2_pos (- e)). apply Z.div_le_upper_bound; unfold mantissa in Hm; nia. }
  assert (0 ≤ m / 2 ^ (- e)) by (apply Z.div_pos; [unfold mantissa in Hm; lia|apply pow2_pos; lia]).
  replace (if 0 <=? e then m * 2 ^ e else m / 2 ^ (- e)) with (m / 2 ^ (- e)).
  - rewrite bool_decide_true; [done|]. unfold in_int64, min_int64, max_int64, mantissa in *. lia.
  - destruct (Z.leb_spec 0 e); [|done]. assert (e = 0) as -> by lia.
    change (2 ^ (- 0)) with 1. change (2 ^ 0) with 1. rewrite Z.div_1_r. lia.
Qed.

Lemma int64_of_mkfloat r u : 2 ^ 52 ≤ r ≤ 2 ^ 53 → u < 0 →
  int64_of_float64 (mkfloat false r u) = r / 2 ^ (- u).
Proof.
  intros Hr Hu. destruct (mkfloat_posfloat r u Hr) as (m & e & -> & Hm & [[-> ->]|(-> & -> & ->)]);
    rewrite int64_of_posfloat by (done || lia); [done|].
  replace (- u) with (Z.succ (- (u + 1))) by lia. rewrite Z.pow_succ_r by lia.
  change (2 ^ 53) with (2 * 2 ^ 52). rewrite Z.div_mul_cancel_l; [done| |lia].
  pose proof (pow2_pos (- (u + 1))). lia.
Qed.

(** [a / b] rounded up. *)
Definition cdiv (a b : Z) : Z := (a + b - 1) / b.

Lemma cdiv_spec a b : 0 < b → a ≤ b * cdiv a b < a + b.
Proof.
  intros Hb. unfold cdiv. pose proof (Z.div_mod (a + b - 1) b). 
  pose proof (Z.mod_pos_bound (a + b - 1) b). lia.
Qed.

Lemma cdiv_unique a b q : 0 < b → a ≤ b * q < a + b → cdiv a b = q.
Proof. intros Hb Hq. pose proof (cdiv_spec a b Hb). nia. Qed.

Lemma fceil_posfloat m e : mantissa m → e < 0 →
  fceil (posfloat m e) = float64_of_int64 (cdiv m (2 ^ (- e))).
Proof.
  intros Hm He. unfold fceil, posfloat. unfold mantissa in Hm. rewrite to_pos_id by lia.
  pose proof (pow2_pos (- e)) as Hp.
  replace (0 <=? e) with false by lia. 
  assert ((if m mod 2 ^ (- e) =? 0 then m / 2 ^ (- e) else m / 2 ^ (- e) + 1) = cdiv m (2 ^ (- e))) as ->.
  { symmetry. apply cdiv_unique; [lia|].
    pose proof (Z.div_mod m (2 ^ (- e))). pose proof (Z.mod_pos_bound m (2 ^ (- e))).
    destruct (Z.eqb_spec (m mod 2 ^ (- e)) 0); lia. }
  pose proof (cdiv_spec m (2 ^ (- e))). 
  assert (0 < cdiv m (2 ^ (- e))) by nia.
  destruct (cdiv m (2 ^ (- e))) as [|p|p]; [lia|done|lia].
Qed.

(** ** Scaling to an integer unit *)

(** Truncating [N / 2^30 / 1000], computed in two roundings: at least the integer
    quotient, and above it only when [N] is within a relative [2^-53] of the next
    one. *)
Lemma int64_div_1000 m e N : mantissa m → - 52 ≤ e ≤ 11 → m * 2 ^ (64 + e) = N * 2 ^ 64 →
  let c := 1000 * 2 ^ 30 in
  let res := int64_of_float64 (fdiv (posfloat m (e - 30)) (float64_of_int64 1000)) in
  N / c ≤ res ∧ 2 ^ 53 * (res * c - N) ≤ N.
Proof.
  intros Hm He HN. cbv zeta. set (c := 1000 * 2 ^ 30).
  change (float64_of_int64 1000) with (posfloat (1000 * 2 ^ 43) (- 43)).
  destruct (fdiv_spec m (e - 30) (1000 * 2 ^ 43) (- 43))
    as (n & r & -> & Hn & Hr & Hfl & Hhalf & HX); [done|unfold mantissa; lia|lia|].
  set (u := e - 30 - - 43 - 53 + n) in *. set (D' := 2 ^ n * (1000 * 2 ^ 43)) in *.
  rewrite int64_of_mkfloat by lia. set (res := r / 2 ^ (- u)).
  pose proof (pow2_pos (- u)) as Hu. pose proof (pow2_pos n) as Hpn.
  assert (HD : 2 ^ (- u) * D' * 2 ^ (64 + e) = 1000 * 2 ^ 147).
  { unfold D'. rewrite (Z.mul_comm (2 ^ n)), !Z.mul_assoc, (Z.mul_comm (2 ^ (- u)) 1000), <- !Z.mul_assoc.
    rewrite <- !Z.pow_add_r by lia. do 2 f_equal. lia. }
  assert (HXN : m * 2 ^ 53 * 2 ^ (64 + e) = N * 2 ^ 117) by lia.
  pose proof (pow2_pos (64 + e)) as He64. set (E := 2 ^ (64 + e)) in *.
  set (U := 2 ^ (- u)) in *. set (X := m * 2 ^ 53) in *.
  assert (0 < D') by (unfold D'; lia).
  clearbody E U X D'. split.
  - apply Z.div_le_lower_bound; [lia|]. etrans; [|apply Hfl].
    apply Z.div_le_lower_bound; [lia|].
    assert (Hg : c * (N / c) ≤ N) by (apply Z.mul_div_le; unfold c; lia).
    set (g := N / c) in *. clearbody g. unfold c in Hg.
    apply (Z.mul_le_mono_pos_r _ _ E); [lia|].
    replace (D' * (U * g) * E) with (g * (U * D' * E)) by ring.
    rewrite HD, HXN. lia.
  - assert (Hres : U * res ≤ r) by (apply Z.mul_div_le; lia).
    clearbody res. assert (H53 : 2 ^ 53 * (res * (U * D') - X) ≤ X).
    { assert (U * res * D' ≤ r * D') by (apply Z.mul_le_mono_nonneg_r; lia). lia. }
    apply (Z.mul_le_mono_pos_r _ _ E) in H53; [|lia]. unfold c.
    replace (2 ^ 53 * (res * (U * D') - X) * E)
      with (2 ^ 53 * (res * (U * D' * E) - X * E)) in H53 by ring.
    rewrite HD, HXN in H53. lia.
Qed.

(** ** Exact sums *)

(** The canonical form of an integer below [2^53]. *)
Lemma float64_of_int64_canonical z : 0 < z < 2 ^ 53 →
  let d := Zdigits2 z in
  0 < d ≤ 53 ∧ mantissa (z * 2 ^ (53 - d)) ∧
  float64_of_int64 z = posfloat (z * 2 ^ (53 - d)) (d - 53).
Proof.
  intros Hz d. destruct (Z.lt_ge_cases z (2 ^ 52)) as [Hlt|Hge].
  { destruct (float64_of_int64_small z) as (? & ? & ?); [lia|]. split_and!; try done; lia. }
  assert (Hd : d = 53) by (apply digits2_unique; lia). rewrite Hd.
  destruct (float64_of_int64_large z) as (r & u & -> & Hr & Hu & Hfl & Hhalf & HX); [lia|].
  assert (2 ^ u = 1) as Hu1 by (pose proof (pow2_pos u); lia).
  assert (u = 0) as -> by (apply (Z.pow_inj_r 2); lia).
  rewrite Hu1 in Hhalf. assert (r = z) as -> by lia. rewrite Z.sub_diag, Z.mul_1_r.
  assert (mantissa z) by (unfold mantissa; lia).
  split_and!; [lia|lia|done|by apply mkfloat_mantissa].
Qed.

(** Any representation [M * 2^E] of an integer below [2^53] rounds to it. *)
Lemma binary_round_aux_exact M k z : 0 < z < 2 ^ 53 → 0 ≤ k ≤ 500 → M = z * 2 ^ k → 2 ^ 52 ≤ M →
  binary_round_aux prec emax false M (- k) loc_Exact = float64_of_int64 z ∧ fexp prec emax (Zdigits2 M - k) - - k = Zdigits2 M - 53 ∧
  0 ≤ Zdigits2 M - 53.
Proof.
  intros Hz Hk HM HM52. destruct (float64_of_int64_canonical z Hz) as (Hd & Hman & ->).
  destruct (digits2_bounds z) as [Hb1 Hb2]; [lia|]. pose proof (pow2_pos k) as Hpk.
  set (d := Zdigits2 z) in *.
  assert (HdM : Zdigits2 M = d + k).
  { apply digits2_unique; [lia|]. rewrite HM. replace (d + k - 1) with (d - 1 + k) by lia.
    rewrite !Z.pow_add_r by lia. nia. }
  assert (Hn : 0 ≤ d + k - 53).
  { destruct (digits2_bounds M) as [_ HM2]; [lia|]. rewrite HdM in HM2.
    destruct (Z.le_gt_cases 53 (d + k)); [lia|].
    assert (2 ^ (d + k) ≤ 2 ^ 52) by (apply Z.pow_le_mono_r; lia). lia. }
  destruct (binary_round_aux_spec false M (- k) loc_Exact M 1)
    as (r & Heq & _ & _ & Hhalf & _); rewrite ?HdM; [lia|lia|apply approx_exact; lia|lia|lia|].
  rewrite HdM in Heq, Hhalf. 
  assert (Hr : r = z * 2 ^ (53 - d)).
  { assert (HMr : M = z * 2 ^ (53 - d) * (2 ^ (d + k - 53) * 1)).
    { rewrite HM, Z.mul_1_r, <- Z.mul_assoc, <- Z.pow_add_r by lia. do 2 f_equal. lia. }
    pose proof (pow2_pos (d + k - 53)). rewrite HMr, <- Z.mul_sub_distr_r, Z.abs_mul in Hhalf. nia. }
  rewrite Hr, mkfloat_mantissa in Heq by done.
  replace (d - 53) with (- k + (d + k - 53)) by lia. rewrite <- Heq.
  split_and!; [done| |done]. unfold fexp, emin, prec, emax. lia.
Qed.

Lemma binary_normalize_exact M k z : 0 < z < 2 ^ 53 → 0 ≤ k ≤ 500 → M = z * 2 ^ k → 2 ^ 52 ≤ M →
  binary_normalize prec emax M (- k) false = float64_of_int64 z.
Proof.
  intros Hz Hk HM HM52. destruct (binary_round_aux_exact M k z Hz Hk HM HM52) as (<- & Hexp & Hn).
  destruct M as [|p|]; [lia| |lia]. unfold binary_normalize, binary_round, shl_align.
  change (Zpos (digits2_pos p)) with (Zdigits2 (Zpos p)).
  replace (Zdigits2 (Zpos p) + - k) with (Zdigits2 (Zpos p) - k) by lia. rewrite Hexp.
  destruct (Zdigits2 (Zpos p) - 53) eqn:E; [done|done|lia].
Qed.

Lemma shl_align_spec m e e' : e' ≤ e → Zpos (shl_align m e e').1 = Zpos m * 2 ^ (e - e').
Proof.
  intros He. unfold shl_align. destruct (e' - e) as [|p|p] eqn:E; simpl; [|lia|].
  - replace (e - e') with 0 by lia. lia.
  - rewrite iter_xO. do 2 f_equal. lia.
Qed.

(** Adding whole numbers below [2^53] is exact. *)
Lemma fadd_int a b : 0 ≤ a → 0 ≤ b → a + b < 2 ^ 53 →
  fadd (float64_of_int64 a) (float64_of_int64 b) = float64_of_int64 (a + b).
Proof.
  intros Ha Hb Hab.
  destruct (decide (a = 0)) as [->|]; [rewrite Z.add_0_l; destruct (decide (b = 0)) as [->|]; [done|];
    by destruct (float64_of_int64_canonical b) as (? & ? & ->); [lia|]|].
  destruct (decide (b = 0)) as [->|]; [rewrite Z.add_0_r;
    by destruct (float64_of_int64_canonical a) as (? & ? & ->); [lia|]|].
  destruct (float64_of_int64_canonical a) as (Hda & Hma & ->); [lia|].
  destruct (float64_of_int64_canonical b) as (Hdb & Hmb & ->); [lia|].
  set (da := Zdigits2 a) in *. set (db := Zdigits2 b) in *.
  unfold fadd, posfloat, SFadd, cond_Zopp.
  rewrite !shl_align_spec by lia. rewrite !to_pos_id by (unfold mantissa in *; lia).
  set (k := 53 - Z.min da db).
  replace ((da - 53) `min` (db - 53)) with (- k) by lia.
  assert (Hsum : a * 2 ^ (53 - da) * 2 ^ (da - 53 - - k) + b * 2 ^ (53 - db) * 2 ^ (db - 53 - - k)
    = (a + b) * 2 ^ k).
  { rewrite <- !Z.mul_assoc, <- !Z.pow_add_r by lia.
    replace (53 - da + (da - 53 - - k)) with k by lia.
    replace (53 - db + (db - 53 - - k)) with k by lia. lia. }
  rewrite Hsum. apply binary_normalize_exact; [lia|lia|done|].
  rewrite <- Hsum. pose proof (pow2_pos (da - 53 - - k)). pose proof (pow2_pos (db - 53 - - k)).
  unfold mantissa in Hma, Hmb. nia.
Qed.

(** So is multiplying them. *)
Lemma fmul_int a b : 0 ≤ a → 0 ≤ b → a * b < 2 ^ 53 → a < 2 ^ 53 → b < 2 ^ 53 →
  fmul (float64_of_int64 a) (float64_of_int64 b) = float64_of_int64 (a * b).
Proof.
  intros Ha Hb Hab Ha' Hb'.
  destruct (decide (a = 0)) as [->|]; [destruct (decide (b = 0)) as [->|]; [done|];
    by destruct (float64_of_int64_canonical b) as (? & ? & ->); [lia|]|].
  destruct (decide (b = 0)) as [->|]; [rewrite Z.mul_0_r;
    by destruct (float64_of_int64_canonical a) as (? & ? & ->); [lia|]|].
  destruct (float64_of_int64_canonical a) as (Hda & Hma & ->); [lia|].
  destruct (float64_of_int64_canonical b) as (Hdb & Hmb & ->); [lia|].
  set (da := Zdigits2 a) in *. set (db := Zdigits2 b) in *.
  unfold fmul, posfloat, SFmul. rewrite Pos2Z.inj_mul, !to_pos_id by (unfold mantissa in *; lia). simpl xorb.
  replace (da - 53 + (db - 53)) with (- (106 - da - db)) by lia.
  apply binary_round_aux_exact; [nia|lia| |unfold mantissa in *; nia].
  rewrite <- Z.mul_shuffle1 by lia. rewrite <- Z.pow_add_r by lia. do 2 f_equal. lia.
Qed.

(** Converting a whole number to a float and back. *)
Lemma int64_of_float64_of_int z : 0 ≤ z < 2 ^ 53 → int64_of_float64 (float64_of_int64 z) = z.
Proof.
  intros Hz. destruct (decide (z = 0)) as [->|]; [done|].
  destruct (float64_of_int64_canonical z) as (Hd & Hm & ->); [lia|].
  rewrite int64_of_posfloat by (done || lia). replace (- (Zdigits2 z - 53)) with (53 - Zdigits2 z) by lia.
  apply Z.div_mul. pose proof (pow2_pos (53 - Zdigits2 z)). lia.
Qed.
