(* ===== verification/GoStd.v ===== *)
(** * GoStd: the parts of Go's standard library the collector uses

    Errors ([errors], [fmt.Errorf]), strings ([strings], [strconv]), [sort.Slice] and
    the data of [net/http].  Errors are values: their constructors are the ways the
    collector builds them, so that [errors.Is] and the message of a joined
    error can be computed. *)
From S2P Require Import Prelude.
From stdpp Require Export pretty.

Open Scope string_scope.

(** ** Errors *)

(** A non-nil [error]; the interface type [error] itself is [option error]. *)
Inductive error : Type :=
| Sentinel (name msg : string)          (** a package-level [errors.New] variable *)
| errorString (msg : string)            (** [errors.New] or [fmt.Errorf] without [%w] *)
| wrapError (msg : string) (err : error) (** [fmt.Errorf] with one [%w]; [msg] is the full text *)
| joinError (errs : list error)         (** [errors.Join] *)
| withMessage (msg : string) (err : error) (** [Wrapf] of [github.com/pkg/errors] *)
| extError (kind : N) (msg : string).   (** an error value made outside the repository *)

(** [errors.Join]: [nil] when there is nothing to join. *)
Definition errors_Join (errs : list error) : option error :=
  match errs with [] => None | _ => Some (joinError errs) end.

(** [strings.Join]. *)
Fixpoint strings_Join (elems : list string) (sep : string) : string :=
  match elems with
  | [] => ""
  | [s] => s
  | s :: rest => s +:+ sep +:+ strings_Join rest sep
  end.

(** [err.Error()]. *)
Fixpoint Error (e : error) : string :=
  match e with
  | Sentinel _ msg | errorString msg | wrapError msg _ | extError _ msg => msg
  | withMessage msg err => msg +:+ ": " +:+ Error err
  | joinError errs => strings_Join (map Error errs) (String (Ascii.ascii_of_nat 10) "")
  end.

(** [errors.Is err target] for a sentinel [target], following the unwrap chain. *)
Fixpoint errors_Is (e : error) (name : string) : bool :=
  match e with
  | Sentinel n _ => bool_decide (n = name)
  | wrapError _ err | withMessage _ err => errors_Is err name
  | joinError errs => existsb (λ e', errors_Is e' name) errs
  | errorString _ | extError _ _ => false
  end.

Lemma errors_Join_None errs : errors_Join errs = None ↔ errs = [].
Proof. by destruct errs. Qed.

Lemma errors_Join_Is errs e name :
  errors_Join errs = Some e → errors_Is e name = existsb (λ e', errors_Is e' name) errs.
Proof. destruct errs as [|e0 errs]; [done|]. by intros [= <-]. Qed.

(** ** Strings *)

(** [strings.ToLower] on the ASCII strings the collector applies it to: cloud
    provider names and Kubernetes label values. *)
Definition lower_ascii (c : Ascii.ascii) : Ascii.ascii :=
  let n := Ascii.nat_of_ascii c in
  if bool_decide (65 ≤ n ≤ 90)%nat then Ascii.ascii_of_nat (n + 32) else c.

Fixpoint ToLower (s : string) : string :=
  match s with
  | EmptyString => EmptyString
  | String c s' => String (lower_ascii c) (ToLower s')
  end.

Lemma lower_ascii_idem c : lower_ascii (lower_ascii c) = lower_ascii c.
Proof. destruct c as [[] [] [] [] [] [] [] []]; vm_compute; reflexivity. Qed.

Lemma ToLower_idem s : ToLower (ToLower s) = ToLower s.
Proof. induction s as [|c s IH]; [done|]. simpl. by rewrite lower_ascii_idem, IH. Qed.

(** [strconv.FormatBool]. *)
Definition FormatBool (b : bool) : string := if b then "true" else "false".

(** ** [sort.Slice] *)

(** What [sort.Slice] requires of its [less] argument. *)
Record strict_weak_order {A} (less : A → A → bool) : Prop := {
  swo_irrefl a : less a a = false;
  swo_trans a b c : less a b = true → less b c = true → less a c = true;
  swo_incomp a b c : less a b = false → less b c = false → less a c = false;
}.

(** [sort.Slice] is unstable: its result is some sorted permutation.  The
    algorithm is a parameter, its documented contract the class's laws. *)
Class SortSlice := {
  sort_Slice {A : Type} : (A → A → bool) → list A → list A;
  sort_Slice_perm {A} (less : A → A → bool) l : sort_Slice less l ≡ₚ l;
  sort_Slice_sorted {A} (less : A → A → bool) l :
    strict_weak_order less → StronglySorted (λ a b, less b a = false) (sort_Slice less l);
}.

(** The insertion sort [sort.Slice] runs on slices of at most 12 elements
    ([insertionSortLessFunc]): each element moves left past the larger ones. *)
Fixpoint insert_sorted {A} (less : A → A → bool) (x : A) (l : list A) : list A :=
  match l with
  | [] => [x]
  | y :: l' => if less x y then x :: y :: l' else y :: insert_sorted less x l'
  end.

Definition insertionSort {A} (less : A → A → bool) (l : list A) : list A :=
  foldl (λ acc x, insert_sorted less x acc) [] l.

Lemma insert_sorted_perm {A} (less : A → A → bool) x l : insert_sorted less x l ≡ₚ x :: l.
Proof.
  induction l as [|y l IH]; [done|]. simpl. destruct (less x y); [done|].
  rewrite IH. apply Permutation_swap.
Qed.

Lemma insertionSort_perm {A} (less : A → A → bool) l : insertionSort less l ≡ₚ l.
Proof.
  unfold insertionSort. enough (∀ acc, foldl (λ acc x, insert_sorted less x acc) acc l ≡ₚ acc ++ l) as H
    by apply (H []).
  induction l as [|x l IH]; intros acc; simpl; [by rewrite app_nil_r|].
  rewrite IH, insert_sorted_perm, <- Permutation_middle. done.
Qed.

Lemma insert_sorted_sorted {A} (less : A → A → bool) x l : strict_weak_order less →
  StronglySorted (λ a b, less b a = false) l →
  StronglySorted (λ a b, less b a = false) (insert_sorted less x l).
Proof.
  intros Hswo. induction 1 as [|y l Hs IH Hall]; simpl; [by repeat constructor|].
  destruct (less x y) eqn:E.
  - assert (Hyx : less y x = false).
    { destruct (less y x) eqn:E'; [|done].
      pose proof (swo_trans _ Hswo x y x E E'). pose proof (swo_irrefl _ Hswo x). congruence. }
    repeat constructor; try done.
    eapply Forall_impl; [apply Hall|]. simpl. intros z Hz. by eapply (swo_incomp _ Hswo).
  - constructor; [done|]. rewrite insert_sorted_perm. by constructor.
Qed.

Lemma insertionSort_sorted {A} (less : A → A → bool) l : strict_weak_order less →
  StronglySorted (λ a b, less b a = false) (insertionSort less l).
Proof.
  intros Hswo. unfold insertionSort.
  enough (∀ acc, StronglySorted (λ a b, less b a = false) acc →
    StronglySorted (λ a b, less b a = false) (foldl (λ acc x, insert_sorted less x acc) acc l)) as H
    by (apply H; constructor).
  induction l as [|x l IH]; intros acc Hacc; simpl; [done|].
  apply IH. by apply insert_sorted_sorted.
Qed.

Definition insertion_SortSlice : SortSlice := {|
  sort_Slice := @insertionSort;
  sort_Slice_perm := @insertionSort_perm;
  sort_Slice_sorted := @insertionSort_sorted;
|}.

(** ** HTTP *)

Record HttpRequest := {
  Method : string;
  URL : string;
  RawQuery : string;
  Header : list (string * string);
  Body : string;
}.

(** A response: the status, and what reading the body gives. *)
Record HttpResponse := { StatusCode : Z; ResponseBody : string + error }.

(** The error of [http.Client.Do], which is always a [*url.Error]. *)
Record UrlError := { Timeout : bool; UrlErr : error }.
