(* ===== verification/Decimal.v ===== *)
(** * Decimal: decimal digits, number literals and the text of floats

    JSON number literals with a printer and a parser, and [strconv.AppendFloat] as
    [encoding/json] calls it: the shortest decimal that is read back as the same [float64]. *)
From S2P Require Import Prelude GoFloat.
From Stdlib Require Import Ascii.
Local Open Scope Z_scope.
Local Open Scope list_scope.

Abbreviation text := (list ascii).

(** ** Digits *)

Definition digit_char (d : Z) : ascii := ascii_of_N (Z.to_N (48 + d)).
Definition char_digit (c : ascii) : option Z :=
  let n := Z.of_N (N_of_ascii c) in if decide (48 ≤ n ≤ 57) then Some (n - 48) else None.

Definition is_digit (d : Z) : Prop := 0 ≤ d < 10.

Lemma char_digit_char d : is_digit d → char_digit (digit_char d) = Some d.
Proof.
  intros Hd. unfold char_digit, digit_char. rewrite N_ascii_embedding by (unfold is_digit in Hd; lia).
  unfold is_digit in Hd. rewrite decide_True by lia. f_equal. lia.
Qed.

(** The number with these digits, most significant first. *)
Definition value (ds : list Z) : Z := foldl (λ acc d, 10 * acc + d) 0 ds.

Lemma value_snoc ds d : value (ds ++ [d]) = 10 * value ds + d.
Proof. unfold value. by rewrite foldl_app. Qed.

Lemma value_zeros n ds : value (replicate n 0 ++ ds) = value ds.
Proof. induction n as [|n IH]; [done|]. exact IH. Qed.

Lemma value_app ds ds' : value (ds ++ ds') = value ds * 10 ^ Z.of_nat (length ds') + value ds'.
Proof.
  induction ds' as [|d ds' IH] using rev_ind; [rewrite app_nil_r; change (value []) with 0; change (10 ^ Z.of_nat (length [])) with 1; lia|].
  rewrite app_assoc, !value_snoc, IH, length_app. simpl length. rewrite Nat2Z.inj_add, Z.pow_add_r by lia. lia.
Qed.

Fixpoint digits_rev (fuel : nat) (n : Z) : list Z :=
  match fuel with
  | O => []
  | S fuel' => if decide (n < 10) then [n] else n mod 10 :: digits_rev fuel' (n / 10)
  end.

(** The digits of [n]; a number below [2^k] has at most [k] digits. *)
Definition digits (n : Z) : list Z := rev (digits_rev (S (Z.to_nat (Z.log2 n))) n).

Lemma digits_rev_spec fuel n : 0 ≤ n < 2 ^ Z.of_nat fuel → (0 < fuel)%nat →
  value (rev (digits_rev fuel n)) = n ∧ Forall is_digit (digits_rev fuel n) ∧
  ∃ d ds, rev (digits_rev fuel n) = d :: ds ∧ (d = 0 → n = 0 ∧ ds = []).
Proof.
  revert n. induction fuel as [|fuel IH]; intros n Hn Hf; [lia|]. simpl digits_rev. case_decide as H10.
  - split_and!; [done|repeat constructor; unfold is_digit; lia|]. exists n, []. done.
  - rewrite Nat2Z.inj_succ, Z.pow_succ_r in Hn by lia.
    assert (0 < fuel)%nat by (destruct fuel; [simpl in Hn; lia|lia]).
    assert (0 < n / 10 < 2 ^ Z.of_nat fuel) by (split; [apply Z.div_str_pos|apply Z.div_lt_upper_bound]; lia).
    destruct (IH (n / 10)) as (Hv & Hd & d & ds & Hr & Hhd); [lia..|].
    simpl rev. rewrite value_snoc, Hv. split_and!.
    + pose proof (Z.div_mod n 10). lia.
    + constructor; [|done]. unfold is_digit. pose proof (Z.mod_pos_bound n 10). lia.
    + rewrite Hr. exists d, (ds ++ [n mod 10]). split; [done|]. intros ->. destruct (Hhd eq_refl). lia.
Qed.

Lemma digits_fuel n : 0 ≤ n → 0 ≤ n < 2 ^ Z.of_nat (S (Z.to_nat (Z.log2 n))).
Proof.
  intros Hn. split; [done|]. rewrite Nat2Z.inj_succ, Z2Nat.id by apply Z.log2_nonneg.
  destruct (decide (n = 0)) as [->|]; [done|]. apply Z.log2_spec. lia.
Qed.

Lemma digits_value n : 0 ≤ n → value (digits n) = n.
Proof. intros Hn. apply digits_rev_spec; [by apply digits_fuel|lia]. Qed.

Lemma digits_digit n : 0 ≤ n → Forall is_digit (digits n).
Proof.
  intros Hn. unfold digits. destruct (digits_rev_spec _ n (digits_fuel n Hn)) as (_ & Hd & _); [lia|].
  rewrite Forall_forall in *. intros d Hin. apply Hd. by apply list_elem_of_In, in_rev, list_elem_of_In.
Qed.

(** Digits do not start with a zero, but for the number zero. *)
Definition no_leading_zero (ds : list Z) : Prop :=
  match ds with [] => False | d :: ds => d = 0 → ds = [] end.
#[global] Instance no_leading_zero_dec ds : Decision (no_leading_zero ds).
Proof. destruct ds; simpl; apply _. Defined.

Lemma digits_head n : 0 ≤ n → no_leading_zero (digits n).
Proof.
  intros Hn. unfold digits. destruct (digits_rev_spec _ n (digits_fuel n Hn)) as (_ & _ & d & ds & -> & H); [lia|].
  intros Hd. by apply H.
Qed.

(** ** Number literals *)

(** A literal of RFC 8259: sign, integer part, fraction, exponent. *)
Record number := { negative : bool; int_part : list Z; frac_part : list Z; exponent : option Z }.

Record number_ok (n : number) : Prop := {
  ok_int : Forall is_digit (int_part n);
  ok_head : no_leading_zero (int_part n);
  ok_frac : Forall is_digit (frac_part n);
}.

Definition char_minus : ascii := "-".
Definition char_plus : ascii := "+".
Definition char_dot : ascii := ".".
Definition char_e : ascii := "e".
Definition char_E : ascii := "E".

Definition print_digits (ds : list Z) : text := digit_char <$> ds.

Definition print_exponent (x : Z) : text :=
  char_e :: (if decide (x < 0) then char_minus else char_plus) :: print_digits (digits (Z.abs x)).

Definition print_number (n : number) : text :=
  (if negative n then [char_minus] else []) ++ print_digits (int_part n) ++
  (if decide (frac_part n = []) then [] else char_dot :: print_digits (frac_part n)) ++
  match exponent n with None => [] | Some x => print_exponent x end.

(** The longest prefix of digits. *)
Fixpoint parse_digits (s : text) : list Z * text :=
  match s with
  | [] => ([], [])
  | c :: s' =>
      match char_digit c with
      | Some d => let r := parse_digits s' in (d :: r.1, r.2)
      | None => ([], s)
      end
  end.

Definition parse_sign (c : ascii) (s : text) : bool * text :=
  match s with c' :: s' => if decide (c' = c) then (true, s') else (false, s) | [] => (false, []) end.

Definition parse_frac (s : text) : option (list Z * text) :=
  match parse_sign char_dot s with
  | (false, _) => Some ([], s)
  | (true, s') => match parse_digits s' with ([], _) => None | r => Some r end
  end.

Definition parse_marker (s : text) : bool * text :=
  match s with c :: s' => if decide (c = char_e ∨ c = char_E) then (true, s') else (false, s) | [] => (false, []) end.

Definition parse_exponent (s : text) : option (option Z * text) :=
  match parse_marker s with
  | (false, _) => Some (None, s)
  | (true, s1) =>
      let '(neg, s2) := parse_sign char_minus s1 in
      let s3 := if neg then s2 else (parse_sign char_plus s2).2 in
      match parse_digits s3 with
      | ([], _) => None
      | (ds, rest) => Some (Some (if neg then - value ds else value ds), rest)
      end
  end.

Definition parse_number (s : text) : option (number * text) :=
  let '(neg, s1) := parse_sign char_minus s in
  let '(ip, s2) := parse_digits s1 in
  if decide (no_leading_zero ip) then
    match parse_frac s2 with
    | None => None
    | Some (fp, s3) =>
        match parse_exponent s3 with
        | None => None
        | Some (ex, rest) => Some ({| negative := neg; int_part := ip; frac_part := fp; exponent := ex |}, rest)
        end
    end
  else None.

(** ** Literals are read back *)

(** The text does not go on with a character of a number. *)
Definition delimited (s : text) : Prop :=
  match s with [] => True | c :: _ => char_digit c = None ∧ c ≠ char_dot ∧ c ≠ char_e ∧ c ≠ char_E end.

Lemma parse_print_digits ds rest : Forall is_digit ds →
  match rest with [] => True | c :: _ => char_digit c = None end →
  parse_digits (print_digits ds ++ rest) = (ds, rest).
Proof.
  intros Hds Hrest. induction Hds as [|d ds Hd _ IH]; simpl.
  - destruct rest as [|c rest]; [done|]. simpl. by rewrite Hrest.
  - rewrite char_digit_char by done. fold (print_digits ds). by rewrite IH.
Qed.

Lemma digit_char_not d c : is_digit d → char_digit c = None → digit_char d ≠ c.
Proof. intros Hd Hc <-. by rewrite char_digit_char in Hc. Qed.

(** A sign is taken only where there is one. *)
Lemma parse_sign_digits c ds rest : Forall is_digit ds → char_digit c = None → ds ≠ [] →
  parse_sign c (print_digits ds ++ rest) = (false, print_digits ds ++ rest).
Proof.
  intros Hds Hc Hne. destruct Hds as [|d ds Hd _]; [done|]. simpl.
  rewrite decide_False by (by apply digit_char_not). done.
Qed.

Lemma parse_sign_same c s : parse_sign c (c :: s) = (true, s).
Proof. simpl. by rewrite decide_True. Qed.
Lemma parse_sign_other c c' s : c' ≠ c → parse_sign c (c' :: s) = (false, c' :: s).
Proof. intros H. simpl. by rewrite decide_False. Qed.

Lemma parse_print_exponent ex rest : delimited rest →
  parse_exponent (match ex with None => [] | Some x => print_exponent x end ++ rest) = Some (ex, rest).
Proof.
  intros Hrest. assert (Hd : match rest with [] => True | c :: _ => char_digit c = None end)
    by (by destruct rest as [|? ?]; [|destruct Hrest]).
  destruct ex as [x|]; simpl.
  - pose proof (digits_digit (Z.abs x) ltac:(lia)) as Hds. pose proof (digits_head (Z.abs x) ltac:(lia)) as Hne.
    pose proof (digits_value (Z.abs x) ltac:(lia)) as Hv. unfold print_exponent.
    generalize dependent (digits (Z.abs x)). intros ds. destruct ds as [|d ds]; [by intros _ []|]. intros Hds Hne Hv.
    unfold parse_exponent, parse_marker. cbn [app]. rewrite decide_True by (by left). case_decide as Hx.
    + rewrite parse_sign_same, parse_print_digits, Hv by done. do 3 f_equal. lia.
    + rewrite parse_sign_other by done. rewrite parse_sign_same. cbn [snd]. rewrite parse_print_digits, Hv by done.
      do 3 f_equal. lia.
  - unfold parse_exponent, parse_marker. destruct rest as [|c rest]; [done|]. destruct Hrest as (_ & _ & He & HE).
    by rewrite decide_False by (by intros [?|?]).
Qed.

(** The exponent, or what follows, does not go on with a digit or a dot. *)
Lemma exponent_delimits ex rest : delimited rest →
  match match ex with None => [] | Some x => print_exponent x end ++ rest with
  | [] => True
  | c :: _ => char_digit c = None ∧ c ≠ char_dot
  end.
Proof. intros Hrest. destruct ex; simpl; [done|]. destruct rest; [done|]. by destruct Hrest as (? & ? & _). Qed.

Lemma parse_print_frac fp rest : Forall is_digit fp →
  match rest with [] => True | c :: _ => char_digit c = None ∧ c ≠ char_dot end →
  parse_frac ((if decide (fp = []) then [] else char_dot :: print_digits fp) ++ rest) = Some (fp, rest).
Proof.
  intros Hfp Hrest. unfold parse_frac. case_decide as Hne; simpl.
  - subst fp. destruct rest as [|c rest]; [done|]. simpl. rewrite decide_False by apply Hrest. done.
  - rewrite parse_print_digits; [by destruct fp|done|]. destruct rest; [done|apply Hrest].
Qed.

Lemma parse_print_number n rest : number_ok n → delimited rest →
  parse_number (print_number n ++ rest) = Some (n, rest).
Proof.
  intros [Hint Hhead Hfrac] Hrest. unfold parse_number, print_number. rewrite <- !app_assoc.
  set (t2 := (match exponent n with None => [] | Some x => print_exponent x end) ++ rest).
  set (t1 := (if decide (frac_part n = []) then [] else char_dot :: print_digits (frac_part n)) ++ t2).
  assert (Ht2 : match t2 with [] => True | c :: _ => char_digit c = None ∧ c ≠ char_dot end)
    by (by apply exponent_delimits).
  assert (Ht1 : match t1 with [] => True | c :: _ => char_digit c = None end).
  { unfold t1. case_decide; [|done]. simpl. destruct t2; [done|]. apply Ht2. }
  assert (Hne : int_part n ≠ []) by (by intros E; rewrite E in Hhead).
  assert (Hsign : parse_sign char_minus ((if negative n then [char_minus] else []) ++ print_digits (int_part n) ++ t1) =
    (negative n, print_digits (int_part n) ++ t1)).
  { destruct (negative n); [done|]. by apply parse_sign_digits. }
  rewrite Hsign, parse_print_digits by done. rewrite decide_True by done.
  unfold t1. rewrite parse_print_frac by done. unfold t2. rewrite parse_print_exponent by done. by destruct n.
Qed.

(** ** Integers *)

(** [strconv.AppendInt] *)
Definition number_of_int (z : Z) : number :=
  {| negative := bool_decide (z < 0); int_part := digits (Z.abs z); frac_part := []; exponent := None |}.

Definition int_of_number (n : number) : option Z :=
  match frac_part n, exponent n with
  | [], None => Some (if negative n then - value (int_part n) else value (int_part n))
  | _, _ => None
  end.

Lemma number_of_int_ok z : number_ok (number_of_int z).
Proof. split; simpl; [apply digits_digit; lia|apply digits_head; lia|constructor]. Qed.

Lemma int_of_number_of_int z : int_of_number (number_of_int z) = Some z.
Proof.
  unfold int_of_number, number_of_int. simpl. rewrite digits_value by lia. case_bool_decide; f_equal; lia.
Qed.

(** ** Floats *)

#[global] Instance float64_eq_dec : EqDecision float64.
Proof. solve_decision. Defined.

(** [strconv.ParseFloat]: the float nearest to [D * 10^k], for a positive [D]. *)
Definition pos_decimal (D k : Z) : float64 :=
  SFdiv prec emax (S754_finite false (Z.to_pos (D * 10 ^ Z.max 0 k)) 0) (S754_finite false (Z.to_pos (10 ^ Z.max 0 (- k))) 0).

Definition float_of_number (n : number) : float64 :=
  let D := value (int_part n ++ frac_part n) in
  let k := default 0 (exponent n) - Z.of_nat (length (frac_part n)) in
  if decide (D = 0) then S754_zero (negative n) else
  if negative n then SFopp (pos_decimal D k) else pos_decimal D k.

Section shortest.
(** The float to print is [m * 2^e]. *)
Context (m : positive) (e : Z).

(** [m * 2^e / 10^k] as a fraction. *)
Definition scaled_num (k : Z) : Z := Zpos m * 2 ^ Z.max 0 e * 10 ^ Z.max 0 (- k).
Definition scaled_den (k : Z) : Z := 2 ^ Z.max 0 (- e) * 10 ^ Z.max 0 k.

Definition reads_back (D k : Z) : bool := (0 <? D) && bool_decide (pos_decimal D k = S754_finite false m e).

(** The decimal with its last digit at [10^k] that is read back, the closest one if there are two. *)
Definition candidate (k : Z) : option Z :=
  let num := scaled_num k in let den := scaled_den k in
  let lo := num / den in let hi := lo + 1 in
  match reads_back lo k, reads_back hi k with
  | true, false => Some lo
  | false, true => Some hi
  | true, true => Some (match 2 * num ?= (2 * lo + 1) * den with
                        | Lt => lo | Gt => hi | Eq => if Z.even lo then lo else hi end)
  | false, false => None
  end.

(** From fewer digits to more. *)
Fixpoint search (fuel : nat) (k : Z) : option (Z * Z) :=
  match fuel with
  | O => None
  | S fuel' => match candidate k with Some D => Some (D, k) | None => search fuel' (k - 1) end
  end.

(** [10^first_place] exceeds the float; [10^last_place] divides it. *)
Definition first_place : Z := if decide (0 ≤ e + 53) then (e + 53) / 3 + 1 else (e + 53) / 4 + 1.
Definition last_place : Z := Z.min 0 e.
Definition shortest : option (Z * Z) := search (S (Z.to_nat (first_place - last_place))) first_place.
End shortest.

(** [1e-6] and [1e21] *)
Definition exponent_below : float64 := pos_decimal 1 (-6).
Definition exponent_from : float64 := pos_decimal 1 21.

(** The layout [%f] and [%e] of the digits of [D * 10^k]. *)
Definition layout_f (neg : bool) (D k : Z) : number :=
  let ds := digits D in
  if decide (0 ≤ k) then {| negative := neg; int_part := ds ++ replicate (Z.to_nat k) 0; frac_part := []; exponent := None |}
  else
    let f := Z.to_nat (- k) in
    let ds := replicate (f + 1 - length ds) 0 ++ ds in
    {| negative := neg; int_part := take (length ds - f) ds; frac_part := drop (length ds - f) ds; exponent := None |}.
Definition layout_e (neg : bool) (D k : Z) : number :=
  let ds := digits D in
  {| negative := neg; int_part := take 1 ds; frac_part := drop 1 ds;
     exponent := Some (k + Z.of_nat (length ds) - 1) |}.

(** [floatEncoder] of [encoding/json]; NaN and the infinities are errors. *)
Definition number_of_float (f : float64) : option number :=
  match f with
  | S754_zero neg => Some {| negative := neg; int_part := [0]; frac_part := []; exponent := None |}
  | S754_finite neg m e =>
      match shortest m e with
      | Some (D, k) =>
          let abs := S754_finite false m e in
          Some (if SFltb abs exponent_below || SFleb exponent_from abs then layout_e neg D k else layout_f neg D k)
      | None => None
      end
  | S754_infinity _ | S754_nan => None
  end.

(** The text of the sums the collector sends. *)
Definition float_text (f : float64) : option string :=
  (λ n, String.string_of_list_ascii (print_number n)) <$> number_of_float f.

(** ** Floats are read back *)

Lemma candidate_reads m e k D : candidate m e k = Some D → 0 < D ∧ pos_decimal D k = S754_finite false m e.
Proof.
  intros H. enough (Hr : reads_back m e D k = true).
  { unfold reads_back in Hr. apply andb_true_iff in Hr as [? ?%bool_decide_eq_true]. split; [lia|done]. }
  revert H. unfold candidate. set (lo := _ / _). destruct (reads_back m e lo k) eqn:Hlo, (reads_back m e (lo + 1) k) eqn:Hhi;
    [|intros [= <-]; done|intros [= <-]; done|done].
  intros [= <-]. repeat case_match; done.
Qed.

Lemma search_reads m e fuel k D k' : search m e fuel k = Some (D, k') →
  0 < D ∧ pos_decimal D k' = S754_finite false m e.
Proof.
  revert k. induction fuel as [|fuel IH]; intros k; simpl; [done|].
  destruct (candidate m e k) as [D'|] eqn:Hc; [|apply IH]. intros [= <- <-]. by apply candidate_reads.
Qed.

Lemma layout_e_ok neg D k : 0 < D → number_ok (layout_e neg D k).
Proof.
  intros HD. pose proof (digits_digit D ltac:(lia)) as Hd. pose proof (digits_head D ltac:(lia)) as Hh.
  split; simpl; [by apply Forall_take| |by apply Forall_drop]. destruct (digits D); [destruct Hh|done].
Qed.

Lemma layout_e_value neg D k : 0 < D →
  float_of_number (layout_e neg D k) = (if neg then SFopp (pos_decimal D k) else pos_decimal D k).
Proof.
  intros HD. unfold float_of_number, layout_e. cbn [int_part frac_part negative exponent default].
  rewrite take_drop, digits_value by lia. rewrite decide_False by lia.
  assert (Hlen : (0 < length (digits D))%nat).
  { pose proof (digits_head D ltac:(lia)) as Hh. destruct (digits D); [destruct Hh|simpl; lia]. }
  assert (Hk : ∀ k', k' = k → (if neg then SFopp (pos_decimal D k') else pos_decimal D k') =
    (if neg then SFopp (pos_decimal D k) else pos_decimal D k)) by (by intros k' ->).
  apply Hk. rewrite length_drop. simpl. lia.
Qed.

Lemma layout_f_ok neg D k : 0 < D → number_ok (layout_f neg D k).
Proof.
  intros HD. pose proof (digits_digit D ltac:(lia)) as Hd. pose proof (digits_head D ltac:(lia)) as Hh.
  pose proof (digits_value D ltac:(lia)) as Hv.
  assert (Hz : ∀ n, Forall is_digit (replicate n 0)) by (intros n; apply Forall_replicate; unfold is_digit; lia).
  unfold layout_f. case_decide; split; simpl.
  - by apply Forall_app.
  - destruct (digits D) as [|d ds]; [destruct Hh|]. simpl. intros ->. rewrite (Hh eq_refl) in Hv. change (value [0]) with 0 in Hv. lia.
  - constructor.
  - by apply Forall_take, Forall_app.
  - rewrite length_app, length_replicate. set (f := Z.to_nat (- k)). set (n := length (digits D)).
    destruct (decide (f < n)%nat) as [Hlt|Hge].
    + replace (f + 1 - n)%nat with O by lia. simpl. unfold n in *. destruct (digits D) as [|d ds]; [destruct Hh|].
      destruct (length (d :: ds) - f)%nat eqn:E; [simpl in *; lia|]. simpl. intros ->. rewrite (Hh eq_refl) in Hv.
      change (value [0]) with 0 in Hv. lia.
    + replace (f + 1 - n + n - f)%nat with 1%nat by lia. replace (f + 1 - n)%nat with (S (f - n)) by lia. done.
  - by apply Forall_drop, Forall_app.
Qed.

Lemma layout_f_value neg D k : 0 < D →
  float_of_number (layout_f neg D k) = (if neg then SFopp (pos_decimal D k) else pos_decimal D k).
Proof.
  intros HD. unfold layout_f. destruct (decide (0 ≤ k)) as [Hk|Hk]; unfold float_of_number; cbn [int_part frac_part negative exponent default].
  - rewrite app_nil_r, value_app, digits_value, length_replicate, Z2Nat.id by lia.
    replace (value (replicate (Z.to_nat k) 0)) with 0 by (rewrite <- (app_nil_r (replicate _ _)), value_zeros; done).
    pose proof (Z.pow_pos_nonneg 10 k). rewrite decide_False by nia.
    assert (Hp : ∀ D' k', D' = D * 10 ^ k → k' = 0 → pos_decimal D' k' = pos_decimal D k).
    { intros D' k' -> ->. unfold pos_decimal. rewrite !(Z.max_r 0), (Z.max_l 0 (- k)) by lia. do 3 f_equal. lia. }
    rewrite (Hp _ _) by (simpl; lia). done.
  - rewrite take_drop, value_zeros, digits_value by lia. rewrite decide_False by lia.
    assert (Hp : ∀ k', k' = k → (if neg then SFopp (pos_decimal D k') else pos_decimal D k') =
      (if neg then SFopp (pos_decimal D k) else pos_decimal D k)) by (by intros k' ->).
    apply Hp. rewrite length_drop, length_app, length_replicate. simpl. lia.
Qed.

(** A printed float is a literal that is read back as the same float. *)
Lemma number_of_float_reads f n : number_of_float f = Some n → number_ok n ∧ float_of_number n = f.
Proof.
  destruct f as [neg|neg| |neg m e]; simpl; [|done|done|].
  - intros [= <-]. split; [|done]. split; repeat constructor. done.
  - destruct (shortest m e) as [[D k]|] eqn:Hs; [|done]. apply search_reads in Hs as [HD Hf]. intros [= <-].
    assert (Hneg : (if neg then SFopp (pos_decimal D k) else pos_decimal D k) = S754_finite neg m e)
      by (rewrite Hf; by destruct neg).
    destruct (_ || _).
    + split; [by apply layout_e_ok|]. by rewrite layout_e_value.
    + split; [by apply layout_f_ok|]. by rewrite layout_f_value.
Qed.

(** ** Every float has a text *)

(** A quotient that is a float is that float. *)
Lemma SFdiv_exact A B m e : 0 < A → 0 < B → mantissa m → - 1000 ≤ e < 971 →
  A * 2 ^ Z.max 0 (- e) = m * 2 ^ Z.max 0 e * B →
  SFdiv prec emax (S754_finite false (Z.to_pos A) 0) (S754_finite false (Z.to_pos B) 0) = posfloat m e.
Proof.
  intros HA HB Hm He Heq. unfold mantissa in Hm.
  destruct (digits2_bounds A HA) as [HA1 HA2]. destruct (digits2_bounds B HB) as [HB1 HB2].
  set (dA := Zdigits2 A) in *. set (dB := Zdigits2 B) in *.
  assert (HdA : 0 < dA) by (unfold dA; destruct A; simpl; lia).
  assert (HdB : 0 < dB) by (unfold dB; destruct B; simpl; lia).
  set (u := Z.max 0 e) in *. set (v := Z.max 0 (- e)) in *.
  assert (Huv : u - v = e ∧ 0 ≤ u ∧ 0 ≤ v) by (unfold u, v; lia). clearbody u v.
  assert (Hpu : 0 < 2 ^ u) by (apply Z.pow_pos_nonneg; lia). assert (Hpv : 0 < 2 ^ v) by (apply Z.pow_pos_nonneg; lia).
  assert (Hup : dA - 1 + v < 53 + u + dB).
  { apply (Z.pow_lt_mono_r_iff 2); [lia|lia|]. rewrite (Z.pow_add_r 2 (dA - 1)), (Z.pow_add_r 2 (53 + u)), (Z.pow_add_r 2 53 u) by lia.
    apply Z.le_lt_trans with (A * 2 ^ v); [by apply Z.mul_le_mono_nonneg_r; lia|].
    rewrite Heq. apply Z.mul_lt_mono_nonneg; [nia|apply Z.mul_lt_mono_pos_r; lia|lia|lia]. }
  assert (Hlow : 52 + u + (dB - 1) < dA + v).
  { apply (Z.pow_lt_mono_r_iff 2); [lia|lia|]. rewrite (Z.pow_add_r 2 (52 + u)), (Z.pow_add_r 2 52 u), (Z.pow_add_r 2 dA) by lia.
    apply Z.le_lt_trans with (A * 2 ^ v); [|by apply Z.mul_lt_mono_pos_r].
    rewrite Heq. apply Z.mul_le_mono_nonneg; [nia|apply Z.mul_le_mono_nonneg_r; lia|lia|lia]. }
  set (e' := Z.min (fexp prec emax (dA + 0 - (dB + 0))) 0).
  assert (He' : e' ≤ 0 ∧ e' ≤ e) by (unfold e', fexp, emin, prec, emax; lia).
  assert (Hq : A * 2 ^ (- e') = m * 2 ^ (e - e') * B).
  { apply (Z.mul_cancel_r _ _ (2 ^ v)); [lia|]. rewrite <- Z.mul_assoc, (Z.mul_comm (2 ^ (- e'))), Z.mul_assoc, Heq.
    assert (H2 : 2 ^ u * 2 ^ (- e') = 2 ^ (e - e') * 2 ^ v) by (rewrite <- !Z.pow_add_r by lia; f_equal; lia).
    nia. }
  set (q := m * 2 ^ (e - e')) in *.
  assert (Hpe : 0 < 2 ^ (e - e')) by (apply Z.pow_pos_nonneg; lia).
  assert (Hdq : Zdigits2 q = 53 + (e - e')).
  { apply digits2_unique; [lia|]. unfold q. replace (53 + (e - e') - 1) with (52 + (e - e')) by lia.
    rewrite !Z.pow_add_r by lia. nia. }
  assert (Hq52 : 2 ^ 52 ≤ q) by (unfold q; nia).
  assert (Happ : approx (q * B) B (shr_record_of_loc q loc_Exact)).
  { unfold approx. simpl. rewrite Z.sub_diag. split_and!; [lia|lia|lia|split; [done|lia]|split; [done|lia]]. }
  destruct (binary_round_aux_spec false q e' loc_Exact (q * B) B) as (r & Hr & _ & _ & Hhalf & _);
    [lia|lia|done|rewrite Hdq; lia|rewrite Hdq; lia|].
  rewrite Hdq in Hr, Hhalf. replace (53 + (e - e') - 53) with (e - e') in * by lia.
  assert (r = m) as ->.
  { assert (HD : 0 < 2 ^ (e - e') * B) by nia. replace (q * B) with (m * (2 ^ (e - e') * B)) in Hhalf by (unfold q; ring).
    rewrite <- Z.mul_sub_distr_r, Z.abs_mul in Hhalf. nia. }
  rewrite mkfloat_mantissa in Hr by done. replace (e' + (e - e')) with e in Hr by lia. rewrite <- Hr.
  unfold SFdiv, SFdiv_core_binary. rewrite !to_pos_id by done. fold dA dB. rewrite Z.sub_diag. fold e'.
  assert (Hdiv : (match 0 - e' with 0 => A | Zpos _ => Z.shiftl A (0 - e') | Zneg _ => 0 end) = q * B).
  { rewrite <- Hq. destruct (0 - e') eqn:E; [replace (- e') with 0 by lia; simpl; lia| |lia].
    rewrite Z.shiftl_mul_pow2 by lia. do 2 f_equal. lia. }
  rewrite Hdiv, (surjective_pairing (Z.div_eucl (q * B) B)). change (Z.div_eucl (q * B) B).1 with (q * B / B).
  change (Z.div_eucl (q * B) B).2 with ((q * B) mod B). rewrite Z.div_mul, Z.mod_mul by lia.
  f_equal. unfold new_location, new_location_even, new_location_odd. by destruct (Z.even B).
Qed.

Lemma pow10 n : 0 ≤ n → 10 ^ n = 2 ^ n * 5 ^ n.
Proof. intros Hn. change 10 with (2 * 5). apply Z.pow_mul_l. Qed.

(** All digits of a float are read back. *)
Lemma last_candidate m e : mantissa (Zpos m) → - 1000 ≤ e < 971 → is_Some (candidate m e (last_place e)).
Proof.
  intros Hm He. set (k := last_place e). enough (Hlo : reads_back m e (scaled_num m e k / scaled_den e k) k = true).
  { unfold candidate. rewrite Hlo. destruct (reads_back _ _ (_ + 1) _); by eexists. }
  set (u := Z.max 0 e). set (v := Z.max 0 (- e)).
  assert (Hk : k = - v ∧ u - v = e ∧ 0 ≤ u ∧ 0 ≤ v) by (unfold k, last_place, u, v; lia).
  assert (Hmax : Z.max 0 (- k) = v ∧ Z.max 0 k = 0) by lia. destruct Hmax as [Hmk Hk0].
  assert (Hpv : 0 < 2 ^ v) by (apply Z.pow_pos_nonneg; lia). assert (Hpu : 0 < 2 ^ u) by (apply Z.pow_pos_nonneg; lia).
  assert (Hp5 : 0 < 5 ^ v) by (apply Z.pow_pos_nonneg; lia).
  unfold scaled_num, scaled_den. rewrite Hmk, Hk0. fold u v. rewrite Z.pow_0_r, Z.mul_1_r, pow10 by lia.
  replace (Zpos m * 2 ^ u * (2 ^ v * 5 ^ v)) with (Zpos m * 2 ^ u * 5 ^ v * 2 ^ v) by ring. rewrite Z.div_mul by lia.
  assert (HD : 0 < Zpos m * 2 ^ u * 5 ^ v) by (repeat apply Z.mul_pos_pos; lia).
  unfold reads_back. rewrite (proj2 (Z.ltb_lt _ _) HD). apply bool_decide_eq_true.
  unfold pos_decimal. rewrite Hmk, Hk0, Z.pow_0_r, Z.mul_1_r.
  change (S754_finite false m e) with (posfloat (Zpos m) e).
  apply SFdiv_exact; [done|apply Z.pow_pos_nonneg; lia|done|done|]. fold u v. rewrite pow10 by lia. ring.
Qed.

Lemma search_finds m e fuel k j : is_Some (candidate m e (k - Z.of_nat j)) → (j < fuel)%nat → is_Some (search m e fuel k).
Proof.
  revert k j. induction fuel as [|fuel IH]; intros k j Hj Hlt; [lia|]. simpl.
  destruct (candidate m e k) as [D|] eqn:Hk; [by eexists|]. destruct j as [|j].
  - rewrite Z.sub_0_r, Hk in Hj. by destruct Hj.
  - apply (IH _ j); [|lia]. by replace (k - 1 - Z.of_nat j) with (k - Z.of_nat (S j)) by lia.
Qed.

(** Zero, or a number of ordinary size, of either sign. *)
Definition ordinary (f : float64) : Prop :=
  match f with
  | S754_zero _ => True
  | S754_finite _ m e => mantissa (Zpos m) ∧ - 1000 ≤ e < 971
  | S754_infinity _ | S754_nan => False
  end.

Lemma number_of_float_total f : ordinary f → is_Some (number_of_float f).
Proof.
  destruct f as [neg|neg| |neg m e]; [by eexists|done|done|]. intros [Hm He]. simpl.
  assert (Hs : is_Some (shortest m e)).
  { apply (search_finds m e _ _ (Z.to_nat (first_place e - last_place e))); [|lia].
    assert (last_place e ≤ first_place e).
    { unfold last_place, first_place. case_decide; [pose proof (Z.div_pos (e + 53) 3)|
        pose proof (Z.div_le_lower_bound (e + 53) 4 e)]; lia. }
    rewrite Z2Nat.id by lia. replace (first_place e - (first_place e - last_place e)) with (last_place e) by lia.
    by apply last_candidate. }
  destruct Hs as [[D k] ->]. by eexists.
Qed.

(** Whole numbers are ordinary. *)
Lemma float64_of_int64_ordinary z : 0 ≤ z < 2 ^ 53 → ordinary (float64_of_int64 z).
Proof.
  intros Hz. destruct (decide (z = 0)) as [->|]; [done|].
  destruct (float64_of_int64_canonical z) as (Hd & Hm & ->); [lia|]. unfold ordinary, posfloat.
  unfold mantissa in Hm. rewrite to_pos_id by lia. split; [done|]. lia.
Qed.
