(* ===== verification/Json.v ===== *)
(** * Json: JSON as [encoding/json] writes it

    Values, the text [json.Marshal] gives them (compact, with the escapes of Go's encoder), and a
    reader that accepts what [json.Unmarshal] accepts, but for its limit of 10000 nested values.  Strings are
    sequences of bytes; bytes that are not UTF-8 are replaced by the encoder and by the reader. *)
From S2P Require Import Prelude GoFloat Decimal.
From Stdlib Require Import Ascii.
Local Open Scope Z_scope.
Local Open Scope list_scope.

Inductive json :=
| JNull
| JBool (b : bool)
| JNum (n : number)
| JStr (s : text)
| JArr (l : list json)
| JObj (l : list (text * json)).

(** ** Strings *)

Definition code (c : ascii) : Z := Z.of_N (N_of_ascii c).
Definition char (n : Z) : ascii := ascii_of_N (Z.to_N n).
Definition txt (s : string) : text := String.list_ascii_of_string s.

Definition quote : ascii := char 34.
Definition backslash : ascii := char 92.

Definition hex_digit (d : Z) : ascii := if decide (d < 10) then char (48 + d) else char (87 + d).
Definition hex_value (c : ascii) : option Z :=
  let n := code c in
  if decide (48 ≤ n ≤ 57) then Some (n - 48) else
  if decide (97 ≤ n ≤ 102) then Some (n - 87) else
  if decide (65 ≤ n ≤ 70) then Some (n - 55) else None.

(** A byte below 128: escaped if it is a control character, a quote, a backslash, or special in
    HTML. *)
Definition escape_ascii (c : ascii) : text :=
  let n := code c in
  if decide (n = 34 ∨ n = 92) then [backslash; c] else
  if decide (n = 8) then backslash :: txt "b" else
  if decide (n = 12) then backslash :: txt "f" else
  if decide (n = 10) then backslash :: txt "n" else
  if decide (n = 13) then backslash :: txt "r" else
  if decide (n = 9) then backslash :: txt "t" else
  if decide (n < 32 ∨ n = 60 ∨ n = 62 ∨ n = 38) then
    backslash :: txt "u00" ++ [hex_digit (n / 16); hex_digit (n mod 16)]
  else [c].

Definition between (lo hi : Z) (c : ascii) : bool := (lo <=? code c) && (code c <=? hi).

(** [utf8.DecodeRuneInString] on a byte from 128 on: the length of the rune, 0 if it is invalid. *)
Definition rune_len (s : text) : nat :=
  match s with
  | b0 :: b1 :: rest =>
      if between 0xC2 0xDF b0 && between 0x80 0xBF b1 then 2%nat else
      match rest with
      | b2 :: rest =>
          if between 0x80 0xBF b2 &&
             (between 0xE0 0xE0 b0 && between 0xA0 0xBF b1 || between 0xE1 0xEC b0 && between 0x80 0xBF b1 ||
              between 0xED 0xED b0 && between 0x80 0x9F b1 || between 0xEE 0xEF b0 && between 0x80 0xBF b1)
          then 3%nat else
          match rest with
          | b3 :: _ =>
              if between 0x80 0xBF b2 && between 0x80 0xBF b3 &&
                 (between 0xF0 0xF0 b0 && between 0x90 0xBF b1 || between 0xF1 0xF3 b0 && between 0x80 0xBF b1 ||
                  between 0xF4 0xF4 b0 && between 0x80 0x8F b1)
              then 4%nat else O
          | [] => O
          end
      | [] => O
      end
  | _ => O
  end.

(** The separators U+2028 and U+2029 are escaped as well. *)
Definition line_separator : text := [char 0xE2; char 0x80; char 0xA8].
Definition paragraph_separator : text := [char 0xE2; char 0x80; char 0xA9].
Definition escape_rune (r : text) : text :=
  if decide (r = line_separator) then backslash :: txt "u2028" else
  if decide (r = paragraph_separator) then backslash :: txt "u2029" else r.

(** [appendString]; the fuel is the number of bytes. *)
Fixpoint escape_bytes (fuel : nat) (s : text) : text :=
  match fuel, s with
  | S fuel', c :: s' =>
      if decide (code c < 128) then escape_ascii c ++ escape_bytes fuel' s' else
      match rune_len s with
      | O => (backslash :: txt "ufffd") ++ escape_bytes fuel' s'
      | n => escape_rune (take n s) ++ escape_bytes fuel' (drop n s)
      end
  | _, _ => []
  end.
Definition escape (s : text) : text := escape_bytes (length s) s.

(** [utf8.ValidString] *)
Fixpoint valid_bytes (fuel : nat) (s : text) : bool :=
  match fuel, s with
  | S fuel', c :: s' =>
      if decide (code c < 128) then valid_bytes fuel' s' else
      match rune_len s with O => false | n => valid_bytes fuel' (drop n s) end
  | _, _ => true
  end.
Definition valid_utf8 (s : text) : bool := valid_bytes (length s) s.

(** ** Reading a string *)

Definition hex4 (a b c d : ascii) : option Z :=
  a ← hex_value a; b ← hex_value b; c ← hex_value c; d ← hex_value d; Some (((a * 16 + b) * 16 + c) * 16 + d).

(** U+FFFD, which stands for what is not UTF-8. *)
Definition replacement : text := [char 0xEF; char 0xBF; char 0xBD].

(** The UTF-8 of a code point; that of a surrogate is the replacement. *)
Definition utf8 (n : Z) : text :=
  if decide (n < 0x80) then [char n] else
  if decide (n < 0x800) then [char (0xC0 + n / 64); char (0x80 + n mod 64)] else
  if decide (0xD800 ≤ n ≤ 0xDFFF) then replacement else
  if decide (n < 0x10000) then [char (0xE0 + n / 4096); char (0x80 + n / 64 mod 64); char (0x80 + n mod 64)] else
  [char (0xF0 + n / 262144); char (0x80 + n / 4096 mod 64); char (0x80 + n / 64 mod 64); char (0x80 + n mod 64)].

(** [utf16.DecodeRune] *)
Definition surrogate_pair (n m : Z) : option Z :=
  if decide (0xD800 ≤ n ≤ 0xDBFF ∧ 0xDC00 ≤ m ≤ 0xDFFF) then Some ((n - 0xD800) * 1024 + (m - 0xDC00) + 0x10000)
  else None.

(** The code point of a surrogate pair that starts with [n] and goes on with the first escape of [s]. *)
Definition paired (n : Z) (s : text) : option Z :=
  match s with
  | b :: u :: h1 :: h2 :: h3 :: h4 :: _ =>
      if decide (b = backslash ∧ code u = 117) then m ← hex4 h1 h2 h3 h4; surrogate_pair n m else None
  | _ => None
  end.

(** The character that a one-letter escape stands for. *)
Definition simple_escape (c : ascii) : option ascii :=
  let n := code c in
  if decide (n = 34 ∨ n = 92 ∨ n = 47) then Some c else
  if decide (n = 98) then Some (char 8) else
  if decide (n = 102) then Some (char 12) else
  if decide (n = 110) then Some (char 10) else
  if decide (n = 114) then Some (char 13) else
  if decide (n = 116) then Some (char 9) else None.

(** The bytes up to the closing quote, and what follows it. *)
Fixpoint unescape (s : text) : option (text * text) :=
  match s with
  | [] => None
  | c :: s' =>
      if decide (c = quote) then Some ([], s') else
      if decide (c = backslash) then
        match s' with
        | [] => None
        | x :: s'' =>
            if decide (code x = 117) then
              match s'' with
              | h1 :: h2 :: h3 :: h4 :: rest =>
                  match hex4 h1 h2 h3 h4 with
                  | Some n =>
                      match paired n rest, rest with
                      | Some r, _ :: _ :: _ :: _ :: _ :: _ :: rest' =>
                          match unescape rest' with Some (s, t) => Some (utf8 r ++ s, t) | None => None end
                      | _, _ => match unescape rest with Some (r, t) => Some (utf8 n ++ r, t) | None => None end
                      end
                  | None => None
                  end
              | _ => None
              end
            else
              match simple_escape x with
              | Some b => match unescape s'' with Some (r, t) => Some (b :: r, t) | None => None end
              | None => None
              end
        end
      else if decide (code c < 32) then None
      else match unescape s' with Some (r, t) => Some (c :: r, t) | None => None end
  end.

(** What is not UTF-8 is replaced, byte by byte. *)
Fixpoint sanitize_bytes (fuel : nat) (s : text) : text :=
  match fuel, s with
  | S fuel', c :: s' =>
      if decide (code c < 128) then c :: sanitize_bytes fuel' s' else
      match rune_len s with
      | O => replacement ++ sanitize_bytes fuel' s'
      | n => take n s ++ sanitize_bytes fuel' (drop n s)
      end
  | _, _ => []
  end.
Definition sanitize (s : text) : text := sanitize_bytes (length s) s.

Lemma sanitize_bytes_valid fuel s : (length s ≤ fuel)%nat → valid_bytes fuel s = true → sanitize_bytes fuel s = s.
Proof.
  revert s. induction fuel as [|fuel IH]; intros s Hf Hv; [destruct s; [reflexivity|simpl in Hf; lia]|].
  destruct s as [|c s]; [reflexivity|]. cbn [sanitize_bytes valid_bytes] in *. case_decide as Hc.
  - rewrite IH by (done || simpl in Hf; lia). done.
  - destruct (rune_len (c :: s)) as [|n] eqn:Hn; [done|].
    assert (length (drop (S n) (c :: s)) ≤ fuel)%nat by (rewrite length_drop; simpl in *; lia).
    rewrite IH by done. apply take_drop.
Qed.

Lemma sanitize_valid s : valid_utf8 s = true → sanitize s = s.
Proof. apply sanitize_bytes_valid. lia. Qed.

(** The bytes [bs], then what reading [s] gives. *)
Definition prepend (bs : text) (r : option (text * text)) : option (text * text) :=
  match r with Some (r, t) => Some (bs ++ r, t) | None => None end.

Lemma paired_None n s : ¬ (0xD800 ≤ n ≤ 0xDBFF) → paired n s = None.
Proof.
  intros Hn. unfold paired, surrogate_pair. repeat (case_match; try done).
  subst. destruct (hex4 _ _ _ _); [|done]. simpl. by rewrite decide_False by (by intros [? _]).
Qed.

Lemma unescape_u h1 h2 h3 h4 n s : hex4 h1 h2 h3 h4 = Some n → ¬ (0xD800 ≤ n ≤ 0xDBFF) →
  unescape (backslash :: char 117 :: h1 :: h2 :: h3 :: h4 :: s) = prepend (utf8 n) (unescape s).
Proof.
  intros Hh Hn. cbn [unescape]. rewrite decide_False, decide_True, decide_True by done. rewrite Hh, paired_None by done.
  by destruct (unescape s) as [[]|].
Qed.

Lemma unescape_ascii c s : code c < 128 → unescape (escape_ascii c ++ s) = prepend [c] (unescape s).
Proof.
  intros Hc. destruct c as [[] [] [] [] [] [] [] []]; try (vm_compute in Hc; discriminate Hc);
    first [reflexivity | (etransitivity; [eapply unescape_u; [vm_compute; reflexivity|lia]|reflexivity])].
Qed.

Lemma unescape_raw c s : 128 ≤ code c → unescape (c :: s) = prepend [c] (unescape s).
Proof.
  intros Hc. simpl. rewrite !decide_False; [done|lia| |]; intros ->; vm_compute in Hc; by apply Hc.
Qed.

Lemma unescape_raws bs s : Forall (λ c, 128 ≤ code c) bs → unescape (bs ++ s) = prepend bs (unescape s).
Proof.
  induction 1 as [|c bs Hc _ IH]; [change ([] ++ s) with s; by destruct (unescape s) as [[]|]|].
  change ((c :: bs) ++ s) with (c :: (bs ++ s)). rewrite unescape_raw, IH by done.
  by destruct (unescape s) as [[]|].
Qed.

Lemma between_high lo hi c : between lo hi c = true → 128 ≤ lo → 128 ≤ code c.
Proof. unfold between. lia. Qed.

(** The bytes of a rune are all from 128 on. *)
Lemma rune_len_high s n : rune_len s = S n → Forall (λ c, 128 ≤ code c) (take (S n) s).
Proof.
  unfold rune_len. intros H. repeat case_match; simplify_eq; simpl;
    repeat match goal with
    | H : _ && _ = true |- _ => apply andb_true_iff in H as [? ?]
    | H : _ || _ = true |- _ => apply orb_true_iff in H as [?|?]
    end; repeat constructor; (eapply between_high; [eassumption|lia]).
Qed.

Lemma unescape_rune r s : Forall (λ c, 128 ≤ code c) r → unescape (escape_rune r ++ s) = prepend r (unescape s).
Proof.
  intros Hr. unfold escape_rune. case_decide; [subst r; etransitivity; [eapply unescape_u; [vm_compute; reflexivity|lia]|reflexivity]|].
  case_decide; [subst r; etransitivity; [eapply unescape_u; [vm_compute; reflexivity|lia]|reflexivity]|]. by apply unescape_raws.
Qed.

Lemma unescape_bytes fuel s rest : (length s ≤ fuel)%nat → valid_bytes fuel s = true →
  unescape (escape_bytes fuel s ++ quote :: rest) = Some (s, rest).
Proof.
  revert s. induction fuel as [|fuel IH]; intros s Hf Hv; [destruct s; [reflexivity|simpl in Hf; lia]|].
  destruct s as [|c s]; [reflexivity|]. cbn [escape_bytes valid_bytes] in *. case_decide as Hc.
  - rewrite <- app_assoc, unescape_ascii, IH by (done || simpl in Hf; lia). done.
  - destruct (rune_len (c :: s)) as [|n] eqn:Hn; [done|]. pose proof (rune_len_high _ _ Hn) as Hhigh.
    assert (length (drop (S n) (c :: s)) ≤ fuel)%nat by (rewrite length_drop; simpl in *; lia).
    rewrite <- app_assoc, unescape_rune, IH by done. cbn [prepend]. by rewrite take_drop.
Qed.

Lemma unescape_escape s rest : valid_utf8 s = true → unescape (escape s ++ quote :: rest) = Some (s, rest).
Proof. apply unescape_bytes. lia. Qed.

(** ** Values *)

Definition print_string (s : text) : text := quote :: escape s ++ [quote].

(** Texts with commas between them. *)
Definition commas (ts : list text) : text :=
  match ts with [] => [] | t :: ts => t ++ (ts ≫= λ t, txt "," ++ t) end.

Definition print_member (k : text) (v : text) : text := print_string k ++ txt ":" ++ v.

Fixpoint print (j : json) : text :=
  match j with
  | JNull => txt "null"
  | JBool b => if b then txt "true" else txt "false"
  | JNum n => print_number n
  | JStr s => print_string s
  | JArr l => txt "[" ++ commas (map print l) ++ txt "]"
  | JObj l => txt "{" ++ commas (map (λ kv, print_member kv.1 (print kv.2)) l) ++ txt "}"
  end.

(** Drop an expected prefix. *)
Fixpoint expect (p s : text) : option text :=
  match p, s with
  | [], _ => Some s
  | c :: p', c' :: s' => if decide (c = c') then expect p' s' else None
  | _ :: _, [] => None
  end.

(** White space is skipped. *)
Definition is_space (c : ascii) : Prop := code c = 32 ∨ code c = 9 ∨ code c = 10 ∨ code c = 13.
#[global] Instance is_space_dec c : Decision (is_space c).
Proof. unfold is_space. apply _. Defined.
Fixpoint skip (s : text) : text :=
  match s with c :: s' => if decide (is_space c) then skip s' else s | [] => [] end.

Fixpoint parse (fuel : nat) (s : text) : option (json * text) :=
  match fuel with
  | O => None
  | S fuel' =>
      match skip s with
      | [] => None
      | c :: s' =>
          if decide (c = quote) then '(str, rest) ← unescape s'; Some (JStr (sanitize str), rest)
          else if decide (code c = 91) then
            (if decide (head (skip s') = Some (char 93)) then Some (JArr [], tail (skip s'))
             else '(l, rest) ← parse_elements fuel' s'; Some (JArr l, rest))
          else if decide (code c = 123) then
            (if decide (head (skip s') = Some (char 125)) then Some (JObj [], tail (skip s'))
             else '(l, rest) ← parse_members fuel' s'; Some (JObj l, rest))
          else if decide (code c = 110) then rest ← expect (txt "ull") s'; Some (JNull, rest)
          else if decide (code c = 116) then rest ← expect (txt "rue") s'; Some (JBool true, rest)
          else if decide (code c = 102) then rest ← expect (txt "alse") s'; Some (JBool false, rest)
          else '(n, rest) ← parse_number (c :: s'); Some (JNum n, rest)
      end
  end
with parse_elements (fuel : nat) (s : text) : option (list json * text) :=
  match fuel with
  | O => None
  | S fuel' =>
      '(j, rest) ← parse fuel' s;
      match skip rest with
      | c :: rest' =>
          if decide (code c = 93) then Some ([j], rest') else
          if decide (code c = 44) then '(l, rest) ← parse_elements fuel' rest'; Some (j :: l, rest) else None
      | [] => None
      end
  end
with parse_members (fuel : nat) (s : text) : option (list (text * json) * text) :=
  match fuel with
  | O => None
  | S fuel' =>
      s1 ← expect [quote] (skip s);
      '(k, s2) ← unescape s1;
      s3 ← expect (txt ":") (skip s2);
      '(j, rest) ← parse fuel' s3;
      match skip rest with
      | c :: rest' =>
          if decide (code c = 125) then Some ([(sanitize k, j)], rest') else
          if decide (code c = 44) then '(l, rest) ← parse_members fuel' rest'; Some ((sanitize k, j) :: l, rest) else None
      | [] => None
      end
  end.

(** ** Values are read back *)

(** Strings are UTF-8 and numbers are literals. *)
Fixpoint json_ok (j : json) : Prop :=
  match j with
  | JNull | JBool _ => True
  | JNum n => number_ok n
  | JStr s => valid_utf8 s = true
  | JArr l => foldr (λ j P, json_ok j ∧ P) True l
  | JObj l => foldr (λ kv P, (valid_utf8 kv.1 = true ∧ json_ok kv.2) ∧ P) True l
  end.

(** The fuel that reading needs. *)
Fixpoint need (j : json) : nat :=
  match j with
  | JArr l => S (foldr (λ j n, S (need j) + n)%nat O l)
  | JObj l => S (foldr (λ kv n, S (need kv.2) + n)%nat O l)
  | _ => 1%nat
  end.

(** Induction over values with induction hypotheses for the elements. *)
Lemma json_rect_nested (P : json → Prop) :
  P JNull → (∀ b, P (JBool b)) → (∀ n, P (JNum n)) → (∀ s, P (JStr s)) →
  (∀ l, Forall P l → P (JArr l)) → (∀ l, Forall (λ kv, P kv.2) l → P (JObj l)) → ∀ j, P j.
Proof.
  intros Hnull Hbool Hnum Hstr Harr Hobj. fix IH 1. intros [|b|n|s|l|l]; [done|done|done|done| |].
  - apply Harr. induction l as [|j l IHl]; constructor; [apply IH|apply IHl].
  - apply Hobj. induction l as [|[k j] l IHl]; constructor; [apply IH|apply IHl].
Qed.

(** A value starts with a character that tells what it is. *)
Lemma number_head n : number_ok n → ∃ c t, print_number n = c :: t ∧ 45 ≤ code c ≤ 57.
Proof.
  intros [Hint Hhead _]. unfold print_number. destruct (negative n).
  - eexists _, _. split; [reflexivity|]. vm_compute. split; discriminate.
  - destruct (int_part n) as [|d ds]; [destruct Hhead|]. eexists _, _. split; [reflexivity|].
    apply Forall_cons in Hint as [Hd _]. unfold code, digit_char. unfold is_digit in Hd.
    rewrite N_ascii_embedding by lia. lia.
Qed.

Lemma print_head j : json_ok j → ∃ c t, print j = c :: t ∧ code c ≠ 93 ∧ ¬ is_space c.
Proof.
  unfold is_space. destruct j as [|[]|n|s|l|l]; intros Hok;
    try (eexists _, _; split; [reflexivity|]; split; [vm_compute; discriminate|]; vm_compute; intuition discriminate).
  destruct (number_head n Hok) as (c & t & Hp & Hc). exists c, t. split; [exact Hp|]. split; [lia|]. lia.
Qed.

Lemma skip_id c s : ¬ is_space c → skip (c :: s) = c :: s.
Proof. intros Hc. simpl. by rewrite decide_False. Qed.

(** The conditions on the elements of an array or object, as [Forall]. *)
Lemma foldr_and_Forall {A} (P : A → Prop) l : foldr (λ x Q, P x ∧ Q) True l ↔ Forall P l.
Proof. induction l as [|x l IH]; simpl; [by rewrite Forall_nil|by rewrite Forall_cons, IH]. Qed.

(** The lengths of texts, each with its comma. *)
Definition total {A} (f : A → nat) (l : list A) : nat := foldr (λ x n, S (f x) + n)%nat O l.

Lemma total_cons {A} (f : A → nat) x l : total f (x :: l) = S (f x + total f l).
Proof. reflexivity. Qed.

Lemma total_commas {A} (f : A → nat) (g : A → text) l :
  Forall (λ x, f x ≤ length (g x))%nat l → (total f l ≤ S (length (commas (map g l))))%nat.
Proof.
  assert (Hrest : ∀ l, Forall (λ x, f x ≤ length (g x))%nat l →
    (total f l ≤ length (map g l ≫= λ t, txt "," ++ t))%nat).
  { induction 1 as [|x l' Hx _ IH]; [done|]. unfold total in *. cbn in *. rewrite length_app. lia. }
  destruct 1 as [|x l Hx Hl]; [simpl; lia|]. specialize (Hrest l Hl). unfold total in *. cbn in *. rewrite length_app. lia.
Qed.

Lemma need_print j : json_ok j → (need j ≤ length (print j))%nat.
Proof.
  induction j as [|[]|n|s|l IH|l IH] using json_rect_nested; intros Hok; try (simpl; lia).
  - destruct (number_head n Hok) as (c & t & Hp & _). simpl. rewrite Hp. simpl. lia.
  - apply foldr_and_Forall in Hok. unshelve epose proof (total_commas need print l _) as Hlen.
    { eapply Forall_impl; [exact (proj2 (Forall_and _ _) (conj IH Hok))|]. simpl. naive_solver. }
    unfold total in Hlen. cbn in *. rewrite length_app. cbn. lia.
  - apply foldr_and_Forall in Hok.
    unshelve epose proof (total_commas (λ kv, need kv.2) (λ kv, print_member kv.1 (print kv.2)) l _) as Hlen.
    { eapply Forall_impl; [exact (proj2 (Forall_and _ _) (conj IH Hok))|]. intros [k v] [Hv [_ Hok']]. specialize (Hv Hok').
      unfold print_member. simpl in *. rewrite !length_app. simpl. lia. }
    unfold total in Hlen. cbn in *. rewrite length_app. cbn. lia.
Qed.

(** What follows a value: nothing, or a character that cannot continue a number. *)
Lemma delimited_after t rest : t ∈ [txt ","; txt "]"; txt "}"] → delimited (t ++ rest).
Proof. rewrite !elem_of_cons, elem_of_nil. intros [->|[->|[->|[]]]]; repeat split; discriminate. Qed.

Lemma expect_app p s : expect p (p ++ s) = Some s.
Proof. induction p as [|c p IH]; [done|]. simpl. by rewrite decide_True by done. Qed.

(** A value is read back from its text, whatever follows. *)
Definition readable (j : json) : Prop :=
  ∀ fuel rest, (need j ≤ fuel)%nat → delimited rest → parse fuel (print j ++ rest) = Some (j, rest).

Lemma read_elements l fuel rest : l ≠ [] → Forall readable l → (total need l ≤ fuel)%nat →
  parse_elements fuel (commas (map print l) ++ txt "]" ++ rest) = Some (l, rest).
Proof.
  intros Hne Hl. revert fuel Hne. induction Hl as [|j l Hj Hl IH]; intros fuel Hne Hf; [done|].
  destruct fuel as [|fuel]; [rewrite total_cons in Hf; lia|].
  assert (need j ≤ fuel ∧ total need l ≤ fuel)%nat as [Hfj Hfl] by (rewrite total_cons in Hf; cbn [snd] in Hf; lia).
  cbn [parse_elements map commas]. rewrite <- app_assoc. destruct l as [|j' l].
  - cbn [map mbind list_bind app]. rewrite Hj by (done || apply delimited_after; set_solver). reflexivity.
  - change (map print (j' :: l) ≫= λ t, txt "," ++ t) with (txt "," ++ commas (map print (j' :: l))).
    rewrite <- !app_assoc, Hj by (done || apply delimited_after; set_solver). simpl (txt "," ++ _). cbn [mbind option_bind].
    change (skip (","%char :: ?x)) with (","%char :: x). cbv iota beta. rewrite decide_False, decide_True by done. rewrite IH by done. reflexivity.
Qed.

Lemma read_members l fuel rest : l ≠ [] → Forall (λ kv, valid_utf8 kv.1 = true ∧ readable kv.2) l →
  (total (λ kv, need kv.2) l ≤ fuel)%nat →
  parse_members fuel (commas (map (λ kv, print_member kv.1 (print kv.2)) l) ++ txt "}" ++ rest) = Some (l, rest).
Proof.
  intros Hne Hl. revert fuel Hne. induction Hl as [|[k j] l [Hk Hj] Hl IH]; intros fuel Hne Hf; [done|].
  destruct fuel as [|fuel]; [rewrite total_cons in Hf; lia|].
  assert (need j ≤ fuel ∧ total (λ kv, need kv.2) l ≤ fuel)%nat as [Hfj Hfl] by (rewrite total_cons in Hf; cbn [snd] in Hf; lia).
  cbn [parse_members map commas fst snd]. unfold print_member at 1, print_string. cbn [fst snd] in *.
  rewrite <- !app_assoc. change ((quote :: escape k ++ [quote]) ++ ?x) with ([quote] ++ (escape k ++ [quote]) ++ x).
  change (skip ([quote] ++ ?x)) with ([quote] ++ x). rewrite expect_app. cbn [mbind option_bind]. rewrite <- !app_assoc.
  change ([quote] ++ ?x) with (quote :: x). rewrite unescape_escape by done. cbn [mbind option_bind].
  change (skip (txt ":" ++ ?x)) with (txt ":" ++ x). rewrite expect_app, sanitize_valid by done. cbn [mbind option_bind]. destruct l as [|kv' l].
  - cbn [map mbind list_bind app]. rewrite Hj by (done || apply delimited_after; set_solver). reflexivity.
  - set (pr := λ kv : text * json, print_member kv.1 (print kv.2)) in *.
    change (map pr (kv' :: l) ≫= λ t, txt "," ++ t) with (txt "," ++ commas (map pr (kv' :: l))).
    rewrite <- !app_assoc, Hj by (done || apply delimited_after; set_solver). simpl (txt "," ++ _). cbn [mbind option_bind].
    change (skip (","%char :: ?x)) with (","%char :: x). cbv iota beta. rewrite decide_False, decide_True by done. rewrite IH by done. reflexivity.
Qed.

Lemma parse_quote fuel s : parse (S fuel) (quote :: s) = '(str, rest) ← unescape s; Some (JStr (sanitize str), rest).
Proof. reflexivity. Qed.

(** A number is what remains when the first character announces nothing else. *)
Lemma parse_numeric fuel c s : 45 ≤ code c ≤ 57 →
  parse (S fuel) (c :: s) = '(n, rest) ← parse_number (c :: s); Some (JNum n, rest).
Proof.
  intros Hc. cbn [parse]. rewrite skip_id by (unfold is_space; lia). rewrite !decide_False; [done| |..]; try lia.
  intros ->. vm_compute in Hc. by destruct Hc.
Qed.

Lemma parse_array fuel c s : code c ≠ 93 → ¬ is_space c →
  parse (S fuel) (txt "[" ++ c :: s) = '(l, rest) ← parse_elements fuel (c :: s); Some (JArr l, rest).
Proof.
  intros Hc Hs. change (txt "[" ++ c :: s) with (char 91 :: c :: s). cbn [parse].
  change (skip (char 91 :: ?x)) with (char 91 :: x). cbv iota beta. rewrite decide_False by done. rewrite decide_True by done.
  rewrite skip_id by done. rewrite decide_False; [done|]. intros [= ->]. by apply Hc.
Qed.

Lemma parse_object fuel s :
  parse (S fuel) (txt "{" ++ quote :: s) = '(l, rest) ← parse_members fuel (quote :: s); Some (JObj l, rest).
Proof. reflexivity. Qed.

Lemma all_readable j : json_ok j → readable j.
Proof.
  induction j as [|[]|n|s|l IH|l IH] using json_rect_nested; intros Hok fuel rest Hf Hd;
    (destruct fuel as [|fuel]; [simpl in Hf; lia|]).
  - reflexivity.
  - reflexivity.
  - reflexivity.
  - destruct (number_head n Hok) as (c & t & Hp & Hc). cbn [print]. rewrite Hp.
    change ((c :: t) ++ rest) with (c :: (t ++ rest)). rewrite parse_numeric by done.
    change (c :: (t ++ rest)) with ((c :: t) ++ rest). rewrite <- Hp, parse_print_number by done. reflexivity.
  - cbn [print]. unfold print_string. change ((quote :: escape s ++ [quote]) ++ rest) with (quote :: (escape s ++ [quote]) ++ rest).
    rewrite parse_quote, <- app_assoc. change ([quote] ++ rest) with (quote :: rest).
    rewrite unescape_escape by done. cbn [mbind option_bind]. by rewrite sanitize_valid by done.
  - apply foldr_and_Forall in Hok. destruct l as [|j l]; [reflexivity|].
    assert (Hl : Forall readable (j :: l)).
    { eapply Forall_impl; [exact (proj2 (Forall_and _ _) (conj IH Hok))|]. simpl. naive_solver. }
    apply Forall_cons in Hok as [Hj _]. destruct (print_head j Hj) as (c & t & Hp & Hc & Hsp).
    pose proof (read_elements (j :: l) fuel rest ltac:(done) Hl ltac:(unfold total; cbn [need] in Hf; lia)) as Hread.
    cbn [print]. rewrite <- !app_assoc. cbn [map commas] in *. rewrite Hp in *.
    change (((c :: t) ++ ?x) ++ ?y) with (c :: ((t ++ x) ++ y)) in *. rewrite parse_array by done. by rewrite Hread.
  - apply foldr_and_Forall in Hok. destruct l as [|[k j] l]; [reflexivity|].
    assert (Hl : Forall (λ kv, valid_utf8 kv.1 = true ∧ readable kv.2) ((k, j) :: l)).
    { eapply Forall_impl; [exact (proj2 (Forall_and _ _) (conj IH Hok))|]. simpl. naive_solver. }
    pose proof (read_members ((k, j) :: l) fuel rest ltac:(done) Hl ltac:(unfold total; cbn [need] in Hf; lia)) as Hread.
    cbn [print]. rewrite <- !app_assoc. cbn [map commas] in *. unfold print_member, print_string in *.
    cbn [fst snd] in *. rewrite <- !app_assoc in *.
    change ((quote :: escape k ++ [quote]) ++ ?x) with (quote :: ((escape k ++ [quote]) ++ x)) in *.
    rewrite parse_object. by rewrite Hread.
Qed.

(** ** The interface *)

(** The text of a value, and the value of a text that holds nothing else. *)
Definition to_string (j : json) : string := String.string_of_list_ascii (print j).
Definition of_string (s : string) : option json :=
  match parse (String.length s) (String.list_ascii_of_string s) with
  | Some (j, rest) => if decide (skip rest = []) then Some j else None
  | None => None
  end.

Lemma of_to_string j : json_ok j → of_string (to_string j) = Some j.
Proof.
  intros Hok. unfold of_string, to_string. rewrite String.list_ascii_of_string_of_list_ascii.
  assert (Hlen : ∀ l, String.length (String.string_of_list_ascii l) = length l) by (induction l; simpl; congruence).
  rewrite Hlen. pose proof (all_readable j Hok (length (print j)) [] (need_print j Hok) I) as Hread.
  rewrite app_nil_r in Hread. rewrite Hread. reflexivity.
Qed.

(** ** Members of objects *)

Fixpoint assoc (k : text) (l : list (text * json)) : option json :=
  match l with
  | [] => None
  | (k', j) :: l => if decide (k = k') then Some j else assoc k l
  end.

Definition get (k : string) (j : json) : option json :=
  match j with JObj l => assoc (txt k) l | _ => None end.

(** A text in which apostrophes stand for quotes. *)
Definition dequote (s : string) : string :=
  String.string_of_list_ascii ((λ c, if decide (code c = 39) then quote else c) <$> txt s).
