(* ===== verification/Rfc3339.v ===== *)
(** * Rfc3339: instants and their text ([time.Time.Format(time.RFC3339)])

    An instant with the offset of its zone, the date of the proleptic Gregorian calendar it falls
    on, the text [time.RFC3339] gives it, and a reader of such texts.  The text is shown to denote
    the second the instant is in. *)
From S2P Require Import Prelude GoFloat Decimal Json.
From Stdlib Require Import Ascii.
Local Open Scope Z_scope.
Local Open Scope list_scope.

(** A [time.Time]: seconds since the Unix epoch, nanoseconds within the second, and the seconds its location is
    east of UTC. *)
Record Time := { unixSec : Z; nanos : Z; zoneOffset : Z }.

(** The beginning of the second; RFC 3339 texts have no fraction here. *)
Definition whole_second (t : Time) : Time := {| unixSec := unixSec t; nanos := 0; zoneOffset := zoneOffset t |}.

(** ** The calendar *)

Definition isLeap (y : Z) : bool := (y mod 4 =? 0) && (negb (y mod 100 =? 0) || (y mod 400 =? 0)).

Definition daysPerYear (y : Z) : Z := if isLeap y then 366 else 365.

(** The days from 1 January of year 1 to 1 January of year [y]. *)
Definition daysBeforeYear (y : Z) : Z := let p := y - 1 in 365 * p + p / 4 - p / 100 + p / 400.

Definition daysInMonth (leap : bool) (month : Z) : Z :=
  if decide (month = 2) then if leap then 29 else 28
  else if decide (month ∈ [4; 6; 9; 11]) then 30 else 31.

(** The days of the year before the month. *)
Definition daysBeforeMonth (leap : bool) (month : Z) : Z :=
  foldr Z.add 0 (daysInMonth leap <$> seqZ 1 (month - 1)).

(** The year of a day, counted from 1 January of year 1, and the day of that year from 0:
    cycles of 400, 100, 4 years and one year are split off, the last of them being longer. *)
Definition yearDay (d : Z) : Z * Z :=
  let n400 := d / 146097 in
  let d := d mod 146097 in
  let n100 := Z.min 3 (d / 36524) in
  let d := d - 36524 * n100 in
  let n4 := d / 1461 in
  let d := d mod 1461 in
  let n1 := Z.min 3 (d / 365) in
  (400 * n400 + 100 * n100 + 4 * n4 + n1 + 1, d - 365 * n1).

(** The month and day of a day of the year: the month is about a 31st of it. *)
Definition monthDay (leap : bool) (yday : Z) : Z * Z :=
  let m := yday / 31 + 1 in
  let m := if decide (daysBeforeMonth leap (m + 1) ≤ yday) then m + 1 else m in
  (m, yday - daysBeforeMonth leap m + 1).

Record Date := { year : Z; month : Z; day : Z }.

Definition date (d : Z) : Date :=
  let '(y, yday) := yearDay d in
  let '(m, dd) := monthDay (isLeap y) yday in
  {| year := y; month := m; day := dd |}.

Definition valid_date (dt : Date) : Prop :=
  1 ≤ month dt ≤ 12 ∧ 1 ≤ day dt ≤ daysInMonth (isLeap (year dt)) (month dt).

(** The day a date is, counted from 1 January of year 1. *)
Definition dayNumber (dt : Date) : Z :=
  daysBeforeYear (year dt) + daysBeforeMonth (isLeap (year dt)) (month dt) + day dt - 1.

Lemma isLeap_true y : isLeap y = true ↔ y mod 4 = 0 ∧ (y mod 100 ≠ 0 ∨ y mod 400 = 0).
Proof. unfold isLeap. lia. Qed.

Lemma yearDay_spec d : daysBeforeYear (yearDay d).1 + (yearDay d).2 = d ∧
  0 ≤ (yearDay d).2 < daysPerYear (yearDay d).1.
Proof.
  unfold yearDay. cbn [fst snd].
  pose proof (Z.mod_pos_bound d 146097 eq_refl) as H1. pose proof (Z.div_mod d 146097) as H2.
  set (n400 := d / 146097) in *. set (d1 := d mod 146097) in *.
  assert (Hn100 : 0 ≤ Z.min 3 (d1 / 36524) ≤ 3 ∧ 0 ≤ d1 - 36524 * Z.min 3 (d1 / 36524) < 36525 ∧
    (Z.min 3 (d1 / 36524) < 3 → d1 - 36524 * Z.min 3 (d1 / 36524) < 36524)) by (Z.to_euclidean_division_equations; lia).
  set (n100 := Z.min 3 (d1 / 36524)) in *. set (d2 := d1 - 36524 * n100) in *.
  assert (Hn4 : 0 ≤ d2 / 1461 ≤ 24 ∧ 0 ≤ d2 mod 1461 < 1461 ∧ d2 = 1461 * (d2 / 1461) + d2 mod 1461)
    by (Z.to_euclidean_division_equations; lia).
  set (n4 := d2 / 1461) in *. set (d3 := d2 mod 1461) in *.
  assert (Hn1 : 0 ≤ Z.min 3 (d3 / 365) ≤ 3 ∧ 0 ≤ d3 - 365 * Z.min 3 (d3 / 365) ≤ 365 ∧
    (d3 - 365 * Z.min 3 (d3 / 365) = 365 → d3 = 1460 ∧ Z.min 3 (d3 / 365) = 3)) by (Z.to_euclidean_division_equations; lia).
  set (n1 := Z.min 3 (d3 / 365)) in *.
  assert (Hy : ∀ y, y = 400 * n400 + 100 * n100 + 4 * n4 + n1 →
    y / 4 = 100 * n400 + 25 * n100 + n4 ∧ y / 100 = 4 * n400 + n100 ∧ y / 400 = n400)
    by (intros y ->; Z.to_euclidean_division_equations; lia).
  split.
  - unfold daysBeforeYear. replace (400 * n400 + 100 * n100 + 4 * n4 + n1 + 1 - 1)
      with (400 * n400 + 100 * n100 + 4 * n4 + n1) by lia.
    destruct (Hy _ eq_refl) as (-> & -> & ->). subst d2. lia.
  - split; [lia|]. unfold daysPerYear. destruct (isLeap _) eqn:Hl; [lia|].
    destruct (decide (d3 - 365 * n1 = 365)) as [H365|]; [|lia]. exfalso.
    destruct Hn1 as (_ & _ & Hn1). destruct (Hn1 H365) as [Hd3 Hn]. apply not_true_iff_false in Hl. apply Hl, isLeap_true.
    rewrite Hn. clear - Hn100 Hn4 Hd3. Z.to_euclidean_division_equations. lia.
Qed.

Definition month_ok (leap : bool) (yday : Z) : bool :=
  let '(m, dd) := monthDay leap yday in
  (daysBeforeMonth leap m + dd - 1 =? yday) && (1 <=? m) && (m <=? 12) && (1 <=? dd) && (dd <=? daysInMonth leap m).

Lemma months_ok : forallb (month_ok false) (seqZ 0 365) && forallb (month_ok true) (seqZ 0 366) = true.
Proof. vm_compute. reflexivity. Qed.

Lemma monthDay_spec (leap : bool) yday : 0 ≤ yday < (if leap then 366 else 365) → month_ok leap yday = true.
Proof.
  intros Hy. pose proof months_ok as [Hf Ht]%andb_true_iff. rewrite forallb_forall in Hf, Ht.
  destruct leap; [apply Ht|apply Hf]; apply list_elem_of_In, elem_of_seqZ; lia.
Qed.

(** Every day has one date: a valid one, whose day it is. *)
Lemma date_spec d : valid_date (date d) ∧ dayNumber (date d) = d.
Proof.
  unfold date, valid_date, dayNumber. destruct (yearDay_spec d) as [Hd Hy]. destruct (yearDay d) as [y yday]. cbn [fst snd] in *.
  assert (Hok : month_ok (isLeap y) yday = true) by (apply monthDay_spec; unfold daysPerYear in Hy; destruct (isLeap y); lia).
  unfold month_ok in Hok. destruct (monthDay (isLeap y) yday) as [m dd]. cbn [year month day]. lia.
Qed.

(** ** The text *)

(** [time.appendInt]: the number with at least [width] digits. *)
Definition appendInt (x : Z) (width : nat) : text :=
  (if decide (x < 0) then [char_minus] else []) ++
  print_digits (replicate (width - length (digits (Z.abs x))) 0 ++ digits (Z.abs x)).

(** Days from year 1 to the Unix epoch. *)
Definition epoch : Z := 719162.
Definition secondsPerDay : Z := 86400.

(** [Time.appendFormatRFC3339]; the zone is in minutes, rounded towards zero. *)
Definition appendZone (offset : Z) : text :=
  if decide (offset = 0) then txt "Z" else
  let zone := Z.quot offset 60 in
  (if decide (zone < 0) then [char_minus] else [char_plus]) ++
  appendInt (Z.abs zone / 60) 2 ++ txt ":" ++ appendInt (Z.abs zone mod 60) 2.

Definition appendFormatRFC3339 (t : Time) : text :=
  let s := unixSec t + zoneOffset t in
  let dt := date (epoch + s / secondsPerDay) in
  let s := s mod secondsPerDay in
  appendInt (year dt) 4 ++ txt "-" ++ appendInt (month dt) 2 ++ txt "-" ++ appendInt (day dt) 2 ++ txt "T" ++
  appendInt (s / 3600) 2 ++ txt ":" ++ appendInt (s / 60 mod 60) 2 ++ txt ":" ++ appendInt (s mod 60) 2 ++
  appendZone (zoneOffset t).

Definition Format (t : Time) : string := String.string_of_list_ascii (appendFormatRFC3339 t).

(** ** Reading *)

(** Exactly [width] digits. *)
Fixpoint readDigits (width : nat) (acc : Z) (s : text) : option (Z * text) :=
  match width with
  | O => Some (acc, s)
  | S width' =>
      match s with
      | c :: s' => d ← char_digit c; readDigits width' (10 * acc + d) s'
      | [] => None
      end
  end.
Definition readInt (width : nat) (s : text) : option (Z * text) := readDigits width 0 s.

Definition readZone (s : text) : option Z :=
  match s with
  | [c] => if decide (c = char 90) then Some 0 else None
  | c :: s =>
      if decide (c = char_plus ∨ c = char_minus) then
        '(h, s) ← readInt 2 s; s ← expect (txt ":") s; '(m, s) ← readInt 2 s;
        if decide (s = [] ∧ h ≤ 24 ∧ m < 60) then
          Some ((if decide (c = char_minus) then -1 else 1) * (h * 60 + m) * 60)
        else None
      else None
  | [] => None
  end.

(** A [date-time] of RFC 3339 without a fraction: the instant it denotes. *)
Definition readTime (s : text) : option Time :=
  '(y, s) ← readInt 4 s; s ← expect (txt "-") s; '(mo, s) ← readInt 2 s; s ← expect (txt "-") s;
  '(d, s) ← readInt 2 s; s ← expect (txt "T") s; '(h, s) ← readInt 2 s; s ← expect (txt ":") s;
  '(mi, s) ← readInt 2 s; s ← expect (txt ":") s; '(se, s) ← readInt 2 s; offset ← readZone s;
  let dt := {| year := y; month := mo; day := d |} in
  if decide (1 ≤ mo ≤ 12 ∧ 1 ≤ d ≤ daysInMonth (isLeap y) mo ∧ h < 24 ∧ mi < 60 ∧ se < 60) then
    Some {| unixSec := (dayNumber dt - epoch) * secondsPerDay + h * 3600 + mi * 60 + se - offset; nanos := 0; zoneOffset := offset |}
  else None.
Definition Parse (s : string) : option Time := readTime (String.list_ascii_of_string s).

(** ** Texts are read back *)

Lemma readDigits_print ds acc s : Forall is_digit ds →
  readDigits (length ds) acc (print_digits ds ++ s) = Some (foldl (λ acc d, 10 * acc + d) acc ds, s).
Proof.
  intros Hds. revert acc. induction Hds as [|d ds Hd _ IH]; intros acc; [done|]. simpl.
  rewrite char_digit_char by done. apply IH.
Qed.

Lemma digits_rev_length fuel n w : 0 ≤ n < 10 ^ Z.of_nat w → (0 < w)%nat → (length (digits_rev fuel n) ≤ w)%nat.
Proof.
  revert n w. induction fuel as [|fuel IH]; intros n w Hn Hw; simpl; [lia|]. case_decide; simpl; [lia|].
  destruct w as [|[|w]]; [lia|simpl in Hn; lia|].
  enough (length (digits_rev fuel (n / 10)) ≤ S w)%nat by lia.
  apply IH; [|lia]. rewrite Nat2Z.inj_succ, Z.pow_succ_r in Hn by lia.
  split; [apply Z.div_pos; lia|apply Z.div_lt_upper_bound; lia].
Qed.

Lemma readInt_appendInt x width s : 0 ≤ x < 10 ^ Z.of_nat width → (0 < width)%nat →
  readInt width (appendInt x width ++ s) = Some (x, s).
Proof.
  intros Hx Hw. unfold appendInt. rewrite decide_False, Z.abs_eq by lia. rewrite app_nil_l.
  set (ds := replicate (width - length (digits x)) 0 ++ digits x).
  assert (Hlen : length ds = width).
  { subst ds. rewrite length_app, length_replicate. unfold digits. rewrite length_rev.
    pose proof (digits_rev_length (S (Z.to_nat (Z.log2 x))) x width Hx Hw). lia. }
  assert (Hds : Forall is_digit ds).
  { apply Forall_app. split; [|apply digits_digit; lia]. apply Forall_replicate. unfold is_digit. lia. }
  unfold readInt. rewrite <- Hlen, readDigits_print by done. do 2 f_equal. fold (value ds).
  subst ds. rewrite value_zeros. apply digits_value. lia.
Qed.

Lemma readInt2 x s : 0 ≤ x < 100 → readInt 2 (appendInt x 2 ++ s) = Some (x, s).
Proof. intros Hx. apply readInt_appendInt; [exact Hx|lia]. Qed.
Lemma readInt4 x s : 0 ≤ x < 10000 → readInt 4 (appendInt x 4 ++ s) = Some (x, s).
Proof. intros Hx. apply readInt_appendInt; [exact Hx|lia]. Qed.

(** Offsets a location can have: less than a day, in whole minutes. *)
Definition whole_zone (offset : Z) : Prop := offset mod 60 = 0 ∧ Z.abs offset < secondsPerDay.

#[global] Instance whole_zone_dec offset : Decision (whole_zone offset).
Proof. unfold whole_zone. apply _. Defined.

Lemma readZone_appendZone offset : whole_zone offset → readZone (appendZone offset) = Some offset.
Proof.
  intros [Hm Ha]. unfold appendZone. case_decide as H0; [subst; reflexivity|].
  assert (Hq : offset = 60 * Z.quot offset 60) by (Z.to_euclidean_division_equations; lia).
  set (zone := Z.quot offset 60) in *. unfold secondsPerDay in Ha.
  assert (Hh : 0 ≤ Z.abs zone / 60 < 24 ∧ 0 ≤ Z.abs zone mod 60 < 60 ∧
    Z.abs zone = 60 * (Z.abs zone / 60) + Z.abs zone mod 60) by (Z.to_euclidean_division_equations; lia).
  set (h := Z.abs zone / 60) in *. set (mi := Z.abs zone mod 60) in *.
  set (sign := if decide (zone < 0) then char_minus else char_plus).
  replace (if decide (zone < 0) then [char_minus] else [char_plus]) with [sign] by (subst sign; by case_decide).
  assert (Hr : ∀ s, readZone (sign :: appendInt h 2 ++ txt ":" ++ appendInt mi 2 ++ s) =
    if decide (s = [] ∧ h ≤ 24 ∧ mi < 60) then Some ((if decide (sign = char_minus) then -1 else 1) * (h * 60 + mi) * 60) else None).
  { intros s. pose proof (readInt2 h (txt ":" ++ appendInt mi 2 ++ s) ltac:(lia)) as Hrh. pose proof (readInt2 mi s ltac:(lia)) as Hrm.
    destruct (appendInt h 2 ++ txt ":" ++ appendInt mi 2 ++ s) as [|c rest] eqn:E; [done|].
    unfold readZone. rewrite decide_True by (subst sign; case_decide; auto).
    rewrite Hrh. cbn [mbind option_bind]. rewrite expect_app. cbn [mbind option_bind]. by rewrite Hrm. }
  specialize (Hr []). rewrite app_nil_r in Hr. change ([sign] ++ ?x) with (sign :: x).
  rewrite Hr, decide_True by (split_and!; [done|lia..]). f_equal. subst sign. case_decide as Hs.
  - rewrite decide_True by done. lia.
  - rewrite decide_False by done. lia.
Qed.

(** In its zone, the instant is in a year from 0 to 9999. *)
Definition four_digit_year (t : Time) : Prop := 0 ≤ year (date (epoch + (unixSec t + zoneOffset t) / secondsPerDay)) ≤ 9999.

(** The text denotes the instant, and its zone. *)
Lemma readTime_format t : whole_zone (zoneOffset t) → four_digit_year t → readTime (appendFormatRFC3339 t) = Some (whole_second t).
Proof.
  intros Hz Hy. unfold four_digit_year in Hy. unfold appendFormatRFC3339, readTime.
  set (s := unixSec t + zoneOffset t) in *.
  destruct (date_spec (epoch + s / secondsPerDay)) as [[Hmo Hd] Hnum].
  set (dt := date (epoch + s / secondsPerDay)) in *.
  assert (Hs : 0 ≤ s mod secondsPerDay < secondsPerDay ∧ s = secondsPerDay * (s / secondsPerDay) + s mod secondsPerDay)
    by (unfold secondsPerDay; Z.to_euclidean_division_equations; lia).
  set (sod := s mod secondsPerDay) in *. set (days := s / secondsPerDay) in *. unfold secondsPerDay in Hs.
  assert (Hh : 0 ≤ sod / 3600 < 24 ∧ 0 ≤ sod / 60 mod 60 < 60 ∧ 0 ≤ sod mod 60 < 60 ∧
    sod / 3600 * 3600 + sod / 60 mod 60 * 60 + sod mod 60 = sod) by (Z.to_euclidean_division_equations; lia).
  assert (Hdm : daysInMonth (isLeap (year dt)) (month dt) ≤ 31) by (unfold daysInMonth; repeat case_decide; try destruct (isLeap _); lia).
  repeat first [rewrite readInt2 by lia | rewrite readInt4 by lia | rewrite expect_app | progress cbn [mbind option_bind]].
  rewrite readZone_appendZone by done. cbn [mbind option_bind].
  replace {| year := year dt; month := month dt; day := day dt |} with dt by (by destruct dt).
  rewrite decide_True by (split_and!; lia). rewrite Hnum. destruct t as [u n o]. unfold whole_second. cbn [unixSec zoneOffset] in *.
  do 2 f_equal. unfold secondsPerDay. subst s. lia.
Qed.

Lemma Parse_Format t : whole_zone (zoneOffset t) → four_digit_year t → Parse (Format t) = Some (whole_second t).
Proof.
  intros Hz Hy. unfold Parse, Format. rewrite String.list_ascii_of_string_of_list_ascii. by apply readTime_format.
Qed.

Example Format_examples :
  Format {| unixSec := 1714979289; nanos := 123456789; zoneOffset := 0 |} = "2024-05-06T07:08:09Z" ∧
  Format {| unixSec := 951782400; nanos := 999999999; zoneOffset := 3600 |} = "2000-02-29T01:00:00+01:00" ∧
  Format {| unixSec := -1; nanos := 0; zoneOffset := -12600 |} = "1969-12-31T20:29:59-03:30".
Proof. vm_compute. done. Qed.

(** ** The text is UTF-8 *)

Lemma valid_bytes_ascii fuel s : Forall (λ c, code c < 128) s → valid_bytes fuel s = true.
Proof.
  intros Hs. revert fuel. induction Hs as [|c s Hc _ IH]; intros [|fuel]; try done. simpl. by rewrite decide_True.
Qed.

Lemma print_digits_ascii ds : Forall is_digit ds → Forall (λ c, code c < 128) (print_digits ds).
Proof.
  intros Hds. apply Forall_fmap. eapply Forall_impl; [exact Hds|]. intros d Hd. unfold is_digit in Hd. unfold code, digit_char. simpl.
  rewrite N_ascii_embedding by lia. lia.
Qed.

Lemma appendInt_ascii x width : Forall (λ c, code c < 128) (appendInt x width).
Proof.
  unfold appendInt. apply Forall_app. split; [case_decide; by repeat constructor|]. apply print_digits_ascii.
  apply Forall_app. split; [|apply digits_digit; lia]. apply Forall_replicate. unfold is_digit. lia.
Qed.

Lemma appendFormatRFC3339_ascii t : Forall (λ c, code c < 128) (appendFormatRFC3339 t).
Proof.
  unfold appendFormatRFC3339, appendZone. case_decide; [|case_decide];
    repeat first [apply appendInt_ascii | apply Forall_app; split | by repeat constructor].
Qed.

Lemma Format_utf8 t : valid_utf8 (String.list_ascii_of_string (Format t)) = true.
Proof.
  unfold Format. rewrite String.list_ascii_of_string_of_list_ascii. apply valid_bytes_ascii, appendFormatRFC3339_ascii.
Qed.
