(* ===== verification/Logger.v ===== *)
(** * Logger: log entries ([pkg/logger/logger.go])

    The logger that [main] builds with zap, the loggers the components derive from it, and the
    entries they write.  An entry keeps the arguments of the call; which text zap makes of them is not
    modelled.  *)
From S2P Require Import Prelude GoStd.
Local Open Scope Z_scope.
Local Open Scope list_scope.

(** ** Keys and values *)

Definition KeyError : string := "error".
Definition KeyResult : string := "result".
Definition KeyGlobalAccountID : string := "GlobalAccountID".
Definition KeySubAccountID : string := "SubAccountID".
Definition KeyRuntimeID : string := "RuntimeID".
Definition KeyRuntimeState : string := "RuntimeState".
Definition KeyProvisioningStatus : string := "ProvisioningStatus".
Definition KeyDeprovisioningStatus : string := "DeprovisioningStatus".
Definition KeyWorkerID : string := "WorkerID".
Definition KeyRetry : string := "willRetry".
Definition KeyRequeue : string := "requeue".
Definition KeyShoot : string := "shoot".
Definition ValueFail : string := "fail".
Definition ValueSuccess : string := "success".
Definition ValueTrue : string := "true".
Definition ValueFalse : string := "false".

(** ** The core *)

(** [zapcore.Level], by severity. *)
Inductive Level := LDebug | LInfo | LWarn | LError | LFatal.
Definition severity (l : Level) : Z :=
  match l with LDebug => -1 | LInfo => 0 | LWarn => 1 | LError => 2 | LFatal => 5 end.
#[global] Instance Level_eq_dec : EqDecision Level.
Proof. solve_decision. Defined.

(** [zapcore.EncoderConfig]: the keys of the metadata and the encoders of time, level and caller. *)
Record EncoderConfig := {
  TimeKey : string; LevelKey : string; NameKey : string; CallerKey : string; MessageKey : string; StacktraceKey : string;
  EncodeTime : string; EncodeLevel : string; EncodeCaller : string;
}.
Inductive Encoder := NewConsoleEncoder (cfg : EncoderConfig) | NewJSONEncoder (cfg : EncoderConfig).

(** [logger.OutputFormat], a string. *)
Definition OutputFormatJSON : string := "json".
Definition OutputFormatPlain : string := "plain".

(** The core of a logger; no encoder is a nil interface. *)
Record Core := { core_encoder : option Encoder; core_level : Level }.

(** The package's variable [outputFormat] is the state. *)
Definition outputFormat : string := OutputFormatJSON.
Definition SetOutputFormat (format : string) (outputFormat : string) : string := format.

(** [newLogger]; [production] is [zap.NewProductionEncoderConfig()]. *)
Definition encoderConfig (production : EncoderConfig) : EncoderConfig := {|
  TimeKey := "timestamp"; LevelKey := LevelKey production; NameKey := NameKey production; CallerKey := "caller";
  MessageKey := "message"; StacktraceKey := StacktraceKey production;
  EncodeTime := "RFC3339TimeEncoder"; EncodeLevel := "CapitalLevelEncoder"; EncodeCaller := "ShortCallerEncoder" |}.
Definition newLogger (production : EncoderConfig) (outputFormat : string) (logLevel : Level) : Core := {|
  core_encoder :=
    if decide (outputFormat = OutputFormatPlain) then Some (NewConsoleEncoder (encoderConfig production))
    else if decide (outputFormat = OutputFormatJSON) then Some (NewJSONEncoder (encoderConfig production))
    else None;
  core_level := logLevel |}.

(** ** Sugared loggers *)

(** A value handed to a logger; [ArgURL] is the text of a URL with this query, [ArgRecord] is a cached record, the fields of the runtime and the scanners whose scans it holds. *)
Inductive LogArg :=
| ArgString (s : string)
| ArgInt (n : Z)
| ArgDuration (d : Z)
| ArgError (e : error)
| ArgRequest (req : HttpRequest)
| ArgURL (url rawQuery : string)
| ArgRecord (fields : list (string * string)) (scanned : gset string).
Coercion ArgString : string >-> LogArg.

(** The name and the fields a logger adds to its entries; the core is shared. *)
Record SugaredLogger := { logger_name : string; logger_fields : list (string * LogArg) }.
Definition NewLogger : SugaredLogger := {| logger_name := ""; logger_fields := [] |}.
Definition Named (s : string) (l : SugaredLogger) : SugaredLogger :=
  {| logger_name := if decide (logger_name l = "") then s else logger_name l +:+ "." +:+ s; logger_fields := logger_fields l |}.
Definition With (k : string) (v : LogArg) (l : SugaredLogger) : SugaredLogger :=
  {| logger_name := logger_name l; logger_fields := logger_fields l ++ [(k, v)] |}.

Record LogEntry := {
  log_level : Level;
  log_logger : SugaredLogger;
  log_format : string;
  log_args : list LogArg;
}.

(** The core writes the entries from its level on. *)
Definition written (c : Core) (entry : LogEntry) : bool := severity (core_level c) <=? severity (log_level entry).
