(* ===== verification/Duration.v ===== *)
(** * Duration: Go's [time.Duration]

    [time.ParseDuration] and [Duration.String], with which the options are read and printed, and that
    the first undoes the second. *)
From S2P Require Import Prelude GoFloat Decimal Json.
From Stdlib Require Import Ascii.
Local Open Scope Z_scope.
Local Open Scope list_scope.

(** ** Parsing *)

Definition is_digit_char (c : ascii) : bool := bool_decide (48 ≤ code c ≤ 57).
Definition digit_of (c : ascii) : Z := code c - 48.

(** [leadingInt]: the number in front, and the rest; it must not exceed [2^63]. *)
Fixpoint leadingInt (x : Z) (s : text) : option (Z * text) :=
  match s with
  | c :: s' =>
      if is_digit_char c then
        let x' := x * 10 + digit_of c in
        if decide (x' ≤ 2 ^ 63) then leadingInt x' s' else None
      else Some (x, s)
  | [] => Some (x, s)
  end.

(** [leadingFraction]: digits that would overflow are dropped. *)
Fixpoint leadingFraction (x : Z) (scale : float64) (overflow : bool) (s : text) : Z * float64 * text :=
  match s with
  | c :: s' =>
      if is_digit_char c then
        if overflow then leadingFraction x scale overflow s' else
        if decide (x > (2 ^ 63 - 1) / 10) then leadingFraction x scale true s' else
        let y := x * 10 + digit_of c in
        if decide (y > 2 ^ 63) then leadingFraction x scale true s'
        else leadingFraction y (fmul scale (float64_of_int64 10)) false s'
      else (x, scale, s)
  | [] => (x, scale, s)
  end.

Definition Nanosecond : Z := 1.
Definition Microsecond : Z := 1000 * Nanosecond.
Definition Millisecond : Z := 1000 * Microsecond.
Definition Second : Z := 1000 * Millisecond.
Definition Minute : Z := 60 * Second.
Definition Hour : Z := 60 * Minute.

(** The two letters mu of Unicode. *)
Definition micro_sign : text := [char 0xC2; char 0xB5].
Definition greek_mu : text := [char 0xCE; char 0xBC].

Definition unitMap (u : text) : option Z :=
  if decide (u = txt "ns") then Some Nanosecond else
  if decide (u = txt "us" ∨ u = micro_sign ++ txt "s" ∨ u = greek_mu ++ txt "s") then Some Microsecond else
  if decide (u = txt "ms") then Some Millisecond else
  if decide (u = txt "s") then Some Second else
  if decide (u = txt "m") then Some Minute else
  if decide (u = txt "h") then Some Hour else None.

Definition in_number (c : ascii) : bool := is_digit_char c || bool_decide (code c = 46).

Fixpoint span_unit (s : text) : text * text :=
  match s with
  | c :: s' => if in_number c then ([], s) else let '(u, rest) := span_unit s' in (c :: u, rest)
  | [] => ([], [])
  end.

(** A number with its unit in front of the text: its value and the rest. *)
Definition parse_component (s : text) : option (Z * text) :=
  match s with
  | [] => None
  | c :: _ =>
      if negb (in_number c) then None else
      '(v, s1) ← leadingInt 0 s;
      let pre := bool_decide (length s1 ≠ length s) in
      let '(f, scale, s2, post) :=
        match s1 with
        | d :: s1' =>
            if decide (code d = 46) then
              let '(f, scale, s2) := leadingFraction 0 (float64_of_int64 1) false s1' in
              (f, scale, s2, bool_decide (length s2 ≠ length s1'))
            else (0, float64_of_int64 1, s1, false)
        | [] => (0, float64_of_int64 1, s1, false)
        end in
      if negb pre && negb post then None else
      let '(u, s3) := span_unit s2 in
      unit ← unitMap u;
      if decide (v > 2 ^ 63 / unit) then None else
      let v := v * unit in
      let v := if decide (f > 0) then v + int64_of_float64 (fmul (float64_of_int64 f) (fdiv (float64_of_int64 unit) scale)) else v in
      if decide (v > 2 ^ 63) then None else Some (v, s3)
  end.

(** The loop; [d] is a [uint64].  Every component takes a character. *)
Fixpoint parse_components (fuel : nat) (d : Z) (s : text) : option Z :=
  match s, fuel with
  | [], _ => Some d
  | _, O => None
  | _, S fuel' =>
      '(v, rest) ← parse_component s;
      let d := (d + v) mod 2 ^ 64 in
      if decide (d > 2 ^ 63) then None else parse_components fuel' d rest
  end.

Definition ParseDuration (s : text) : option Z :=
  let '(neg, s) :=
    match s with
    | c :: s' => if decide (code c = 45) then (true, s') else if decide (code c = 43) then (false, s') else (false, s)
    | [] => (false, s)
    end in
  if decide (s = txt "0") then Some 0 else
  if decide (s = []) then None else
  d ← parse_components (length s) 0 s;
  if (neg : bool) then Some (wrap64 (- d)) else
  if decide (d > 2 ^ 63 - 1) then None else Some d.

(** ** Printing *)

(** [fmtFrac]: the fraction [v / 10^prec] without trailing zeros, and the integer part. *)
Fixpoint fmtFrac (prec : nat) (v : Z) (printing : bool) (acc : text) : text * Z :=
  match prec with
  | O => (if printing then txt "." ++ acc else acc, v)
  | S prec' =>
      let digit := v mod 10 in
      let printing := printing || bool_decide (digit ≠ 0) in
      fmtFrac prec' (v / 10) printing (if printing then digit_char digit :: acc else acc)
  end.

Definition fmtInt (v : Z) : text := print_digits (digits v).

Definition Duration_String (d : Z) : text :=
  let u := Z.abs d in
  let body :=
    if decide (u < Second) then
      if decide (u = 0) then txt "0s" else
      let '(prec, unit) :=
        if decide (u < Microsecond) then (0%nat, txt "ns") else
        if decide (u < Millisecond) then (3%nat, micro_sign ++ txt "s") else (6%nat, txt "ms") in
      let '(frac, u) := fmtFrac prec u false [] in fmtInt u ++ frac ++ unit
    else
      let '(frac, u) := fmtFrac 9 u false [] in
      let seconds := fmtInt (u mod 60) ++ frac ++ txt "s" in
      let u := u / 60 in
      if decide (u = 0) then seconds else
      let minutes := fmtInt (u mod 60) ++ txt "m" ++ seconds in
      let u := u / 60 in
      if decide (u = 0) then minutes else fmtInt u ++ txt "h" ++ minutes in
  if decide (d < 0) then txt "-" ++ body else body.

(** ** The round trip *)

Definition starts_digit (s : text) : bool := match s with c :: _ => is_digit_char c | [] => false end.

Lemma digit_char_code d : is_digit d → code (digit_char d) = 48 + d.
Proof. unfold is_digit, code, digit_char. intros Hd. rewrite N_ascii_embedding; lia. Qed.

Lemma digit_char_is d : is_digit d → is_digit_char (digit_char d) = true ∧ digit_of (digit_char d) = d.
Proof.
  intros Hd. unfold is_digit_char, digit_of. rewrite digit_char_code by done. unfold is_digit in Hd.
  rewrite bool_decide_true by lia. lia.
Qed.

Lemma value_bounds ds : Forall is_digit ds → 0 ≤ value ds < 10 ^ Z.of_nat (length ds).
Proof.
  induction ds as [|d ds IH] using rev_ind; intros Hd; [unfold value; simpl; lia|].
  apply Forall_app in Hd as [Hds Hd]. apply Forall_cons in Hd as [Hd _]. unfold is_digit in Hd. specialize (IH Hds).
  rewrite value_snoc, length_app. simpl length. rewrite Nat2Z.inj_add, Z.pow_add_r by lia. change (10 ^ Z.of_nat 1) with 10. lia.
Qed.

Lemma value_cons d ds : value (d :: ds) = d * 10 ^ Z.of_nat (length ds) + value ds.
Proof. change (d :: ds) with ([d] ++ ds). rewrite value_app. unfold value at 1. simpl. lia. Qed.

Lemma leadingInt_digits ds rest x : Forall is_digit ds → starts_digit rest = false → 0 ≤ x →
  x * 10 ^ Z.of_nat (length ds) + value ds ≤ 2 ^ 63 →
  leadingInt x (print_digits ds ++ rest) = Some (x * 10 ^ Z.of_nat (length ds) + value ds, rest).
Proof.
  intros Hds Hrest. revert x. induction Hds as [|d ds Hd Hds IH]; intros x Hx Hle.
  - change (print_digits [] ++ rest) with rest. unfold value. simpl. rewrite Z.mul_1_r, Z.add_0_r.
    destruct rest as [|c rest]; [done|]. simpl in *. by rewrite Hrest.
  - change (print_digits (d :: ds) ++ rest) with (digit_char d :: (print_digits ds ++ rest)). cbn [leadingInt].
    destruct (digit_char_is d Hd) as [-> ->]. rewrite value_cons in *. simpl length in *.
    rewrite Nat2Z.inj_succ, Z.pow_succ_r in * by lia. unfold is_digit in Hd.
    pose proof (value_bounds ds Hds). pose proof (Z.pow_pos_nonneg 10 (Z.of_nat (length ds)) eq_refl ltac:(lia)).
    rewrite decide_True by nia. rewrite IH by nia. f_equal. f_equal. ring.
Qed.

(** The scale after [k] digits. *)
Lemma scale_step k : (k < 9)%nat →
  fmul (float64_of_int64 (10 ^ Z.of_nat k)) (float64_of_int64 10) = float64_of_int64 (10 ^ Z.of_nat (S k)).
Proof. intros Hk. do 9 (destruct k as [|k]; [vm_compute; reflexivity|]). lia. Qed.

Lemma leadingFraction_digits ds rest x k : Forall is_digit ds → starts_digit rest = false →
  (k + length ds ≤ 9)%nat → 0 ≤ x < 10 ^ Z.of_nat k →
  leadingFraction x (float64_of_int64 (10 ^ Z.of_nat k)) false (print_digits ds ++ rest) =
    (x * 10 ^ Z.of_nat (length ds) + value ds, float64_of_int64 (10 ^ Z.of_nat (k + length ds)), rest).
Proof.
  intros Hds Hrest. revert x k. induction Hds as [|d ds Hd Hds IH]; intros x k Hk Hx.
  - change (print_digits [] ++ rest) with rest. unfold value. simpl. rewrite Z.mul_1_r, Z.add_0_r, Nat.add_0_r.
    destruct rest as [|c rest]; [done|]. simpl in *. by rewrite Hrest.
  - change (print_digits (d :: ds) ++ rest) with (digit_char d :: (print_digits ds ++ rest)). cbn [leadingFraction].
    destruct (digit_char_is d Hd) as [-> ->]. simpl length in *.
    assert (Hpow : 10 ^ Z.of_nat k ≤ 10 ^ 8) by (apply Z.pow_le_mono_r; lia). unfold is_digit in Hd.
    rewrite decide_False by (change ((2 ^ 63 - 1) / 10) with 922337203685477580; lia).
    rewrite decide_False by lia. rewrite scale_step by lia. rewrite IH; [|lia|].
    + rewrite value_cons, Nat2Z.inj_succ, Z.pow_succ_r by lia. replace (k + S (length ds))%nat with (S k + length ds)%nat by lia. do 2 f_equal. ring.
    + rewrite Nat2Z.inj_succ, Z.pow_succ_r by lia. lia.
Qed.

(** ** One number with its unit *)

Definition unit_text (u : text) (unit : Z) : Prop :=
  u ≠ [] ∧ Forall (λ c, in_number c = false) u ∧ unitMap u = Some unit ∧ 0 < unit.

(** What follows a unit. *)
Definition after_unit (rest : text) : Prop := match rest with [] => True | c :: _ => in_number c = true end.

Lemma span_unit_app u rest : Forall (λ c, in_number c = false) u → after_unit rest → span_unit (u ++ rest) = (u, rest).
Proof.
  intros Hu Hrest. induction Hu as [|c u Hc _ IH]; [destruct rest as [|c rest]; [done|]; simpl; by rewrite Hrest|].
  change ((c :: u) ++ rest) with (c :: (u ++ rest)). cbn [span_unit]. by rewrite Hc, IH.
Qed.

(** The fraction as it is printed. *)
Definition frac_text (ds : list Z) : text := match ds with [] => [] | _ => txt "." ++ print_digits ds end.

(** [unit] divided by [10^k] is a whole number of nanoseconds, exactly so in floats. *)
Definition splits (unit : Z) (k : nat) : Prop :=
  unit = unit / 10 ^ Z.of_nat k * 10 ^ Z.of_nat k ∧ unit < 2 ^ 43 ∧
  fdiv (float64_of_int64 unit) (float64_of_int64 (10 ^ Z.of_nat k)) = float64_of_int64 (unit / 10 ^ Z.of_nat k).

Lemma splits_pow10 p k : (k ≤ p ≤ 9)%nat → splits (10 ^ Z.of_nat p) k.
Proof.
  intros Hk. unfold splits. do 10 (destruct p as [|p]; [do 10 (destruct k as [|k];
    [first [lia|split_and!; vm_compute; reflexivity]|]); lia|]). lia.
Qed.

Lemma digits_nonempty q : 0 ≤ q → digits q ≠ [].
Proof. intros Hq He. pose proof (digits_head q Hq) as H. by rewrite He in H. Qed.

Lemma parse_component_spec q ds u unit rest : 0 ≤ q → Forall is_digit ds → (length ds ≤ 9)%nat →
  unit_text u unit → after_unit rest → splits unit (length ds) →
  q * unit + value ds * (unit / 10 ^ Z.of_nat (length ds)) ≤ 2 ^ 63 →
  parse_component (fmtInt q ++ frac_text ds ++ u ++ rest) =
    Some (q * unit + value ds * (unit / 10 ^ Z.of_nat (length ds)), rest).
Proof.
  intros Hq Hds Hlen (Hne & Hu & Hunit & Hpos) Hrest (Hsplit & Hg & Hdiv) Hle.
  set (g := unit / 10 ^ Z.of_nat (length ds)) in *. pose proof (value_bounds ds Hds) as Hv.
  assert (Hg0 : 0 < g) by nia. unfold fmtInt. pose proof (digits_value q Hq) as Hqv. pose proof (digits_digit q Hq) as Hqd.
  pose proof (digits_nonempty q Hq) as Hqne. set (qs := digits q) in *.
  assert (Hux : starts_digit (u ++ rest) = false ∧ ∀ c t, u ++ rest = c :: t → code c ≠ 46).
  { destruct u as [|c u]; [done|]. apply Forall_cons in Hu as [Hc _]. unfold in_number in Hc. apply orb_false_iff in Hc as [Hc1 Hc2].
    split; [exact Hc1|]. intros c' t [= <- _]. by apply bool_decide_eq_false in Hc2. }
  destruct Hux as [Hud Hudot].
  assert (Hfd : starts_digit (frac_text ds ++ u ++ rest) = false) by (by destruct ds).
  assert (Hq63 : value qs ≤ 2 ^ 63) by nia.
  pose proof (leadingInt_digits qs (frac_text ds ++ u ++ rest) 0 Hqd Hfd ltac:(lia) ltac:(lia)) as Hlead.
  rewrite Z.mul_0_l, Z.add_0_l, Hqv in Hlead.
  destruct qs as [|q0 qs']; [done|]. apply Forall_cons in Hqd as [Hq0 _].
  change (print_digits (q0 :: qs') ++ frac_text ds ++ u ++ rest)
    with (digit_char q0 :: (print_digits qs' ++ frac_text ds ++ u ++ rest)) in *.
  unfold parse_component. unfold in_number at 1. destruct (digit_char_is q0 Hq0) as [-> _]. cbn [negb orb].
  rewrite Hlead. cbn [mbind option_bind].
  rewrite (bool_decide_true (length (frac_text ds ++ u ++ rest) ≠ _)) by (cbn [length]; rewrite (length_app (print_digits qs')); lia).
  cbn [negb andb]. destruct ds as [|d ds].
  - change (frac_text [] ++ u ++ rest) with (u ++ rest). destruct (u ++ rest) as [|c t] eqn:Hut; [by destruct u|].
    rewrite decide_False by (by apply (Hudot c t)). rewrite <- Hut, span_unit_app by done.
    rewrite Hunit. cbn [mbind option_bind]. unfold value in *. simpl foldl in *. simpl length in *.
    assert (Hdq : q ≤ 2 ^ 63 / unit) by (apply Z.div_le_lower_bound; lia).
    rewrite (decide_False (P := q > 2 ^ 63 / unit)) by lia. rewrite (decide_False (P := 0 > 0)) by lia.
    rewrite decide_False by lia. f_equal. f_equal. lia.
  - change (frac_text (d :: ds) ++ u ++ rest) with ("."%char :: ((print_digits (d :: ds)) ++ u ++ rest)).
    cbv beta iota. rewrite decide_True by done.
    pose proof (leadingFraction_digits (d :: ds) (u ++ rest) 0 0 Hds Hud ltac:(simpl in *; lia) ltac:(simpl; lia)) as Hfrac.
    change (10 ^ Z.of_nat 0) with 1 in Hfrac. rewrite Hfrac, Z.mul_0_l, Z.add_0_l.
    rewrite span_unit_app by done. rewrite Hunit. cbn [mbind option_bind].
    assert (Hdq : q ≤ 2 ^ 63 / unit) by (apply Z.div_le_lower_bound; nia).
    rewrite (decide_False (P := q > 2 ^ 63 / unit)) by lia.
    change (0 + length (d :: ds))%nat with (length (d :: ds)). rewrite Hdiv.
    assert (Hpow : 10 ^ Z.of_nat (length (d :: ds)) ≤ 10 ^ 9) by (apply Z.pow_le_mono_r; lia).
    destruct (decide (value (d :: ds) > 0)) as [Hf|Hf].
    + assert (Hfg : value (d :: ds) * g < unit) by nia. assert (g ≤ unit) by nia.
      rewrite fmul_int, int64_of_float64_of_int by lia. by rewrite decide_False by lia.
    + replace (value (d :: ds)) with 0 by lia. rewrite decide_False by lia. f_equal. f_equal. lia.
Qed.

(** ** The fraction that is printed *)

Lemma fmtFrac_run n v ds k F : Forall is_digit ds → (length ds ≤ k)%nat →
  value ds * 10 ^ Z.of_nat (k - length ds) = F → ∃ ds', Forall is_digit ds' ∧ (length ds' ≤ k + n)%nat ∧
  value ds' * 10 ^ Z.of_nat (k + n - length ds') = v mod 10 ^ Z.of_nat n * 10 ^ Z.of_nat k + F ∧
  fmtFrac n v (bool_decide (ds ≠ [])) (print_digits ds) = (frac_text ds', v / 10 ^ Z.of_nat n).
Proof.
  revert v ds k F. induction n as [|n IH]; intros v ds k F Hds Hlen HF.
  { exists ds. rewrite Nat.add_0_r. change (10 ^ Z.of_nat 0) with 1. rewrite Z.mod_1_r, Z.div_1_r.
    split_and!; [done|done|lia|]. by destruct ds. }
  cbn [fmtFrac]. pose proof (Z.mod_pos_bound v 10 eq_refl) as Hm.
  assert (Hstep : v mod 10 ^ Z.of_nat (S n) = v mod 10 + 10 * (v / 10 mod 10 ^ Z.of_nat n)).
  { rewrite Nat2Z.inj_succ, Z.pow_succ_r by lia. apply Z.rem_mul_r; [done|]. apply Z.pow_pos_nonneg; lia. }
  assert (Hdiv : v / 10 / 10 ^ Z.of_nat n = v / 10 ^ Z.of_nat (S n)).
  { rewrite Nat2Z.inj_succ, Z.pow_succ_r by lia. apply Z.div_div; [done|]. apply Z.pow_pos_nonneg; lia. }
  destruct (decide (ds = [] ∧ v mod 10 = 0)) as [[-> Hz]|Hne].
  - destruct (IH (v / 10) [] (S k) F) as (ds' & Hds' & Hl' & HF' & Hrun); [done|simpl; lia|done|].
    assert (Hp : bool_decide (@nil Z ≠ []) || bool_decide (v mod 10 ≠ 0) = false) by (by rewrite Hz).
    rewrite Hp. change (bool_decide (@nil Z ≠ [])) with false in Hrun. change (print_digits []) with (@nil ascii) in *.
    rewrite Hrun, Hdiv. exists ds'. split_and!; [done|lia| |done].
    replace (k + S n)%nat with (S k + n)%nat by lia. rewrite HF', Hstep, Hz, Nat2Z.inj_succ, Z.pow_succ_r by lia. ring.
  - assert (Hp : bool_decide (ds ≠ []) || bool_decide (v mod 10 ≠ 0) = true).
    { destruct ds; [|done]. rewrite (bool_decide_true (v mod 10 ≠ 0)) by naive_solver. apply orb_true_r. }
    rewrite Hp. destruct (IH (v / 10) (v mod 10 :: ds) (S k) (v mod 10 * 10 ^ Z.of_nat k + F)) as (ds' & Hds' & Hl' & HF' & Hrun).
    + by constructor.
    + simpl. lia.
    + rewrite value_cons. cbn [length]. replace (S k - S (length ds))%nat with (k - length ds)%nat by lia.
      rewrite <- HF, Z.mul_add_distr_r, <- Z.mul_assoc, <- Z.pow_add_r by lia. do 3 f_equal. lia.
    + rewrite bool_decide_true in Hrun by done. change (print_digits (v mod 10 :: ds)) with
        (digit_char (v mod 10) :: print_digits ds) in Hrun. rewrite Hrun, Hdiv. exists ds'. split_and!; [done|lia| |done].
      replace (k + S n)%nat with (S k + n)%nat by lia. rewrite HF', Hstep, Nat2Z.inj_succ, Z.pow_succ_r by lia. ring.
Qed.

Lemma fmtFrac_spec n v : ∃ ds, Forall is_digit ds ∧ (length ds ≤ n)%nat ∧
  value ds * 10 ^ Z.of_nat (n - length ds) = v mod 10 ^ Z.of_nat n ∧
  fmtFrac n v false [] = (frac_text ds, v / 10 ^ Z.of_nat n).
Proof.
  destruct (fmtFrac_run n v [] 0 0) as (ds & Hds & Hlen & HF & Hrun); [done|done|done|].
  exists ds. split_and!; [done|done| |done]. change (10 ^ Z.of_nat 0) with 1 in HF. change (0 + n)%nat with n in HF. lia.
Qed.

(** ** All components *)

(** A number, its fraction and its unit. *)
Record component := { whole : Z; fraction : list Z; unit_name : text; unit_value : Z }.
Definition component_text (c : component) : text := fmtInt (whole c) ++ frac_text (fraction c) ++ unit_name c.
Definition component_value (c : component) : Z :=
  whole c * unit_value c + value (fraction c) * (unit_value c / 10 ^ Z.of_nat (length (fraction c))).
Record component_ok (c : component) : Prop := {
  ok_whole : 0 ≤ whole c;
  ok_digits : Forall is_digit (fraction c);
  ok_length : (length (fraction c) ≤ 9)%nat;
  ok_unit : unit_text (unit_name c) (unit_value c);
  ok_splits : splits (unit_value c) (length (fraction c));
}.

Lemma component_value_nonneg c : component_ok c → 0 ≤ component_value c.
Proof.
  intros [Hw Hd _ (_ & _ & _ & Hu) _]. pose proof (value_bounds _ Hd). unfold component_value.
  assert (0 ≤ unit_value c / 10 ^ Z.of_nat (length (fraction c)))
    by (apply Z.div_pos; [lia|]; apply Z.pow_pos_nonneg; lia). nia.
Qed.

Lemma component_text_head c : component_ok c → ∃ x y t, component_text c = x :: y :: t ∧ is_digit_char x = true.
Proof.
  intros [Hw _ _ (Hne & _) _]. unfold component_text, fmtInt. pose proof (digits_nonempty _ Hw) as Hq.
  pose proof (digits_digit _ Hw) as Hd. destruct (digits (whole c)) as [|q qs]; [done|]. apply Forall_cons in Hd as [Hd _].
  destruct (print_digits qs ++ frac_text (fraction c) ++ unit_name c) as [|y t] eqn:Ht.
  - apply app_eq_nil in Ht as [_ Ht]. apply app_eq_nil in Ht as [_ Ht]. by rewrite Ht in Hne.
  - exists (digit_char q), y, t. split; [|by apply digit_char_is].
    change (print_digits (q :: qs) ++ ?x) with (digit_char q :: (print_digits qs ++ x)). by rewrite Ht.
Qed.

Definition components_text (cs : list component) : text := concat (component_text <$> cs).
Definition components_value (cs : list component) : Z := foldr (λ c n, component_value c + n) 0 cs.

Lemma components_after cs : Forall component_ok cs → after_unit (components_text cs).
Proof.
  intros Hcs. destruct Hcs as [|c cs Hc _]; [done|]. destruct (component_text_head c Hc) as (x & y & t & Hx & Hd).
  unfold components_text. cbn [fmap list_fmap concat]. rewrite Hx. simpl. unfold in_number. by rewrite Hd.
Qed.

Lemma components_value_nonneg cs : Forall component_ok cs → 0 ≤ components_value cs.
Proof. induction 1 as [|c cs Hc _ IH]; [done|]. simpl. pose proof (component_value_nonneg c Hc). lia. Qed.

Lemma parse_components_all cs fuel d : Forall component_ok cs → (length cs ≤ fuel)%nat → 0 ≤ d →
  d + components_value cs ≤ 2 ^ 63 → parse_components fuel d (components_text cs) = Some (d + components_value cs).
Proof.
  intros Hcs. revert fuel d. induction Hcs as [|c cs Hc Hcs IH]; intros fuel d Hf Hd Hle.
  { unfold components_value. simpl. rewrite Z.add_0_r. by destruct fuel. }
  destruct fuel as [|fuel]; [simpl in Hf; lia|].
  assert (Hcv : components_value (c :: cs) = component_value c + components_value cs) by done.
  pose proof (component_value_nonneg c Hc). pose proof (components_value_nonneg cs Hcs).
  pose proof (components_after cs Hcs) as Hafter. destruct (component_text_head c Hc) as (x & y & t & Hx & _).
  assert (Hparse : parse_component (component_text c ++ components_text cs) = Some (component_value c, components_text cs)).
  { destruct Hc. unfold component_text. rewrite <- !app_assoc. apply parse_component_spec; try done. unfold component_value in *. lia. }
  change (components_text (c :: cs)) with (component_text c ++ components_text cs). rewrite Hx in *.
  change ((x :: y :: t) ++ ?z) with (x :: ((y :: t) ++ z)) in *. cbn [parse_components].
  rewrite Hparse. cbn [mbind option_bind]. rewrite Z.mod_small by lia. rewrite decide_False by lia.
  rewrite IH by (simpl in Hf; lia). f_equal. lia.
Qed.

(** What [fmtFrac] prints is the fraction of a component. *)
Lemma frac_component prec u v : (prec ≤ 9)%nat → unit_text u (10 ^ Z.of_nat prec) → ∃ ds,
  fmtFrac prec v false [] = (frac_text ds, v / 10 ^ Z.of_nat prec) ∧
  ∀ q, 0 ≤ q → let c := {| whole := q; fraction := ds; unit_name := u; unit_value := 10 ^ Z.of_nat prec |} in
    component_ok c ∧ component_value c = q * 10 ^ Z.of_nat prec + v mod 10 ^ Z.of_nat prec.
Proof.
  intros Hp Hu. destruct (fmtFrac_spec prec v) as (ds & Hds & Hlen & HF & ->). exists ds. split; [done|]. intros q Hq. split.
  - split; cbn; [done|done|lia|done|by apply splits_pow10].
  - unfold component_value. cbn [whole fraction unit_value]. rewrite <- Z.pow_sub_r by lia.
    replace (Z.of_nat prec - Z.of_nat (length ds)) with (Z.of_nat (prec - length ds)) by lia. lia.
Qed.

Definition plain (q : Z) (u : string) (unit : Z) : component :=
  {| whole := q; fraction := []; unit_name := txt u; unit_value := unit |}.

Lemma plain_ok q u unit : 0 ≤ q → (u, unit) ∈ [("m", Minute); ("h", Hour)] →
  component_ok (plain q u unit) ∧ component_value (plain q u unit) = q * unit ∧
  component_text (plain q u unit) = fmtInt q ++ txt u.
Proof.
  intros Hq Hin. rewrite !elem_of_cons, elem_of_nil in Hin. destruct Hin as [[= -> ->]|[[= -> ->]|[]]].
  all: split_and!; [|unfold component_value; cbn -[Minute Hour]; unfold value; simpl foldl; lia|done].
  all: split; cbn; [done|done|lia|split_and!; [done|repeat constructor|done|done]|split_and!; vm_compute; reflexivity].
Qed.

(** Every duration is printed as one to three components. *)
Lemma Duration_String_components d : ∃ cs, Forall component_ok cs ∧ components_value cs = Z.abs d ∧ cs ≠ [] ∧
  Duration_String d = (if decide (d < 0) then txt "-" else []) ++ components_text cs.
Proof.
  assert (Hsign : ∀ body : text, (if decide (d < 0) then txt "-" ++ body else body) =
    (if decide (d < 0) then txt "-" else []) ++ body) by (intros body; by case_decide).
  assert (Hone : ∀ c, components_text [c] = component_text c ∧ components_value [c] = component_value c)
    by (intros c; unfold components_text, components_value; simpl; rewrite app_nil_r; split; [done|lia]).
  unfold Duration_String. rewrite Hsign. assert (Hu : 0 ≤ Z.abs d) by lia. revert Hu.
  generalize (Z.abs d) as u. intros u Hu.
  destruct (decide (u < Second)) as [Hs|Hs]; [destruct (decide (u = 0)) as [Hz|Hz]|].
  - subst u. exists [{| whole := 0; fraction := []; unit_name := txt "s"; unit_value := Second |}].
    split_and!; [|reflexivity|done|reflexivity]. repeat constructor; try done; vm_compute; (reflexivity || discriminate || idtac).
  - assert (Hc : ∃ prec name, (if decide (u < Microsecond) then (0%nat, txt "ns") else
        if decide (u < Millisecond) then (3%nat, micro_sign ++ txt "s") else (6%nat, txt "ms")) = (prec, name) ∧
        (prec ≤ 9)%nat ∧ unit_text name (10 ^ Z.of_nat prec)).
    { repeat case_decide; do 2 eexists; (split_and!; [reflexivity|lia|]);
        (split_and!; [done|repeat constructor|reflexivity|reflexivity]). }
    destruct Hc as (prec & name & -> & Hp & Hname). destruct (frac_component prec name u Hp Hname) as (ds & -> & Hc).
    assert (Hpow : 0 < 10 ^ Z.of_nat prec) by (apply Z.pow_pos_nonneg; lia).
    destruct (Hc (u / 10 ^ Z.of_nat prec) ltac:(by apply Z.div_pos)) as [Hok Hv].
    eexists [_]. rewrite (proj1 (Hone _)), (proj2 (Hone _)). split_and!; [by constructor| |done|reflexivity].
    rewrite Hv. pose proof (Z.div_mod u (10 ^ Z.of_nat prec)). lia.
  - assert (Hname : unit_text (txt "s") (10 ^ Z.of_nat 9)) by (split_and!; [done|repeat constructor|done|done]).
    destruct (frac_component 9 (txt "s") u ltac:(lia) Hname) as (ds & -> & Hc).
    change (10 ^ Z.of_nat 9) with Second in *. set (sec := u / Second) in *.
    assert (Hsec : 0 ≤ sec) by (by apply Z.div_pos).
    assert (Hdm : u = Second * sec + u mod Second) by (by apply Z.div_mod).
    destruct (Hc (sec mod 60) ltac:(by apply Z.mod_pos_bound)) as [Hok Hv]. set (c := {| whole := sec mod 60 |}) in *.
    change (fmtInt (sec mod 60) ++ frac_text ds ++ txt "s") with (component_text c).
    pose proof (Z.div_mod sec 60 ltac:(done)) as Hm. pose proof (Z.div_pos sec 60 Hsec ltac:(done)) as Hm0.
    set (min := sec / 60) in *. destruct (decide (min = 0)) as [Hmin|Hmin].
    { exists [c]. destruct (Hone c) as [-> ->]. split_and!; [by constructor|lia|done|done]. }
    pose proof (Z.div_mod min 60 ltac:(done)) as Hh. pose proof (Z.div_pos min 60 Hm0 ltac:(done)) as Hh0.
    destruct (plain_ok (min mod 60) "m" Minute) as (Hokm & Hvm & Htm); [by apply Z.mod_pos_bound|by left|].
    set (hour := min / 60) in *. destruct (decide (hour = 0)) as [Hhour|Hhour].
    { exists [plain (min mod 60) "m" Minute; c]. split_and!; [by rewrite !Forall_cons, Forall_nil| |done|].
      - unfold components_value. simpl. rewrite Hvm, Hv. unfold Minute. lia.
      - unfold components_text. cbn [fmap list_fmap concat]. f_equal. by rewrite Htm, app_nil_r, <- app_assoc. }
    destruct (plain_ok hour "h" Hour) as (Hokh & Hvh & Hth); [done|right; by left|].
    exists [plain hour "h" Hour; plain (min mod 60) "m" Minute; c]. split_and!; [by rewrite !Forall_cons, Forall_nil| |done|].
    + unfold components_value. simpl. rewrite Hvh, Hvm, Hv. unfold Hour, Minute. lia.
    + unfold components_text. cbn [fmap list_fmap concat]. f_equal. by rewrite Hth, Htm, app_nil_r, <- !app_assoc.
Qed.

Lemma components_text_head cs : Forall component_ok cs → cs ≠ [] →
  ∃ x y t, components_text cs = x :: y :: t ∧ is_digit_char x = true.
Proof.
  intros Hcs Hne. destruct Hcs as [|c cs Hc _]; [done|]. destruct (component_text_head c Hc) as (x & y & t & Hx & Hd).
  exists x, y, (t ++ components_text cs). split; [|done]. unfold components_text. cbn [fmap list_fmap concat]. by rewrite Hx.
Qed.

Lemma components_text_length cs : Forall component_ok cs → (length cs ≤ length (components_text cs))%nat.
Proof.
  induction 1 as [|c cs Hc _ IH]; [simpl; lia|]. destruct (component_text_head c Hc) as (x & y & t & Hx & _).
  change (components_text (c :: cs)) with (component_text c ++ components_text cs). rewrite Hx, length_app. simpl. lia.
Qed.

(** [ParseDuration] reads what [String] prints, for all durations. *)
Lemma ParseDuration_String d : in_int64 d → ParseDuration (Duration_String d) = Some d.
Proof.
  intros Hd. unfold in_int64, min_int64, max_int64 in Hd.
  destruct (Duration_String_components d) as (cs & Hok & Hv & Hne & ->).
  destruct (components_text_head cs Hok Hne) as (x & y & t & Hx & Hdig). unfold is_digit_char in Hdig.
  apply bool_decide_eq_true in Hdig.
  pose proof (parse_components_all cs (length (components_text cs)) 0 Hok (components_text_length cs Hok) ltac:(lia) ltac:(lia)) as Hp.
  rewrite Z.add_0_l, Hv in Hp.
  assert (Hnz : components_text cs ≠ txt "0" ∧ components_text cs ≠ []) by (by rewrite Hx).
  unfold ParseDuration. destruct (decide (d < 0)) as [Hneg|Hneg].
  - change (txt "-" ++ components_text cs) with ("-"%char :: components_text cs).
    cbv beta iota. rewrite decide_True by done. rewrite !decide_False by apply Hnz. rewrite Hp. cbn [mbind option_bind].
    f_equal. replace (- Z.abs d) with d by lia. apply wrap64_id. unfold in_int64, min_int64, max_int64. lia.
  - change ([] ++ components_text cs) with (components_text cs). rewrite Hx in *.
    rewrite (decide_False (P := code x = 45)) by lia. rewrite (decide_False (P := code x = 43)) by lia.
    rewrite !decide_False by apply Hnz. rewrite Hp. cbn [mbind option_bind]. rewrite decide_False by lia. f_equal. lia.
Qed.
