(* ===== verification/Resource.v ===== *)
(** * Resource: measurements, scans and runtime information

    The data of [pkg/resource/structures.go] and [pkg/runtime/runtime.go], and the
    interface [resource.ScanConverter] of [pkg/resource/interface.go] as a type
    class. *)
From S2P Require Import Prelude GoStd GoFloat.
Local Open Scope Z_scope.
Local Open Scope list_scope.

(** ** Data *)

Record VMType := { Name : string; VMCount : Z }.

Record ProvisionedVolumes := { SizeGbTotal : Z; Count : Z; SizeGbRounded : Z }.

Record EDPMeasurement := {
  VMTypes : list VMType;
  ProvisionedCPUs : float64;
  ProvisionedRAMGb : float64;
  Volumes : ProvisionedVolumes;
}.

Record UMMeasurement := {}.

Definition zeroVolumes : ProvisionedVolumes :=
  {| SizeGbTotal := 0; Count := 0; SizeGbRounded := 0 |}.

(** The zero value [resource.EDPMeasurement{}]. *)
Definition zeroMeasurement : EDPMeasurement :=
  {| VMTypes := []; ProvisionedCPUs := S754_zero false; ProvisionedRAMGb := S754_zero false;
     Volumes := zeroVolumes |}.

#[global] Instance VMType_eq_dec : EqDecision VMType.
Proof. solve_decision. Defined.
#[global] Instance ProvisionedVolumes_eq_dec : EqDecision ProvisionedVolumes.
Proof. solve_decision. Defined.

(** [runtime.Info]; the [Kubeconfig] and [Client] fields are never read. *)
Record Info := {
  Info_InstanceID : string;
  Info_RuntimeID : string;
  Info_SubAccountID : string;
  Info_GlobalAccountID : string;
  Info_ShootName : string;
  Info_ProviderType : string;
}.

(** [resource.ScannerID]. *)
Abbreviation ScannerID := string.

(** The order in which a Go [range] visits the keys of a map: unspecified, and
    chosen anew for each loop. *)
Abbreviation RangeOrder := (list string → list string).
Definition valid_order (ord : RangeOrder) : Prop := ∀ l, ord l ≡ₚ l.

(** [resource.ScanConverter]: what a scan promises its collector. *)
Class ScanConverter (S : Type) := {
  UM : Z → S → UMMeasurement * option error;
  EDP : RangeOrder → S → EDPMeasurement * option error;
}.

(** Measurements that bill the same: the machine types may come in another order. *)
Definition measurement_equiv (m1 m2 : EDPMeasurement) : Prop :=
  VMTypes m1 ≡ₚ VMTypes m2 ∧ ProvisionedCPUs m1 = ProvisionedCPUs m2 ∧
  ProvisionedRAMGb m1 = ProvisionedRAMGb m2 ∧ Volumes m1 = Volumes m2.
#[global] Instance EDPMeasurement_equiv : Equiv EDPMeasurement := measurement_equiv.
#[global] Instance EDPMeasurement_equivalence : Equivalence (≡@{EDPMeasurement}).
Proof.
  split.
  - intros m. by repeat split.
  - intros m1 m2 (?&?&?&?). by repeat split.
  - intros m1 m2 m3 (?&?&?&?) (?&?&?&?). split_and!; [by etrans|congruence..].
Qed.

(** What a converter promises: whether it fails, and what it bills, does not depend on the
    order in which Go ranges over a map. *)
Class ScanConverterLaws (S : Type) {SC : ScanConverter S} : Prop :=
  EDP_order ord ord' s : valid_order ord → valid_order ord' →
    (EDP ord s).2 = (EDP ord' s).2 ∧ (EDP ord s).1 ≡ (EDP ord' s).1.

(** ** Adding up volumes *)

(** The three assignments every storage scan performs for one volume:
    [SizeGbTotal += total], [SizeGbRounded += rounded], [Count += 1]. *)
Definition add_volume (v : ProvisionedVolumes) (total rounded : Z) : ProvisionedVolumes :=
  {| SizeGbTotal := add64 (SizeGbTotal v) total;
     Count := add64 (Count v) 1;
     SizeGbRounded := add64 (SizeGbRounded v) rounded |}.

Definition volumes_of (l : list (Z * Z)) : ProvisionedVolumes :=
  foldl (λ v '(t, r), add_volume v t r) zeroVolumes l.

Definition Zsum (l : list Z) : Z := foldr Z.add 0 l.

Lemma Zsum_singleton z : Zsum [z] = z.
Proof. simpl. lia. Qed.

Lemma Zsum_app l1 l2 : Zsum (l1 ++ l2) = Zsum l1 + Zsum l2.
Proof. induction l1 as [|x l1 IH]; simpl; lia. Qed.

Lemma Zsum_nonneg l : Forall (λ z, 0 ≤ z) l → 0 ≤ Zsum l.
Proof. induction 1; simpl; lia. Qed.

Lemma Zsum_bounds B l : Forall (λ z, 0 ≤ z ≤ B) l → 0 ≤ Zsum l ≤ B * Z.of_nat (length l).
Proof. induction 1; simpl; lia. Qed.

Lemma Zsum_perm l1 l2 : l1 ≡ₚ l2 → Zsum l1 = Zsum l2.
Proof. induction 1; simpl; lia. Qed.

Lemma volumes_of_snoc l t r : volumes_of (l ++ [(t, r)]) = add_volume (volumes_of l) t r.
Proof. unfold volumes_of. by rewrite foldl_app. Qed.

(** Without overflow the machine sums are the mathematical ones. *)
Lemma volumes_of_exact B l :
  Forall (λ '(t, r), 0 ≤ t ≤ B ∧ 0 ≤ r ≤ B) l → 0 < B → B * Z.of_nat (length l) < 2 ^ 63 →
  volumes_of l = {| SizeGbTotal := Zsum l.*1; Count := Z.of_nat (length l); SizeGbRounded := Zsum l.*2 |}.
Proof.
  induction l as [|[t r] l IH] using rev_ind; [done|].
  rewrite Forall_app, Forall_singleton, length_app, !fmap_app, !Zsum_app. simpl length.
  intros [Hl [Ht Hr]] HB Hlen. rewrite volumes_of_snoc, IH by (done || lia).
  assert (0 ≤ Zsum l.*1 ≤ B * Z.of_nat (length l)).
  { rewrite <- (length_fmap fst). apply Zsum_bounds, Forall_fmap.
    eapply Forall_impl; [apply Hl|]. by intros [] []. }
  assert (0 ≤ Zsum l.*2 ≤ B * Z.of_nat (length l)).
  { rewrite <- (length_fmap snd). apply Zsum_bounds, Forall_fmap.
    eapply Forall_impl; [apply Hl|]. by intros [] []. }
  change ([(t, r)].*1) with [t]. change ([(t, r)].*2) with [r]. rewrite !Zsum_singleton.
  unfold add_volume. cbn [SizeGbTotal Count SizeGbRounded].
  rewrite !add64_id by (unfold in_int64, min_int64, max_int64; nia). f_equal; lia.
Qed.

(** A loop that adds one volume for some of the items adds up the list of them. *)
Lemma foldl_volumes {A} (body : ProvisionedVolumes → A → ProvisionedVolumes)
    (contribution : A → option (Z * Z)) l :
  (∀ v x, body v x = match contribution x with Some (t, r) => add_volume v t r | None => v end) →
  foldl body zeroVolumes l = volumes_of (omap contribution l).
Proof.
  intros Hbody. induction l as [|x l IH] using rev_ind; [done|].
  rewrite foldl_snoc, IH, Hbody, omap_app. simpl. destruct (contribution x) as [[t r]|].
  - by rewrite volumes_of_snoc.
  - by rewrite app_nil_r.
Qed.

(** What rounding each volume up to a multiple of [k] means for the totals. *)
Lemma Zsum_rounded k l : 0 < k →
  Forall (λ '(t, r), t ≤ r < t + k ∧ (k | r)) l →
  Zsum l.*1 ≤ Zsum l.*2 ≤ Zsum l.*1 + (k - 1) * Z.of_nat (length l) ∧ (k | Zsum l.*2).
Proof.
  intros Hk. induction 1 as [|[t r] l [Htr Hdiv] _ [IH IHdiv]].
  - split; [simpl; lia|]. by exists 0.
  - rewrite !fmap_cons. simpl length. simpl Zsum. split; [lia|]. by apply Z.divide_add_r.
Qed.
