(* ===== verification/CloudSpecs.v ===== *)
(** * CloudSpecs: the public cloud specification ([pkg/config]) *)
From S2P Require Import Prelude GoStd GoFloat.
Local Open Scope Z_scope.

Definition Azure : string := "azure".
Definition AWS : string := "aws".
Definition GCP : string := "gcp".
Definition CCEE : string := "sapconvergedcloud".

Record Feature := { CpuCores : float64; Memory : float64 }.
Record RedisInfo := { PriceStorageGB : Z; PriceCapacityUnits : Z }.

Record Providers := {
  P_Azure : gmap string Feature;
  P_AWS : gmap string Feature;
  P_GCP : gmap string Feature;
  P_OpenStack : gmap string Feature;
}.

Record PublicCloudSpecs := { Specs_Providers : Providers; Specs_Redis : gmap string RedisInfo }.

Definition GetFeature (pcs : PublicCloudSpecs) (cloudProvider vmType : string) : option Feature :=
  if decide (cloudProvider = AWS) then P_AWS (Specs_Providers pcs) !! vmType
  else if decide (cloudProvider = Azure) then P_Azure (Specs_Providers pcs) !! vmType
  else if decide (cloudProvider = GCP) then P_GCP (Specs_Providers pcs) !! vmType
  else if decide (cloudProvider = CCEE) then P_OpenStack (Specs_Providers pcs) !! vmType
  else None.

Definition GetRedisInfo (pcs : PublicCloudSpecs) (tier : string) : option RedisInfo :=
  Specs_Redis pcs !! tier.

(** ** Loading *)

Section load.
(** [os.ReadFile] and [json.Unmarshal] into [PublicCloudSpecs]. *)
Context (readFile : string → string + error) (unmarshal : string → PublicCloudSpecs + error).

(** [env.Config] has the one field [PublicCloudSpecsPath]. *)
Definition LoadPublicCloudSpecs (path : string) : PublicCloudSpecs + error :=
  if decide (path = "") then inr (errorString "public cloud specification path is not configured") else
  match readFile path with
  | inr err => inr (withMessage "failed to read public cloud specs file" err)
  | inl specsJSON =>
      match unmarshal specsJSON with
      | inr err => inr (withMessage "failed to unmarshal public cloud specs" err)
      | inl specs =>
          if decide (size (Specs_Redis specs) = 0)%nat
          then inr (errorString "public cloud specs do not contain Redis tiers")
          else if decide (size (P_AWS (Specs_Providers specs)) = 0)%nat
          then inr (errorString "public cloud specs do not contain AWS VM types")
          else if decide (size (P_Azure (Specs_Providers specs)) = 0)%nat
          then inr (errorString "public cloud specs do not contain Azure VM types")
          else if decide (size (P_GCP (Specs_Providers specs)) = 0)%nat
          then inr (errorString "public cloud specs do not contain GCP VM types")
          else if decide (size (P_OpenStack (Specs_Providers specs)) = 0)%nat
          then inr (errorString "public cloud specs do not contain OpenStack VM types")
          else inl specs
      end
  end.

(** The table a provider name selects, if it is one of the four supported ones. *)
Definition provider_table (pcs : PublicCloudSpecs) (cloudProvider : string) : gmap string Feature :=
  let ps := Specs_Providers pcs in
  default ∅ (({[AWS := P_AWS ps; Azure := P_Azure ps; GCP := P_GCP ps; CCEE := P_OpenStack ps]}
    : gmap string (gmap string Feature)) !! cloudProvider).

Lemma GetFeature_table pcs cp vm : GetFeature pcs cp vm = provider_table pcs cp !! vm.
Proof.
  unfold GetFeature, provider_table.
  repeat (case_decide; [subst; by simplify_map_eq|]). by simplify_map_eq.
Qed.

(** Loaded specifications are usable: [LoadPublicCloudSpecs] succeeds only when a path is
    configured and the file was read and decoded, and then every supported provider has a
    machine type and there is a Redis tier. *)
Theorem LoadPublicCloudSpecs_usable path specs : LoadPublicCloudSpecs path = inl specs →
  path ≠ "" ∧ (∃ json, readFile path = inl json ∧ unmarshal json = inl specs) ∧
  (∃ tier, is_Some (GetRedisInfo specs tier)) ∧
  ∀ cp, cp ∈ [AWS; Azure; GCP; CCEE] → ∃ vm, is_Some (GetFeature specs cp vm).
Proof.
  unfold LoadPublicCloudSpecs. intros H. repeat case_match; simplify_eq.
  assert (Hne : ∀ (V : Type) (m : gmap string V), size m ≠ 0%nat → ∃ k, is_Some (m !! k)).
  { intros V m Hm. apply map_size_ne_0_lookup in Hm as (k & Hk). by exists k. }
  split_and!; [done|eauto|by apply Hne|]. intros cp Hcp.
  rewrite !elem_of_cons in Hcp. setoid_rewrite GetFeature_table.
  destruct Hcp as [->|[->|[->|[->|[]%elem_of_nil]]]]; by apply Hne.
Qed.
End load.

(** ** Example *)

Definition tiny_specs : PublicCloudSpecs :=
  let table := {["vm" := {| CpuCores := float64_of_int64 2; Memory := float64_of_int64 8 |}]} in
  {| Specs_Providers := {| P_Azure := table; P_AWS := table; P_GCP := table; P_OpenStack := table |};
     Specs_Redis := {["s1" := {| PriceStorageGB := 10; PriceCapacityUnits := 1 |}]} |}.

Lemma LoadPublicCloudSpecs_usable_witness :
  LoadPublicCloudSpecs inl (λ _, inl tiny_specs) "specs.json" = inl tiny_specs ∧
  ∃ vm, is_Some (GetFeature tiny_specs GCP vm).
Proof.
  assert (Hload : LoadPublicCloudSpecs inl (λ _, inl tiny_specs) "specs.json" = inl tiny_specs)
    by (vm_compute; reflexivity).
  split; [exact Hload|].
  destruct (LoadPublicCloudSpecs_usable inl (λ _, inl tiny_specs) "specs.json" tiny_specs Hload) as (_ & _ & _ & Hvm).
  apply Hvm. right. right. left.
Defined.
