(* ===== verification/Tracing.v ===== *)
(** * Tracing: spans ([pkg/otel/span_attributes.go])

    A span is what the tracer returned when it was started; a [context.Context] carries the span it was
    derived for, and nothing else the collector uses.  The calls of a span are effects. *)
From S2P Require Import Prelude GoStd Resource.

Abbreviation Span := positive.
Abbreviation Context := (option Span).
Abbreviation Background := (@None Span).

(** [go.opentelemetry.io/otel/codes] *)
Inductive Code := CodeUnset | CodeError | CodeOk.
#[global] Instance Code_eq_dec : EqDecision Code.
Proof. solve_decision. Defined.

Definition instanceIDAttr : string := "instance_id".
Definition runtimeIDAttr : string := "runtime_id".
Definition subAccountIDAttr : string := "sub_account_id".
Definition globalAccountIDAttr : string := "global_account_id".
Definition shootNameAttr : string := "shoot_name".
Definition providerAttr : string := "provider".

Definition SpanAttributes (runtime : Info) : list (string * string) :=
  [(instanceIDAttr, Info_InstanceID runtime); (runtimeIDAttr, Info_RuntimeID runtime);
   (subAccountIDAttr, Info_SubAccountID runtime); (globalAccountIDAttr, Info_GlobalAccountID runtime);
   (shootNameAttr, Info_ShootName runtime); (providerAttr, Info_ProviderType runtime)].
