(* ===== verification/SpecsJson.v ===== *)
(** * SpecsJson: the public cloud specification as JSON ([pkg/config/public_cloud_specs.go])

    [json.Unmarshal] into [PublicCloudSpecs], as the struct tags of the package direct it: the members of
    an object are taken one after the other, names of fields match up to case, unknown members are skipped,
    [null] leaves a value alone (and empties a map), entries of maps start from zero, and a member of the wrong
    type is an error. *)
From S2P Require Import Prelude GoStd GoFloat Decimal Json CloudSpecs.
From Stdlib Require Import Ascii.
Local Open Scope Z_scope.
Local Open Scope list_scope.

(** ** Decoding *)

(** [foldName]: ASCII letters in upper case; the two other runes that fold to a letter are the long s and the
    sign for Kelvin. *)
Definition upper (c : ascii) : ascii := if decide (97 ≤ code c ≤ 122) then char (code c - 32) else c.
Fixpoint foldName (s : text) : text :=
  match s with
  | [] => []
  | a :: s1 =>
      match s1 with
      | b :: s2 =>
          if decide (code a = 0xC5 ∧ code b = 0xBF) then char 83 :: foldName s2 else
          match s2 with
          | c :: s3 =>
              if decide (code a = 0xE2 ∧ code b = 0x84 ∧ code c = 0xAA) then char 75 :: foldName s3
              else upper a :: foldName s1
          | [] => upper a :: foldName s1
          end
      | [] => [upper a]
      end
  end.

(** A number into a [float64] and into an [int]; numbers out of range are errors. *)
Definition decodeFloat (j : json) (old : float64) : option float64 :=
  match j with
  | JNull => Some old
  | JNum n => match float_of_number n with S754_infinity _ | S754_nan => None | f => Some f end
  | _ => None
  end.
Definition decodeInt (j : json) (old : Z) : option Z :=
  match j with
  | JNull => Some old
  | JNum n => z ← int_of_number n; if decide (in_int64 z) then Some z else None
  | _ => None
  end.

Section containers.
Context {R : Type}.

(** The members of an object into the fields of a struct. *)
Fixpoint decodeMembers (field : text → option (json → R → option R)) (l : list (text * json)) (r : R) : option R :=
  match l with
  | [] => Some r
  | (k, v) :: l =>
      r ← match field (foldName k) with Some set => set v r | None => Some r end;
      decodeMembers field l r
  end.
Definition decodeStruct (field : text → option (json → R → option R)) (j : json) (old : R) : option R :=
  match j with
  | JNull => Some old
  | JObj l => decodeMembers field l old
  | _ => None
  end.

(** The members of an object into a map. *)
Fixpoint decodeEntries (elem : json → R → option R) (zero : R) (l : list (text * json)) (m : gmap string R) :
    option (gmap string R) :=
  match l with
  | [] => Some m
  | (k, v) :: l =>
      x ← elem v zero;
      decodeEntries elem zero l (<[String.string_of_list_ascii k := x]> m)
  end.
Definition decodeMap (elem : json → R → option R) (zero : R) (j : json) (old : gmap string R) : option (gmap string R) :=
  match j with
  | JNull => Some ∅
  | JObj l => decodeEntries elem zero l old
  | _ => None
  end.
End containers.

(** The fields of a struct by their names, which differ up to case. *)
Definition fieldsOf {R} (l : list (string * (json → R → option R))) (k : text) : option (json → R → option R) :=
  f ← list_find (λ f, foldName (txt f.1) = k) l; Some f.2.2.

Definition zeroFeature : Feature := {| CpuCores := S754_zero false; Memory := S754_zero false |}.
Definition featureFields : list (string * (json → Feature → option Feature)) := [
  ("cpu_cores", λ j r, x ← decodeFloat j (CpuCores r); Some {| CpuCores := x; Memory := Memory r |});
  ("memory", λ j r, x ← decodeFloat j (Memory r); Some {| CpuCores := CpuCores r; Memory := x |})].
Definition decodeFeature : json → Feature → option Feature := decodeStruct (fieldsOf featureFields).

Definition zeroRedisInfo : RedisInfo := {| PriceStorageGB := 0; PriceCapacityUnits := 0 |}.
Definition redisInfoFields : list (string * (json → RedisInfo → option RedisInfo)) := [
  ("price_storage_gb", λ j r, x ← decodeInt j (PriceStorageGB r);
     Some {| PriceStorageGB := x; PriceCapacityUnits := PriceCapacityUnits r |});
  ("price_cu", λ j r, x ← decodeInt j (PriceCapacityUnits r);
     Some {| PriceStorageGB := PriceStorageGB r; PriceCapacityUnits := x |})].
Definition decodeRedisInfo : json → RedisInfo → option RedisInfo := decodeStruct (fieldsOf redisInfoFields).

Definition zeroProviders : Providers := {| P_Azure := ∅; P_AWS := ∅; P_GCP := ∅; P_OpenStack := ∅ |}.
Abbreviation decodeTable := (decodeMap decodeFeature zeroFeature).
Definition providersFields : list (string * (json → Providers → option Providers)) := [
  ("azure", λ j r, x ← decodeTable j (P_Azure r);
     Some {| P_Azure := x; P_AWS := P_AWS r; P_GCP := P_GCP r; P_OpenStack := P_OpenStack r |});
  ("aws", λ j r, x ← decodeTable j (P_AWS r);
     Some {| P_Azure := P_Azure r; P_AWS := x; P_GCP := P_GCP r; P_OpenStack := P_OpenStack r |});
  ("gcp", λ j r, x ← decodeTable j (P_GCP r);
     Some {| P_Azure := P_Azure r; P_AWS := P_AWS r; P_GCP := x; P_OpenStack := P_OpenStack r |});
  ("sapconvergedcloud", λ j r, x ← decodeTable j (P_OpenStack r);
     Some {| P_Azure := P_Azure r; P_AWS := P_AWS r; P_GCP := P_GCP r; P_OpenStack := x |})].
Definition decodeProviders : json → Providers → option Providers := decodeStruct (fieldsOf providersFields).

Definition zeroSpecs : PublicCloudSpecs := {| Specs_Providers := zeroProviders; Specs_Redis := ∅ |}.
Definition specsFields : list (string * (json → PublicCloudSpecs → option PublicCloudSpecs)) := [
  ("providers", λ j r, x ← decodeProviders j (Specs_Providers r);
     Some {| Specs_Providers := x; Specs_Redis := Specs_Redis r |});
  ("redis_tiers", λ j r, x ← decodeMap decodeRedisInfo zeroRedisInfo j (Specs_Redis r);
     Some {| Specs_Providers := Specs_Providers r; Specs_Redis := x |})].
Definition decodeSpecs : json → PublicCloudSpecs → option PublicCloudSpecs := decodeStruct (fieldsOf specsFields).

(** [json.Unmarshal(specsJSON, &specs)] *)
Definition Unmarshal (specsJSON : string) : PublicCloudSpecs + error :=
  match of_string specsJSON with
  | None => inr (errorString "invalid JSON")
  | Some j =>
      match decodeSpecs j zeroSpecs with
      | None => inr (errorString "json: cannot unmarshal a value into PublicCloudSpecs")
      | Some specs => inl specs
      end
  end.

(** ** What the document says *)

Definition folded (l : list (text * json)) : list (text * json) := prod_map foldName id <$> l.

(** The value of a field, and the keys of structs and of maps being distinct. *)
Definition member_of (name : string) (j : json) : option json :=
  match j with JObj l => assoc (foldName (txt name)) (folded l) | _ => None end.
Definition distinct_fields (j : json) : Prop := match j with JObj l => NoDup (folded l).*1 | _ => True end.
Definition distinct_keys (j : json) : Prop := match j with JObj l => NoDup l.*1 | _ => True end.

Definition document_float (name : string) (j : json) : float64 :=
  match member_of name j with Some (JNum n) => float_of_number n | _ => S754_zero false end.
Definition document_int (name : string) (j : json) : Z :=
  match member_of name j with Some (JNum n) => default 0 (int_of_number n) | _ => 0 end.

(** The machine type and the Redis tier of this name in the document. *)
Definition document_feature (j : json) (cloudProvider vmType : string) : option Feature :=
  providers ← member_of "providers" j; table ← member_of cloudProvider providers; f ← get vmType table;
  Some {| CpuCores := document_float "cpu_cores" f; Memory := document_float "memory" f |}.
Definition document_tier (j : json) (tier : string) : option RedisInfo :=
  table ← member_of "redis_tiers" j; f ← get tier table;
  Some {| PriceStorageGB := document_int "price_storage_gb" f; PriceCapacityUnits := document_int "price_cu" f |}.

(** No object of the document has two members for the same thing. *)
Definition table_unambiguous (table : json) : Prop :=
  distinct_keys table ∧ ∀ k f, get k table = Some f → distinct_fields f.
Record unambiguous (j : json) : Prop := {
  unambiguous_top : distinct_fields j;
  unambiguous_providers providers : member_of "providers" j = Some providers → distinct_fields providers ∧
    ∀ cp table, member_of cp providers = Some table → table_unambiguous table;
  unambiguous_tiers table : member_of "redis_tiers" j = Some table → table_unambiguous table;
}.

#[global] Instance distinct_fields_dec j : Decision (distinct_fields j).
Proof. destruct j; apply _. Defined.
#[global] Instance distinct_keys_dec j : Decision (distinct_keys j).
Proof. destruct j; apply _. Defined.

(** The members of an object. *)
Definition members (j : json) : list (text * json) := match j with JObj l => l | _ => [] end.

(** A check for it. *)
Definition table_check (table : json) : bool :=
  bool_decide (distinct_keys table) && forallb (λ kv, bool_decide (distinct_fields kv.2)) (members table).
Definition unambiguous_check (j : json) : bool :=
  bool_decide (distinct_fields j) &&
  match member_of "providers" j with
  | Some providers => bool_decide (distinct_fields providers) && forallb (λ kv, table_check kv.2) (members providers)
  | None => true
  end &&
  match member_of "redis_tiers" j with Some table => table_check table | None => true end.

Lemma assoc_elem k l v : assoc k l = Some v → (k, v) ∈ l.
Proof.
  induction l as [|[k' v'] l IH]; simpl; [done|]. case_decide as Hk; [intros [= ->]; subst; by left|]. intros ?. right. by apply IH.
Qed.

Lemma get_members k j v : get k j = Some v → ∃ kv, kv ∈ members j ∧ kv.2 = v.
Proof. destruct j; simpl; try done. intros H%assoc_elem. by exists (txt k, v). Qed.
Lemma member_of_members k j v : member_of k j = Some v → ∃ kv, kv ∈ members j ∧ kv.2 = v.
Proof.
  destruct j; simpl; try done. intros H%assoc_elem. apply list_elem_of_fmap in H as ([k' v'] & [= _ ->] & Hin). by exists (k', v').
Qed.

Lemma table_check_sound table : table_check table = true → table_unambiguous table.
Proof.
  intros [Hk Hf]%andb_true_iff. apply bool_decide_eq_true in Hk. split; [done|]. intros k f (kv & Hin & <-)%get_members.
  rewrite forallb_forall in Hf. by eapply bool_decide_eq_true_1, Hf, list_elem_of_In.
Qed.

Lemma unambiguous_check_sound j : unambiguous_check j = true → unambiguous j.
Proof.
  intros [[Ht Hp]%andb_true_iff Hr]%andb_true_iff. apply bool_decide_eq_true in Ht. split; [done| |].
  - intros providers Hps. rewrite Hps in Hp. apply andb_true_iff in Hp as [Hd Hp]. apply bool_decide_eq_true in Hd.
    split; [done|]. intros cp table (kv & Hin & <-)%member_of_members. rewrite forallb_forall in Hp.
    by apply table_check_sound, Hp, list_elem_of_In.
  - intros table Htab. rewrite Htab in Hr. by apply table_check_sound.
Qed.

(** ** Decoding is reading the document *)

(** [dec] decodes the field [π], which the member [name] alone sets. *)
Definition decodes_field {R X} (field : text → option (json → R → option R)) (name : text) (π : R → X)
    (dec : json → X → option X) : Prop :=
  ∀ k, match field k with
  | Some set => ∀ v r r', set v r = Some r' → if decide (k = name) then dec v (π r) = Some (π r') else π r' = π r
  | None => k ≠ name
  end.

Lemma assoc_None k l : k ∉ l.*1 → assoc k l = None.
Proof.
  induction l as [|[k' v] l IH]; simpl; [done|]. rewrite not_elem_of_cons. intros [Hk Hl]. rewrite decide_False by done. auto.
Qed.

Lemma decodeMembers_field {R X} field name (π : R → X) dec l r r' : decodes_field field name π dec →
  NoDup (folded l).*1 → decodeMembers field l r = Some r' →
  match assoc name (folded l) with Some v => dec v (π r) = Some (π r') | None => π r' = π r end.
Proof.
  intros Hf. revert r. induction l as [|[k v] l IH]; intros r Hnd; simpl; [by intros [= ->]|].
  apply NoDup_cons in Hnd as [Hk Hnd]. specialize (Hf (foldName k)). intros Hd.
  destruct (field (foldName k)) as [set|].
  - destruct (set v r) as [r1|] eqn:Hset; [|done]. specialize (Hf v r r1 Hset). specialize (IH r1 Hnd Hd). case_decide as Hname.
    + rewrite decide_True by done. rewrite assoc_None in IH by (by rewrite <- Hname). by rewrite IH.
    + rewrite decide_False by done. by rewrite <- Hf.
  - rewrite decide_False by done. by apply IH.
Qed.

Lemma decodeStruct_field {R X} field name (π : R → X) dec j r r' : decodes_field field (foldName (txt name)) π dec →
  distinct_fields j → decodeStruct field j r = Some r' →
  match member_of name j with Some v => dec v (π r) = Some (π r') | None => π r' = π r end.
Proof.
  intros Hf Hj. destruct j; simpl; try done; [by intros [= ->]|]. by apply decodeMembers_field.
Qed.

Lemma decodeEntries_lookup {R} (elem : json → R → option R) zero l m m' key : NoDup l.*1 →
  decodeEntries elem zero l m = Some m' →
  match assoc (txt key) l with
  | Some v => ∃ x, elem v zero = Some x ∧ m' !! key = Some x
  | None => m' !! key = m !! key
  end.
Proof.
  revert m. induction l as [|[k v] l IH]; intros m Hnd; simpl; [by intros [= ->]|].
  apply NoDup_cons in Hnd as [Hk Hnd]. intros Hd. destruct (elem v zero) as [x|] eqn:Hx; [|done]. specialize (IH _ Hnd Hd).
  case_decide as Hkey.
  - rewrite assoc_None in IH by (by rewrite Hkey). exists x. split; [done|]. rewrite IH, <- Hkey. unfold txt.
    by rewrite String.string_of_list_ascii_of_string, lookup_insert_eq.
  - destruct (assoc (txt key) l); [done|]. rewrite IH. rewrite lookup_insert_ne; [done|]. intros <-. apply Hkey. unfold txt.
    apply String.list_ascii_of_string_of_list_ascii.
Qed.

Lemma decodeMap_lookup {R} (elem : json → R → option R) zero j m' key : distinct_keys j →
  decodeMap elem zero j ∅ = Some m' →
  match get key j with Some v => ∃ x, elem v zero = Some x ∧ m' !! key = Some x | None => m' !! key = None end.
Proof.
  intros Hj. destruct j; simpl; try done; [by intros [= <-]|]. intros Hd.
  pose proof (decodeEntries_lookup elem zero l ∅ m' key Hj Hd) as H. by destruct (assoc (txt key) l).
Qed.

(** Which setter a key selects is decided by comparing it with the names of the fields. *)
Ltac solve_field :=
  let k := fresh "k" in intros k; unfold fieldsOf, featureFields, redisInfoFields, providersFields, specsFields; cbn [list_find fst snd];
  repeat (match goal with |- context [decide (?a = k)] => destruct (decide (a = k)) as [<-|] end; cbn [mbind option_bind fmap option_fmap option_map prod_map fst snd]);
  [intros v r r' Hset; cbn beta in Hset; repeat (case_match; simplify_eq/=)..|congruence];
  repeat match goal with
  | H : _ ≫= _ = Some _ |- _ => apply bind_Some in H as (? & ? & ?); simplify_eq/=
  end; try done; case_decide; done.

Lemma feature_cpu : decodes_field (fieldsOf featureFields) (foldName (txt "cpu_cores")) CpuCores decodeFloat.
Proof. solve_field. Qed.
Lemma feature_memory : decodes_field (fieldsOf featureFields) (foldName (txt "memory")) Memory decodeFloat.
Proof. solve_field. Qed.
Lemma redis_storage : decodes_field (fieldsOf redisInfoFields) (foldName (txt "price_storage_gb")) PriceStorageGB decodeInt.
Proof. solve_field. Qed.
Lemma redis_units : decodes_field (fieldsOf redisInfoFields) (foldName (txt "price_cu")) PriceCapacityUnits decodeInt.
Proof. solve_field. Qed.
Lemma specs_providers : decodes_field (fieldsOf specsFields) (foldName (txt "providers")) Specs_Providers decodeProviders.
Proof. solve_field. Qed.
Lemma specs_redis : decodes_field (fieldsOf specsFields) (foldName (txt "redis_tiers")) Specs_Redis
  (decodeMap decodeRedisInfo zeroRedisInfo).
Proof. solve_field. Qed.

(** The table of a provider. *)
Definition table_of (cloudProvider : string) (ps : Providers) : gmap string Feature :=
  provider_table {| Specs_Providers := ps; Specs_Redis := ∅ |} cloudProvider.
Definition clouds : list string := [AWS; Azure; GCP; CCEE].

Lemma providers_table cp : cp ∈ clouds →
  decodes_field (fieldsOf providersFields) (foldName (txt cp)) (table_of cp) decodeTable.
Proof.
  unfold clouds. rewrite !elem_of_cons, elem_of_nil. intros [->|[->|[->|[->|[]]]]]; unfold AWS, Azure, GCP, CCEE; solve_field.
Qed.

Lemma decodeFloat_document name j x : match member_of name j with Some v => decodeFloat v (S754_zero false) = Some x | None => x = S754_zero false end →
  x = document_float name j.
Proof.
  unfold document_float. destruct (member_of name j) as [[| |n| | |]|]; simpl; try naive_solver.
  destruct (float_of_number n); naive_solver.
Qed.

Lemma decodeInt_document name j x : match member_of name j with Some v => decodeInt v 0 = Some x | None => x = 0 end →
  x = document_int name j.
Proof.
  unfold document_int. destruct (member_of name j) as [[| |n| | |]|]; simpl; try naive_solver.
  intros (z & -> & Hz)%bind_Some. simpl. by case_decide; simplify_eq.
Qed.

Lemma decodeFeature_document j f : distinct_fields j → decodeFeature j zeroFeature = Some f →
  f = {| CpuCores := document_float "cpu_cores" j; Memory := document_float "memory" j |}.
Proof.
  intros Hj Hd. pose proof (decodeStruct_field _ "cpu_cores" _ _ _ _ _ feature_cpu Hj Hd) as Hc.
  pose proof (decodeStruct_field _ "memory" _ _ _ _ _ feature_memory Hj Hd) as Hm.
  apply decodeFloat_document in Hc, Hm. destruct f. simpl in *. by subst.
Qed.

Lemma decodeRedisInfo_document j f : distinct_fields j → decodeRedisInfo j zeroRedisInfo = Some f →
  f = {| PriceStorageGB := document_int "price_storage_gb" j; PriceCapacityUnits := document_int "price_cu" j |}.
Proof.
  intros Hj Hd. pose proof (decodeStruct_field _ "price_storage_gb" _ _ _ _ _ redis_storage Hj Hd) as Hc.
  pose proof (decodeStruct_field _ "price_cu" _ _ _ _ _ redis_units Hj Hd) as Hm.
  apply decodeInt_document in Hc, Hm. destruct f. simpl in *. by subst.
Qed.

(** A table holds the entries of its object. *)
Lemma decodeMap_document {R} (elem : json → R → option R) zero (read : json → R) j m key :
  (∀ f x, distinct_fields f → elem f zero = Some x → x = read f) → table_unambiguous j →
  decodeMap elem zero j ∅ = Some m → m !! key = read <$> get key j.
Proof.
  intros Hread [Hk Hf] Hd. pose proof (decodeMap_lookup elem zero j m key Hk Hd) as H.
  destruct (get key j) as [v|] eqn:Hv; [|done]. destruct H as (x & Hx & ->). simpl. f_equal. apply Hread; [|done]. by eapply Hf.
Qed.

Lemma decodeSpecs_feature j specs cp vm : unambiguous j → decodeSpecs j zeroSpecs = Some specs → cp ∈ clouds →
  GetFeature specs cp vm = document_feature j cp vm.
Proof.
  intros Hj Hd Hcp. pose proof (decodeStruct_field _ "providers" _ _ _ _ _ specs_providers (unambiguous_top _ Hj) Hd) as Hp.
  rewrite GetFeature_table. change (provider_table specs cp) with (table_of cp (Specs_Providers specs)).
  assert (H0 : table_of cp zeroProviders = ∅).
  { unfold clouds in Hcp. rewrite !elem_of_cons, elem_of_nil in Hcp. by destruct Hcp as [->|[->|[->|[->|[]]]]]. }
  unfold document_feature. destruct (member_of "providers" j) as [ps|] eqn:Hps; cbn [mbind option_bind].
  - destruct (unambiguous_providers _ Hj ps Hps) as [Hdist Htab].
    pose proof (decodeStruct_field _ cp _ _ _ _ _ (providers_table cp Hcp) Hdist Hp) as Ht. change (Specs_Providers zeroSpecs) with zeroProviders in Ht.
    rewrite H0 in Ht. destruct (member_of cp ps) as [t|] eqn:Hcpt; cbn [mbind option_bind]; [|by rewrite Ht].
    rewrite (decodeMap_document _ _ _ _ _ vm decodeFeature_document (Htab cp t Hcpt) Ht). by destruct (get vm t).
  - rewrite Hp. change (Specs_Providers zeroSpecs) with zeroProviders. by rewrite H0.
Qed.

Lemma decodeSpecs_tier j specs tier : unambiguous j → decodeSpecs j zeroSpecs = Some specs →
  GetRedisInfo specs tier = document_tier j tier.
Proof.
  intros Hj Hd. pose proof (decodeStruct_field _ "redis_tiers" _ _ _ _ _ specs_redis (unambiguous_top _ Hj) Hd) as Hp.
  unfold GetRedisInfo, document_tier. destruct (member_of "redis_tiers" j) as [t|] eqn:Ht; cbn [mbind option_bind].
  - rewrite (decodeMap_document _ _ _ _ _ tier decodeRedisInfo_document (unambiguous_tiers _ Hj t Ht) Hp). by destruct (get tier t).
  - rewrite Hp. done.
Qed.

(** C24 -- The prices are those of the specification file: what [LoadPublicCloudSpecs] returns was read from
    the configured file; each machine type of the four providers and each Redis tier is found exactly
    if the document has it (no object having two members for the same thing), with the numbers it has there, read as the nearest floats, and
    zero for missing ones; every provider has a machine type and there is a Redis tier. *)
Theorem LoadPublicCloudSpecs_document readFile path specs : LoadPublicCloudSpecs readFile Unmarshal path = inl specs →
  ∃ text j, readFile path = inl text ∧ of_string text = Some j ∧
  (unambiguous j → (∀ cp vm, cp ∈ clouds → GetFeature specs cp vm = document_feature j cp vm) ∧
     ∀ tier, GetRedisInfo specs tier = document_tier j tier) ∧
  (∀ cp, cp ∈ clouds → ∃ vm, is_Some (GetFeature specs cp vm)) ∧ ∃ tier, is_Some (GetRedisInfo specs tier).
Proof.
  intros (_ & (text & Hread & Hun) & Htier & Hvm)%LoadPublicCloudSpecs_usable. exists text. unfold Unmarshal in Hun.
  destruct (of_string text) as [j|]; [|done]. destruct (decodeSpecs j zeroSpecs) as [specs'|] eqn:Hd; [|done]. injection Hun as ->.
  exists j. split_and!; try done. intros Hj. split; [intros cp vm Hcp|intros tier]; [by apply decodeSpecs_feature|by apply decodeSpecs_tier].
Qed.

(** ** A concrete file *)

(** pkg/testing/fixtures/public_cloud_specs_fractional.json *)
Definition fractional_json : string := dequote "{
  'providers' : {
    'azure': {
      'standard_a1_v2': {
        'cpu_cores': 1.1,
        'memory': 2.1
      }
    },
    'aws': {
      'm4.large': {
        'cpu_cores': 2.2,
        'memory': 8.2
      }
    },
    'gcp': {
      'n1-standard-4': {
        'cpu_cores': 4.3,
        'memory': 15.3
      }
    },
    'sapconvergedcloud': {
      'g_c12_m48': {
        'cpu_cores': 12.4,
        'memory': 48.4
      }
    }
  },
  'redis_tiers': {
    'S1': {
      'price_storage_gb': 182,
      'price_cu': 74
    }
  }
}".

Definition fractional_specs : PublicCloudSpecs := match Unmarshal fractional_json with inl specs => specs | inr _ => zeroSpecs end.

(** 48.4 as a float. *)
Example fractional_memory : (λ f, print_number <$> number_of_float (Memory f)) <$> GetFeature fractional_specs CCEE "g_c12_m48" =
  Some (Some (txt "48.4")).
Proof. vm_compute. reflexivity. Qed.

Lemma LoadPublicCloudSpecs_document_witness :
  LoadPublicCloudSpecs inl Unmarshal fractional_json = inl fractional_specs ∧
  GetRedisInfo fractional_specs "S1" = Some {| PriceStorageGB := 182; PriceCapacityUnits := 74 |}.
Proof.
  assert (Hload : LoadPublicCloudSpecs inl Unmarshal fractional_json = inl fractional_specs) by (vm_compute; reflexivity).
  split; [exact Hload|].
  destruct (LoadPublicCloudSpecs_document inl fractional_json fractional_specs Hload) as (text & j & [= <-] & Hj & Hdoc & _).
  assert (Hsafe : match of_string fractional_json with
    | Some j => unambiguous_check j = true ∧ document_tier j "S1" = Some {| PriceStorageGB := 182; PriceCapacityUnits := 74 |}
    | None => False end) by (vm_compute; split; reflexivity).
  rewrite Hj in Hsafe. destruct Hsafe as [Hun Htier]. rewrite <- Htier.
  apply (proj2 (Hdoc (unambiguous_check_sound _ Hun))).
Defined.
