(* ===== verification/NodeScan.v ===== *)
(** * NodeScan: measuring the nodes of a cluster ([pkg/resource/node/scan.go])

    [EDP] maps every node to the CPU and memory of its machine type and counts
    the machine types. *)
From S2P Require Import Prelude GoStd GoFloat Resource CloudSpecs.
Local Open Scope Z_scope.
Local Open Scope list_scope.

Definition nodeInstanceTypeLabel : string := "node.kubernetes.io/instance-type".

Definition ErrUnknownVM : error :=
  Sentinel "node.ErrUnknownVM" "unknown provider and node type combination".

(** The field of [metav1.PartialObjectMetadata] the scan reads. *)
Record PartialObjectMetadata := { Labels : gmap string string }.

Record Scan := {
  providerType : string;
  specs : PublicCloudSpecs;
  Items : list PartialObjectMetadata;
}.

Definition UM (duration : Z) (s : Scan) : UMMeasurement * option error :=
  (Build_UMMeasurement, None).

(** The variables of [EDP]'s first loop. *)
Record loop_state := {
  cpus : float64;
  ram : float64;
  vmTypes : gmap string Z;
  errs : list error;
}.

Definition loop_init : loop_state :=
  {| cpus := S754_zero false; ram := S754_zero false; vmTypes := ∅; errs := [] |}.

(** The machine type of a node; a missing label reads as the empty string. *)
Definition node_type (node : PartialObjectMetadata) : string :=
  ToLower (default "" (Labels node !! nodeInstanceTypeLabel)).

Definition loop_body (s : Scan) (st : loop_state) (node : PartialObjectMetadata) : loop_state :=
  let nodeType := node_type node in
  match GetFeature (specs s) (providerType s) nodeType with
  | None =>
      {| cpus := cpus st; ram := ram st; vmTypes := vmTypes st;
         errs := errs st ++ [wrapError (Error ErrUnknownVM +:+ ": provider: " +:+ providerType s
                               +:+ ", node: " +:+ nodeType) ErrUnknownVM] |}
  | Some vmFeature =>
      {| cpus := fadd (cpus st) (CpuCores vmFeature);
         ram := fadd (ram st) (Memory vmFeature);
         vmTypes := <[nodeType := add64 (default 0 (vmTypes st !! nodeType)) 1]> (vmTypes st);
         errs := errs st |}
  end.

Definition EDP (ord : RangeOrder) (s : Scan) : EDPMeasurement * option error :=
  let st := foldl (loop_body s) loop_init (Items s) in
  let keys := ord (map_to_list (vmTypes st)).*1 in
  ({| VMTypes := (λ k, {| Name := k; VMCount := default 0 (vmTypes st !! k) |}) <$> keys;
      ProvisionedCPUs := cpus st;
      ProvisionedRAMGb := ram st;
      Volumes := zeroVolumes |},
   errors_Join (errs st)).

#[global] Instance node_ScanConverter : ScanConverter Scan :=
  {| Resource.UM := UM; Resource.EDP := EDP |}.

#[global] Instance node_ScanConverterLaws : ScanConverterLaws Scan.
Proof.
  intros ord ord' s Ho Ho'. split; [done|]. split_and!; try done. simpl.
  apply Permutation_map. etrans; [apply Ho|symmetry; apply Ho'].
Qed.

(** ** Behaviour *)

(** The nodes whose machine type the specification knows, and the number of
    known nodes of one type. *)
Definition feature_of (s : Scan) (node : PartialObjectMetadata) : option Feature :=
  GetFeature (specs s) (providerType s) (node_type node).

Definition count_type (s : Scan) (t : string) (l : list PartialObjectMetadata) : nat :=
  length (filter (λ n, is_Some (feature_of s n) ∧ node_type n = t) l).

Definition unknown (s : Scan) (l : list PartialObjectMetadata) : list PartialObjectMetadata :=
  filter (λ n, feature_of s n = None) l.

Lemma count_type_snoc s t l n :
  count_type s t (l ++ [n]) =
    (count_type s t l + if decide (is_Some (feature_of s n) ∧ node_type n = t) then 1 else 0)%nat.
Proof. unfold count_type. rewrite filter_app, length_app, filter_cons. by case_decide. Qed.

Lemma count_type_le s t l : (count_type s t l ≤ length l)%nat.
Proof. apply length_filter. Qed.

(** The counters after any prefix of the nodes: a key for every machine type
    met, with the number of its nodes. *)
Lemma node_loop_counts s l t : Z.of_nat (length l) < 2 ^ 63 →
  vmTypes (foldl (loop_body s) loop_init l) !! t =
    if decide (count_type s t l = 0%nat) then None else Some (Z.of_nat (count_type s t l)).
Proof.
  induction l as [|n l IH] using rev_ind; intros Hlen; [done|].
  rewrite length_app in Hlen; simpl length in Hlen. specialize (IH ltac:(lia)).
  rewrite foldl_snoc, count_type_snoc. set (st := foldl _ _ l) in *. unfold loop_body.
  change (GetFeature _ _ _) with (feature_of s n).
  destruct (feature_of s n) as [f|] eqn:Ef; cbn [vmTypes].
  - destruct (decide (node_type n = t)) as [<-|Hne].
    + rewrite lookup_insert_eq, (decide_True (P := is_Some _ ∧ _)) by eauto.
      rewrite decide_False by lia. f_equal. pose proof (count_type_le s (node_type n) l).
      rewrite IH. case_decide; simpl; rewrite add64_id by (unfold in_int64, min_int64, max_int64; lia); lia.
    + rewrite lookup_insert_ne, (decide_False (P := is_Some _ ∧ _)), Nat.add_0_r by tauto. done.
  - rewrite (decide_False (P := is_Some _ ∧ _)), Nat.add_0_r by (intros [[] _]; done). done.
Qed.

(** One error per unknown node, each of them [ErrUnknownVM]. *)
Lemma node_loop_errs s l :
  length (errs (foldl (loop_body s) loop_init l)) = length (unknown s l) ∧
  Forall (λ e, errors_Is e "node.ErrUnknownVM" = true) (errs (foldl (loop_body s) loop_init l)).
Proof.
  induction l as [|n l IH] using rev_ind; [done|]. destruct IH as [Hl HF].
  rewrite foldl_snoc. set (st := foldl _ _ l) in *. unfold loop_body, unknown in *.
  change (GetFeature _ _ _) with (feature_of s n). rewrite filter_app, length_app, filter_cons.
  destruct (feature_of s n) as [f|] eqn:Ef; cbn [errs]; case_decide; try done.
  - rewrite Nat.add_0_r. done.
  - rewrite length_app, Hl. split; [done|]. apply Forall_app. by repeat constructor.
Qed.

Lemma node_loop_keys s l t : Z.of_nat (length l) < 2 ^ 63 →
  t ∈ (map_to_list (vmTypes (foldl (loop_body s) loop_init l))).*1 ↔ count_type s t l ≠ 0%nat.
Proof.
  intros Hl. rewrite list_elem_of_fmap. split.
  - intros ([t' c] & -> & Hin%elem_of_map_to_list). rewrite node_loop_counts in Hin by done.
    by case_decide.
  - intros Hc. exists (t, Z.of_nat (count_type s t l)). split; [done|].
    apply elem_of_map_to_list. rewrite node_loop_counts by done. by rewrite decide_False.
Qed.

(** Sums over the known nodes are exact when the specification holds whole
    numbers and the total stays below [2^53]. *)
Lemma node_loop_sum_exact s (get : Feature → float64) (cores : Feature → Z)
    (proj : loop_state → float64) l :
  proj loop_init = S754_zero false →
  (∀ st n, proj (loop_body s st n) =
     match feature_of s n with Some f => fadd (proj st) (get f) | None => proj st end) →
  (∀ n f, n ∈ l → feature_of s n = Some f → get f = float64_of_int64 (cores f) ∧ 0 ≤ cores f) →
  Zsum (cores <$> omap (feature_of s) l) < 2 ^ 53 →
  proj (foldl (loop_body s) loop_init l) = float64_of_int64 (Zsum (cores <$> omap (feature_of s) l)).
Proof.
  intros H0 Hstep. induction l as [|n l IH] using rev_ind; intros Hf Hsum; [done|].
  rewrite omap_app, fmap_app, Zsum_app in Hsum |- *.
  assert (Hpos : 0 ≤ Zsum (cores <$> omap (feature_of s) l)).
  { apply Zsum_nonneg, Forall_forall.
    intros z (f & -> & (m & Hm & Hfm)%list_elem_of_omap)%list_elem_of_fmap.
    apply (Hf m f); [|done]. apply elem_of_app. by left. }
  assert (Hl : ∀ m f, m ∈ l → feature_of s m = Some f → get f = float64_of_int64 (cores f) ∧ 0 ≤ cores f).
  { intros m f Hm. apply Hf, elem_of_app. by left. }
  rewrite foldl_snoc, Hstep. simpl omap in Hsum |- *.
  destruct (feature_of s n) as [f|] eqn:E; simpl fmap in Hsum |- *.
  - rewrite Zsum_singleton in Hsum |- *.
    destruct (Hf n f) as [Hg Hc]; [apply elem_of_app; right; by constructor|done|].
    rewrite IH, Hg, fadd_int by (done || lia). done.
  - change (Zsum []) with 0 in *. rewrite Z.add_0_r in *. by apply IH.
Qed.

(** C25 -- The machine types a node scan reports: no type twice, exactly the known
    types that occur among the nodes, each with the number of its nodes, whatever
    order the map is ranged over; together they count the known nodes. *)
Theorem EDP_vm_types ord s : valid_order ord → Z.of_nat (length (Items s)) < 2 ^ 63 →
  let m := (EDP ord s).1 in
  NoDup (Name <$> VMTypes m) ∧
  (∀ t c, {| Name := t; VMCount := c |} ∈ VMTypes m ↔
     c = Z.of_nat (count_type s t (Items s)) ∧ (0 < count_type s t (Items s))%nat) ∧
  Volumes m = zeroVolumes.
Proof.
  intros Hord Hlen. simpl. set (st := foldl (loop_body s) loop_init (Items s)).
  assert (Hkeys : ∀ t, t ∈ ord (map_to_list (vmTypes st)).*1 ↔ count_type s t (Items s) ≠ 0%nat)
    by (intros t; rewrite (Hord _); by apply node_loop_keys).
  split_and!; [|intros t c|done].
  - rewrite <- list_fmap_compose, (list_fmap_ext _ id), list_fmap_id by done.
    rewrite (Hord _). apply NoDup_fst_map_to_list.
  - rewrite list_elem_of_fmap. split.
    + intros (t' & [= -> ->] & Hin). rewrite Hkeys in Hin. unfold st. rewrite node_loop_counts by done.
      rewrite decide_False by done. simpl. lia.
    + intros [-> Hc]. exists t. rewrite Hkeys. split; [|lia]. f_equal. unfold st.
      rewrite node_loop_counts by done. by rewrite decide_False by lia.
Qed.

(** A node scan converts without error exactly when every node has a machine
    type the specification knows for the cluster's provider; the error of a failed
    conversion is [ErrUnknownVM]. *)
Theorem EDP_error_iff_unknown ord s :
  match (EDP ord s).2 with
  | None => ∀ n, n ∈ Items s → is_Some (feature_of s n)
  | Some e => errors_Is e "node.ErrUnknownVM" = true ∧ ∃ n, n ∈ Items s ∧ feature_of s n = None
  end.
Proof.
  simpl. destruct (node_loop_errs s (Items s)) as [Hl HF]. unfold unknown in Hl.
  destruct (errs _) as [|e es] eqn:E; simpl in *.
  - intros n Hn. destruct (feature_of s n) eqn:En; [by eauto|].
    symmetry in Hl. apply nil_length_inv in Hl.
    assert (n ∈ filter (λ n, feature_of s n = None) (Items s)) as Hin by (by apply list_elem_of_filter).
    rewrite Hl in Hin. set_solver.
  - inversion HF as [|? ? He _]; subst. split; [by rewrite He|].
    destruct (filter _ (Items s)) as [|n l] eqn:Ef; [done|]. exists n.
    assert (n ∈ filter (λ n, feature_of s n = None) (Items s)) as Hin by (rewrite Ef; set_solver).
    apply list_elem_of_filter in Hin. tauto.
Qed.

(** C26 -- With whole-number machine sizes whose total stays below [2^53], the CPU
    and memory totals a node scan reports are the exact sums over the known nodes:
    no floating-point error enters the bill. *)
Theorem EDP_cpu_ram_exact ord s (cores gb : Feature → Z) :
  (∀ n f, n ∈ Items s → feature_of s n = Some f →
     CpuCores f = float64_of_int64 (cores f) ∧ 0 ≤ cores f ∧
     Memory f = float64_of_int64 (gb f) ∧ 0 ≤ gb f) →
  Zsum (cores <$> omap (feature_of s) (Items s)) < 2 ^ 53 →
  Zsum (gb <$> omap (feature_of s) (Items s)) < 2 ^ 53 →
  ProvisionedCPUs (EDP ord s).1 = float64_of_int64 (Zsum (cores <$> omap (feature_of s) (Items s))) ∧
  ProvisionedRAMGb (EDP ord s).1 = float64_of_int64 (Zsum (gb <$> omap (feature_of s) (Items s))).
Proof.
  intros Hf Hc Hg. split; simpl;
    [apply (node_loop_sum_exact s CpuCores cores cpus)|apply (node_loop_sum_exact s Memory gb ram)];
    try done; try (intros st n; unfold loop_body; change (GetFeature _ _ _) with (feature_of s n);
      by destruct (feature_of s n)); intros n f Hn Hfn; by destruct (Hf n f) as (? & ? & ? & ?).
Qed.

(** ** Examples *)

Definition sample_specs : PublicCloudSpecs :=
  {| Specs_Providers :=
       {| P_Azure := ∅;
          P_AWS := {["m5.xlarge" := {| CpuCores := float64_of_int64 4; Memory := float64_of_int64 16 |};
                     "m5.2xlarge" := {| CpuCores := float64_of_int64 8; Memory := float64_of_int64 32 |}]};
          P_GCP := ∅; P_OpenStack := ∅ |};
     Specs_Redis := {["s1" := {| PriceStorageGB := 10; PriceCapacityUnits := 1 |}]} |}.

Definition sample_node (t : string) : PartialObjectMetadata :=
  {| Labels := {[nodeInstanceTypeLabel := t]} |}.

Definition sample_scan : Scan :=
  {| providerType := AWS; specs := sample_specs;
     Items := [sample_node "m5.xlarge"; sample_node "M5.2xlarge"; sample_node "m5.xlarge"] |}.

Example node_sample_EDP : EDP id sample_scan =
  ({| VMTypes := [{| Name := "m5.2xlarge"; VMCount := 1 |}; {| Name := "m5.xlarge"; VMCount := 2 |}];
      ProvisionedCPUs := float64_of_int64 16; ProvisionedRAMGb := float64_of_int64 64;
      Volumes := zeroVolumes |}, None).
Proof. vm_compute. reflexivity. Qed.

Lemma EDP_vm_types_witness :
  NoDup (Name <$> VMTypes (EDP (@rev string) sample_scan).1) ∧
  {| Name := "m5.xlarge"; VMCount := 2 |} ∈ VMTypes (EDP (@rev string) sample_scan).1.
Proof.
  destruct (EDP_vm_types (@rev string) sample_scan) as (H1 & H2 & _).
  - intros l. by rewrite <- Permutation_rev.
  - vm_compute. reflexivity.
  - split; [done|]. apply H2. vm_compute. split; [reflexivity|lia].
Defined.

Definition whole_cores (f : Feature) : Z := int64_of_float64 (CpuCores f).
Definition whole_gb (f : Feature) : Z := int64_of_float64 (Memory f).

Lemma EDP_cpu_ram_exact_witness :
  ProvisionedCPUs (EDP id sample_scan).1 = float64_of_int64 16 ∧
  ProvisionedRAMGb (EDP id sample_scan).1 = float64_of_int64 64.
Proof.
  apply (EDP_cpu_ram_exact id sample_scan whole_cores whole_gb); [|vm_compute; done|vm_compute; done].
  intros n f Hn Hf. unfold sample_scan in Hn; cbn [Items] in Hn. rewrite !elem_of_cons in Hn.
  destruct Hn as [->|[->|[->|[]%elem_of_nil]]]; vm_compute in Hf; injection Hf as <-;
    vm_compute; repeat split; discriminate.
Defined.
