(* ===== verification/PvcScan.v ===== *)
(** * PvcScan: measuring persistent volume claims ([pkg/resource/pvc/scan.go])

    [EDP] adds up the bound claims: each counts its size in GiB and the size
    rounded up to a multiple of 32; claims of the NFS volumes of cloud-manager
    count three times their size, which a label may override. *)
From S2P Require Import Prelude GoStd GoFloat Resource.
Local Open Scope Z_scope.
Local Open Scope list_scope.

Definition storageRoundingFactor : Z := 32.
Definition nfsPriceMultiplier : Z := 3.
Definition GiB : Z := Z.shiftl 1 (10 * 3).

Definition nfsLabels : gmap string string :=
  {["app.kubernetes.io/component" := "cloud-manager";
    "app.kubernetes.io/part-of" := "kyma";
    "app.kubernetes.io/managed-by" := "cloud-manager"]}.

Definition nfsCapacityLabel : string := "cloud-resources.kyma-project.io/nfsVolumeStorageCapacity".

(** [resource.Quantity] of [k8s.io/apimachinery]: an opaque type with a parser
    and [MilliValue], which returns an [int64]. *)
Class QuantityApi := {
  Quantity : Type;
  MilliValue : Quantity → Z;
  ParseQuantity : string → Quantity + error;
  MilliValue_int64 q : in_int64 (MilliValue q);
}.

(** [corev1.PersistentVolumeClaimPhase]. *)
Inductive Phase := ClaimPending | ClaimBound | ClaimLost | OtherPhase (s : string).
#[global] Instance Phase_eq_dec : EqDecision Phase.
Proof. solve_decision. Defined.

(** [float64(size)/storageRoundingFactor], [math.Ceil], and back. *)
Definition getVolumeRoundedToFactor (size : Z) : Z :=
  int64_of_float64
    (fmul (fceil (fdiv (float64_of_int64 size) (float64_of_int64 storageRoundingFactor)))
          (float64_of_int64 storageRoundingFactor)).

(** [hasAllLabels(has, want)]: a missing label reads as the empty string. *)
Definition hasAllLabels (has want : gmap string string) : bool :=
  forallb (λ '(k, v), bool_decide (default "" (has !! k) = v)) (map_to_list want).

Section pvc.
Context {QA : QuantityApi}.

(** The fields of [corev1.PersistentVolumeClaim] the scan reads;
    [Storage] is what [pvc.Status.Capacity.Storage()] returns. *)
Record PersistentVolumeClaim := {
  Labels : gmap string string;
  Status_Phase : Phase;
  Storage : Quantity;
}.

Record Scan := { pvcs : list PersistentVolumeClaim }.

Definition UM (duration : Z) (s : Scan) : UMMeasurement * option error :=
  (Build_UMMeasurement, None).

Definition getSizeInGB (value : Quantity) : Z :=
  let milliVal := MilliValue value in
  int64_of_float64 (fdiv (fdiv (float64_of_int64 milliVal) (float64_of_int64 GiB)) (float64_of_int64 1000)).

(** One iteration of the loop over the claims. *)
Definition loop_body (v : ProvisionedVolumes) (pvc : PersistentVolumeClaim) : ProvisionedVolumes :=
  if hasAllLabels (Labels pvc) nfsLabels then
    if decide (Status_Phase pvc = ClaimBound) then
      let currPVC := getSizeInGB (Storage pvc) in
      let currPVC :=
        match Labels pvc !! nfsCapacityLabel with
        | Some sizeFromLabel =>
            match ParseQuantity sizeFromLabel with
            | inl quantityFromLabel => getSizeInGB quantityFromLabel
            | inr _ => currPVC
            end
        | None => currPVC
        end in
      let nfsPVCStorage := mul64 currPVC nfsPriceMultiplier in
      add_volume v nfsPVCStorage (getVolumeRoundedToFactor nfsPVCStorage)
    else v
  else if decide (Status_Phase pvc = ClaimBound) then
    let currPVC := getSizeInGB (Storage pvc) in
    add_volume v currPVC (getVolumeRoundedToFactor currPVC)
  else v.

Definition EDP (ord : RangeOrder) (s : Scan) : EDPMeasurement * option error :=
  ({| VMTypes := []; ProvisionedCPUs := S754_zero false; ProvisionedRAMGb := S754_zero false;
      Volumes := foldl loop_body zeroVolumes (pvcs s) |}, errors_Join []).

#[global] Instance pvc_ScanConverter : ScanConverter Scan :=
  {| Resource.UM := UM; Resource.EDP := EDP |}.

#[global] Instance pvc_ScanConverterLaws : ScanConverterLaws Scan.
Proof. by intros ord ord' s _ _. Qed.

End pvc.

(** ** Rounding *)

(** Rounding up to a multiple of 32 is exact up to [2^53] GiB. *)
Lemma getVolumeRoundedToFactor_exact size : 0 ≤ size ≤ 2 ^ 52 →
  getVolumeRoundedToFactor size = 32 * cdiv size 32.
Proof.
  intros Hs. destruct (decide (size = 0)) as [->|Hne]; [done|].
  unfold getVolumeRoundedToFactor, storageRoundingFactor.
  change (float64_of_int64 32) with (posfloat (2 ^ 52) (5 - 52)).
  destruct (float64_of_int64_canonical size) as (Hd & Hm & ->); [lia|].
  set (d := Zdigits2 size) in *. set (m := size * 2 ^ (53 - d)) in *.
  rewrite fdiv_pow2, fceil_posfloat by (done || lia).
  assert (cdiv m (2 ^ (- (d - 53 - 5))) = cdiv size 32) as ->.
  { apply cdiv_unique; [apply pow2_pos; lia|]. unfold m. pose proof (pow2_pos (53 - d)).
    replace (- (d - 53 - 5)) with (53 - d + 5) by lia. rewrite Z.pow_add_r by lia.
    pose proof (cdiv_spec size 32 eq_refl). change (2 ^ 5) with 32. nia. }
  pose proof (cdiv_spec size 32 eq_refl).
  destruct (float64_of_int64_canonical (cdiv size 32)) as (Hd' & Hm' & ->); [lia|].
  destruct (digits2_bounds (cdiv size 32)) as [Hb _]; [lia|].
  set (d' := Zdigits2 (cdiv size 32)) in *.
  assert (d' - 1 < 48) by (apply (Z.pow_lt_mono_r_iff 2); lia).
  rewrite fmul_pow2, int64_of_posfloat by (done || lia).
  replace (53 - d') with (5 + - (d' - 53 + 5)) by lia. rewrite Z.pow_add_r by lia.
  rewrite Z.mul_assoc, Z.div_mul; [change (2 ^ 5) with 32; lia|].
  pose proof (pow2_pos (- (d' - 53 + 5))). lia.
Qed.

(** ** Sizes *)

Section pvc_facts.
Context {QA : QuantityApi}.
Implicit Types (q : Quantity) (pvc : PersistentVolumeClaim) (s : Scan).

(** Milli-bytes per GiB: what a quantity is divided by. *)
Definition milliGiB : Z := 1000 * 2 ^ 30.

Lemma pvc_getSizeInGB_float q : 0 < MilliValue q →
  ∃ N, N / milliGiB ≤ getSizeInGB q ∧ 2 ^ 53 * (getSizeInGB q * milliGiB - N) ≤ N ∧
    (MilliValue q < 2 ^ 53 → N = MilliValue q) ∧ Z.abs (N - MilliValue q) ≤ 512 ∧
    (∀ a, a * 2 ^ 10 ≤ MilliValue q → a * 2 ^ 10 ≤ N) ∧
    (MilliValue q mod 2 ^ 10 = 0 → N = MilliValue q).
Proof.
  intros Hq. pose proof (MilliValue_int64 q) as [_ Hmax]. unfold max_int64 in Hmax.
  unfold getSizeInGB. change (float64_of_int64 GiB) with (posfloat (2 ^ 52) (30 - 52)).
  destruct (float64_of_int64_pos (MilliValue q)) as (m & e & N & -> & Hm & He & HN & H53 & Habs & Hlo & Hmod);
    [lia|].
  exists N. rewrite fdiv_pow2 by (done || lia).
  destruct (int64_div_1000 m e N) as [H1 H2]; [done|done|done|]. split_and!; done.
Qed.

(** Below [2^53] milli-bytes (8 TiB) the size is the integer number of GiB. *)
Lemma pvc_getSizeInGB_exact q : 0 ≤ MilliValue q < 2 ^ 53 → getSizeInGB q = MilliValue q / milliGiB.
Proof.
  intros Hq. destruct (decide (MilliValue q = 0)) as [H0|Hne].
  { unfold getSizeInGB. by rewrite H0. }
  destruct (pvc_getSizeInGB_float q) as (N & H1 & H2 & H53 & _); [lia|].
  rewrite (H53 ltac:(lia)) in *. pose proof (Z.div_mod (MilliValue q) milliGiB ltac:(done)).
  pose proof (Z.mod_pos_bound (MilliValue q) milliGiB eq_refl). unfold milliGiB in *. nia.
Qed.

(** A whole number of GiB of any size is reported exactly. *)
Lemma pvc_getSizeInGB_whole q g : 0 ≤ g → MilliValue q = milliGiB * g → getSizeInGB q = g.
Proof.
  intros Hg Hq. destruct (decide (g = 0)) as [->|Hne].
  { unfold getSizeInGB. by rewrite Hq. }
  destruct (pvc_getSizeInGB_float q) as (N & H1 & H2 & _ & _ & _ & Hmod); [unfold milliGiB in *; lia|].
  assert (Hm : MilliValue q mod 2 ^ 10 = 0).
  { rewrite Hq. unfold milliGiB.
    replace (1000 * 2 ^ 30 * g) with (1000 * 2 ^ 20 * g * 2 ^ 10) by ring. by apply Z.mod_mul. }
  rewrite (Hmod Hm), Hq in *. rewrite Z.mul_comm, Z.div_mul in H1 by done.
  pose proof (MilliValue_int64 q) as [_ Hmax]. unfold max_int64, milliGiB in *. nia.
Qed.

(** Every quantity: the number of GiB, or one more next to a whole number. *)
Lemma pvc_getSizeInGB_bounds q : 0 ≤ MilliValue q →
  MilliValue q / milliGiB ≤ getSizeInGB q ≤ MilliValue q / milliGiB + 1.
Proof.
  intros Hq. destruct (decide (MilliValue q = 0)) as [H0|Hne].
  { unfold getSizeInGB. by rewrite H0. }
  destruct (pvc_getSizeInGB_float q) as (N & H1 & H2 & _ & Habs & Hlo & _); [lia|].
  pose proof (MilliValue_int64 q) as [_ Hmax]. unfold max_int64 in Hmax.
  set (x := MilliValue q) in *. pose proof (Z.div_mod x milliGiB ltac:(done)).
  pose proof (Z.mod_pos_bound x milliGiB eq_refl). set (g := x / milliGiB) in *.
  unfold milliGiB in *. split; [|nia]. etrans; [|exact H1].
  apply Z.div_le_lower_bound; [done|]. specialize (Hlo (1000 * 2 ^ 20 * g)). lia.
Qed.

Lemma pvc_getSizeInGB_range q : 0 ≤ MilliValue q → 0 ≤ getSizeInGB q ≤ 2 ^ 24.
Proof.
  intros Hq. pose proof (pvc_getSizeInGB_bounds q Hq). pose proof (MilliValue_int64 q) as [_ Hmax].
  unfold max_int64 in Hmax.
  assert (0 ≤ MilliValue q / milliGiB) by (apply Z.div_pos; done).
  assert (MilliValue q / milliGiB < 2 ^ 23 + 2 ^ 22)
    by (apply Z.div_lt_upper_bound; [done|]; unfold milliGiB; lia). lia.
Qed.

(** ** What a claim is billed for *)

(** A claim belongs to an NFS volume when it carries all of [nfsLabels]. *)
Lemma hasAllLabels_subseteq (has want : gmap string string) :
  (∀ k, want !! k ≠ Some "") → hasAllLabels has want = true ↔ want ⊆ has.
Proof.
  intros Hne. unfold hasAllLabels. rewrite <- Is_true_true, forallb_True, Forall_forall, map_subseteq_spec.
  split.
  - intros H k v Hk. specialize (H (k, v)). simpl in H. rewrite elem_of_map_to_list in H.
    specialize (H Hk). apply bool_decide_unpack in H. destruct (has !! k) as [v'|]; simpl in H; [by subst|].
    subst. by destruct (Hne k).
  - intros H [k v] Hkv%elem_of_map_to_list. simpl. apply bool_decide_pack. by rewrite (H _ _ Hkv).
Qed.

Definition isNFS pvc : Prop := nfsLabels ⊆ Labels pvc.
#[global] Instance isNFS_dec pvc : Decision (isNFS pvc).
Proof. unfold isNFS. apply _. Defined.

Lemma hasAllLabels_NFS pvc : hasAllLabels (Labels pvc) nfsLabels = bool_decide (isNFS pvc).
Proof.
  apply eq_bool_prop_intro. rewrite bool_decide_spec, Is_true_true.
  apply hasAllLabels_subseteq. intros k Hk.
  unfold nfsLabels in Hk. rewrite !lookup_insert, lookup_singleton in Hk.
  by repeat case_decide.
Qed.

(** The size source: the capacity label of an NFS claim if it parses, else the
    claim's capacity. *)
Definition effective_quantity pvc : Quantity :=
  if decide (isNFS pvc) then
    match Labels pvc !! nfsCapacityLabel with
    | Some l => match ParseQuantity l with inl q => q | inr _ => Storage pvc end
    | None => Storage pvc
    end
  else Storage pvc.

Definition multiplier pvc : Z := if decide (isNFS pvc) then 3 else 1.

(** The GiB a bound claim is billed for, as whole GiB of its quantity. *)
Definition billed_gib pvc : option Z :=
  if decide (Status_Phase pvc = ClaimBound)
  then Some (multiplier pvc * (MilliValue (effective_quantity pvc) / milliGiB)) else None.

(** What the loop adds for a claim. *)
Definition contribution pvc : option (Z * Z) :=
  if decide (Status_Phase pvc = ClaimBound) then
    let t := mul64 (getSizeInGB (effective_quantity pvc)) (multiplier pvc) in
    Some (t, getVolumeRoundedToFactor t)
  else None.

Lemma loop_body_contribution v pvc :
  loop_body v pvc = match contribution pvc with Some (t, r) => add_volume v t r | None => v end.
Proof.
  unfold loop_body, contribution, effective_quantity, multiplier. rewrite hasAllLabels_NFS.
  destruct (decide (isNFS pvc)); [rewrite bool_decide_true by done|rewrite bool_decide_false by done];
    case_decide; try done.
  - by repeat case_match.
  - unfold mul64. by rewrite Z.mul_1_r, wrap64_id by apply int64_of_float64_in.
Qed.

Lemma contribution_range pvc t r : 0 ≤ MilliValue (effective_quantity pvc) →
  contribution pvc = Some (t, r) →
  0 ≤ t ≤ 2 ^ 26 ∧ 0 ≤ r ≤ 2 ^ 26 ∧ t ≤ r < t + 32 ∧ (32 | r) ∧
  t = multiplier pvc * getSizeInGB (effective_quantity pvc) ∧ r = 32 * cdiv t 32.
Proof.
  intros Hq. unfold contribution. case_decide; [|done]. intros [= <- <-].
  pose proof (pvc_getSizeInGB_range _ Hq).
  assert (1 ≤ multiplier pvc ≤ 3) by (unfold multiplier; case_decide; lia).
  rewrite mul64_id by (unfold in_int64, min_int64, max_int64; nia).
  set (t := _ * multiplier pvc). assert (0 ≤ t ≤ 3 * 2 ^ 24) by nia.
  rewrite getVolumeRoundedToFactor_exact by lia. pose proof (cdiv_spec t 32 eq_refl).
  split_and!; try lia. by exists (cdiv t 32); lia.
Qed.

Lemma EDP_volumes ord s : Volumes (EDP ord s).1 = volumes_of (omap contribution (pvcs s)).
Proof. apply foldl_volumes, loop_body_contribution. Qed.

Definition nonneg_quantities s : Prop :=
  ∀ pvc, pvc ∈ pvcs s → 0 ≤ MilliValue (effective_quantity pvc).

Lemma contributions_range s : nonneg_quantities s →
  Forall (λ '(t, r), (0 ≤ t ≤ 2 ^ 26 ∧ 0 ≤ r ≤ 2 ^ 26) ∧ t ≤ r < t + 32 ∧ (32 | r))
    (omap contribution (pvcs s)).
Proof.
  intros Hs. apply Forall_forall. intros [t r] (pvc & Hin & Hc)%list_elem_of_omap.
  destruct (contribution_range pvc t r) as (? & ? & ? & ? & _); [by apply Hs|done|]. tauto.
Qed.

Lemma EDP_volumes_exact ord s : nonneg_quantities s → Z.of_nat (length (pvcs s)) < 2 ^ 36 →
  let l := omap contribution (pvcs s) in
  Volumes (EDP ord s).1 =
    {| SizeGbTotal := Zsum l.*1; Count := Z.of_nat (length l); SizeGbRounded := Zsum l.*2 |}.
Proof.
  intros Hs Hlen l. rewrite EDP_volumes. apply (volumes_of_exact (2 ^ 26)); [|lia|].
  - eapply Forall_impl; [by apply contributions_range|]. by intros [] [? _].
  - assert (length l ≤ length (pvcs s))%nat by apply length_omap_le. lia.
Qed.

(** C23 -- A scan of persistent volume claims bills exactly the bound claims: each
    for the whole GiB of its capacity -- three times that for an NFS claim, whose
    capacity label takes priority when it parses -- and for that size rounded up
    to a multiple of 32; nothing overflows and no error is possible.  (Capacities
    up to 8 TiB, which is where [float64] still resolves every milli-byte.) *)
Theorem EDP_bills_bound_claims ord s :
  (∀ pvc, pvc ∈ pvcs s → 0 ≤ MilliValue (effective_quantity pvc) < 2 ^ 53) →
  Z.of_nat (length (pvcs s)) < 2 ^ 36 →
  let sizes := omap billed_gib (pvcs s) in
  EDP ord s =
    ({| VMTypes := []; ProvisionedCPUs := S754_zero false; ProvisionedRAMGb := S754_zero false;
        Volumes := {| SizeGbTotal := Zsum sizes; Count := Z.of_nat (length sizes);
                      SizeGbRounded := Zsum ((λ z, 32 * cdiv z 32) <$> sizes) |} |}, None).
Proof.
  intros Hs Hlen sizes. assert (Hl : omap contribution (pvcs s) = (λ z, (z, 32 * cdiv z 32)) <$> sizes).
  { unfold sizes. clear Hlen. induction (pvcs s) as [|pvc l IH]; [done|]. csimpl.
    assert (Hc : contribution pvc = (λ z, (z, 32 * cdiv z 32)) <$> billed_gib pvc).
    { destruct (contribution pvc) as [[t r]|] eqn:E.
      - destruct (Hs pvc) as [H1 H2]; [by constructor|].
        destruct (contribution_range pvc t r) as (_ & _ & _ & _ & -> & ->); [done|done|].
        rewrite pvc_getSizeInGB_exact by done. unfold contribution, billed_gib in *. by case_decide.
      - unfold contribution, billed_gib in *. by case_decide. }
    rewrite Hc. destruct (billed_gib pvc); csimpl; rewrite IH by (intros; apply Hs; by constructor); done. }
  pose proof (EDP_volumes_exact ord s) as HV. cbv zeta in HV. rewrite Hl in HV.
  unfold EDP in *; simpl in HV |- *. rewrite HV; [|intros pvc Hin; by destruct (Hs pvc)|done].
  rewrite <- !list_fmap_compose, length_fmap. by rewrite (list_fmap_ext _ id), list_fmap_id.
Qed.

(** C33 -- For any non-negative capacities: the rounded total is a multiple of 32, at
    least the plain total and less than 32 GiB per claim above it; the count is the
    number of bound claims; none of the three sums wraps around. *)
Theorem EDP_rounding_bounds ord s : nonneg_quantities s → Z.of_nat (length (pvcs s)) < 2 ^ 36 →
  let v := Volumes (EDP ord s).1 in
  0 ≤ SizeGbTotal v ≤ SizeGbRounded v ∧ SizeGbRounded v ≤ SizeGbTotal v + 31 * Count v ∧
  (32 | SizeGbRounded v) ∧
  Count v = Z.of_nat (length (filter (λ pvc, Status_Phase pvc = ClaimBound) (pvcs s))).
Proof.
  intros Hs Hlen v. unfold v. rewrite EDP_volumes_exact by done. cbn [SizeGbTotal SizeGbRounded Count].
  pose proof (contributions_range s Hs) as Hr.
  destruct (Zsum_rounded 32 (omap contribution (pvcs s))) as [H1 H2]; [done| |].
  { eapply Forall_impl; [exact Hr|]. by intros [] [_ ?]. }
  assert (0 ≤ Zsum (omap contribution (pvcs s)).*1).
  { apply Zsum_nonneg, Forall_fmap. eapply Forall_impl; [exact Hr|]. simpl. by intros [] [[[] _] _]. }
  split_and!; try done; try lia. f_equal. clear.
  induction (pvcs s) as [|pvc l IH]; [done|]. rewrite filter_cons. csimpl.
  unfold contribution at 1. case_decide; csimpl; by rewrite IH.
Qed.
End pvc_facts.

(** ** Examples *)

(** Quantities given by their milli-value, with a parser for one literal. *)
Definition sample_QuantityApi : QuantityApi := {|
  Quantity := Z;
  MilliValue := wrap64;
  ParseQuantity s := if decide (s = "40Gi") then inl (milliGiB * 40)
    else inr (extError 1 "unable to parse quantity");
  MilliValue_int64 := wrap64_in;
|}.

Definition sample_claim (labels : gmap string string) (gib : Z) : @PersistentVolumeClaim sample_QuantityApi :=
  @Build_PersistentVolumeClaim sample_QuantityApi labels ClaimBound (milliGiB * gib).

(** 10 GiB, 20 GiB of NFS, and 20 GiB of NFS labelled as 40 GiB. *)
Definition sample_scan : @Scan sample_QuantityApi :=
  {| pvcs := [sample_claim ∅ 10; sample_claim nfsLabels 20;
              sample_claim (<[nfsCapacityLabel := "40Gi"]> nfsLabels) 20] |}.

Example pvc_sample_EDP : Volumes (@EDP sample_QuantityApi id sample_scan).1 =
  {| SizeGbTotal := 10 + 60 + 120; Count := 3; SizeGbRounded := 32 + 64 + 128 |}.
Proof. vm_compute. reflexivity. Qed.

Lemma sample_scan_range pvc : pvc ∈ pvcs sample_scan →
  0 ≤ @MilliValue sample_QuantityApi (effective_quantity pvc) < 2 ^ 53.
Proof.
  unfold sample_scan; cbn [pvcs]. rewrite !elem_of_cons.
  intros [->|[->|[->|[]%elem_of_nil]]]; vm_compute; split; [discriminate|reflexivity|discriminate|reflexivity|discriminate|reflexivity].
Qed.

Lemma EDP_bills_bound_claims_witness :
  Volumes (@EDP sample_QuantityApi id sample_scan).1 =
    {| SizeGbTotal := 190; Count := 3; SizeGbRounded := 224 |}.
Proof.
  rewrite (@EDP_bills_bound_claims sample_QuantityApi id sample_scan sample_scan_range ltac:(by vm_compute)).
  vm_compute. reflexivity.
Defined.

Lemma EDP_rounding_bounds_witness :
  (32 | SizeGbRounded (Volumes (@EDP sample_QuantityApi id sample_scan).1)).
Proof.
  apply (@EDP_rounding_bounds sample_QuantityApi id sample_scan); [|by vm_compute].
  intros pvc Hin. by apply sample_scan_range.
Defined.
