(* ===== verification/VscScan.v ===== *)
(** * VscScan: measuring volume snapshot contents ([pkg/resource/vsc/scan.go])

    Snapshot contents that are ready to use count their restore size; one that is
    ready but has no restore size is an error. *)
From S2P Require Import Prelude GoStd GoFloat Resource PvcScan.
Local Open Scope Z_scope.
Local Open Scope list_scope.

Definition storageRoundingFactor : Z := 32.
Definition GiB : Z := Z.shiftl 1 (10 * 3).

Definition ErrRestoreSizeNotSet : error :=
  Sentinel "vsc.ErrRestoreSizeNotSet" "VolumeSnapshotContent: RestoreSize not set".

(** The fields of [VolumeSnapshotContent] and of its status the scan reads;
    the pointers of the source are options. *)
Record VolumeSnapshotContentStatus := { ReadyToUse : option bool; RestoreSize : option Z }.
Record VolumeSnapshotContent := { Name : string; Status : option VolumeSnapshotContentStatus }.

Record Scan := { vscs : list VolumeSnapshotContent }.

Definition UM (duration : Z) (s : Scan) : UMMeasurement * option error :=
  (Build_UMMeasurement, None).

Definition getSizeInGB (value : Z) : Z :=
  int64_of_float64 (fdiv (float64_of_int64 value) (float64_of_int64 GiB)).

Definition getVolumeRoundedToFactor (size : Z) : Z :=
  int64_of_float64
    (fmul (fceil (fdiv (float64_of_int64 size) (float64_of_int64 storageRoundingFactor)))
          (float64_of_int64 storageRoundingFactor)).

Record loop_state := { volumes : ProvisionedVolumes; errs : list error }.

Definition loop_body (st : loop_state) (vsc : VolumeSnapshotContent) : loop_state :=
  match Status vsc with
  | None => st
  | Some status =>
      if decide (ReadyToUse status = Some true) then
        match RestoreSize status with
        | None =>
            {| volumes := volumes st;
               errs := errs st ++ [wrapError (Error ErrRestoreSizeNotSet +:+ ": " +:+ Name vsc)
                                     ErrRestoreSizeNotSet] |}
        | Some size =>
            let currVSC := getSizeInGB size in
            {| volumes := add_volume (volumes st) currVSC (getVolumeRoundedToFactor currVSC);
               errs := errs st |}
        end
      else st
  end.

Definition EDP (ord : RangeOrder) (s : Scan) : EDPMeasurement * option error :=
  let st := foldl loop_body {| volumes := zeroVolumes; errs := [] |} (vscs s) in
  ({| VMTypes := []; ProvisionedCPUs := S754_zero false; ProvisionedRAMGb := S754_zero false;
      Volumes := volumes st |}, errors_Join (errs st)).

#[global] Instance vsc_ScanConverter : ScanConverter Scan :=
  {| Resource.UM := UM; Resource.EDP := EDP |}.

#[global] Instance vsc_ScanConverterLaws : ScanConverterLaws Scan.
Proof. by intros ord ord' s _ _. Qed.

(** ** Sizes *)

Lemma vsc_getSizeInGB_float v : 0 < v < 2 ^ 63 →
  ∃ N, getSizeInGB v = N / 2 ^ 30 ∧ 0 ≤ N ∧ (v < 2 ^ 53 → N = v) ∧ Z.abs (N - v) ≤ 512 ∧
    (∀ a, a * 2 ^ 10 ≤ v → a * 2 ^ 10 ≤ N).
Proof.
  intros Hv. unfold getSizeInGB. change (float64_of_int64 GiB) with (posfloat (2 ^ 52) (30 - 52)).
  destruct (float64_of_int64_pos v) as (m & e & N & -> & Hm & He & HN & H53 & Habs & Hlo & _); [lia|].
  exists N. rewrite fdiv_pow2, int64_of_posfloat by (done || lia).
  pose proof (pow2_pos (64 + e)). pose proof (pow2_pos (- (e - 30))).
  unfold mantissa in Hm. assert (0 ≤ N) by nia.
  split_and!; try done.
  rewrite <- (Z.div_mul_cancel_r m _ (2 ^ (64 + e))) by lia.
  rewrite <- Z.pow_add_r by lia. replace (- (e - 30) + (64 + e)) with (30 + 64) by lia.
  rewrite HN, Z.pow_add_r, Z.div_mul_cancel_r by lia. done.
Qed.

(** Below [2^53] bytes (8 PiB) the size is the integer number of GiB. *)
Lemma vsc_getSizeInGB_exact v : 0 ≤ v < 2 ^ 53 → getSizeInGB v = v / 2 ^ 30.
Proof.
  intros Hv. destruct (decide (v = 0)) as [->|]; [done|].
  destruct (vsc_getSizeInGB_float v) as (N & -> & _ & H53 & _); [lia|]. by rewrite H53 by lia.
Qed.

(** Any [int64] size: the number of GiB, or one more next to a whole number. *)
Lemma vsc_getSizeInGB_bounds v : 0 ≤ v < 2 ^ 63 → v / 2 ^ 30 ≤ getSizeInGB v ≤ v / 2 ^ 30 + 1.
Proof.
  intros Hv. destruct (decide (v = 0)) as [->|]; [done|].
  destruct (vsc_getSizeInGB_float v) as (N & -> & _ & _ & Habs & Hlo); [lia|].
  pose proof (Z.div_mod v (2 ^ 30)). pose proof (Z.mod_pos_bound v (2 ^ 30)).
  set (g := v / 2 ^ 30) in *. split.
  - apply Z.div_le_lower_bound; [lia|]. specialize (Hlo (2 ^ 20 * g)). lia.
  - apply Z.lt_succ_r, Z.div_lt_upper_bound; lia.
Qed.

Lemma vsc_getSizeInGB_range v : 0 ≤ v < 2 ^ 63 → 0 ≤ getSizeInGB v ≤ 2 ^ 33.
Proof.
  intros Hv. pose proof (vsc_getSizeInGB_bounds v Hv).
  assert (0 ≤ v / 2 ^ 30) by (apply Z.div_pos; lia).
  assert (v / 2 ^ 30 < 2 ^ 33) by (apply Z.div_lt_upper_bound; lia). lia.
Qed.

(** The snapshots that count: ready to use, with a restore size. *)
Definition ready (vsc : VolumeSnapshotContent) : bool :=
  match Status vsc with Some st => bool_decide (ReadyToUse st = Some true) | None => false end.

Definition restore_size (vsc : VolumeSnapshotContent) : option Z :=
  if ready vsc then Status vsc ≫= RestoreSize else None.

Definition contribution (vsc : VolumeSnapshotContent) : option (Z * Z) :=
  (λ v, (getSizeInGB v, getVolumeRoundedToFactor (getSizeInGB v))) <$> restore_size vsc.

Lemma vsc_loop_volumes l :
  volumes (foldl loop_body {| volumes := zeroVolumes; errs := [] |} l) = volumes_of (omap contribution l).
Proof.
  induction l as [|vsc l IH] using rev_ind; [done|]. rewrite foldl_snoc, omap_app.
  set (st := foldl _ _ l) in *. unfold loop_body. csimpl.
  unfold contribution at 2, restore_size, ready.
  destruct (Status vsc) as [status|]; csimpl; [|by rewrite app_nil_r].
  case_decide as Hr; [rewrite bool_decide_true by done|rewrite bool_decide_false by done];
    csimpl; [|by rewrite app_nil_r].
  destruct (RestoreSize status); csimpl; [by rewrite volumes_of_snoc, IH|by rewrite app_nil_r].
Qed.

(** Ready to use, but without a restore size. *)
Definition missing_size (vsc : VolumeSnapshotContent) : Prop :=
  ready vsc = true ∧ restore_size vsc = None.

Lemma vsc_loop_errs l :
  let es := errs (foldl loop_body {| volumes := zeroVolumes; errs := [] |} l) in
  (es = [] ↔ ∀ vsc, vsc ∈ l → ¬ missing_size vsc) ∧
  Forall (λ e, errors_Is e "vsc.ErrRestoreSizeNotSet" = true) es.
Proof.
  induction l as [|vsc l [IH1 IH2]] using rev_ind; cbv zeta in *; [split; [set_solver|constructor]|].
  rewrite foldl_snoc. set (st := foldl _ _ l) in *.
  assert (Hb : (errs (loop_body st vsc) = errs st ∧ ¬ missing_size vsc) ∨
    (∃ e, errs (loop_body st vsc) = errs st ++ [e] ∧ errors_Is e "vsc.ErrRestoreSizeNotSet" = true)
    ∧ missing_size vsc).
  { unfold loop_body, missing_size, restore_size, ready. destruct (Status vsc) as [status|]; [|naive_solver].
    case_decide; [rewrite bool_decide_true by done|rewrite bool_decide_false by done; naive_solver].
    destruct (RestoreSize status) eqn:Er; csimpl; rewrite Er; [naive_solver|].
    right. split; [|done]. eexists. done. }
  setoid_rewrite elem_of_app. setoid_rewrite list_elem_of_singleton.
  destruct Hb as [[-> Hn]|[(e & -> & He) Hm]].
  - split; [|done]. rewrite IH1. naive_solver.
  - split; [|apply Forall_app; by repeat constructor]. split; [by destruct (errs st)|]. naive_solver.
Qed.

(** C31 -- A scan of snapshot contents adds up the ready ones: each counts the GiB
    of its restore size (exactly, below 8 PiB), and that size rounded up to a
    multiple of 32, without overflow. *)
Theorem EDP_bills_ready_snapshots ord s :
  (∀ vsc v, vsc ∈ vscs s → restore_size vsc = Some v → 0 ≤ v < 2 ^ 53) →
  Z.of_nat (length (vscs s)) < 2 ^ 28 →
  let sizes := (λ v, v / 2 ^ 30) <$> omap restore_size (vscs s) in
  Volumes (EDP ord s).1 =
    {| SizeGbTotal := Zsum sizes; Count := Z.of_nat (length sizes);
       SizeGbRounded := Zsum ((λ z, 32 * cdiv z 32) <$> sizes) |}.
Proof.
  intros Hs Hlen sizes. simpl. rewrite vsc_loop_volumes.
  assert (Hl : omap contribution (vscs s) = (λ z, (z, 32 * cdiv z 32)) <$> sizes).
  { unfold sizes. clear Hlen. induction (vscs s) as [|vsc l IH]; [done|]. csimpl.
    unfold contribution at 1. destruct (restore_size vsc) as [v|] eqn:E; csimpl;
      rewrite IH by (intros; eapply Hs; [by constructor|done]); [|done].
    specialize (Hs vsc v ltac:(by constructor) E). rewrite vsc_getSizeInGB_exact by done.
    assert (0 ≤ v / 2 ^ 30) by (apply Z.div_pos; lia).
    assert (v / 2 ^ 30 ≤ v) by (apply Z.div_le_upper_bound; lia).
    do 2 f_equal. apply getVolumeRoundedToFactor_exact. assert (v / 2 ^ 30 < 2 ^ 23); [|lia].
    apply Z.div_lt_upper_bound; lia. }
  rewrite Hl, (volumes_of_exact (2 ^ 24)).
  - rewrite <- !list_fmap_compose, length_fmap. by rewrite (list_fmap_ext _ id), list_fmap_id.
  - apply Forall_fmap, Forall_fmap, Forall_forall. intros v (vsc & Hin & Hv)%list_elem_of_omap. simpl.
    specialize (Hs _ _ Hin Hv). assert (0 ≤ v / 2 ^ 30) by (apply Z.div_pos; lia).
    assert (v / 2 ^ 30 < 2 ^ 23) by (apply Z.div_lt_upper_bound; lia).
    pose proof (cdiv_spec (v / 2 ^ 30) 32 eq_refl). lia.
  - done.
  - unfold sizes. rewrite !length_fmap.
    assert (length (omap restore_size (vscs s)) ≤ length (vscs s))%nat by apply length_omap_le. lia.
Qed.

(** The conversion fails exactly when a ready snapshot has no restore size,
    and then with [ErrRestoreSizeNotSet]. *)
Theorem EDP_error_iff_missing_size ord s :
  match (EDP ord s).2 with
  | None => ∀ vsc, vsc ∈ vscs s → ¬ missing_size vsc
  | Some e => errors_Is e "vsc.ErrRestoreSizeNotSet" = true ∧
      ¬ ∀ vsc, vsc ∈ vscs s → ¬ missing_size vsc
  end.
Proof.
  simpl. destruct (vsc_loop_errs (vscs s)) as [Hnil HF].
  destruct (errs _) as [|e es] eqn:E; simpl in *; [by apply Hnil|].
  inversion HF as [|? ? He _]; subst. rewrite He. split; [done|]. by intros ?%Hnil.
Qed.

(** ** Examples *)

Definition sample_vsc (gib : Z) : VolumeSnapshotContent :=
  {| Name := "snap"; Status := Some {| ReadyToUse := Some true; RestoreSize := Some (gib * 2 ^ 30) |} |}.

Definition sample_scan : Scan :=
  {| vscs := [sample_vsc 10; {| Name := "new"; Status := None |};
              {| Name := "pending"; Status := Some {| ReadyToUse := None; RestoreSize := None |} |};
              sample_vsc 40] |}.

Lemma EDP_bills_ready_snapshots_witness :
  Volumes (EDP id sample_scan).1 = {| SizeGbTotal := 50; Count := 2; SizeGbRounded := 96 |}.
Proof.
  rewrite (EDP_bills_ready_snapshots id sample_scan); [by vm_compute| |by vm_compute].
  intros vsc v Hin Hv. unfold sample_scan in Hin; cbn [vscs] in Hin. rewrite !elem_of_cons in Hin.
  destruct Hin as [->|[->|[->|[->|[]%elem_of_nil]]]]; vm_compute in Hv; simplify_eq; lia.
Defined.
