(* ===== verification/RedisScan.v ===== *)
(** * RedisScan: measuring Redis instances ([pkg/resource/redis/scan.go])

    Every Redis instance counts the storage its tier is priced at; Redis storage
    is not rounded. *)
From S2P Require Import Prelude GoStd GoFloat Resource CloudSpecs.
Local Open Scope Z_scope.
Local Open Scope list_scope.

Definition ErrUnknownRedisTier : error := Sentinel "redis.ErrUnknownRedisTier" "redis tier not defined".

(** The tier of an instance, which is all the scan reads of
    [AwsRedisInstance], [AzureRedisInstance] and [GcpRedisInstance]. *)
Record RedisInstance := { RedisTier : string }.

Record Scan := {
  specs : PublicCloudSpecs;
  aws : list RedisInstance;
  azure : list RedisInstance;
  gcp : list RedisInstance;
}.

Definition UM (duration : Z) (s : Scan) : UMMeasurement * option error :=
  (Build_UMMeasurement, None).

Definition listTiers (s : Scan) : list string :=
  (RedisTier <$> aws s) ++ (RedisTier <$> azure s) ++ (RedisTier <$> gcp s).

Record loop_state := { volumes : ProvisionedVolumes; errs : list error }.

(** [int64(redisStorage.PriceStorageGB)] is the identity on a 64-bit [int]. *)
Definition loop_body (s : Scan) (st : loop_state) (tier : string) : loop_state :=
  match GetRedisInfo (specs s) tier with
  | None =>
      {| volumes := volumes st;
         errs := errs st ++ [wrapError (Error ErrUnknownRedisTier +:+ ": " +:+ tier) ErrUnknownRedisTier] |}
  | Some redisStorage =>
      {| volumes := add_volume (volumes st) (PriceStorageGB redisStorage) (PriceStorageGB redisStorage);
         errs := errs st |}
  end.

Definition EDP (ord : RangeOrder) (s : Scan) : EDPMeasurement * option error :=
  let st := foldl (loop_body s) {| volumes := zeroVolumes; errs := [] |} (listTiers s) in
  ({| VMTypes := []; ProvisionedCPUs := S754_zero false; ProvisionedRAMGb := S754_zero false;
      Volumes := volumes st |}, errors_Join (errs st)).

#[global] Instance redis_ScanConverter : ScanConverter Scan :=
  {| Resource.UM := UM; Resource.EDP := EDP |}.

#[global] Instance redis_ScanConverterLaws : ScanConverterLaws Scan.
Proof. by intros ord ord' s _ _. Qed.

(** ** Behaviour *)

(** The price in GB of a known tier. *)
Definition tier_gb (s : Scan) (tier : string) : option Z := PriceStorageGB <$> GetRedisInfo (specs s) tier.

Lemma redis_loop_volumes s l :
  volumes (foldl (loop_body s) {| volumes := zeroVolumes; errs := [] |} l) =
    volumes_of ((λ z, (z, z)) <$> omap (tier_gb s) l).
Proof.
  induction l as [|t l IH] using rev_ind; [done|]. rewrite foldl_snoc, omap_app, fmap_app.
  set (st := foldl _ _ l) in *. unfold loop_body. csimpl. unfold tier_gb at 2.
  destruct (GetRedisInfo (specs s) t); csimpl; [by rewrite volumes_of_snoc, IH|by rewrite app_nil_r].
Qed.

Lemma redis_loop_errs s l :
  let es := errs (foldl (loop_body s) {| volumes := zeroVolumes; errs := [] |} l) in
  (es = [] ↔ ∀ t, t ∈ l → is_Some (GetRedisInfo (specs s) t)) ∧
  Forall (λ e, errors_Is e "redis.ErrUnknownRedisTier" = true) es.
Proof.
  induction l as [|t l [IH1 IH2]] using rev_ind; cbv zeta in *; [split; [set_solver|constructor]|].
  rewrite foldl_snoc. set (st := foldl _ _ l) in *. unfold loop_body.
  setoid_rewrite elem_of_app. setoid_rewrite list_elem_of_singleton.
  destruct (GetRedisInfo (specs s) t) eqn:E; cbn [errs].
  - split; [|done]. rewrite IH1. split; [|by eauto]. intros H x [Hx| ->]; [by apply H|by rewrite E].
  - split; [|apply Forall_app; by repeat constructor]. split; [by destruct (errs st)|].
    intros H. specialize (H t (or_intror eq_refl)). rewrite E in H. by destruct H.
Qed.

(** C32 -- A Redis scan bills every instance with a known tier at the tier's storage
    price, in both totals alike (Redis storage is not rounded), and counts those
    instances; an instance with an unknown tier makes the conversion fail with
    [ErrUnknownRedisTier] and is left out of the sums. *)
Theorem EDP_bills_known_tiers ord s B :
  (∀ t z, t ∈ listTiers s → tier_gb s t = Some z → 0 ≤ z ≤ B) →
  0 < B → B * Z.of_nat (length (listTiers s)) < 2 ^ 63 →
  let sizes := omap (tier_gb s) (listTiers s) in
  Volumes (EDP ord s).1 =
    {| SizeGbTotal := Zsum sizes; Count := Z.of_nat (length sizes); SizeGbRounded := Zsum sizes |} ∧
  ((EDP ord s).2 = None ↔ ∀ t, t ∈ listTiers s → is_Some (GetRedisInfo (specs s) t)) ∧
  (∀ e, (EDP ord s).2 = Some e → errors_Is e "redis.ErrUnknownRedisTier" = true).
Proof.
  intros HB HBpos Hlen sizes. destruct (redis_loop_errs s (listTiers s)) as [Hnil HF]. cbv zeta in *.
  simpl. rewrite redis_loop_volumes. fold sizes. split_and!.
  - rewrite (volumes_of_exact B); [|apply Forall_fmap, Forall_forall|done|].
    + rewrite <- !list_fmap_compose, length_fmap. by rewrite !(list_fmap_ext (_ ∘ _) id), list_fmap_id.
    + intros z (t & Hin & Ht)%list_elem_of_omap. specialize (HB _ _ Hin Ht). simpl. tauto.
    + rewrite length_fmap. pose proof (length_omap_le (tier_gb s) (listTiers s)). fold sizes in H. nia.
  - by rewrite errors_Join_None.
  - intros e He. rewrite (errors_Join_Is _ _ _ He). destruct (errs _) as [|e' es]; [done|].
    inversion HF as [|? ? He' _]; subst. simpl. by rewrite He'.
Qed.

(** ** Examples *)

Definition sample_scan : Scan :=
  {| specs := {| Specs_Providers := {| P_Azure := ∅; P_AWS := ∅; P_GCP := ∅; P_OpenStack := ∅ |};
                 Specs_Redis := {["s1" := {| PriceStorageGB := 10; PriceCapacityUnits := 1 |};
                                  "p1" := {| PriceStorageGB := 50; PriceCapacityUnits := 4 |}]} |};
     aws := [{| RedisTier := "s1" |}]; azure := [{| RedisTier := "invalid-tier" |}];
     gcp := [{| RedisTier := "p1" |}] |}.

Lemma EDP_bills_known_tiers_witness :
  Volumes (EDP id sample_scan).1 = {| SizeGbTotal := 60; Count := 2; SizeGbRounded := 60 |} ∧
  (EDP id sample_scan).2 ≠ None.
Proof.
  destruct (EDP_bills_known_tiers id sample_scan 50) as (-> & -> & _); [|done|by vm_compute|].
  - intros t z Hin Hz. change (t ∈ ["s1"; "invalid-tier"; "p1"]) in Hin.
    rewrite !elem_of_cons in Hin.
    destruct Hin as [->|[->|[->|[]%elem_of_nil]]]; vm_compute in Hz; simplify_eq; lia.
  - split; [by vm_compute|]. intros H. destruct (H "invalid-tier") as [x Hx]; [|done].
    change ("invalid-tier" ∈ ["s1"; "invalid-tier"; "p1"]). set_solver.
Defined.
