(* ===== verification/ClusterTracking.v ===== *)
(** * ClusterTracking: which runtimes are billable ([pkg/process/cluster_tracking.go])

    The operations of a runtime are collected from its status, sorted by creation
    time, and the last one decides. *)
From S2P Require Import Prelude GoStd.
Local Open Scope Z_scope.
Local Open Scope list_scope.

(** ** The KEB data ([kyma-environment-broker/common/runtime])

    The fields the collector reads.  Instants are integers (nanoseconds). *)
Record Operation := { State : string; CreatedAt : Z }.

Record RuntimeStatus := {
  Status_State : string;
  Provisioning : option Operation;
  Deprovisioning : option Operation;
  UpgradingKyma : option (list Operation);
  UpgradingCluster : option (list Operation);
  Update : option (list Operation);
  Suspension : option (list Operation);
  Unsuspension : option (list Operation);
}.

Record RuntimeDTO := {
  InstanceID : string;
  RuntimeID : string;
  GlobalAccountID : string;
  SubAccountID : string;
  ShootName : string;
  Provider : string;
  Status : RuntimeStatus;
}.

Record RuntimesPage := { Data : list RuntimeDTO; PageCount : Z; TotalCount : Z }.

Definition StateSucceeded : string := "succeeded".

(** ** The code *)

Inductive runtimeState :=
| provisioning | deprovisioning | upgradingkyma | upgradingcluster | update | suspension | unsuspension.
#[global] Instance runtimeState_eq_dec : EqDecision runtimeState.
Proof. solve_decision. Defined.

Record simpleOperation := { state : runtimeState; time : Z; succeeded : bool }.
#[global] Instance simpleOperation_eq_dec : EqDecision simpleOperation.
Proof. solve_decision. Defined.

Definition operationSucceeded (operation : Operation) : bool :=
  bool_decide (State operation = StateSucceeded).

Definition newSimpleOperation (st : runtimeState) (operation : Operation) : simpleOperation :=
  {| state := st; time := CreatedAt operation; succeeded := operationSucceeded operation |}.

(** The operations in the order [sortOperations] appends them. *)
Definition collectOperations (runtime : RuntimeDTO) : list simpleOperation :=
  let status := Status runtime in
  (newSimpleOperation provisioning <$> option_list (Provisioning status)) ++
  (newSimpleOperation deprovisioning <$> option_list (Deprovisioning status)) ++
  (newSimpleOperation upgradingkyma <$> default [] (UpgradingKyma status)) ++
  (newSimpleOperation upgradingcluster <$> default [] (UpgradingCluster status)) ++
  (newSimpleOperation update <$> default [] (Update status)) ++
  (newSimpleOperation suspension <$> default [] (Suspension status)) ++
  (newSimpleOperation unsuspension <$> default [] (Unsuspension status)).

(** [operations[i].time.Before(operations[j].time)]. *)
Definition before (a b : simpleOperation) : bool := time a <? time b.

Section tracking.
Context {SS : SortSlice}.

Definition sortOperations (runtime : RuntimeDTO) : list simpleOperation :=
  sort_Slice before (collectOperations runtime).

(** The verdict of the switch on the last operation. *)
Definition verdict (lastOperation : simpleOperation) : bool :=
  match state lastOperation with
  | provisioning | unsuspension => succeeded lastOperation
  | suspension | deprovisioning => false
  | _ => true
  end.

Definition isRuntimeTrackable (runtime : RuntimeDTO) : bool :=
  match last (sortOperations runtime) with
  | None => false
  | Some lastOperation => verdict lastOperation
  end.

(** ** Behaviour *)

Lemma before_swo : strict_weak_order before.
Proof. constructor; unfold before; intros; lia. Qed.

Lemma StronglySorted_last {A} (R : A → A → Prop) l x y :
  StronglySorted R l → last l = Some x → y ∈ l → y = x ∨ R y x.
Proof.
  induction 1 as [|z l Hs IH Hall]; [done|]. intros Hlast Hy.
  destruct l as [|z' l']; [left; injection Hlast as <-; by apply list_elem_of_singleton|].
  rewrite last_cons_cons in Hlast. apply elem_of_cons in Hy as [->|Hy]; [|by apply IH].
  right. rewrite Forall_forall in Hall. apply Hall, last_Some_elem_of, Hlast.
Qed.

(** The last element of the sorted operations is a latest one of the runtime. *)
Lemma sortOperations_last runtime o : last (sortOperations runtime) = Some o →
  o ∈ collectOperations runtime ∧ ∀ o', o' ∈ collectOperations runtime → time o' ≤ time o.
Proof.
  intros Hlast. pose proof (sort_Slice_perm before (collectOperations runtime)) as Hperm.
  pose proof (sort_Slice_sorted before (collectOperations runtime) before_swo) as Hsort.
  split; [rewrite <- Hperm; by apply last_Some_elem_of|].
  intros o' Ho'. rewrite <- Hperm in Ho'.
  destruct (StronglySorted_last _ _ _ _ Hsort Hlast Ho') as [->|Hb]; [done|].
  unfold before in Hb. lia.
Qed.

(** C22 -- Whatever the sorting algorithm does with equal times: when all latest
    operations of a runtime lead to the same verdict, that is the answer; without
    operations the runtime is not trackable. *)
Theorem isRuntimeTrackable_latest runtime b :
  (∀ o, o ∈ collectOperations runtime →
     (∀ o', o' ∈ collectOperations runtime → time o' ≤ time o) → verdict o = b) →
  isRuntimeTrackable runtime = if decide (collectOperations runtime = []) then false else b.
Proof.
  intros Hb. unfold isRuntimeTrackable. destruct (last (sortOperations runtime)) as [o|] eqn:E.
  - apply sortOperations_last in E as [Hin Hmax].
    rewrite decide_False by (intros Hnil; rewrite Hnil in Hin; by apply elem_of_nil in Hin).
    by apply Hb.
  - apply last_None in E. rewrite decide_True; [done|].
    apply Permutation_nil_r. rewrite <- E. symmetry. apply sort_Slice_perm.
Qed.

(** ** The billing lifecycle

    The billing state of the contributor documentation (docs/contributor/README.md):
    a cluster becomes billable by provisioning or unsuspension and stops being so
    by suspension or deprovisioning; every other operation leaves the state alone. *)
Definition lifecycle_step (billable : bool) (o : simpleOperation) : bool :=
  match state o with
  | provisioning | unsuspension => succeeded o
  | suspension | deprovisioning => false
  | _ => billable
  end.

Definition lifecycle (ops : list simpleOperation) : bool := foldl lifecycle_step false ops.

(** The latest operation is an upgrade or an update. *)
Definition maintenance (o : simpleOperation) : bool :=
  match state o with upgradingkyma | upgradingcluster | update => true | _ => false end.
Definition maintained (ops : list simpleOperation) : bool :=
  match last ops with Some o => maintenance o | None => false end.

Lemma lifecycle_last ops o : last ops = Some o → verdict o = lifecycle ops || maintenance o.
Proof.
  intros (ops' & ->)%last_Some. unfold lifecycle. rewrite foldl_app. simpl. unfold lifecycle_step, verdict, maintenance.
  destruct (state o); by rewrite ?orb_true_r, ?orb_false_r.
Qed.

(** C21 -- The billing life cycle that the documentation describes and the code's look at the last operation, compared for every runtime
    whose operations have different times: the runtime is trackable exactly if the life cycle, run over all its operations in
    chronological order, ends in the billable state, or the latest operation is an upgrade or an update.  So every cluster that
    the documentation bills is tracked, and the two differ exactly for a cluster that was upgraded or updated after it was
    suspended or removed, or before it was provisioned: the code tracks it, the documentation does not. *)
Theorem isRuntimeTrackable_lifecycle runtime ops :
  ops ≡ₚ collectOperations runtime → StronglySorted (λ a b, time a < time b) ops →
  isRuntimeTrackable runtime = lifecycle ops || maintained ops.
Proof.
  intros Hperm Hsort. unfold isRuntimeTrackable, maintained.
  destruct (last (sortOperations runtime)) as [o|] eqn:E.
  - apply sortOperations_last in E as [Hin Hmax]. rewrite <- Hperm in Hin.
    destruct (last ops) as [o'|] eqn:E'; [|apply last_None in E'; subst; by apply elem_of_nil in Hin].
    destruct (StronglySorted_last _ _ _ _ Hsort E' Hin) as [->|Hlt]; [by apply lifecycle_last|].
    assert (o' ∈ collectOperations runtime) as Hin'%Hmax
      by (rewrite <- Hperm; by apply last_Some_elem_of). lia.
  - apply last_None in E. unfold sortOperations in E.
    assert (ops = []) as ->; [|done]. apply Permutation_nil_r. rewrite Hperm, <- E.
    symmetry. apply sort_Slice_perm.
Qed.
End tracking.

(** ** Examples *)

Definition sample_op (st : string) (t : Z) : Operation := {| State := st; CreatedAt := t |}.

(** Provisioned, suspended, unsuspended and updated. *)
Definition sample_runtime : RuntimeDTO :=
  {| InstanceID := "i"; RuntimeID := "r"; GlobalAccountID := "g"; SubAccountID := "s"; ShootName := "c-1";
     Provider := "AWS";
     Status := {| Status_State := "succeeded"; Provisioning := Some (sample_op "succeeded" 1);
                  Deprovisioning := None; UpgradingKyma := None; UpgradingCluster := None;
                  Update := Some [sample_op "failed" 7]; Suspension := Some [sample_op "succeeded" 3];
                  Unsuspension := Some [sample_op "succeeded" 5] |} |}.

Definition sample_history : list simpleOperation :=
  [newSimpleOperation provisioning (sample_op "succeeded" 1);
   newSimpleOperation suspension (sample_op "succeeded" 3);
   newSimpleOperation unsuspension (sample_op "succeeded" 5);
   newSimpleOperation update (sample_op "failed" 7)].

Lemma isRuntimeTrackable_latest_witness :
  isRuntimeTrackable (SS := insertion_SortSlice) sample_runtime = true.
Proof.
  rewrite (isRuntimeTrackable_latest (SS := insertion_SortSlice) sample_runtime true); [by vm_compute|].
  intros o Ho Hmax.
  specialize (Hmax (newSimpleOperation update (sample_op "failed" 7))). unfold collectOperations in *.
  simpl in Ho, Hmax. rewrite !elem_of_cons in Ho, Hmax.
  destruct Ho as [->|[->|[->|[->|[]%elem_of_nil]]]]; [|done| |];
    specialize (Hmax ltac:(tauto)); simpl in Hmax; lia.
Defined.

(** Suspended and then updated: tracked, although the life cycle says otherwise. *)
Definition suspended_runtime : RuntimeDTO :=
  {| InstanceID := "i"; RuntimeID := "r"; GlobalAccountID := "g"; SubAccountID := "s"; ShootName := "c-1";
     Provider := "AWS";
     Status := {| Status_State := "succeeded"; Provisioning := Some (sample_op "succeeded" 1);
                  Deprovisioning := None; UpgradingKyma := None; UpgradingCluster := None;
                  Update := Some [sample_op "failed" 7]; Suspension := Some [sample_op "succeeded" 3];
                  Unsuspension := None |} |}.
Definition suspended_history : list simpleOperation :=
  [newSimpleOperation provisioning (sample_op "succeeded" 1);
   newSimpleOperation suspension (sample_op "succeeded" 3);
   newSimpleOperation update (sample_op "failed" 7)].

Lemma isRuntimeTrackable_lifecycle_witness :
  isRuntimeTrackable (SS := insertion_SortSlice) sample_runtime = true ∧ lifecycle sample_history = true ∧
  isRuntimeTrackable (SS := insertion_SortSlice) suspended_runtime = true ∧ lifecycle suspended_history = false.
Proof.
  split; [|split; [reflexivity|]; split; [|reflexivity]].
  - rewrite (isRuntimeTrackable_lifecycle (SS := insertion_SortSlice) sample_runtime sample_history); [done| |].
    + unfold sample_history, collectOperations; simpl. constructor.
      etrans; [|symmetry; apply (Permutation_cons_append [_; _] _)]. done.
    + unfold sample_history. repeat constructor; simpl; lia.
  - rewrite (isRuntimeTrackable_lifecycle (SS := insertion_SortSlice) suspended_runtime suspended_history); [done| |].
    + unfold suspended_history, collectOperations; simpl. constructor. constructor.
    + unfold suspended_history. repeat constructor; simpl; lia.
Defined.
