(* ===== verification/Effects.v ===== *)
(** * Effects: the collector's effects, its threads and the libraries they call

    A method of the collector that touches shared state or the outside world is a
    [prog]: a tree of effects, one node per call of the cache, the work queue, a
    Prometheus vector or the environment.  The same tree is run to completion by
    [run] (one goroutine on its own) and one effect at a time by the thread
    semantics of Concurrency.v.

    The libraries are type classes: [GoCache] for github.com/patrickmn/go-cache,
    [WorkQueue] for client-go's delaying work queue, [Prometheus] for
    client_golang's metric vectors.  Their laws state the documented behaviour. *)
From S2P Require Import Prelude GoStd GoFloat Rfc3339 Logger Resource Tracing NodeScan PvcScan VscScan RedisScan.
From stdpp Require Import countable.
Local Open Scope Z_scope.
Local Open Scope list_scope.

(** ** Metrics *)

(** The metric vectors, and their labels in the order of their declarations
    (pkg/process/metrics.go, pkg/collector/metrics.go, pkg/collector/edp/metrics.go,
    pkg/keb/metrics.go, pkg/runtime/kubeconfigprovider/metrics.go, pkg/queue/metrics.go,
    pkg/metrics/metrics.go). *)
Inductive metric :=
| itemsInCache | subAccountProcessed | subAccountProcessedTimeStamp | kebFetchedClusters
| TotalScans | TotalScansConverted | edpLatency | kebLatency | cacheSizeMetric
| queue_depth | queue_adds | queue_latency | queue_workDuration | queue_unfinished
| queue_longestRunningProcessor | queue_retries | tls_creates | tls_entries.
#[global] Instance metric_eq_dec : EqDecision metric.
Proof. solve_decision. Defined.

Definition shootLabels : list string :=
  ["shoot_name"; "instance_id"; "runtime_id"; "sub_account_id"; "global_account_id"].

Definition metric_labels (m : metric) : list string :=
  match m with
  | itemsInCache => []
  | subAccountProcessed => "success" :: shootLabels
  | subAccountProcessedTimeStamp => shootLabels
  | kebFetchedClusters => "trackable" :: shootLabels
  | TotalScans => "success" :: "resource_name" :: shootLabels
  | TotalScansConverted => "success" :: "resource_name" :: "backend_name" :: shootLabels
  | edpLatency | kebLatency => ["status"; "request_url"]
  | cacheSizeMetric => ["name"]
  | queue_depth | queue_adds | queue_latency | queue_workDuration | queue_unfinished
  | queue_longestRunningProcessor | queue_retries => ["name"]
  | tls_creates => ["result"]
  | tls_entries => []
  end.

(** ** Cached records *)

(** [kubeconfigprovider.Record]; a nil [ScanMap] reads as the empty map. *)
Record CacheRecord {S : Type} := {
  InstanceID : string;
  RuntimeID : string;
  SubAccountID : string;
  GlobalAccountID : string;
  ShootName : string;
  ProviderType : string;
  ScanMap : gmap ScannerID S;
}.
#[global] Arguments CacheRecord : clear implicits.

(** The zero value [kmccache.Record{}] with one field set. *)
Definition recordOfSubAccount {S} (subAccountID : string) : CacheRecord S :=
  {| InstanceID := ""; RuntimeID := ""; SubAccountID := subAccountID; GlobalAccountID := "";
     ShootName := ""; ProviderType := ""; ScanMap := ∅ |}.

(** What the cache holds: an [interface{}], which the collector casts to a record. *)
Inductive obj {S : Type} := ObjRecord (r : CacheRecord S) | ObjOther.
#[global] Arguments obj : clear implicits.

(** ** The environment *)

(** An opaque pointer: a REST configuration, an HTTP client or a Kubernetes client. *)
Abbreviation handle := positive.

(** [rest.Config]: what the kubeconfig determines, and the [Proxy] function. *)
Inductive ProxyFunc := ProxyFromEnvironment | OtherProxy (f : handle).
Record RestConfig := { restConfig : handle; Proxy : option ProxyFunc }.

(** The packages whose [NewForConfigAndClient] builds a client of one API. *)
Inductive ClientApi := kubernetes_api | metadata_api | dynamic_api | volumesnapshot_api.
#[global] Instance ClientApi_eq_dec : EqDecision ClientApi.
Proof. solve_decision. Defined.

(** [schema.GroupVersionResource]: a kind of Kubernetes resources. *)
Record GroupVersionResource := { Group : string; Version : string; ResourceName : string }.

(** Why a call of the Kubernetes API failed; [apierrors.IsNotFound] and [apierrors.IsForbidden] look at the reason. *)
Inductive StatusReason := StatusReasonNotFound | StatusReasonForbidden | StatusReasonOther.
Record ApiError := { ReasonForError : StatusReason; apiErr : error }.
Definition isNotFound (err : ApiError) : bool := match ReasonForError err with StatusReasonNotFound => true | _ => false end.
Definition isForbidden (err : ApiError) : bool := match ReasonForError err with StatusReasonForbidden => true | _ => false end.

(** A Kubernetes secret. *)
Record Secret := { Secret_Data : gmap string string }.

(** Calls whose answer the collector does not control: the clock, random numbers, the Kubernetes
    API of a cluster, HTTP peers, the order of a [range] over a map. *)
Inductive request {QA : QuantityApi} : Type → Type :=
| Now : request Time
| MapOrder : request RangeOrder
| Sleep (d : Z) : request unit
| HttpDo (req : HttpRequest) : request (HttpResponse + UrlError)
| BodyClose (resp : HttpResponse) : request (option error)
| ListNodes (metadata : handle) : request (list NodeScan.PartialObjectMetadata + error)
| ListPVCs (core : handle) : request (list PvcScan.PersistentVolumeClaim + error)
| ListVSCs (volumeSnapshot : handle) : request (list VscScan.VolumeSnapshotContent + error)
| ListRedis (dynamic : handle) (resource : GroupVersionResource) : request (string + ApiError)
| RESTConfigFromKubeConfig (kubeConfig : string) : request (RestConfig + error)
| HTTPClientFor (config : RestConfig) : request (handle + error)
| NewForConfigAndClient (api : ClientApi) (config : RestConfig) (httpClient : handle) : request (handle + error)
| CloseIdleConnections (httpClient : handle) : request unit
| GetSecret (namespace name : string) : request (Secret + ApiError)
| Int63n (n : Z) : request Z
| Log (entry : LogEntry) : request unit
| SpanStart (ctx : Context) (name : string) (attributes : list (string * string)) : request Span
| SpanRecordError (span : Span) (err : option error) : request unit
| SpanSetStatus (span : Span) (code : Code) (description : string) : request unit
| SpanEnd (span : Span) : request unit
| Clock : request Z.

(** ** The kubeconfig cache *)

(** The calls of [ttlcache.Cache]: look up an entry that has not expired, store one for a
    duration, forget the expired ones, count. *)
Inductive ttl_op : Type → Type :=
| TtlGet (key : string) : ttl_op (option string)
| TtlSet (key value : string) (ttl : Z) : ttl_op unit
| TtlDeleteExpired : ttl_op unit
| TtlLen : ttl_op Z.

(** ** Effects and programs *)

Section effects.
Context {QA : QuantityApi} {S : Type}.

Inductive eff : Type → Type :=
| CacheGet (k : string) : eff (option (obj S))
| CacheSet (k : string) (v : obj S) : eff unit
| CacheAdd (k : string) (v : obj S) : eff (option error)
| CacheDelete (k : string) : eff unit
| CacheItems : eff (list (string * obj S))
| CacheItemCount : eff Z
| QueueAdd (item : string) : eff unit
| QueueAddAfter (item : string) (d : Z) : eff unit
| QueueDone (item : string) : eff unit
| MetricInc (m : metric) (labels : list string) : eff unit
| MetricSet (m : metric) (labels : list string) (v : float64) : eff unit
| MetricSetToCurrentTime (m : metric) (labels : list string) : eff unit
| MetricObserve (m : metric) (labels : list string) : eff unit
| MetricReset (m : metric) : eff unit
| MetricDeletePartialMatch (m : metric) (pairs : list (string * string)) : eff Z
| Ttl {X : Type} (op : ttl_op X) : eff X
| Ext {X : Type} (q : request X) : eff X.

(** A goroutine's code: return, perform an effect and continue, panic, or end the
    process ([log.Fatal]). *)
Inductive prog (A : Type) : Type :=
| Ret (a : A)
| Vis {X : Type} (e : eff X) (k : X → prog A)
| Panic (msg : string)
| Fatal (msg : string).

End effects.
#[global] Arguments eff {QA} S.
#[global] Arguments prog {QA} S A.
#[global] Arguments Ret {QA S A} a.
#[global] Arguments Vis {QA S A X} e k.
#[global] Arguments Panic {QA S A} msg.
#[global] Arguments Fatal {QA S A} msg.

Fixpoint pbind {QA : QuantityApi} {S A B} (k : A → prog S B) (p : prog S A) : prog S B :=
  match p with
  | Ret a => k a
  | Vis e k' => Vis e (λ x, pbind k (k' x))
  | Panic msg => Panic msg
  | Fatal msg => Fatal msg
  end.

#[global] Instance prog_ret {QA : QuantityApi} {S} : MRet (prog S) := λ A, Ret.
#[global] Instance prog_bind {QA : QuantityApi} {S} : MBind (prog S) := λ A B, pbind.

Definition call {QA : QuantityApi} {S X} (e : eff S X) : prog S X := Vis e Ret.
Definition ext {QA : QuantityApi} {S X} (q : request X) : prog S X := Vis (Ext q) Ret.

(** A logging method of a sugared logger; it returns nothing. *)
Definition logf {QA : QuantityApi} {S} (level : Level) (l : SugaredLogger) (format : string) (args : list LogArg) : prog S unit :=
  ext (Log {| log_level := level; log_logger := l; log_format := format; log_args := args |});; mret ().

(** [span.RecordError(err); span.SetStatus(codes.Error, description)] *)
Definition fail_span {QA : QuantityApi} {S} (span : Span) (err : option error) (description : string) : prog S unit :=
  ext (SpanRecordError span err);;
  ext (SpanSetStatus span CodeError description).

(** [defer d], then the rest [p] of the function: [d] runs when [p] returns or panics, not when the process ends. *)
Fixpoint defer {QA : QuantityApi} {S A} (d : prog S unit) (p : prog S A) : prog S A :=
  match p with
  | Ret a => d;; Ret a
  | Vis e k => Vis e (λ x, defer d (k x))
  | Panic msg => d;; Panic msg
  | Fatal msg => Fatal msg
  end.

(** [for _, x := range l { body }] *)
Fixpoint for_each {QA : QuantityApi} {S A St} (body : St → A → prog S St) (st : St) (l : list A) : prog S St :=
  match l with
  | [] => mret st
  | x :: l' => st' ← body st x; for_each body st' l'
  end.

(** ** Programs that leave cache and queue alone *)

(** The values are those of one series of the vector: [WithLabelValues] panics on any other
    number of values than the vector has labels. *)
Definition labels_ok (m : metric) (labels : list string) : Prop := length labels = length (metric_labels m).

(** The effect reads or writes nothing but metrics, under the labels they have, the kubeconfig cache and
    the environment. *)
Definition quiet_eff {QA : QuantityApi} {S X} (e : eff S X) : Prop :=
  match e with
  | Ext _ | Ttl _ => True
  | MetricInc m ls | MetricSet m ls _ | MetricSetToCurrentTime m ls | MetricObserve m ls => labels_ok m ls
  | _ => False
  end.

(** The entry is of a worker: its logger has the worker's number among its fields. *)
Definition worker_entry (entry : LogEntry) : bool :=
  existsb (λ field, bool_decide (field.1 = KeyWorkerID)) (logger_fields (log_logger entry)).

(** Nor does it build or close clients of a cluster, or log in the name of a worker. *)
Definition tame_eff {QA : QuantityApi} {S X} (e : eff S X) : Prop :=
  match e with
  | Ext (HTTPClientFor _) | Ext (NewForConfigAndClient _ _ _) | Ext (CloseIdleConnections _) => False
  | Ext (Log entry) => worker_entry entry = false
  | e => quiet_eff e
  end.

(** Nor does it talk HTTP. *)
Definition silent_eff {QA : QuantityApi} {S X} (e : eff S X) : Prop :=
  match e with Ext (HttpDo _) | Ext (BodyClose _) => False | e => tame_eff e end.

(** The effect does not trace. *)
Definition untraced_eff {QA : QuantityApi} {S X} (e : eff S X) : Prop :=
  match e with
  | Ext (SpanStart _ _ _) | Ext (SpanRecordError _ _) | Ext (SpanSetStatus _ _ _) | Ext (SpanEnd _) => False
  | _ => True
  end.

(** The program has only effects in [P] and always returns. *)
Fixpoint only {QA : QuantityApi} {S A} (P : ∀ X, eff S X → Prop) (p : prog S A) : Prop :=
  match p with
  | Ret _ => True
  | Vis e k => P _ e ∧ ∀ x, only P (k x)
  | Panic _ | Fatal _ => False
  end.

Abbreviation quiet := (only (λ X, quiet_eff)).
Abbreviation tame := (only (λ X, tame_eff)).
Abbreviation silent := (only (λ X, silent_eff)).
Abbreviation untraced := (only (λ X, untraced_eff)).

Lemma only_bind {QA : QuantityApi} {S A B} P (p : prog S A) (k : A → prog S B) :
  only P p → (∀ a, only P (k a)) → only P (p ≫= k).
Proof.
  intros Hp Hk. induction p as [a|X e k' IH|msg|msg]; simpl in *; [apply Hk| |done|done].
  destruct Hp as [He Hp]. split; [done|]. intros x. by apply IH.
Qed.

Lemma only_for_each {QA : QuantityApi} {S A St} P (body : St → A → prog S St) st l :
  (∀ st x, x ∈ l → only P (body st x)) → only P (for_each body st l).
Proof.
  revert st. induction l as [|x l IH]; intros st Hbody; simpl; [done|].
  apply only_bind; [apply Hbody; set_solver|]. intros st'. apply IH. set_solver.
Qed.

Lemma only_defer {QA : QuantityApi} {S A} P d (p : prog S A) : only P d → only P p → only P (defer d p).
Proof.
  intros Hd. induction p as [a|X e k IH|msg|msg]; simpl; [intros _; by apply only_bind| |done|done].
  intros [He Hp]. split; [done|]. intros x. by apply IH.
Qed.

Lemma only_mono {QA : QuantityApi} {S A} (P P' : ∀ X, eff S X → Prop) (p : prog S A) :
  (∀ X e, P X e → P' X e) → only P p → only P' p.
Proof.
  intros HP. induction p as [a|X e k IH|msg|msg]; simpl; [done| |done|done].
  intros [He Hk]. split; [by apply HP|]. intros x. by apply IH.
Qed.

Lemma tame_quiet {QA : QuantityApi} {S A} (p : prog S A) : tame p → quiet p.
Proof. apply only_mono. intros X e. destruct e as [| | | | | | | | | | | | | | |X op|X q]; done. Qed.

Lemma silent_tame {QA : QuantityApi} {S A} (p : prog S A) : silent p → tame p.
Proof. apply only_mono. intros X e. destruct e as [| | | | | | | | | | | | | | |X op|X q]; try done. by destruct q. Qed.

Lemma silent_quiet {QA : QuantityApi} {S A} (p : prog S A) : silent p → quiet p.
Proof. intros Hp. by apply tame_quiet, silent_tame. Qed.

#[export] Hint Resolve only_bind only_for_each only_defer silent_quiet silent_tame tame_quiet : kmc.
