(* ===== verification/Libraries.v ===== *)
(** * Libraries: what the collector relies on of the libraries it calls

    Interfaces with laws for go-cache, client-go's delaying work queue and the
    Prometheus client, each with a concrete implementation that satisfies the
    laws; the meaning of effects over any implementations. *)
From S2P Require Import Prelude GoStd GoFloat Logger Resource PvcScan Effects.
Local Open Scope Z_scope.
Local Open Scope list_scope.

(** ** go-cache

    [Get], [Set] and [Add] with [NoExpiration], [Delete], [Items], [ItemCount].
    [Add] fails when the key is present; [Items] copies the map. *)
Class GoCache (V C : Type) := {
  cache_get : string → C → option V;
  cache_set : string → V → C → C;
  cache_add : string → V → C → option error * C;
  cache_delete : string → C → C;
  cache_items : C → list (string * V);
}.

Class GoCacheLaws (V C : Type) {GC : GoCache V C} : Prop := {
  cache_get_set k k' v c : cache_get k' (cache_set k v c) = if decide (k = k') then Some v else cache_get k' c;
  cache_get_delete k k' c : cache_get k' (cache_delete k c) = if decide (k = k') then None else cache_get k' c;
  cache_add_fresh k v c : cache_get k c = None →
    (cache_add k v c).1 = None ∧
    ∀ k', cache_get k' (cache_add k v c).2 = if decide (k = k') then Some v else cache_get k' c;
  cache_add_present k v c : is_Some (cache_get k c) →
    is_Some (cache_add k v c).1 ∧ ∀ k', cache_get k' (cache_add k v c).2 = cache_get k' c;
  cache_items_get k v c : (k, v) ∈ cache_items c ↔ cache_get k c = Some v;
  cache_items_nodup c : NoDup (cache_items c).*1;
}.

(** ** The delaying work queue

    [q_pending] are the items that will be handed out again: added, or waiting for
    their delay; [q_processing] are those handed out by [Get] and not yet [Done].
    An item is never handed out while it is being processed, and an item added
    during its processing is handed out again afterwards. *)
Class WorkQueue (Q : Type) := {
  q_add : string → Q → Q;
  q_add_after : string → Z → Q → Q;
  q_done : string → Q → Q;
  q_get : Q → option (string * Q);
  q_elapse : Z → Q → Q;
  q_pending : Q → gset string;
  q_processing : Q → gset string;
}.

Class WorkQueueLaws (Q : Type) {WQ : WorkQueue Q} : Prop := {
  q_pending_add x q : q_pending (q_add x q) = {[x]} ∪ q_pending q;
  q_pending_add_after x d q : q_pending (q_add_after x d q) = {[x]} ∪ q_pending q;
  q_pending_done x q : q_pending (q_done x q) = q_pending q;
  q_pending_elapse d q : q_pending (q_elapse d q) = q_pending q;
  q_pending_get x q q' : q_get q = Some (x, q') →
    x ∈ q_pending q ∧ (q_pending q ∖ {[x]}) ⊆ q_pending q' ∧ q_pending q' ⊆ q_pending q;
  q_processing_add x q : q_processing (q_add x q) = q_processing q;
  q_processing_add_after x d q : q_processing (q_add_after x d q) = q_processing q;
  q_processing_done x q : q_processing (q_done x q) = q_processing q ∖ {[x]};
  q_processing_elapse d q : q_processing (q_elapse d q) = q_processing q;
  q_processing_get x q q' : q_get q = Some (x, q') →
    x ∉ q_processing q ∧ q_processing q' = {[x]} ∪ q_processing q;
}.

(** ** Prometheus vectors

    A vector maps label values, given in the order of the declared labels, to a
    value; [DeletePartialMatch] removes every series that carries all the given
    label pairs and returns how many it removed. *)
Class Prometheus (M : Type) := {
  m_get : metric → list string → M → option float64;
  m_inc : metric → list string → M → M;
  m_set : metric → list string → float64 → M → M;
  m_reset : metric → M → M;
  m_delete : metric → list (string * string) → M → Z * M;
}.

(** The series with these label values carries all these label pairs. *)
Definition series_matches (m : metric) (vals : list string) (pairs : list (string * string)) : Prop :=
  Forall (λ p, p ∈ zip (metric_labels m) vals) pairs.
#[global] Instance series_matches_dec m vals pairs : Decision (series_matches m vals pairs).
Proof. unfold series_matches. apply _. Defined.

Class PrometheusLaws (M : Type) {PM : Prometheus M} : Prop := {
  m_get_inc m ls m' ls' r : m_get m' ls' (m_inc m ls r) =
    if decide ((m, ls) = (m', ls'))
    then Some (fadd (default (S754_zero false) (m_get m ls r)) (float64_of_int64 1)) else m_get m' ls' r;
  m_get_set m ls v m' ls' r : m_get m' ls' (m_set m ls v r) =
    if decide ((m, ls) = (m', ls')) then Some v else m_get m' ls' r;
  m_get_reset m m' ls' r : m_get m' ls' (m_reset m r) = if decide (m = m') then None else m_get m' ls' r;
  m_get_delete m pairs m' ls' r : m_get m' ls' (m_delete m pairs r).2 =
    if decide (m = m' ∧ series_matches m ls' pairs) then None else m_get m' ls' r;
  m_delete_count m pairs r : 0 ≤ (m_delete m pairs r).1 ∧
    (0 < (m_delete m pairs r).1 ↔ ∃ ls, series_matches m ls pairs ∧ is_Some (m_get m ls r));
}.

(** ** The kubeconfig cache

    [ttlcache.Cache] at an instant: [tc_get] finds entries that have not expired, [tc_set] stores
    one for a positive time. *)
Class TtlCache (T : Type) := {
  tc_get : Z → string → T → option string;
  tc_set : Z → string → string → Z → T → T;
  tc_delete_expired : Z → T → T;
  tc_len : T → Z;
}.

Class TtlCacheLaws (T : Type) {TC : TtlCache T} : Prop := {
  tc_get_live now now' k v d t : now ≤ now' < now + d → tc_get now' k (tc_set now k v d t) = Some v;
  tc_get_expired now now' k v d t : 0 < d → now + d < now' → tc_get now' k (tc_set now k v d t) = None;
  tc_get_other now now' k k' v d t : k ≠ k' → tc_get now' k' (tc_set now k v d t) = tc_get now' k' t;
  tc_get_delete_expired now now' k t : now ≤ now' → tc_get now' k (tc_delete_expired now t) = tc_get now' k t;
}.

(** ** Meaning of effects *)

(** What the environment answers at each point in time; anything, except that a
    [range] visits the keys of the map, each once. *)
Definition Env {QA : QuantityApi} : Type := ∀ X : Type, request X → nat → X.
Definition env_ok {QA : QuantityApi} (env : Env) : Prop :=
  ∀ t, valid_order (env _ MapOrder t).

Record world {C Q M T : Type} := {
  w_cache : C;
  w_queue : Q;
  w_metrics : M;
  w_kube : T;                      (** the kubeconfigs in the cache of the provider *)
  w_tick : nat;                    (** number of environment calls so far *)
  w_http : list HttpRequest;       (** requests sent so far *)
}.
#[global] Arguments world : clear implicits.

Inductive outcome (A : Type) := Returned (a : A) | Panicked (msg : string) | Exited (msg : string).
#[global] Arguments Returned {A} a.
#[global] Arguments Panicked {A} msg.
#[global] Arguments Exited {A} msg.

Section meaning.
Context {QA : QuantityApi} {S C Q M T : Type}.
Context {GC : GoCache (obj S) C} {WQ : WorkQueue Q} {PM : Prometheus M} {TC : TtlCache T}.
Context (env : Env).
Implicit Types w : world C Q M T.

Definition with_cache (c : C) w : world C Q M T :=
  {| w_cache := c; w_queue := w_queue w; w_metrics := w_metrics w; w_kube := w_kube w; w_tick := w_tick w; w_http := w_http w |}.
Definition with_queue (q : Q) w : world C Q M T :=
  {| w_cache := w_cache w; w_queue := q; w_metrics := w_metrics w; w_kube := w_kube w; w_tick := w_tick w; w_http := w_http w |}.
Definition with_metrics (r : M) w : world C Q M T :=
  {| w_cache := w_cache w; w_queue := w_queue w; w_metrics := r; w_kube := w_kube w; w_tick := w_tick w; w_http := w_http w |}.
Definition with_kube (t : T) w : world C Q M T :=
  {| w_cache := w_cache w; w_queue := w_queue w; w_metrics := w_metrics w; w_kube := t; w_tick := w_tick w; w_http := w_http w |}.
Definition tick {X} (q : request X) w : world C Q M T :=
  {| w_cache := w_cache w; w_queue := w_queue w; w_metrics := w_metrics w; w_kube := w_kube w; w_tick := Datatypes.S (w_tick w);
     w_http := match q with HttpDo req => w_http w ++ [req] | _ => w_http w end |}.

(** [n] calls of the environment later, none of them of a peer. *)
Definition later (n : nat) w : world C Q M T :=
  {| w_cache := w_cache w; w_queue := w_queue w; w_metrics := w_metrics w; w_kube := w_kube w; w_tick := n + w_tick w;
     w_http := w_http w |}.

(** The current time as a metric value; its value is not used by any theorem. *)
Definition now_value (w : world C Q M T) : float64 := float64_of_int64 (Z.of_nat (w_tick w)).

(** What the clock says, in nanoseconds. *)
Definition clock w : Z := env _ Clock (w_tick w).

(** The cache reads the clock at each call that depends on it. *)
Definition handle_ttl {X} (op : ttl_op X) w : X * world C Q M T :=
  match op in ttl_op X return X * world C Q M T with
  | TtlGet k => (tc_get (clock w) k (w_kube w), tick Clock w)
  | TtlSet k v d => (tt, with_kube (tc_set (clock w) k v d (w_kube w)) (tick Clock w))
  | TtlDeleteExpired => (tt, with_kube (tc_delete_expired (clock w) (w_kube w)) (tick Clock w))
  | TtlLen => (tc_len (w_kube w), w)
  end.

Definition handle_eff {X} (e : eff S X) w : X * world C Q M T :=
  match e in eff _ X return X * world C Q M T with
  | CacheGet k => (cache_get k (w_cache w), w)
  | CacheSet k v => (tt, with_cache (cache_set k v (w_cache w)) w)
  | CacheAdd k v => let r := cache_add k v (w_cache w) in (r.1, with_cache r.2 w)
  | CacheDelete k => (tt, with_cache (cache_delete k (w_cache w)) w)
  | CacheItems => (cache_items (w_cache w), w)
  | CacheItemCount => (Z.of_nat (length (cache_items (w_cache w))), w)
  | QueueAdd x => (tt, with_queue (q_add x (w_queue w)) w)
  | QueueAddAfter x d => (tt, with_queue (q_add_after x d (w_queue w)) w)
  | QueueDone x => (tt, with_queue (q_done x (w_queue w)) w)
  | MetricInc m ls => (tt, with_metrics (m_inc m ls (w_metrics w)) w)
  | MetricSet m ls v => (tt, with_metrics (m_set m ls v (w_metrics w)) w)
  | MetricSetToCurrentTime m ls => (tt, with_metrics (m_set m ls (now_value w) (w_metrics w)) w)
  | MetricObserve m ls => (tt, with_metrics (m_inc m ls (w_metrics w)) w)
  | MetricReset m => (tt, with_metrics (m_reset m (w_metrics w)) w)
  | MetricDeletePartialMatch m pairs =>
      let r := m_delete m pairs (w_metrics w) in (r.1, with_metrics r.2 w)
  | Ttl op => handle_ttl op w
  | Ext q => (env _ q (w_tick w), tick q w)
  end.

(** A call of the kubeconfig cache changes nothing else. *)
Lemma handle_ttl_frame {X} (op : ttl_op X) w :
  w_cache (handle_ttl op w).2 = w_cache w ∧ w_queue (handle_ttl op w).2 = w_queue w ∧
  w_metrics (handle_ttl op w).2 = w_metrics w ∧ w_http (handle_ttl op w).2 = w_http w.
Proof. by destruct op. Qed.

(** A goroutine running on its own. *)
Fixpoint run {A} (p : prog S A) w : outcome A * world C Q M T :=
  match p with
  | Ret a => (Returned a, w)
  | Vis e k => let r := handle_eff e w in run (k r.1) r.2
  | Panic msg => (Panicked msg, w)
  | Fatal msg => (Exited msg, w)
  end.

(** The calls of the environment such a run makes, with their answers. *)
Definition answered_call : Type := {X : Type & (request X * X)%type}.

Fixpoint calls {A} (p : prog S A) w : list answered_call :=
  match p with
  | Vis e k =>
      let r := handle_eff e w in
      match e in eff _ X return X → list answered_call with
      | Ext q => λ a, [existT _ (q, a)]
      | _ => λ _, []
      end r.1 ++ calls (k r.1) r.2
  | _ => []
  end.

Lemma calls_bind {A B} (p : prog S A) (k : A → prog S B) w :
  calls (p ≫= k) w =
    calls p w ++ match run p w with (Returned a, w') => calls (k a) w' | _ => [] end.
Proof.
  revert w. induction p as [a|X e k' IH|msg|msg]; intros w; [done| |done|done].
  simpl. rewrite <- app_assoc. f_equal. apply IH.
Qed.

Lemma run_bind {A B} (p : prog S A) (k : A → prog S B) w :
  run (p ≫= k) w =
    match run p w with
    | (Returned a, w') => run (k a) w'
    | (Panicked msg, w') => (Panicked msg, w')
    | (Exited msg, w') => (Exited msg, w')
    end.
Proof. revert w. induction p as [a|X e k' IH|msg|msg]; intros w; [done| |done|done]. apply IH. Qed.

Lemma run_call {X} (e : eff S X) w : run (call e) w = (Returned (handle_eff e w).1, (handle_eff e w).2).
Proof. done. Qed.

Lemma run_ext {X} (q : request X) w : run (ext q) w = (Returned (env _ q (w_tick w)), tick q w).
Proof. done. Qed.

Lemma run_call_bind {X B} (e : eff S X) (k : X → prog S B) w :
  run (call e ≫= k) w = run (k (handle_eff e w).1) (handle_eff e w).2.
Proof. done. Qed.

Lemma run_logf_bind {B} level l format args (k : unit → prog S B) w :
  run (logf level l format args ≫= k) w = run (k tt) (later 1 w).
Proof. done. Qed.

(** The entry is a call of its own. *)
Definition logged (level : Level) (l : SugaredLogger) (format : string) (args : list LogArg) : answered_call :=
  existT _ (Log {| log_level := level; log_logger := l; log_format := format; log_args := args |}, tt).

Lemma calls_logf_bind {B} level l format args (k : unit → prog S B) w :
  calls (logf level l format args ≫= k) w = logged level l format args :: calls (k tt) (later 1 w).
Proof. simpl. unfold logged. by destruct (env _ _ _). Qed.

(** What is deferred is the last thing that happens. *)
Lemma run_defer_prog {A} (d : prog S unit) (p : prog S A) w a w1 w2 :
  run p w = (Returned a, w1) → run d w1 = (Returned tt, w2) → run (defer d p) w = (Returned a, w2).
Proof.
  revert w. induction p as [a'|X e k IH|msg|msg]; intros w; simpl; [|apply IH|done|done].
  intros [= <- <-] Hd. by rewrite run_bind, Hd.
Qed.

Lemma run_defer_eq {A} (d : prog S unit) (p : prog S A) w : run (defer d p) w =
  match run p w with
  | (Returned a, w') => run (d;; mret a) w'
  | (Panicked msg, w') => run (d;; Panic msg) w'
  | (Exited msg, w') => (Exited msg, w')
  end.
Proof. revert w. induction p as [a|X e k IH|msg|msg]; intros w; [done| |done|done]. apply IH. Qed.

Lemma calls_defer_eq {A} (d : prog S unit) (p : prog S A) w : calls (defer d p) w =
  calls p w ++ match run p w with (Exited _, _) => [] | (_, w') => calls d w' end.
Proof.
  revert w. induction p as [a|X e k IH|msg|msg]; intros w; simpl.
  - rewrite calls_bind. destruct (run d w) as [[]]; by rewrite app_nil_r.
  - rewrite <- app_assoc. f_equal. apply IH.
  - rewrite calls_bind. destruct (run d w) as [[]]; by rewrite app_nil_r.
  - done.
Qed.

Lemma run_defer {A} (q : request unit) (p : prog S A) w a w' :
  run p w = (Returned a, w') → run (defer (ext q) p) w = (Returned a, tick q w').
Proof.
  revert w. induction p as [a'|X e k IH|msg|msg]; intros w; simpl; [|apply IH|done|done].
  by intros [= <- <-].
Qed.

Lemma calls_defer {A} (q : request unit) (p : prog S A) w a w' :
  run p w = (Returned a, w') → calls (defer (ext q) p) w = calls p w ++ [existT _ (q, tt)].
Proof.
  revert w. induction p as [a'|X e k IH|msg|msg]; intros w; simpl; [|intros Hrun|done|done].
  - intros _. by destruct (env _ q _).
  - rewrite <- app_assoc. f_equal. by apply IH.
Qed.

(** A loop keeps an invariant of its variables and the world that every
    iteration keeps and during which nothing panics. *)
Lemma run_for_each {A St} (body : St → A → prog S St) (I : list A → St → world C Q M T → Prop) l :
  (∀ done x st w, (done ++ [x]) `prefix_of` l → I done st w →
     ∃ st' w', run (body st x) w = (Returned st', w') ∧ I (done ++ [x]) st' w') →
  ∀ st w, I [] st w → ∃ st' w', run (for_each body st l) w = (Returned st', w') ∧ I l st' w'.
Proof.
  intros Hbody. enough (∀ rest done st w, done ++ rest = l → I done st w →
    ∃ st' w', run (for_each body st rest) w = (Returned st', w') ∧ I l st' w') as H.
  { intros st w. by apply (H l []). }
  induction rest as [|x rest IH]; intros done st w Hl HI; simpl.
  - rewrite app_nil_r in Hl. subst. eauto.
  - destruct (Hbody done x st w) as (st' & w' & Hrun & HI'); [|done|].
    { exists rest. by rewrite <- app_assoc. }
    rewrite run_bind, Hrun. apply (IH (done ++ [x])); [|done]. by rewrite <- app_assoc.
Qed.

(** The same, with the calls so far. *)
Lemma calls_for_each {A St} (body : St → A → prog S St) (I : list A → St → world C Q M T → list answered_call → Prop) l :
  (∀ done x st w cs, (done ++ [x]) `prefix_of` l → I done st w cs →
     ∃ st' w', run (body st x) w = (Returned st', w') ∧ I (done ++ [x]) st' w' (cs ++ calls (body st x) w)) →
  ∀ st w, I [] st w [] → ∃ st' w', run (for_each body st l) w = (Returned st', w') ∧ I l st' w' (calls (for_each body st l) w).
Proof.
  intros Hbody. enough (∀ rest done st w cs, done ++ rest = l → I done st w cs →
    ∃ st' w', run (for_each body st rest) w = (Returned st', w') ∧ I l st' w' (cs ++ calls (for_each body st rest) w)) as H.
  { intros st w. by apply (H l [] st w []). }
  induction rest as [|x rest IH]; intros done st w cs Hl HI; simpl.
  - rewrite app_nil_r in Hl. subst. rewrite app_nil_r. eauto.
  - destruct (Hbody done x st w cs) as (st' & w' & Hrun & HI'); [|done|].
    { exists rest. by rewrite <- app_assoc. }
    rewrite run_bind, calls_bind, Hrun, app_assoc. apply (IH (done ++ [x])); [|done]. by rewrite <- app_assoc.
Qed.

(** The HTTP requests among these, with what they were answered. *)
Definition exchange : Type := HttpRequest * (HttpResponse + UrlError).
Definition exchange_of (c : answered_call) : option exchange :=
  match c with
  | existT X (q, a) =>
      match q in request X return X → option exchange with HttpDo req => λ a, Some (req, a) | _ => λ _, None end a
  end.
Definition exchanges (l : list answered_call) : list exchange := omap exchange_of l.

Lemma exchanges_app l l' : exchanges (l ++ l') = exchanges l ++ exchanges l'.
Proof. apply omap_app. Qed.

Definition unsent_eff {X} (e : eff S X) : Prop := match e with Ext (HttpDo _) => False | _ => True end.

Lemma unsent_exchanges {A} (p : prog S A) w : only (λ X, unsent_eff) p → exchanges (calls p w) = [].
Proof.
  revert w. induction p as [a|X e k IH|msg|msg]; intros w Hp; [done| |done|done]. destruct Hp as [He Hk].
  simpl calls. rewrite exchanges_app, (IH _ _ (Hk _)), app_nil_r.
  destruct e as [| | | | | | | | | | | | | | |X op|X q]; try done. by destruct q.
Qed.

Lemma silent_exchanges {A} (p : prog S A) w : silent p → exchanges (calls p w) = [].
Proof.
  intros Hp. eapply unsent_exchanges, only_mono; [|exact Hp]. intros X e He.
  destruct e as [| | | | | | | | | | | | | | |X op|X q]; try done. by destruct q.
Qed.

(** They are the requests that were sent. *)
Lemma run_http {A} (p : prog S A) w : w_http (run p w).2 = w_http w ++ (exchanges (calls p w)).*1.
Proof.
  revert w. induction p as [a|X e k IH|msg|msg]; intros w; [by rewrite app_nil_r| |by rewrite app_nil_r|by rewrite app_nil_r].
  simpl. rewrite IH. unfold exchanges. rewrite omap_app, fmap_app, app_assoc. f_equal.
  destruct e as [| | | | | | | | | | | | | | |X op|X q]; try (by rewrite app_nil_r); [destruct op; by rewrite app_nil_r|].
  destruct q; by rewrite ?app_nil_r.
Qed.

(** The calls of the environment are counted. *)
Lemma run_tick {A} (p : prog S A) w : (w_tick w ≤ w_tick (run p w).2)%nat.
Proof.
  revert w. induction p as [a|X e k IH|msg|msg]; intros w; [done| |done|done]. simpl. etrans; [|apply IH].
  destruct e as [| | | | | | | | | | | | | | |X op|X q]; try destruct op; simpl; lia.
Qed.

(** A quiet program returns, with cache and queue as they were. *)
Lemma run_quiet {A} (p : prog S A) w : quiet p → ∃ a w',
  run p w = (Returned a, w') ∧ w_cache w' = w_cache w ∧ w_queue w' = w_queue w.
Proof.
  revert w. induction p as [a|X e k IH|msg|msg]; intros w Hq; [by eauto| |done|done].
  destruct Hq as [He Hk]. destruct (IH (handle_eff e w).1 (handle_eff e w).2) as (a & w' & Hrun & Hc & Hqu);
    [done|]. exists a, w'. split; [done|]. rewrite Hc, Hqu. destruct e as [| | | | | | | | | | | | | | |X op|X q]; try done. by destruct op.
Qed.

(** A silent one sends no request either. *)
Lemma run_silent {A} (p : prog S A) w : silent p → ∃ a w',
  run p w = (Returned a, w') ∧ w_cache w' = w_cache w ∧ w_queue w' = w_queue w ∧ w_http w' = w_http w.
Proof.
  revert w. induction p as [a|X e k IH|msg|msg]; intros w Hq; [by eauto 6| |done|done].
  destruct Hq as [He Hk]. destruct (IH (handle_eff e w).1 (handle_eff e w).2) as (a & w' & Hrun & Hc & Hqu & Hh);
    [done|]. exists a, w'. split; [done|]. rewrite Hc, Hqu, Hh. destruct e as [| | | | | | | | | | | | | | |X op|X q]; try done.
    - by destruct op.
    - by destruct q.
Qed.
End meaning.

(** ** Concrete implementations *)

(** A map as a cache. *)
#[global] Instance map_GoCache V : GoCache V (gmap string V) := {|
  cache_get k c := c !! k;
  cache_set k v c := <[k := v]> c;
  cache_add k v c := match c !! k with
    | Some _ => (Some (extError 2 ("Item " +:+ k +:+ " already exists")), c)
    | None => (None, <[k := v]> c)
    end;
  cache_delete k c := delete k c;
  cache_items c := map_to_list c;
|}.

#[global] Instance map_GoCacheLaws V : GoCacheLaws V (gmap string V).
Proof.
  split; simpl.
  - intros. apply lookup_insert.
  - intros. apply lookup_delete.
  - intros k v c ->. simpl. split; [done|]. intros. apply lookup_insert.
  - intros k v c [? ->]. simpl. by eauto.
  - intros. apply elem_of_map_to_list.
  - intros. apply NoDup_fst_map_to_list.
Qed.

(** A queue of the items to hand out, in order, the items waiting for a delay, and the items in
    processing.  An item that is added while it is processed is handed out once it is done. *)
Record simple_queue := {
  sq_items : list string;
  sq_waiting : gset string;
  sq_busy : gset string;
}.

Definition sq_add (x : string) (q : simple_queue) : simple_queue :=
  if decide (x ∈ sq_items q) then q
  else {| sq_items := sq_items q ++ [x]; sq_waiting := sq_waiting q; sq_busy := sq_busy q |}.

Definition sq_empty : simple_queue := {| sq_items := []; sq_waiting := ∅; sq_busy := ∅ |}.

Definition sq_unwait (q : simple_queue) : simple_queue :=
  {| sq_items := sq_items q; sq_waiting := ∅; sq_busy := sq_busy q |}.

(** The items that may be handed out now. *)
Definition sq_ready (q : simple_queue) : list string := filter (λ x, x ∉ sq_busy q) (sq_items q).

#[global] Instance simple_WorkQueue : WorkQueue simple_queue := {|
  q_add := sq_add;
  q_add_after x d q := if decide (d ≤ 0) then sq_add x q else
    {| sq_items := sq_items q; sq_waiting := {[x]} ∪ sq_waiting q; sq_busy := sq_busy q |};
  q_done x q :=
    {| sq_items := filter (λ y, y ≠ x) (sq_items q) ++ (if decide (x ∈ sq_items q) then [x] else []);
       sq_waiting := sq_waiting q; sq_busy := sq_busy q ∖ {[x]} |};
  q_get q := match sq_ready q with
    | [] => None
    | x :: _ => Some (x, {| sq_items := filter (λ y, y ≠ x) (sq_items q); sq_waiting := sq_waiting q;
                            sq_busy := {[x]} ∪ sq_busy q |})
    end;
  q_elapse d q := foldr sq_add (sq_unwait q) (elements (sq_waiting q));
  q_pending q := list_to_set (sq_items q) ∪ sq_waiting q;
  q_processing q := sq_busy q;
|}.

Lemma sq_add_pending x q : q_pending (sq_add x q) = {[x]} ∪ q_pending q.
Proof.
  unfold sq_add. apply set_eq. intros y. case_decide; simpl; [set_solver|].
  rewrite list_to_set_app_L. set_solver.
Qed.

Lemma sq_add_busy x q : sq_busy (sq_add x q) = sq_busy q.
Proof. unfold sq_add. by case_decide. Qed.

Lemma sq_add_all_pending l q : q_pending (foldr sq_add q l) = list_to_set l ∪ q_pending q.
Proof. induction l as [|x l IH]; simpl foldr; [set_solver|]. rewrite sq_add_pending, IH. set_solver. Qed.

Lemma sq_add_all_busy l q : sq_busy (foldr sq_add q l) = sq_busy q.
Proof. induction l as [|x l IH]; simpl; [done|]. by rewrite sq_add_busy. Qed.

Lemma sq_get_Some x q q' : q_get q = Some (x, q') → x ∈ sq_items q ∧ x ∉ sq_busy q ∧
  q' = {| sq_items := filter (λ y, y ≠ x) (sq_items q); sq_waiting := sq_waiting q; sq_busy := {[x]} ∪ sq_busy q |}.
Proof.
  simpl. destruct (sq_ready q) as [|y l] eqn:Hr; [done|]. intros [= -> <-].
  assert (Hx : x ∈ sq_ready q) by (rewrite Hr; set_solver).
  unfold sq_ready in Hx. apply list_elem_of_filter in Hx as [? ?]. done.
Qed.

#[global] Instance simple_WorkQueueLaws : WorkQueueLaws simple_queue.
Proof.
  split.
  - intros. apply sq_add_pending.
  - intros x d q. cbn [q_add_after simple_WorkQueue]. case_decide; [apply sq_add_pending|]. simpl. set_solver.
  - intros x q. apply set_eq. intros y. simpl. rewrite list_to_set_app_L, !elem_of_union, !elem_of_list_to_set,
      list_elem_of_filter. case_decide; rewrite ?list_elem_of_singleton, ?elem_of_nil;
      destruct (decide (y = x)); naive_solver.
  - intros d q. cbn [q_elapse simple_WorkQueue]. rewrite sq_add_all_pending, list_to_set_elements_L.
    simpl. set_solver.
  - intros x q q' (Hx & _ & ->)%sq_get_Some. simpl. split_and!; [set_solver|intros y|intros y];
      rewrite ?elem_of_difference, !elem_of_union, !elem_of_list_to_set, list_elem_of_filter, ?elem_of_singleton; naive_solver.
  - intros. apply sq_add_busy.
  - intros x d q. simpl. case_decide; [apply sq_add_busy|done].
  - done.
  - intros d q. simpl. by rewrite sq_add_all_busy.
  - intros x q q' (_ & Hx & ->)%sq_get_Some. done.
Qed.

(** Metric vectors as one map. *)
Definition metric_code (m : metric) : nat :=
  match m with
  | itemsInCache => 0 | subAccountProcessed => 1 | subAccountProcessedTimeStamp => 2
  | kebFetchedClusters => 3 | TotalScans => 4 | TotalScansConverted => 5 | edpLatency => 6
  | kebLatency => 7 | cacheSizeMetric => 8 | queue_depth => 9 | queue_adds => 10 | queue_latency => 11
  | queue_workDuration => 12 | queue_unfinished => 13 | queue_longestRunningProcessor => 14
  | queue_retries => 15 | tls_creates => 16 | tls_entries => 17
  end.

#[global] Instance metric_countable : Countable metric.
Proof.
  apply (inj_countable metric_code (λ n, nth_error
    [itemsInCache; subAccountProcessed; subAccountProcessedTimeStamp; kebFetchedClusters; TotalScans;
     TotalScansConverted; edpLatency; kebLatency; cacheSizeMetric; queue_depth; queue_adds; queue_latency;
     queue_workDuration; queue_unfinished; queue_longestRunningProcessor; queue_retries; tls_creates; tls_entries] n)).
  by intros [].
Defined.

Abbreviation metric_map := (gmap (metric * list string) float64).

Definition matching (m : metric) (pairs : list (string * string)) (kv : metric * list string * float64) : Prop :=
  kv.1.1 = m ∧ series_matches m kv.1.2 pairs.
#[global] Instance matching_dec m pairs kv : Decision (matching m pairs kv).
Proof. unfold matching. apply _. Defined.

#[global] Instance map_Prometheus : Prometheus metric_map := {|
  m_get m ls r := r !! (m, ls);
  m_inc m ls r := <[(m, ls) := fadd (default (S754_zero false) (r !! (m, ls))) (float64_of_int64 1)]> r;
  m_set m ls v r := <[(m, ls) := v]> r;
  m_reset m r := filter (λ kv, kv.1.1 ≠ m) r;
  m_delete m pairs r := (Z.of_nat (size (filter (matching m pairs) r)), filter (λ kv, ¬ matching m pairs kv) r);
|}.

#[global] Instance map_PrometheusLaws : PrometheusLaws metric_map.
Proof.
  split.
  - intros. apply lookup_insert.
  - intros. apply lookup_insert.
  - intros m m' ls' r. cbn [m_get m_reset map_Prometheus]. rewrite map_lookup_filter.
    destruct (r !! (m', ls')) eqn:E; simpl; [|by case_decide].
    case_guard; simpl in *; case_decide; naive_solver.
  - intros m pairs m' ls' r. cbn [m_get m_delete map_Prometheus snd]. rewrite map_lookup_filter.
    destruct (r !! (m', ls')) eqn:E; simpl; [|by case_decide].
    unfold matching. case_guard; simpl in *; case_decide; naive_solver.
  - intros m pairs r. cbn [m_get m_delete map_Prometheus fst]. split; [lia|].
    assert (Hs : (0 < Z.of_nat (size (filter (matching m pairs) r))) ↔ size (filter (matching m pairs) r) ≠ 0%nat)
      by lia.
    rewrite Hs. split.
    + intros Hne%map_size_ne_0_lookup. destruct Hne as [[m' ls] [v Hv]].
      apply map_lookup_filter_Some in Hv as [Hv [Hm Hmat]]. simpl in *. subst. by eauto.
    + intros (ls & Hmat & [v Hv]). apply map_size_ne_0_lookup. exists (m, ls), v.
      by apply map_lookup_filter_Some.
Qed.

(** Each kubeconfig with the instant it expires. *)
Abbreviation ttl_map := (gmap string (string * Z)).
#[global] Instance map_TtlCache : TtlCache ttl_map := {|
  tc_get now k t := match t !! k with Some (v, e) => if decide (now <= e) then Some v else None | None => None end;
  tc_set now k v d t := <[k := (v, now + d)]> t;
  tc_delete_expired now t := filter (λ x, now <= x.2.2) t;
  tc_len t := Z.of_nat (size t);
|}.
#[global] Instance map_TtlCacheLaws : TtlCacheLaws ttl_map.
Proof.
  split; cbn [tc_get tc_set tc_delete_expired map_TtlCache].
  - intros now now' k v d t Hn. rewrite lookup_insert_eq. by rewrite decide_True by lia.
  - intros now now' k v d t Hd Hn. rewrite lookup_insert_eq. by rewrite decide_False by lia.
  - intros now now' k k' v d t Hk. by rewrite lookup_insert_ne.
  - intros now now' k t Hn. rewrite map_lookup_filter. destruct (t !! k) as [[v e]|]; [|done]. simpl.
    case_guard; simpl; [done|]. by rewrite decide_False by (simpl in *; lia).
Qed.
