(* ===== verification/Clients.v ===== *)
(** * Clients: the clients of one cluster ([pkg/runtime/clients.go])

    [NewClients] builds an HTTP client from a REST configuration and four API clients on top of
    it; [CloseConnections] closes the idle connections of that HTTP client. *)
From S2P Require Import Prelude GoStd GoFloat Resource PvcScan Effects Libraries.
Local Open Scope Z_scope.
Local Open Scope list_scope.

Record Clients := {
  metadata : handle;
  core : handle;
  volumeSnapshot : handle;
  dynamic : handle;
  client : handle;
}.

Definition Metadata (r : Clients) : handle := metadata r.
Definition K8s (r : Clients) : handle := core r.
Definition VolumeSnapshot (r : Clients) : handle := volumeSnapshot r.
Definition Dynamic (r : Clients) : handle := dynamic r.

(** [config.Proxy = http.ProxyFromEnvironment] *)
Definition with_Proxy (config : RestConfig) : RestConfig :=
  {| restConfig := restConfig config; Proxy := Some ProxyFromEnvironment |}.

Section clients.
Context {QA : QuantityApi} {S : Type}.

Definition NewClients (config : RestConfig) : prog S (Clients + error) :=
  let config := with_Proxy config in
  cl ← ext (HTTPClientFor config);
  match cl with
  | inr err => mret (inr err)
  | inl cl =>
      core ← ext (NewForConfigAndClient kubernetes_api config cl);
      match core with
      | inr err => mret (inr err)
      | inl core =>
          meta ← ext (NewForConfigAndClient metadata_api config cl);
          match meta with
          | inr err => mret (inr err)
          | inl meta =>
              dyn ← ext (NewForConfigAndClient dynamic_api config cl);
              match dyn with
              | inr err => mret (inr err)
              | inl dyn =>
                  volumeSnapshot ← ext (NewForConfigAndClient volumesnapshot_api config cl);
                  match volumeSnapshot with
                  | inr err => mret (inr err)
                  | inl volumeSnapshot =>
                      mret (inl {| metadata := meta; core := core; volumeSnapshot := volumeSnapshot;
                                   dynamic := dyn; client := cl |})
                  end
              end
          end
      end
  end.

Definition CloseConnections (r : Clients) : prog S unit := ext (CloseIdleConnections (client r)).

Lemma NewClients_ext config : quiet (NewClients config).
Proof. repeat (split; [done|]; intros [?|?]; [|done]). done. Qed.

Context {C Q M T : Type} {GC : GoCache (obj S) C} {WQ : WorkQueue Q} {PM : Prometheus M} {TC : TtlCache T}.
Context (env : Env).
Implicit Types w : world C Q M T.

(** The API client of [c] for [api]. *)
Definition api_client (api : ClientApi) (c : Clients) : handle :=
  match api with
  | kubernetes_api => K8s c
  | metadata_api => Metadata c
  | dynamic_api => Dynamic c
  | volumesnapshot_api => VolumeSnapshot c
  end.

(** A client set is complete: its HTTP client was made from [config], and every API client from
    the same configuration and that HTTP client. *)
Definition built (config : RestConfig) (c : Clients) : Prop :=
  (∃ t, env _ (HTTPClientFor config) t = inl (client c)) ∧
  ∀ api, ∃ t, env _ (NewForConfigAndClient api config (client c)) t = inl (api_client api c).

(** One of the calls failed with this error. *)
Definition refused (config : RestConfig) (err : error) : Prop :=
  (∃ t, env _ (HTTPClientFor config) t = inr err) ∨
  ∃ t cl api, env _ (HTTPClientFor config) t = inl cl ∧
    ∃ t', env _ (NewForConfigAndClient api config cl) t' = inr err.

Lemma NewClients_result config w : ∃ r w', run env (NewClients config) w = (Returned r, w') ∧
  (w_cache w' = w_cache w ∧ w_queue w' = w_queue w ∧ w_http w' = w_http w) ∧
  match r with inl c => built (with_Proxy config) c | inr err => refused (with_Proxy config) err end.
Proof.
  unfold NewClients. rewrite run_bind, run_ext.
  destruct (env _ (HTTPClientFor _) _) as [cl|err] eqn:Hcl;
    [|do 2 eexists; split_and!; [reflexivity..|]; left; eauto].
  rewrite run_bind, run_ext.
  destruct (env _ (NewForConfigAndClient kubernetes_api _ _) _) as [k|err] eqn:Hk;
    [|do 2 eexists; split_and!; [reflexivity..|]; right; eauto 8].
  rewrite run_bind, run_ext.
  destruct (env _ (NewForConfigAndClient metadata_api _ _) _) as [m|err] eqn:Hm;
    [|do 2 eexists; split_and!; [reflexivity..|]; right; eauto 8].
  rewrite run_bind, run_ext.
  destruct (env _ (NewForConfigAndClient dynamic_api _ _) _) as [d|err] eqn:Hd;
    [|do 2 eexists; split_and!; [reflexivity..|]; right; eauto 8].
  rewrite run_bind, run_ext.
  destruct (env _ (NewForConfigAndClient volumesnapshot_api _ _) _) as [v|err] eqn:Hv;
    [|do 2 eexists; split_and!; [reflexivity..|]; right; eauto 8].
  do 2 eexists. split; [reflexivity|]. split; [done|]. split; [by eauto|]. intros []; by eauto.
Qed.
End clients.

(** ** HTTP clients opened and closed *)

Section connections.
Context {QA : QuantityApi}.

(** The HTTP client of a client set that a call completes: the snapshot client is the last one
    [NewClients] builds. *)
Definition opened_by (c : answered_call) : option handle :=
  match c with
  | existT _ (q, a) =>
      match q in request X return X → option handle with
      | NewForConfigAndClient volumesnapshot_api _ cl => λ a, match a with inl _ => Some cl | inr _ => None end
      | _ => λ _, None
      end a
  end.

(** The HTTP client whose connections a call closes. *)
Definition closed_by (c : answered_call) : option handle :=
  match c with existT _ (CloseIdleConnections cl, _) => Some cl | _ => None end.

(** The call that closes the connections of [cl]. *)
Definition closing (cl : handle) : answered_call :=
  existT (P := λ X : Type, (request X * X)%type) unit (CloseIdleConnections cl, tt).

Definition opened (l : list answered_call) : list handle := omap opened_by l.
Definition closed (l : list answered_call) : list handle := omap closed_by l.

Context {S C Q M T : Type} {GC : GoCache (obj S) C} {WQ : WorkQueue Q} {PM : Prometheus M} {TC : TtlCache T}.
Context (env : Env).
Implicit Types w : world C Q M T.

Lemma calls_tame {A} (p : prog S A) w : tame p →
  opened (calls env p w) = [] ∧ closed (calls env p w) = [].
Proof.
  revert w. induction p as [a|X e k IH|msg|msg]; intros w Hp; [done| |done|done].
  destruct Hp as [He Hk]. simpl. unfold opened, closed in *. rewrite !omap_app.
  destruct (IH (handle_eff env e w).1 (handle_eff env e w).2 (Hk _)) as [-> ->].
  destruct e as [| | | | | | | | | | | | | | |X op|X q]; [done..|]. by destruct q.
Qed.

Lemma calls_NewClients config w : closed (calls env (NewClients config) w) = [] ∧
  opened (calls env (NewClients config) w) =
    match (run env (NewClients config) w).1 with Returned (inl c) => [client c] | _ => [] end.
Proof.
  unfold NewClients. rewrite calls_bind, run_bind, run_ext.
  destruct (env _ (HTTPClientFor _) _) as [cl|err]; [|done].
  rewrite calls_bind, run_bind, run_ext. destruct (env _ (NewForConfigAndClient kubernetes_api _ _) _) as [k|err]; [|done].
  rewrite calls_bind, run_bind, run_ext. destruct (env _ (NewForConfigAndClient metadata_api _ _) _) as [m|err]; [|done].
  rewrite calls_bind, run_bind, run_ext. destruct (env _ (NewForConfigAndClient dynamic_api _ _) _) as [d|err]; [|done].
  simpl. by destruct (env _ (NewForConfigAndClient volumesnapshot_api _ _) _).
Qed.
End connections.
