(* ===== verification/Process.v ===== *)
(** * Process: polling KEB and processing the queue ([pkg/process])

    [populateCacheAndQueue] (keb_processing.go) brings cache and queue in line with
    the runtimes KEB returned; [processSubAccountID] (queue_processing.go) handles
    one queue item; [execute] (process.go) is a worker's loop body.  Log entries are
    calls of the environment, with the logger they are written by. *)
From S2P Require Import Prelude GoStd GoFloat Logger Resource Tracing PvcScan ClusterTracking Effects Libraries Clients.
Local Open Scope Z_scope.
Local Open Scope list_scope.

(** ** Interfaces of the other components *)

(** [collector.CollectorSender]: the new scans, and an error. *)
Class CollectorSender {QA : QuantityApi} (S : Type) :=
  CollectAndSend : Context → Info → Clients → gmap ScannerID S → prog S (gmap ScannerID S * option error).

(** [runtime.ConfigProvider] and [runtime.ClientFactory]. *)
Class ConfigProvider {QA : QuantityApi} (S : Type) :=
  ConfigProvider_Get : string → prog S (string + error).
Class ClientFactory {QA : QuantityApi} (S : Type) :=
  NewClients : RestConfig → prog S (Clients + error).

(** What the collector promises: it always returns, leaves the cache and the queue
    of [Process] alone, gives its metrics the labels they have, leaves it to [process] to build and close
    clients, and does not log in the name of a worker; the same for the other two, but that a factory builds
    clients.  Kmc shows for which configurations the components of [main] keep this. *)
Class CollectorSenderLaws {QA : QuantityApi} (S : Type) {CS : CollectorSender S} : Prop :=
  CollectAndSend_tame ctx info clients scans : tame (CollectAndSend ctx info clients scans).
Class ConfigProviderLaws {QA : QuantityApi} (S : Type) {CP : ConfigProvider S} : Prop :=
  ConfigProvider_Get_tame runtimeID : tame (ConfigProvider_Get runtimeID).
Class ClientFactoryLaws {QA : QuantityApi} (S : Type) {CF : ClientFactory S} : Prop :=
  NewClients_quiet restConfig : quiet (NewClients restConfig).

Lemma CollectAndSend_quiet {QA : QuantityApi} {S} {CS : CollectorSender S} {CSL : CollectorSenderLaws S} ctx info clients scans :
  quiet (CollectAndSend ctx info clients scans).
Proof. apply tame_quiet, CollectAndSend_tame. Qed.
Lemma ConfigProvider_Get_quiet {QA : QuantityApi} {S} {CP : ConfigProvider S} {CPL : ConfigProviderLaws S} runtimeID :
  quiet (ConfigProvider_Get runtimeID).
Proof. apply tame_quiet, ConfigProvider_Get_tame. Qed.

(** The fields of [Process] its methods read. *)
Record Process := {
  ScrapeInterval : Z;
  WorkersPoolSize : Z;
  PollWaitDuration : Z;
  globalAccToBeFiltered : gset string;
}.

(** [fmt.Errorf(msg + "%w", err)] *)
Definition wrapf (msg : string) (err : error) : error := wrapError (msg +:+ Error err) err.

Section process.
Context {QA : QuantityApi} {S : Type} {SS : SortSlice}.
Context {CS : CollectorSender S} {CP : ConfigProvider S} {CF : ClientFactory S}.

(** ** Metrics ([pkg/process/metrics.go]) *)

Definition recordItemsInCache (count : Z) : prog S unit :=
  call (MetricSet itemsInCache [] (float64_of_int64 count)).

Definition shootValues (r : CacheRecord S) : list string :=
  [Effects.ShootName r; Effects.InstanceID r; Effects.RuntimeID r; Effects.SubAccountID r;
   Effects.GlobalAccountID r].

Definition recordSubAccountProcessed (success : bool) (shootInfo : CacheRecord S) : prog S unit :=
  call (MetricInc subAccountProcessed (FormatBool success :: shootValues shootInfo)).

Definition recordSubAccountProcessedTimeStamp (shootInfo : CacheRecord S) : prog S unit :=
  call (MetricSetToCurrentTime subAccountProcessedTimeStamp (shootValues shootInfo)).

Definition recordKEBFetchedClusters (trackable : bool)
    (shootName instanceID runtimeID subAccountID globalAccountID : string) : prog S unit :=
  call (MetricInc kebFetchedClusters
    [FormatBool trackable; shootName; instanceID; runtimeID; subAccountID; globalAccountID]).

Definition matchLabels (r : CacheRecord S) : list (string * string) :=
  [("shoot_name", Effects.ShootName r); ("instance_id", Effects.InstanceID r);
   ("runtime_id", Effects.RuntimeID r); ("sub_account_id", Effects.SubAccountID r);
   ("global_account_id", Effects.GlobalAccountID r)].

Definition deleteMetrics (shootInfo : CacheRecord S) : prog S bool :=
  n1 ← call (MetricDeletePartialMatch subAccountProcessed (matchLabels shootInfo));
  n2 ← call (MetricDeletePartialMatch subAccountProcessedTimeStamp (matchLabels shootInfo));
  n3 ← call (MetricDeletePartialMatch TotalScans (matchLabels shootInfo));
  n4 ← call (MetricDeletePartialMatch TotalScansConverted (matchLabels shootInfo));
  mret (0 <? n1 + n2 + n3 + n4).

(** ** Loggers; [main] hands [process] the base logger *)

Definition namedLogger : SugaredLogger := With "component" "kmc" NewLogger.

Definition namedLoggerWithRecord (record : option (CacheRecord S)) : SugaredLogger :=
  let logger := With "component" "kmc" NewLogger in
  match record with
  | None => logger
  | Some record =>
      With KeyGlobalAccountID (Effects.GlobalAccountID record) (With KeySubAccountID (Effects.SubAccountID record)
        (With KeyShoot (Effects.ShootName record) (With KeyRuntimeID (Effects.RuntimeID record) logger)))
  end.

Definition namedLoggerWithRuntime (runtime : RuntimeDTO) : SugaredLogger :=
  With KeyGlobalAccountID (ClusterTracking.GlobalAccountID runtime) (With KeySubAccountID (ClusterTracking.SubAccountID runtime)
    (With KeyShoot (ClusterTracking.ShootName runtime) (With KeyRuntimeID (ClusterTracking.RuntimeID runtime)
      (With "component" "kmc" NewLogger)))).

Definition queueProcessingLogger (record : option (CacheRecord S)) (subAccountID : string) (identifier : Z) : SugaredLogger :=
  let logger := With KeySubAccountID subAccountID (With KeyWorkerID (ArgInt identifier) (With "component" "kmc" NewLogger)) in
  match record with
  | None => logger
  | Some record =>
      With KeyGlobalAccountID (Effects.GlobalAccountID record) (With KeyShoot (Effects.ShootName record)
        (With KeyRuntimeID (Effects.RuntimeID record) logger))
  end.

(** ** keb_processing.go *)

Definition getOrDefault (runtimeStatus : option Operation) (defaultValue : string) : string :=
  match runtimeStatus with Some op => State op | None => defaultValue end.

Definition skipRuntime (p : Process) (runtime : RuntimeDTO) : bool :=
  bool_decide (ClusterTracking.GlobalAccountID runtime ∈ globalAccToBeFiltered p).

Definition newRecord (runtime : RuntimeDTO) : CacheRecord S :=
  {| Effects.SubAccountID := ClusterTracking.SubAccountID runtime;
     Effects.RuntimeID := ClusterTracking.RuntimeID runtime;
     Effects.InstanceID := ClusterTracking.InstanceID runtime;
     Effects.GlobalAccountID := ClusterTracking.GlobalAccountID runtime;
     Effects.ShootName := ClusterTracking.ShootName runtime;
     ProviderType := ToLower (Provider runtime);
     ScanMap := ∅ |}.

Definition recordFetched (trackable : bool) (runtime : RuntimeDTO) : prog S unit :=
  recordKEBFetchedClusters trackable (ClusterTracking.ShootName runtime)
    (ClusterTracking.InstanceID runtime) (ClusterTracking.RuntimeID runtime)
    (ClusterTracking.SubAccountID runtime) (ClusterTracking.GlobalAccountID runtime).

(** The branch for a trackable runtime. *)
Definition handleTrackable (runtime : RuntimeDTO) (found : option (obj S)) : prog S unit :=
  let subAccountID := ClusterTracking.SubAccountID runtime in
  recordFetched true runtime;;
  match found with
  | None =>
      err ← call (CacheAdd subAccountID (ObjRecord (newRecord runtime)));
      match err with
      | Some err =>
          logf LError (With KeyError (Error err) (With KeyResult ValueFail (namedLoggerWithRecord (Some (newRecord runtime)))))
            "Failed to add subAccountID to kubeconfigprovider. Skipping queueing it" []
      | None =>
          call (QueueAdd subAccountID);;
          logf LDebug (With KeyResult ValueSuccess (namedLoggerWithRecord (Some (newRecord runtime))))
            "Queued and added to kubeconfigprovider" []
      end
  | Some (ObjRecord record) =>
      if decide (Effects.ShootName record = ClusterTracking.ShootName runtime) then mret () else
      call (CacheSet subAccountID (ObjRecord (newRecord runtime)));;
      logf LDebug (namedLoggerWithRecord (Some record)) "Resetted the values in kubeconfigprovider for subAccount" [];;
      success ← deleteMetrics record;
      if (success : bool) then mret () else
      logf LWarn (namedLoggerWithRecord (Some record)) "prometheus metrics were not successfully removed for subAccount" []
  | Some ObjOther => mret ()
  end.

(** The branch for a runtime that is not trackable. *)
Definition handleUntrackable (runtime : RuntimeDTO) (found : option (obj S)) : prog S unit :=
  recordFetched false runtime;;
  match found with
  | Some o =>
      call (CacheDelete (ClusterTracking.SubAccountID runtime));;
      logf LDebug (With KeyRuntimeID (ClusterTracking.RuntimeID runtime)
        (With KeySubAccountID (ClusterTracking.SubAccountID runtime) namedLogger)) "Deleted subAccount from kubeconfigprovider" [];;
      match o with
      | ObjRecord record =>
          success ← deleteMetrics record;
          if (success : bool) then mret () else
          logf LInfo (namedLoggerWithRecord (Some record)) "prometheus metrics were not successfully removed for subAccount" []
      | ObjOther => mret ()
      end
  | None =>
      logf LDebug (With KeyRuntimeID (ClusterTracking.RuntimeID runtime)
        (With KeySubAccountID (ClusterTracking.SubAccountID runtime) namedLogger)) "Ignoring SubAccount as it is not trackable" []
  end.

(** One iteration of the loop over the runtimes; the loop variable is
    [validSubAccounts]. *)
Definition populateRuntime (p : Process) (validSubAccounts : gset string) (runtime : RuntimeDTO) :
    prog S (gset string) :=
  let subAccountID := ClusterTracking.SubAccountID runtime in
  if decide (subAccountID = "") then mret validSubAccounts else
  let validSubAccounts := {[subAccountID]} ∪ validSubAccounts in
  found ← call (CacheGet subAccountID);
  logf LDebug (With KeyDeprovisioningStatus (getOrDefault (Deprovisioning (Status runtime)) "")
    (With KeyProvisioningStatus (getOrDefault (Provisioning (Status runtime)) "")
      (With KeyRuntimeState (Status_State (Status runtime)) (namedLoggerWithRuntime runtime)))) "Runtime state" [];;
  if skipRuntime p runtime then
    logf LInfo namedLogger
      ("skipping runtime with globalAccountID: %s subAccountID: %s, " +:+ "runtimeID: %s, shootName: %s, instanceID: %s")
      [ArgString (ClusterTracking.GlobalAccountID runtime); ArgString subAccountID;
       ArgString (ClusterTracking.RuntimeID runtime); ArgString (ClusterTracking.ShootName runtime);
       ArgString (ClusterTracking.InstanceID runtime)];;
    mret validSubAccounts
  else
  (if isRuntimeTrackable runtime then handleTrackable runtime found else handleUntrackable runtime found);;
  mret validSubAccounts.

(** One iteration of the clean-up loop over the cached items.  A failed cast
    leaves the zero record. *)
Definition cleanupItem (validSubAccounts : gset string) (_ : unit) (item : string * obj S) : prog S unit :=
  let '(sAccID, recordObj) := item in
  if decide (sAccID ∈ validSubAccounts) then mret () else
  let record := match recordObj with ObjRecord record => record | ObjOther => recordOfSubAccount "" end in
  call (CacheDelete sAccID);;
  match recordObj with
  | ObjOther => logf LError (namedLoggerWithRecord (Some record)) "bad item from kubeconfigprovider, could not cast to a record obj" []
  | ObjRecord _ =>
      logf LInfo (namedLoggerWithRecord (Some record)) "SubAccount is not trackable anymore, deleting it from kubeconfigprovider" []
  end;;
  success ← deleteMetrics record;
  if (success : bool) then mret () else
  logf LInfo (namedLoggerWithRecord (Some record)) "prometheus metrics were not successfully removed for subAccount" [].

Definition populateCacheAndQueue (p : Process) (runtimes : RuntimesPage) : prog S unit :=
  call (MetricReset kebFetchedClusters);;
  validSubAccounts ← for_each (populateRuntime p) ∅ (Data runtimes);
  items ← call CacheItems;
  for_each (cleanupItem validSubAccounts) () items.

(** The beginning of [pollKEBForRuntimes]; [kebReq] is what [p.KEBClient.NewRequest()] returned. *)
Definition pollSetup (kebReq : HttpRequest + error) : prog S unit :=
  match kebReq with inr _ => Fatal "create a new request for KEB" | inl _ => mret () end.

(** The body of [pollKEBForRuntimes]'s loop after a page of runtimes was fetched,
    and after the fetch failed. *)
Definition pollFetched (p : Process) (runtimesPage : RuntimesPage) : prog S unit :=
  logf LDebug namedLogger "num of runtimes are: %d" [ArgInt (PageCount runtimesPage)];;
  populateCacheAndQueue p runtimesPage;;
  length ← call CacheItemCount;
  logf LDebug namedLogger "length of the kubeconfigprovider after KEB is done populating: %d" [ArgInt length];;
  logf LInfo namedLogger "waiting to poll KEB again after %v...." [ArgDuration (PollWaitDuration p)];;
  count ← call CacheItemCount;
  recordItemsInCache count;;
  ext (Sleep (PollWaitDuration p)).

Definition pollFailed (p : Process) (err : error) : prog S unit :=
  logf LError (With KeyError (Error err) (With KeyResult ValueFail namedLogger)) "get runtimes from KEB" [];;
  logf LInfo namedLogger "waiting to poll KEB again after %v...." [ArgDuration (PollWaitDuration p)];;
  ext (Sleep (PollWaitDuration p)).

(** ** queue_processing.go *)

(** [recordSubAccountProcessed(false, *record)] dereferences the pointer. *)
Definition handleError (p : Process) (record : option (CacheRecord S)) (subAccountID : string) (identifier : Z)
    (err : error) : prog S unit :=
  logf LError (queueProcessingLogger record subAccountID identifier) (Error err) [];;
  call (QueueAddAfter subAccountID (ScrapeInterval p));;
  logf LDebug (With KeyRequeue ValueTrue (queueProcessingLogger record subAccountID identifier))
    "successfully requeued subAccountID after %v" [ArgDuration (ScrapeInterval p)];;
  match record with
  | Some r => recordSubAccountProcessed false r
  | None => Panic "runtime error: invalid memory address or nil pointer dereference"
  end.

Definition runtimeInfo (record : CacheRecord S) : Info :=
  {| Info_InstanceID := Effects.InstanceID record;
     Info_RuntimeID := Effects.RuntimeID record;
     Info_SubAccountID := Effects.SubAccountID record;
     Info_GlobalAccountID := Effects.GlobalAccountID record;
     Info_ShootName := Effects.ShootName record;
     Info_ProviderType := ProviderType record |}.

(** [record.ScanMap = newScans] *)
Definition with_ScanMap (record : CacheRecord S) (newScans : gmap ScannerID S) : CacheRecord S :=
  {| Effects.InstanceID := Effects.InstanceID record;
     Effects.RuntimeID := Effects.RuntimeID record;
     Effects.SubAccountID := Effects.SubAccountID record;
     Effects.GlobalAccountID := Effects.GlobalAccountID record;
     Effects.ShootName := Effects.ShootName record;
     ProviderType := ProviderType record;
     ScanMap := newScans |}.

(** [defer clients.CloseConnections()] and the rest. *)
Definition collectWith (p : Process) (record : CacheRecord S) (subAccountID : string) (identifier : Z) (clients : Clients) :
    prog S bool :=
  defer (CloseConnections clients)
 ('(newScans, err) ← CollectAndSend Background (runtimeInfo record) clients (ScanMap record);
  match err with
  | Some err =>
      handleError p (Some record) subAccountID identifier
        (wrapf "failed to collect and send measurements to EDP backend: " err);;
      mret false
  | None =>
      let record := with_ScanMap record newScans in
      logf LInfo (queueProcessingLogger (Some record) subAccountID identifier)
        "successfully collected and sent measurements to EDP backend" [];;
      recordSubAccountProcessed true record;;
      recordSubAccountProcessedTimeStamp record;;
      call (CacheSet (Effects.SubAccountID record) (ObjRecord record));;
      logf LDebug (queueProcessingLogger (Some record) subAccountID identifier) "updated kubeconfigprovider with new record" [];;
      mret true
  end).

(** A record as [%+v] shows it. *)
Definition shown (record : CacheRecord S) : LogArg :=
  ArgRecord [("InstanceID", Effects.InstanceID record); ("RuntimeID", Effects.RuntimeID record);
     ("SubAccountID", Effects.SubAccountID record); ("GlobalAccountID", Effects.GlobalAccountID record);
     ("ShootName", Effects.ShootName record); ("ProviderType", ProviderType record)] (dom (ScanMap record)).

Definition processRecord (p : Process) (record : CacheRecord S) (subAccountID : string) (identifier : Z) : prog S bool :=
  logf LDebug (queueProcessingLogger (Some record) subAccountID identifier) "record found from kubeconfigprovider: %+v"
    [shown record];;
  kubeConfig ← ConfigProvider_Get (Effects.RuntimeID record);
  match kubeConfig with
  | inr err =>
      handleError p (Some record) subAccountID identifier (wrapf "failed to load kubeconfig from kubeconfigprovider: " err);;
      mret false
  | inl kubeConfig =>
      restClientConfig ← ext (RESTConfigFromKubeConfig kubeConfig);
      match restClientConfig with
      | inr err =>
          handleError p (Some record) subAccountID identifier (wrapf "failed to create REST config from kubeconfig: " err);;
          mret false
      | inl restClientConfig =>
          clients ← NewClients restClientConfig;
          match clients with
          | inr err =>
              handleError p (Some record) subAccountID identifier (wrapf "failed to create clients: " err);; mret false
          | inl clients => collectWith p record subAccountID identifier clients
          end
      end
  end.

Definition processSubAccountID (p : Process) (subAccountID : string) (identifier : Z) : prog S bool :=
  logf LDebug (queueProcessingLogger None subAccountID identifier) "fetched subAccountID from queue" [];;
  cacheItem ← call (CacheGet subAccountID);
  match cacheItem with
  | None =>
      logf LInfo (With KeyRequeue ValueFalse (queueProcessingLogger None subAccountID identifier))
        "subAccountID is not found in kubeconfigprovider which means it is not trackable anymore" [];;
      recordSubAccountProcessed false (recordOfSubAccount subAccountID);;
      mret false
  | Some ObjOther =>
      handleError p None subAccountID identifier
        (errorString "bad item from kubeconfigprovider, could not cast it to a record obj");;
      mret false
  | Some (ObjRecord record) => processRecord p record subAccountID identifier
  end.

(** ** process.go *)

(** One iteration of [execute] after [Queue.Get] returned [subAccountID]. *)
Definition executeItem (p : Process) (subAccountID : string) (identifier : Z) : prog S unit :=
  requeue ← processSubAccountID p subAccountID identifier;
  call (QueueDone subAccountID);;
  if (requeue : bool) then call (QueueAddAfter subAccountID (ScrapeInterval p)) else mret ().

End process.
