(* ===== verification/Samples.v ===== *)
(** * Samples: concrete libraries, components and data

    One instance of every interface of the [process] package and a small fleet, used to run
    the model on concrete inputs. *)
From S2P Require Import Prelude GoStd GoFloat Rfc3339 Resource PvcScan ClusterTracking Effects Libraries Clients Process.
Local Open Scope Z_scope.
Local Open Scope list_scope.

#[global] Existing Instance insertion_SortSlice.
#[global] Existing Instance sample_QuantityApi.

(** An environment in which every call succeeds. *)
Definition sample_env : Env := λ X q t,
  match q in request X return X with
  | Now => {| unixSec := 1714979289 + Z.of_nat t; nanos := 500000000; zoneOffset := 0 |}
  | MapOrder => λ keys, keys
  | Sleep _ => tt
  | HttpDo _ => inl {| StatusCode := 201; ResponseBody := inl "" |}
  | BodyClose _ => None
  | ListNodes _ => inl []
  | ListPVCs _ => inl []
  | ListVSCs _ => inl []
  | ListRedis _ _ => inl "0"
  | RESTConfigFromKubeConfig _ => inl {| restConfig := 1%positive; Proxy := None |}
  | HTTPClientFor _ => inl 2%positive
  | NewForConfigAndClient kubernetes_api _ _ => inl 3%positive
  | NewForConfigAndClient metadata_api _ _ => inl 4%positive
  | NewForConfigAndClient dynamic_api _ _ => inl 5%positive
  | NewForConfigAndClient volumesnapshot_api _ _ => inl 6%positive
  | CloseIdleConnections _ => tt
  | GetSecret _ name => inl {| Secret_Data := {["config" := "content of " +:+ name]} |}
  | Int63n n => n - 1
  | Log _ => tt
  | SpanStart _ _ _ => Pos.of_succ_nat t
  | SpanRecordError _ _ => tt
  | SpanSetStatus _ _ _ => tt
  | SpanEnd _ => tt
  | Clock => 10 ^ 9 * Z.of_nat t
  end.

(** The configuration and the clients it hands out. *)
Definition sample_rest : RestConfig := {| restConfig := 1%positive; Proxy := None |}.
Definition sample_clients : Clients :=
  {| metadata := 4%positive; core := 3%positive; volumeSnapshot := 6%positive; dynamic := 5%positive;
     client := 2%positive |}.

(** Components whose scans carry no data. *)
#[global] Instance sample_Collector : CollectorSender unit :=
  λ ctx info clients previous,
    now ← ext Now;
    call (MetricInc TotalScans ["true"; "node"; Info_ShootName info; Info_InstanceID info; Info_RuntimeID info;
      Info_SubAccountID info; Info_GlobalAccountID info]);;
    mret ({["node" := tt]}, None).
#[global] Instance sample_ConfigProvider : ConfigProvider unit := λ runtimeID,
  secret ← ext (GetSecret "kcp-system" ("kubeconfig-" +:+ runtimeID));
  mret (match secret with
        | inl s => inl (default "" (Secret_Data s !! "config"))
        | inr err => inr (apiErr err)
        end).
#[global] Instance sample_ClientFactory : ClientFactory unit := Clients.NewClients.

#[global] Instance sample_CollectorLaws : CollectorSenderLaws unit.
Proof. done. Qed.
#[global] Instance sample_ConfigProviderLaws : ConfigProviderLaws unit.
Proof. done. Qed.
#[global] Instance sample_ClientFactoryLaws : ClientFactoryLaws unit.
Proof. intros config. apply NewClients_ext. Qed.

Abbreviation sample_cache := (gmap string (obj unit)).
Abbreviation sample_world_type := (world sample_cache simple_queue metric_map ttl_map).

Definition sample_process : Process :=
  {| ScrapeInterval := 180; WorkersPoolSize := 2; PollWaitDuration := 60;
     globalAccToBeFiltered := {["ga-internal"]} |}.

(** Runtimes provisioned at time 1, and deprovisioned at time 2 if [gone]. *)
Definition sample_runtime (globalAccount subAccount shoot : string) (gone : bool) : RuntimeDTO := {|
  ClusterTracking.InstanceID := "i-" +:+ subAccount;
  ClusterTracking.RuntimeID := "r-" +:+ subAccount;
  ClusterTracking.GlobalAccountID := globalAccount;
  ClusterTracking.SubAccountID := subAccount;
  ClusterTracking.ShootName := shoot;
  Provider := "AWS";
  Status := {|
    Status_State := "succeeded";
    Provisioning := Some {| State := "succeeded"; CreatedAt := 1 |};
    Deprovisioning := if gone then Some {| State := "in progress"; CreatedAt := 2 |} else None;
    UpgradingKyma := None; UpgradingCluster := None; Update := None; Suspension := None; Unsuspension := None;
  |};
|}.

Definition sample_page (rts : list RuntimeDTO) : RuntimesPage :=
  {| Data := rts; PageCount := Z.of_nat (length rts); TotalCount := Z.of_nat (length rts) |}.

Definition empty_world : sample_world_type :=
  {| w_cache := ∅; w_queue := sq_empty; w_metrics := ∅; w_kube := ∅; w_tick := 0; w_http := [] |}.

Definition sample_record (subAccount shoot : string) : CacheRecord unit :=
  newRecord (sample_runtime "ga" subAccount shoot false).

(** The sub-accounts with these shoots are cached and queued. *)
Definition cached_world (l : list (string * string)) : sample_world_type :=
  {| w_cache := list_to_map ((λ '(x, shoot), (x, ObjRecord (sample_record x shoot))) <$> l);
     w_queue := foldr sq_add sq_empty l.*1; w_metrics := ∅; w_kube := ∅; w_tick := 0; w_http := [] |}.

(** The shoot cached for a sub-account. *)
Definition cached_shoot (x : string) (w : sample_world_type) : option string :=
  match cache_get x (w_cache w) with Some (ObjRecord rec) => Some (Effects.ShootName rec) | _ => None end.
