(* ===== verification/ProcessSpec.v ===== *)
(** * ProcessSpec: what one poll and one queue item do

    The specification of [populateCacheAndQueue] is per sub-account: [reconcile]
    is what one runtime does to the cache entry of its sub-account, [account] folds
    it over the page.  The theorems hold for every cache, queue and metric library
    that satisfies its laws and for every environment. *)
From S2P Require Import Prelude GoStd GoFloat Logger Resource PvcScan ClusterTracking Effects Libraries Clients Process Samples.
Local Open Scope Z_scope.
Local Open Scope list_scope.

Section spec.
Context {QA : QuantityApi} {S : Type} {SS : SortSlice}.
Context {C Q M T : Type} {GC : GoCache (obj S) C} {WQ : WorkQueue Q} {PM : Prometheus M} {TC : TtlCache T}.
Context {GCL : GoCacheLaws (obj S) C} {WQL : WorkQueueLaws Q} {PML : PrometheusLaws M}.
Context (env : Env).
Implicit Types w : world C Q M T.
Implicit Types r : M.
Implicit Types rt : RuntimeDTO.

(** ** Metrics of a shoot *)

(** The vectors [deleteMetrics] clears. *)
Definition shootMetrics : list metric :=
  [subAccountProcessed; subAccountProcessedTimeStamp; TotalScans; TotalScansConverted].

Definition series_of (rec : CacheRecord S) (m : metric) (ls : list string) : Prop :=
  m ∈ shootMetrics ∧ series_matches m ls (matchLabels rec).

(** Which series are left of [r] after the series in [P] were deleted. *)
Definition metrics_without (P : metric → list string → Prop) `{∀ m ls, Decision (P m ls)} (r r' : M) : Prop :=
  ∀ m ls, m_get m ls r' = if decide (P m ls) then None else m_get m ls r.

#[local] Instance series_of_dec rec m ls : Decision (series_of rec m ls).
Proof. unfold series_of. apply _. Defined.

(** Deleting from several vectors, one after the other. *)
Fixpoint m_delete_all (ms : list metric) (pairs : list (string * string)) (r : M) : Z * M :=
  match ms with
  | [] => (0, r)
  | m :: ms' =>
      let d := m_delete m pairs r in
      let d' := m_delete_all ms' pairs d.2 in (d.1 + d'.1, d'.2)
  end.

Lemma m_delete_all_get ms pairs r m ls :
  m_get m ls (m_delete_all ms pairs r).2 =
    if decide (m ∈ ms ∧ series_matches m ls pairs) then None else m_get m ls r.
Proof.
  revert r. induction ms as [|m0 ms IH]; intros r; cbn [m_delete_all fst snd].
  - rewrite decide_False; [done|]. set_solver.
  - rewrite IH, m_get_delete. repeat case_decide; set_solver.
Qed.

Lemma m_delete_all_count ms pairs r : NoDup ms →
  0 ≤ (m_delete_all ms pairs r).1 ∧
  (0 < (m_delete_all ms pairs r).1 ↔
     ∃ m ls, m ∈ ms ∧ series_matches m ls pairs ∧ is_Some (m_get m ls r)).
Proof.
  intros Hnd. revert r. induction Hnd as [|m0 ms Hm0 _ IH]; intros r; simpl.
  - split; [lia|]. split; [lia|]. intros (m & ls & Hm & _). by apply elem_of_nil in Hm.
  - destruct (m_delete_count m0 pairs r) as [H0 C0]. destruct (IH (m_delete m0 pairs r).2) as [H1 C1].
    assert (Hpos : 0 < (m_delete m0 pairs r).1 + (m_delete_all ms pairs (m_delete m0 pairs r).2).1 ↔
      0 < (m_delete m0 pairs r).1 ∨ 0 < (m_delete_all ms pairs (m_delete m0 pairs r).2).1) by lia.
    split; [lia|]. rewrite Hpos, C0, C1. setoid_rewrite elem_of_cons.
    assert (Hkeep : ∀ m ls, m ∈ ms → m_get m ls (m_delete m0 pairs r).2 = m_get m ls r).
    { intros m ls Hm. rewrite m_get_delete, decide_False; [done|]. intros [-> _]. done. }
    split.
    + intros [(ls & ? & ?)|(m & ls & Hm & ? & Hs)]; [by eauto 7|].
      rewrite Hkeep in Hs by done. by eauto 7.
    + intros (m & ls & [->|Hm] & ? & ?); [by eauto|]. right. exists m, ls. by rewrite Hkeep.
Qed.

Lemma shootMetrics_NoDup : NoDup shootMetrics.
Proof. vm_decide. Qed.

Lemma deleteMetrics_unfold rec w :
  run env (deleteMetrics rec) w =
    let d := m_delete_all shootMetrics (matchLabels rec) (w_metrics w) in
    (Returned (0 <? d.1), with_metrics d.2 w).
Proof. simpl. do 2 f_equal. lia. Qed.

Lemma deleteMetrics_run rec w : ∃ b r',
  run env (deleteMetrics rec) w = (Returned b, with_metrics r' w) ∧
  metrics_without (series_of rec) (w_metrics w) r' ∧
  (b = true ↔ ∃ m ls, series_of rec m ls ∧ is_Some (m_get m ls (w_metrics w))).
Proof.
  rewrite deleteMetrics_unfold. do 2 eexists. split; [reflexivity|]. split.
  - intros m ls. apply m_delete_all_get.
  - rewrite Z.ltb_lt. rewrite (proj2 (m_delete_all_count shootMetrics _ _ shootMetrics_NoDup)).
    unfold series_of. naive_solver.
Qed.

(** ** One poll *)

(** What a runtime that is not skipped does to the cache entry of its sub-account. *)
Definition reconcile (rt : RuntimeDTO) (entry : option (obj S)) : option (obj S) :=
  if isRuntimeTrackable rt then
    match entry with
    | None => Some (ObjRecord (newRecord rt))
    | Some (ObjRecord rec) =>
        if decide (Effects.ShootName rec = ClusterTracking.ShootName rt) then entry
        else Some (ObjRecord (newRecord rt))
    | Some ObjOther => entry
    end
  else None.

(** It enters the queue when it is trackable and was not cached. *)
Definition enqueues (rt : RuntimeDTO) (entry : option (obj S)) : bool :=
  isRuntimeTrackable rt && bool_decide (entry = None).

(** The runtime is about sub-account [x] and not skipped. *)
Definition concerns (p : Process) (x : string) (rt : RuntimeDTO) : Prop :=
  ClusterTracking.SubAccountID rt = x ∧ x ≠ "" ∧ skipRuntime p rt = false.
#[global] Instance concerns_dec p x rt : Decision (concerns p x rt).
Proof. unfold concerns. apply _. Defined.

(** The entry of [x] and whether it was queued, after the runtimes of the page. *)
Definition account_step (p : Process) (x : string) (st : option (obj S) * bool) (rt : RuntimeDTO) :=
  if decide (concerns p x rt) then (reconcile rt st.1, st.2 || enqueues rt st.1) else st.

Definition account (p : Process) (x : string) (entry : option (obj S)) (rts : list RuntimeDTO) :=
  foldl (account_step p x) (entry, false) rts.

(** The sub-accounts KEB returned. *)
Definition listed (rts : list RuntimeDTO) : gset string :=
  list_to_set (ClusterTracking.SubAccountID <$> rts) ∖ {[""]}.

(** No metric of the record's shoot is left. *)
Definition cleared (rec : CacheRecord S) (r : M) : Prop :=
  ∀ m ls, series_of rec m ls → m_get m ls r = None.

(** How the metrics change: those of shoots only disappear, and all of them do for
    a record that left the cache. *)
Definition metrics_follow (w w' : world C Q M T) : Prop :=
  (∀ m ls, m ∈ shootMetrics → m_get m ls (w_metrics w') = m_get m ls (w_metrics w) ∨
                              m_get m ls (w_metrics w') = None) ∧
  (∀ x rec, cache_get x (w_cache w) = Some (ObjRecord rec) →
     cache_get x (w_cache w') = Some (ObjRecord rec) ∨ cleared rec (w_metrics w')).

Lemma metrics_follow_trans w1 w2 w3 :
  metrics_follow w1 w2 → metrics_follow w2 w3 → metrics_follow w1 w3.
Proof.
  intros [H1 H1'] [H2 H2']. split.
  - intros m ls Hm. destruct (H1 m ls Hm), (H2 m ls Hm); try (left; congruence); right; congruence.
  - intros x rec Hx. destruct (H1' _ _ Hx) as [Hx2|Hc]; [by apply H2'|].
    right. intros m ls Hs. specialize (Hc m ls Hs). destruct (H2 m ls) as [He|He]; [apply Hs| |done].
    by rewrite He.
Qed.

(** Parts of the world a step of the poll leaves alone. *)
Definition same_rest (w w' : world C Q M T) : Prop :=
  q_processing (w_queue w') = q_processing (w_queue w) ∧ w_http w' = w_http w ∧ w_kube w' = w_kube w.

(** The outcome of a step on sub-account [x]: its entry becomes [entry'], it is queued
    if [add], nothing else changes but metrics. *)
Definition entry_step (w w' : world C Q M T) (x : string) (entry' : option (obj S)) (add : bool) : Prop :=
  (∀ y, cache_get y (w_cache w') = if decide (x = y) then entry' else cache_get y (w_cache w)) ∧
  q_pending (w_queue w') = (if add then {[x]} else ∅) ∪ q_pending (w_queue w) ∧
  same_rest w w' ∧ metrics_follow w w'.

(** Only metrics outside [shootMetrics] change. *)
Lemma metrics_follow_other w w' : (∀ y, is_Some (cache_get y (w_cache w)) →
    cache_get y (w_cache w') = cache_get y (w_cache w)) →
  (∀ m ls, m ∈ shootMetrics → m_get m ls (w_metrics w') = m_get m ls (w_metrics w)) →
  metrics_follow w w'.
Proof. intros Hc Hm. split; [by auto|]. intros x rec Hx. left. by rewrite Hc. Qed.

(** The entry of [x] goes and its metrics are deleted. *)
Lemma metrics_follow_delete w w' x rec :
  (∀ y, x ≠ y → cache_get y (w_cache w') = cache_get y (w_cache w)) →
  (∀ rec', cache_get x (w_cache w) = Some (ObjRecord rec') → rec' = rec) →
  (∀ m ls, m ∈ shootMetrics → m_get m ls (w_metrics w') =
     if decide (series_of rec m ls) then None else m_get m ls (w_metrics w)) →
  metrics_follow w w'.
Proof.
  intros Hc Hrec Hm. split.
  - intros m ls Hin. rewrite Hm by done. case_decide; auto.
  - intros y rec' Hy. destruct (decide (x = y)) as [->|Hne]; [|left; by rewrite Hc].
    apply Hrec in Hy as ->. right. intros m ls Hs. rewrite Hm by apply Hs. by rewrite decide_True.
Qed.

(** The metric of fetched clusters is not one of a shoot. *)
Lemma fetched_keeps_shootMetrics ls0 r m ls : m ∈ shootMetrics →
  m_get m ls (m_inc kebFetchedClusters ls0 r) = m_get m ls r.
Proof. intros Hm. rewrite m_get_inc, decide_False; [done|]. intros [= <- _]. set_solver. Qed.

(** [deleteMetrics rec] after the cache entry of [x] was replaced by [entry'], and the entry that is written if there was no metric. *)
Lemma delete_entry_run w w1 x rec entry' level l msg :
  (∀ rec', cache_get x (w_cache w) = Some (ObjRecord rec') → rec' = rec) →
  (∀ y, cache_get y (w_cache w1) = if decide (x = y) then entry' else cache_get y (w_cache w)) →
  w_queue w1 = w_queue w → same_rest w w1 →
  (∀ m ls, m ∈ shootMetrics → m_get m ls (w_metrics w1) = m_get m ls (w_metrics w)) →
  ∃ w', run env (success ← deleteMetrics rec; if (success : bool) then mret () else logf level l msg []) w1 = (Returned (), w') ∧
    entry_step w w' x entry' false.
Proof.
  intros Hrec Hc Hq Hrest Hm. destruct (deleteMetrics_run rec w1) as (b & r' & Hrun & Hr' & _).
  exists (later (if b then 0 else 1) (with_metrics r' w1)). rewrite run_bind, Hrun. split; [by destruct b|].
  split; [done|]. split; [simpl; rewrite Hq; set_solver|]. split; [done|].
  apply (metrics_follow_delete _ _ x rec); [|done|].
  - intros y Hy. simpl. by rewrite Hc, decide_False.
  - intros m ls Hin. simpl. rewrite (Hr' m ls). case_decide; [done|]. by apply Hm.
Qed.

(** Nothing but the metric of fetched clusters changed. *)
Lemma fetched_only_step w ls x : let w' := with_metrics (m_inc kebFetchedClusters ls (w_metrics w)) w in
  entry_step w w' x (cache_get x (w_cache w)) false.
Proof.
  split; [simpl; intros y; case_decide; congruence|]. split; [set_solver|]. split; [done|].
  apply metrics_follow_other; [done|]. intros. by apply fetched_keeps_shootMetrics.
Qed.

Lemma handleTrackable_run rt w : let x := ClusterTracking.SubAccountID rt in
  let entry := cache_get x (w_cache w) in isRuntimeTrackable rt = true → ∃ w',
  run env (handleTrackable rt entry) w = (Returned (), w') ∧
  entry_step w w' x (reconcile rt entry) (enqueues rt entry).
Proof.
  intros x entry Ht. unfold reconcile, enqueues, handleTrackable, recordFetched, recordKEBFetchedClusters. rewrite Ht.
  destruct entry as [[rec|]|] eqn:He; cbn [andb].
  - rewrite bool_decide_false by done. case_decide.
    { eexists. split; [reflexivity|]. rewrite <- He. apply fetched_only_step. }
    rewrite run_call_bind. rewrite run_call_bind, run_logf_bind.
    edestruct (delete_entry_run w) as (w' & -> & Hstep); [| | | | |by exists w'].
    + unfold entry in He. intros rec'. rewrite He. by intros [= ->].
    + intros y. apply cache_get_set.
    + done.
    + done.
    + intros. by apply fetched_keeps_shootMetrics.
  - rewrite bool_decide_false by done. eexists. split; [reflexivity|].
    rewrite <- He. apply fetched_only_step.
  - rewrite bool_decide_true by done. rewrite run_call_bind. rewrite run_call_bind.
    destruct (cache_add_fresh x (ObjRecord (newRecord rt)) (w_cache w) He) as [Herr Hget].
    cbn [handle_eff fst snd with_metrics w_cache]. fold x. rewrite Herr. eexists. split; [reflexivity|].
    split; [apply Hget|]. split; [apply q_pending_add|].
    split; [split_and!; [apply q_processing_add|done..]|].
    apply metrics_follow_other; [|intros; by apply fetched_keeps_shootMetrics].
    simpl. intros y [o Hy]. rewrite Hget, decide_False; [done|]. intros ->. unfold entry in He. congruence.
Qed.

Lemma handleUntrackable_run rt w : let x := ClusterTracking.SubAccountID rt in
  let entry := cache_get x (w_cache w) in isRuntimeTrackable rt = false → ∃ w',
  run env (handleUntrackable rt entry) w = (Returned (), w') ∧
  entry_step w w' x (reconcile rt entry) (enqueues rt entry).
Proof.
  intros x entry Ht. unfold reconcile, enqueues, handleUntrackable, recordFetched, recordKEBFetchedClusters. rewrite Ht.
  destruct entry as [[rec|]|] eqn:He; cbn [andb]; unfold entry in He.
  - rewrite run_call_bind. rewrite run_call_bind, run_logf_bind.
    edestruct (delete_entry_run w) as (w' & -> & Hstep); [| | | | |by exists w'].
    + intros rec'. rewrite He. by intros [= ->].
    + intros y. apply cache_get_delete.
    + done.
    + done.
    + intros. by apply fetched_keeps_shootMetrics.
  - eexists. split; [reflexivity|]. cbn [handle_eff fst snd].
    split; [intros y; simpl; apply cache_get_delete|].
    split; [set_solver|]. split; [done|].
    split; [left; by apply fetched_keeps_shootMetrics|]. intros y rec Hy. left. simpl.
    rewrite cache_get_delete, decide_False; [done|]. intros Hxy. fold x in Hxy. rewrite <- Hxy, He in Hy. done.
  - eexists. split; [reflexivity|]. rewrite <- He. apply fetched_only_step.
Qed.

Lemma account_step_other p x st rt : ¬ concerns p x rt → account_step p x st rt = st.
Proof. intros H. unfold account_step. by rewrite decide_False. Qed.

(** One iteration over the runtimes. *)
Definition runtime_step (p : Process) (rt : RuntimeDTO) (w w' : world C Q M T) : Prop :=
  (∀ x, cache_get x (w_cache w') = (account_step p x (cache_get x (w_cache w), false) rt).1) ∧
  (∀ x, x ∈ q_pending (w_queue w') ↔
     x ∈ q_pending (w_queue w) ∨ (account_step p x (cache_get x (w_cache w), false) rt).2 = true) ∧
  same_rest w w' ∧ metrics_follow w w'.

Lemma runtime_step_other p rt w : (∀ x, ¬ concerns p x rt) → runtime_step p rt w w.
Proof.
  intros H. split_and!; [..|by apply metrics_follow_other]; try done;
    intros x; rewrite account_step_other by done; naive_solver.
Qed.

Lemma runtime_step_entry p rt w w' : let x := ClusterTracking.SubAccountID rt in
  let entry := cache_get x (w_cache w) in x ≠ "" → skipRuntime p rt = false →
  entry_step w w' x (reconcile rt entry) (enqueues rt entry) → runtime_step p rt w w'.
Proof.
  intros x entry Hx Hskip (Hc & Hq & Hrest & Hm). split_and!; try done; intros y;
    unfold account_step, concerns.
  - rewrite Hc. repeat case_decide; naive_solver.
  - rewrite Hq. case_decide as Hy; simpl.
    + destruct Hy as (<- & _ & _). fold x entry. destruct (enqueues _ _); set_solver.
    + destruct (enqueues _ _); set_solver.
Qed.

Lemma populateRuntime_run p v rt w : ∃ w',
  run env (populateRuntime p v rt) w = (Returned (listed [rt] ∪ v), w') ∧ runtime_step p rt w w'.
Proof.
  unfold populateRuntime, listed. cbn [fmap list_fmap list_to_set]. case_decide as Hid.
  { exists w. rewrite Hid. split; [by replace (_ ∪ v) with v by set_solver|].
    apply runtime_step_other. intros x (? & ? & ?). congruence. }
  rewrite run_call_bind, run_logf_bind. cbn [handle_eff fst snd].
  replace (({[ClusterTracking.SubAccountID rt]} ∪ ∅) ∖ {[""]} : gset string)
    with ({[ClusterTracking.SubAccountID rt]} : gset string) by set_solver.
  destruct (skipRuntime p rt) eqn:Hskip.
  { exists (later 2 w). split; [done|]. apply (runtime_step_other p rt w). intros x (? & ? & ?). congruence. }
  rewrite run_bind. destruct (isRuntimeTrackable rt) eqn:Ht.
  - destruct (handleTrackable_run rt (later 1 w) Ht) as (w' & Hrun & Hstep). cbn [later w_cache] in Hrun. rewrite Hrun.
    exists w'. split; [done|]. by apply (runtime_step_entry p rt w).
  - destruct (handleUntrackable_run rt (later 1 w) Ht) as (w' & Hrun & Hstep). cbn [later w_cache] in Hrun. rewrite Hrun.
    exists w'. split; [done|]. by apply (runtime_step_entry p rt w).
Qed.

Lemma account_snoc p x e rts rt : account p x e (rts ++ [rt]) = account_step p x (account p x e rts) rt.
Proof. unfold account. by rewrite foldl_app. Qed.

Lemma account_step_queued p x e b rt : account_step p x (e, b) rt =
  ((account_step p x (e, false) rt).1, b || (account_step p x (e, false) rt).2).
Proof. unfold account_step. case_decide; simpl; [done|]. by rewrite orb_false_r. Qed.

Lemma listed_app rts1 rts2 : listed (rts1 ++ rts2) = listed rts1 ∪ listed rts2.
Proof. unfold listed. rewrite fmap_app, list_to_set_app_L. set_solver. Qed.

Lemma same_rest_trans w1 w2 w3 : same_rest w1 w2 → same_rest w2 w3 → same_rest w1 w3.
Proof. unfold same_rest. intros (?&?&?) (?&?&?). split_and!; congruence. Qed.

(** The state after some runtimes of the page. *)
Definition page_step (p : Process) (rts : list RuntimeDTO) (w w' : world C Q M T) : Prop :=
  (∀ x, cache_get x (w_cache w') = (account p x (cache_get x (w_cache w)) rts).1) ∧
  (∀ x, x ∈ q_pending (w_queue w') ↔
     x ∈ q_pending (w_queue w) ∨ (account p x (cache_get x (w_cache w)) rts).2 = true) ∧
  same_rest w w' ∧ metrics_follow w w'.

Lemma page_step_snoc p rts rt w w1 w2 :
  page_step p rts w w1 → runtime_step p rt w1 w2 → page_step p (rts ++ [rt]) w w2.
Proof.
  intros (Hc1 & Hq1 & Hr1 & Hm1) (Hc2 & Hq2 & Hr2 & Hm2).
  assert (Hstep : ∀ x, account p x (cache_get x (w_cache w)) (rts ++ [rt]) =
    ((account_step p x (cache_get x (w_cache w1), false) rt).1,
     (account p x (cache_get x (w_cache w)) rts).2 ||
       (account_step p x (cache_get x (w_cache w1), false) rt).2)).
  { intros x. rewrite account_snoc, Hc1. destruct (account p x _ rts) as [e b].
    apply account_step_queued. }
  split_and!; [| |by eapply same_rest_trans|by eapply metrics_follow_trans].
  - intros x. by rewrite Hc2, Hstep.
  - intros x. rewrite Hq2, Hq1, Hstep. simpl. rewrite orb_true_iff. tauto.
Qed.

Lemma populateLoop_run p rts w : ∃ w',
  run env (for_each (populateRuntime p) ∅ rts) w = (Returned (listed rts), w') ∧ page_step p rts w w'.
Proof.
  destruct (run_for_each env (populateRuntime p) (λ rts' v w', v = listed rts' ∧ page_step p rts' w w') rts
    ) with (st := ∅ : gset string) (w := w) as (v & w' & Hrun & -> & Hw'); [| |by exists w'].
  - intros rts' rt v w1 _ [-> Hw1]. destruct (populateRuntime_run p (listed rts') rt w1) as (w2 & Hrun & Hw2).
    exists (listed [rt] ∪ listed rts'), w2. split; [done|]. split; [|by eapply page_step_snoc].
    rewrite listed_app. set_solver.
  - split; [by unfold listed; set_solver|]. split_and!; [done|..]; try done; try naive_solver.
    by apply metrics_follow_other.
Qed.

(** The clean-up loop: entries of [items] outside [v] disappear. *)
Definition cleanup_step (v : gset string) (items : list (string * obj S)) (w w' : world C Q M T) : Prop :=
  (∀ x, cache_get x (w_cache w') =
     if decide (x ∈ items.*1 ∧ x ∉ v) then None else cache_get x (w_cache w)) ∧
  q_pending (w_queue w') = q_pending (w_queue w) ∧ same_rest w w' ∧ metrics_follow w w'.

Lemma cleanupItem_run v items k o w w1 : cache_get k (w_cache w) = Some o → cleanup_step v items w w1 → ∃ w2,
  run env (cleanupItem v () (k, o)) w1 = (Returned (), w2) ∧ cleanup_step v (items ++ [(k, o)]) w w2.
Proof.
  intros Ho (Hc & Hq & Hr & Hm). unfold cleanupItem. case_decide as Hk.
  { exists w1. split; [done|]. split_and!; try done. intros x. rewrite Hc, fmap_app. repeat case_decide; set_solver. }
  rewrite run_call_bind. cbn [handle_eff fst snd].
  set (rec := match o with ObjRecord rec => rec | ObjOther => recordOfSubAccount "" end).
  destruct (delete_entry_run w1 (later 1 (with_cache (cache_delete k (w_cache w1)) w1)) k rec None LInfo
      (namedLoggerWithRecord (Some rec)) "prometheus metrics were not successfully removed for subAccount")
    as (w2 & Hrun & Hc2 & Hq2 & Hr2 & Hm2); try done.
  - intros rec'. rewrite Hc, Ho. case_decide; [done|]. by intros [= ->].
  - intros y. apply cache_get_delete.
  - exists w2. split; [rewrite run_bind; destruct o; exact Hrun|]. split_and!.
    + intros x. rewrite Hc2, Hc, fmap_app. repeat case_decide; set_solver.
    + rewrite Hq2, Hq. set_solver.
    + by eapply same_rest_trans.
    + by eapply metrics_follow_trans.
Qed.

Lemma cleanupLoop_run v w : ∃ w',
  run env (for_each (cleanupItem v) () (cache_items (w_cache w))) w = (Returned (), w') ∧
  (∀ x, cache_get x (w_cache w') = if decide (x ∈ v) then cache_get x (w_cache w) else None) ∧
  q_pending (w_queue w') = q_pending (w_queue w) ∧ same_rest w w' ∧ metrics_follow w w'.
Proof.
  destruct (run_for_each env (cleanupItem v) (λ items _ w', cleanup_step v items w w') (cache_items (w_cache w)))
    with (st := ()) (w := w) as ([] & w' & Hrun & Hc & Hq & Hr & Hm).
  - intros items [k o] [] w1 Hpre Hw1.
    destruct (cleanupItem_run v items k o w w1) as (w2 & Hrun & Hw2); [|done|by eauto].
    apply cache_items_get. destruct Hpre as [rest ->]. set_solver.
  - split_and!; [|done..|]. { intros x. by rewrite decide_False by set_solver. }
    by apply metrics_follow_other.
  - exists w'. split_and!; try done. intros x. rewrite Hc.
    destruct (cache_get x (w_cache w)) as [o|] eqn:Ho; [|by repeat case_decide].
    apply cache_items_get in Ho. assert (x ∈ (cache_items (w_cache w)).*1) by (apply list_elem_of_fmap; by exists (x, o)).
    repeat case_decide; naive_solver.
Qed.

(** The whole pass over a page. *)
Lemma populateCacheAndQueue_run p page w : ∃ w',
  run env (populateCacheAndQueue p page) w = (Returned (), w') ∧
  (∀ x, cache_get x (w_cache w') =
     if decide (x ∈ listed (Data page)) then (account p x (cache_get x (w_cache w)) (Data page)).1 else None) ∧
  (∀ x, x ∈ q_pending (w_queue w') ↔
     x ∈ q_pending (w_queue w) ∨ (account p x (cache_get x (w_cache w)) (Data page)).2 = true) ∧
  same_rest w w' ∧ metrics_follow w w'.
Proof.
  unfold populateCacheAndQueue. rewrite run_call_bind. cbn [handle_eff fst snd].
  set (w0 := with_metrics _ w).
  assert (metrics_follow w w0).
  { apply metrics_follow_other; [done|]. intros m ls Hm. simpl. rewrite m_get_reset, decide_False; [done|].
    intros <-. unfold shootMetrics in Hm. set_solver. }
  destruct (populateLoop_run p (Data page) w0) as (w1 & Hrun1 & Hc1 & Hq1 & Hr1 & Hm1).
  rewrite run_bind, Hrun1, run_call_bind. cbn [handle_eff fst snd].
  destruct (cleanupLoop_run (listed (Data page)) w1) as (w2 & Hrun2 & Hc2 & Hq2 & Hr2 & Hm2).
  exists w2. split_and!; [done|..].
  - intros x. rewrite Hc2, Hc1. done.
  - intros x. rewrite Hq2, Hq1. done.
  - eapply same_rest_trans; [|done]. done.
  - eauto using metrics_follow_trans.
Qed.

(** ** The last runtime of a sub-account decides *)

(** What the cache is meant to hold: records, under their sub-account. *)
Definition entry_ok (x : string) (entry : option (obj S)) : Prop :=
  match entry with
  | None => True
  | Some (ObjRecord rec) => Effects.SubAccountID rec = x
  | Some ObjOther => False
  end.

Definition cache_ok (c : C) : Prop := ∀ x, entry_ok x (cache_get x c).

Lemma reconcile_ok x rt entry : ClusterTracking.SubAccountID rt = x → entry_ok x entry → entry_ok x (reconcile rt entry).
Proof. intros Hx. unfold reconcile. destruct entry as [[rec|]|]; repeat case_match; simpl; naive_solver. Qed.

Lemma account_ok p x entry rts : entry_ok x entry → entry_ok x (account p x entry rts).1.
Proof.
  intros He. induction rts as [|rt rts IH] using rev_ind; [done|]. rewrite account_snoc. unfold account_step.
  case_decide as Hc; [|done]. simpl. apply reconcile_ok; [apply Hc|done].
Qed.

(** Where the entry of [x] comes from: it was there before, or it is the fresh
    record of one of the page's runtimes. *)
Lemma account_origin p x entry rts o : (account p x entry rts).1 = Some o →
  entry = Some o ∨ ∃ rt, rt ∈ rts ∧ concerns p x rt ∧ isRuntimeTrackable rt = true ∧ o = ObjRecord (newRecord rt).
Proof.
  revert o. induction rts as [|rt rts IH] using rev_ind; intros o; [by left|].
  rewrite account_snoc. unfold account_step. setoid_rewrite elem_of_app. setoid_rewrite list_elem_of_singleton.
  assert (Hold : (account p x entry rts).1 = Some o → entry = Some o ∨ ∃ rt0, (rt0 ∈ rts ∨ rt0 = rt) ∧
    concerns p x rt0 ∧ isRuntimeTrackable rt0 = true ∧ o = ObjRecord (newRecord rt0)).
  { intros [?|(rt0 & ? & ?)]%IH; [by left|]. right. exists rt0. tauto. }
  case_decide as Hc; simpl; [|done]. unfold reconcile.
  destruct (isRuntimeTrackable rt) eqn:Ht; [|done].
  destruct (account p x entry rts).1 as [[rec|]|]; [case_decide; [done|]|done|];
    intros [= <-]; right; exists rt; auto.
Qed.

Lemma account_last_None p x entry rts : (∀ rt, rt ∈ rts → ¬ concerns p x rt) → account p x entry rts = (entry, false).
Proof.
  induction rts as [|rt rts IH] using rev_ind; [done|]. intros H. rewrite account_snoc, IH by set_solver.
  apply account_step_other. set_solver.
Qed.

Lemma account_last_Some p x entry rts rt : last (filter (concerns p x) rts) = Some rt → entry_ok x entry →
  concerns p x rt ∧ rt ∈ rts ∧ if isRuntimeTrackable rt
    then ∃ rec, (account p x entry rts).1 = Some (ObjRecord rec) ∧
                Effects.ShootName rec = ClusterTracking.ShootName rt
    else (account p x entry rts).1 = None.
Proof.
  intros Hlast He. induction rts as [|rt' rts IH] using rev_ind; [done|].
  rewrite filter_app, filter_cons, filter_nil in Hlast. rewrite account_snoc. unfold account_step.
  case_decide as Hc.
  - rewrite last_snoc in Hlast. injection Hlast as ->. split; [done|]. split; [set_solver|].
    pose proof (account_ok p x entry rts He) as Hok. simpl. unfold reconcile.
    destruct (isRuntimeTrackable rt); [|done].
    destruct (account p x entry rts).1 as [[rec|]|]; [|done|by eexists].
    case_decide; by eexists.
  - rewrite app_nil_r in Hlast. destruct (IH Hlast) as (? & ? & ?). split_and!; try done. set_solver.
Qed.

(** A sub-account that the page adds to the cache was put into the queue. *)
Lemma account_queued p x rts : is_Some (account p x None rts).1 → (account p x None rts).2 = true.
Proof.
  induction rts as [|rt rts IH] using rev_ind; [by intros [? ?]|].
  rewrite account_snoc. unfold account_step. case_decide; [|done]. simpl. unfold reconcile, enqueues.
  destruct (isRuntimeTrackable rt); simpl; [|by intros [? ?]].
  intros _. destruct (account p x None rts) as [[o|] b]; simpl in *; [rewrite IH by eauto; done|]. apply orb_true_r.
Qed.

Lemma account_queued_origin p x entry rts : (account p x entry rts).2 = true →
  ∃ rt, rt ∈ rts ∧ concerns p x rt ∧ isRuntimeTrackable rt = true.
Proof.
  induction rts as [|rt rts IH] using rev_ind; [done|]. rewrite account_snoc. unfold account_step.
  setoid_rewrite elem_of_app. case_decide as Hc.
  - simpl. intros [(rt0 & ? & ?)%IH|[Ht _]%andb_true_iff]%orb_true_iff; [by eauto|].
    exists rt. split_and!; try done. right. by apply list_elem_of_singleton.
  - intros (rt0 & ? & ?)%IH. eauto.
Qed.

(** How the entry of a sub-account changes: the last runtime of it that is not skipped decides. *)
Definition decided (p : Process) (rts : list RuntimeDTO) (x : string) (before after : option (obj S)) : Prop :=
  match last (filter (concerns p x) rts) with
  | None => after = if decide (x ∈ listed rts) then before else None
  | Some rt =>
      if isRuntimeTrackable rt
      then ∃ rec, after = Some (ObjRecord rec) ∧
             Effects.SubAccountID rec = x ∧ Effects.ShootName rec = ClusterTracking.ShootName rt ∧
             (before = Some (ObjRecord rec) ∨ ∃ rt', rt' ∈ rts ∧ concerns p x rt' ∧ rec = newRecord rt')
      else after = None
  end.

Lemma account_decided p rts x entry : entry_ok x entry →
  decided p rts x entry (if decide (x ∈ listed rts) then (account p x entry rts).1 else None).
Proof.
  intros Hok. unfold decided. destruct (last (filter _ _)) as [rt|] eqn:Hlast.
  - destruct (account_last_Some p x entry _ _ Hlast Hok) as (Hcon & Hin & Hacc).
    assert (Hx : x ∈ listed rts).
    { destruct Hcon as (<- & ? & _). unfold listed. apply elem_of_difference. split; [|set_solver].
      apply elem_of_list_to_set, list_elem_of_fmap. eauto. }
    pose proof (account_ok p x entry rts Hok) as Hok'. rewrite decide_True by done.
    destruct (isRuntimeTrackable rt); [|done]. destruct Hacc as (rec & Hrec & Hname).
    exists rec. rewrite Hrec in Hok'. split_and!; try done.
    destruct (account_origin _ _ _ _ _ Hrec) as [?|(rt' & ? & ? & ? & [= ->])]; [by left|]. right. eauto.
  - apply last_None in Hlast. rewrite account_last_None; [done|]. intros rt Hin Hcon.
    assert (rt ∈ filter (concerns p x) rts) as Hf by by apply list_elem_of_filter.
    rewrite Hlast in Hf. by apply elem_of_nil in Hf.
Qed.

Lemma populate_cache_ok p rts (c c' : C) : cache_ok c →
  (∀ x, cache_get x c' = if decide (x ∈ listed rts) then (account p x (cache_get x c) rts).1 else None) → cache_ok c'.
Proof. intros Hok Hc x. rewrite Hc. case_decide; [|done]. by apply account_ok. Qed.

(** ** Theorems about one poll *)

(** C5 -- [populateCacheAndQueue] implements the per-sub-account specification: it
    returns; afterwards the cache entry of every sub-account KEB returned is the
    old one with the page's runtimes of that sub-account reconciled in order, every
    other entry is gone, exactly the sub-accounts found trackable while not cached were
    queued, and no item is marked as processed or taken. *)
Theorem populateCacheAndQueue_refines p page w : ∃ w',
  run env (populateCacheAndQueue p page) w = (Returned (), w') ∧
  (∀ x, cache_get x (w_cache w') =
     if decide (x ∈ listed (Data page)) then (account p x (cache_get x (w_cache w)) (Data page)).1 else None) ∧
  (∀ x, x ∈ q_pending (w_queue w') ↔
     x ∈ q_pending (w_queue w) ∨ (account p x (cache_get x (w_cache w)) (Data page)).2 = true) ∧
  q_processing (w_queue w') = q_processing (w_queue w).
Proof.
  destruct (populateCacheAndQueue_run p page w) as (w' & Hrun & Hc & Hq & [Hr _] & _). by exists w'.
Qed.

(** The last runtime of a sub-account in the page that is not skipped decides
    about it, whatever came before: if it is trackable, the cache then holds a record of
    its shoot under the sub-account (the one that was there, or a fresh one of the
    page), otherwise nothing.  Sub-accounts with only skipped runtimes keep their
    entry, and those KEB does not return lose it. *)
Theorem populate_last_runtime_decides p page w : cache_ok (w_cache w) → ∃ w',
  run env (populateCacheAndQueue p page) w = (Returned (), w') ∧ cache_ok (w_cache w') ∧
  ∀ x, decided p (Data page) x (cache_get x (w_cache w)) (cache_get x (w_cache w')).
Proof.
  intros Hok. destruct (populateCacheAndQueue_run p page w) as (w' & Hrun & Hc & _). exists w'.
  split; [done|]. split; [by eapply populate_cache_ok|]. intros x. rewrite Hc. by apply account_decided.
Qed.

(** A poll schedules the clusters it starts to track: a sub-account that enters
    the cache is in the queue afterwards.  Nothing leaves the queue, and what was
    added has a trackable runtime in the page. *)
Theorem populate_schedules_new p page w : ∃ w',
  run env (populateCacheAndQueue p page) w = (Returned (), w') ∧
  q_pending (w_queue w) ⊆ q_pending (w_queue w') ∧
  (∀ x, cache_get x (w_cache w) = None → is_Some (cache_get x (w_cache w')) → x ∈ q_pending (w_queue w')) ∧
  (∀ x, x ∈ q_pending (w_queue w') → x ∈ q_pending (w_queue w) ∨
     ∃ rt, rt ∈ Data page ∧ concerns p x rt ∧ isRuntimeTrackable rt = true).
Proof.
  destruct (populateCacheAndQueue_run p page w) as (w' & Hrun & Hc & Hq & _). exists w'.
  split_and!; [done| | |].
  - intros x Hx. apply Hq. by left.
  - intros x Hnone Hsome. rewrite Hc, Hnone in Hsome. apply Hq. right. rewrite Hnone.
    apply account_queued. case_decide; [done|]. by destruct Hsome.
  - intros x [?|Hx]%Hq; [by left|right]. by apply account_queued_origin in Hx.
Qed.

(** C34 -- When a record leaves the cache during a poll or is replaced, none of the four vectors that [deleteMetrics] clears
    ([subAccountProcessed], its timestamp, [TotalScans] and [TotalScansConverted]) has a series of its shoot left;
    and a poll creates and changes no series of these four.  ([kebFetchedClusters], whose series a poll does create, is not one of
    them; it is reset as a whole.) *)
Theorem populate_clears_metrics p page w : ∃ w',
  run env (populateCacheAndQueue p page) w = (Returned (), w') ∧
  (∀ x rec, cache_get x (w_cache w) = Some (ObjRecord rec) →
     cache_get x (w_cache w') ≠ Some (ObjRecord rec) →
     ∀ m ls, series_of rec m ls → m_get m ls (w_metrics w') = None) ∧
  (∀ m ls, m ∈ shootMetrics → is_Some (m_get m ls (w_metrics w')) →
     m_get m ls (w_metrics w') = m_get m ls (w_metrics w)).
Proof.
  destruct (populateCacheAndQueue_run p page w) as (w' & Hrun & _ & _ & _ & Hm & Hm'). exists w'.
  split_and!; [done| |].
  - intros x rec Hx Hne. by destruct (Hm' x rec Hx).
  - intros m ls Hin [v Hv]. destruct (Hm m ls Hin); congruence.
Qed.

(** [deleteMetrics] deletes exactly the series of the four shoot vectors that carry
    the record's five labels, whatever their other labels, and returns whether there
    was one. *)
Theorem deleteMetrics_exact rec w : ∃ b r',
  run env (deleteMetrics rec) w = (Returned b, with_metrics r' w) ∧
  (∀ m ls, series_of rec m ls → m_get m ls r' = None) ∧
  (∀ m ls, ¬ series_of rec m ls → m_get m ls r' = m_get m ls (w_metrics w)) ∧
  (b = true ↔ ∃ m ls, series_of rec m ls ∧ is_Some (m_get m ls (w_metrics w))).
Proof.
  destruct (deleteMetrics_run rec w) as (b & r' & Hrun & Hr & Hb). exists b, r'. split_and!; try done.
  - intros m ls Hs. by rewrite (Hr m ls), decide_True.
  - intros m ls Hs. by rewrite (Hr m ls), decide_False.
Qed.
End spec.

(** ** Concrete runs *)

(** Three cached clusters; KEB reports a new one, one that is being deprovisioned, one
    under another shoot name, and one of a skipped account. *)
Definition sample_before : sample_world_type :=
  cached_world [("sa-1", "shoot-a"); ("sa-2", "shoot-b"); ("sa-3", "shoot-c")].
Definition sample_answer : RuntimesPage := sample_page
  [sample_runtime "ga" "sa-4" "shoot-d" false; sample_runtime "ga" "sa-1" "shoot-a" true;
   sample_runtime "ga" "sa-2" "shoot-z" false; sample_runtime "ga-internal" "sa-5" "shoot-e" false].

Lemma sample_before_ok : cache_ok (w_cache sample_before).
Proof.
  intros x. destruct (cache_get x (w_cache sample_before)) as [o|] eqn:Ho; [|done].
  change (w_cache sample_before !! x = Some o) in Ho. apply elem_of_map_to_list in Ho.
  assert (Hall : Forall (λ '(x, o), entry_ok x (Some o)) (map_to_list (w_cache sample_before)))
    by (vm_compute; repeat constructor).
  exact (proj1 (Forall_forall _ _) Hall (x, o) Ho).
Qed.

Lemma populateCacheAndQueue_refines_witness : ∃ w',
  run sample_env (populateCacheAndQueue sample_process sample_answer) sample_before = (Returned (), w') ∧
  cached_shoot "sa-1" w' = None ∧ cached_shoot "sa-2" w' = Some "shoot-z" ∧ cached_shoot "sa-3" w' = None ∧
  cached_shoot "sa-4" w' = Some "shoot-d" ∧ cached_shoot "sa-5" w' = None ∧
  "sa-4" ∈ q_pending (w_queue w') ∧ "sa-5" ∉ q_pending (w_queue w').
Proof.
  destruct (populateCacheAndQueue_refines sample_env sample_process sample_answer sample_before)
    as (w' & Hrun & Hc & Hq & _).
  exists w'. split; [exact Hrun|]. unfold cached_shoot. rewrite !Hc, !Hq.
  split_and!; try (vm_compute; reflexivity); [right; vm_compute; reflexivity|].
  intros [Hin|Hin]; [|vm_compute in Hin; discriminate].
  revert Hin. vm_decide.
Defined.

Lemma populate_last_runtime_decides_witness : cache_ok (w_cache sample_before) ∧ ∃ w',
  run sample_env (populateCacheAndQueue sample_process sample_answer) sample_before = (Returned (), w') ∧
  cached_shoot "sa-2" w' = Some "shoot-z" ∧ cache_get "sa-1" (w_cache w') = None.
Proof.
  split; [exact sample_before_ok|].
  destruct (populate_last_runtime_decides sample_env sample_process sample_answer sample_before sample_before_ok)
    as (w' & Hrun & _ & Hx).
  exists w'. split; [exact Hrun|]. split; [|exact (Hx "sa-1")].
  destruct (Hx "sa-2") as (rec & Hrec & _ & Hname & _). unfold cached_shoot. rewrite Hrec, Hname. reflexivity.
Defined.

Lemma populate_schedules_new_witness : ∃ w',
  run sample_env (populateCacheAndQueue sample_process sample_answer) sample_before = (Returned (), w') ∧
  "sa-1" ∈ q_pending (w_queue w').
Proof.
  destruct (populate_schedules_new sample_env sample_process sample_answer sample_before)
    as (w' & Hrun & Hsub & _).
  exists w'. split; [exact Hrun|]. apply Hsub. vm_decide.
Defined.

(** The same, with a metric for the cluster that goes and for one that stays. *)
Definition metered_before : sample_world_type := with_metrics
  (m_inc subAccountProcessed ("true" :: shootValues (sample_record "sa-1" "shoot-a"))
    (m_inc subAccountProcessed ("true" :: shootValues (sample_record "sa-2" "shoot-z")) ∅)) sample_before.

Lemma populate_clears_metrics_witness : ∃ w',
  run sample_env (populateCacheAndQueue sample_process sample_answer) metered_before = (Returned (), w') ∧
  m_get subAccountProcessed ("true" :: shootValues (sample_record "sa-1" "shoot-a")) (w_metrics w') = None.
Proof.
  destruct (populate_clears_metrics sample_env sample_process sample_answer metered_before)
    as (w' & Hrun & Hclear & _).
  exists w'. split; [exact Hrun|]. apply (Hclear "sa-1" (sample_record "sa-1" "shoot-a")).
  - reflexivity.
  - assert (Hw : w' = (run sample_env (populateCacheAndQueue sample_process sample_answer) metered_before).2)
      by (rewrite Hrun; reflexivity).
    rewrite Hw. vm_compute. discriminate.
  - split; [vm_decide|]. vm_decide.
Defined.

Lemma deleteMetrics_exact_witness : ∃ r',
  run sample_env (deleteMetrics (sample_record "sa-1" "shoot-a")) metered_before =
    (Returned true, with_metrics r' metered_before) ∧
  m_get subAccountProcessed ("true" :: shootValues (sample_record "sa-1" "shoot-a")) r' = None ∧
  is_Some (m_get subAccountProcessed ("true" :: shootValues (sample_record "sa-2" "shoot-z")) r').
Proof.
  destruct (deleteMetrics_exact sample_env (sample_record "sa-1" "shoot-a") metered_before)
    as (b & r' & Hrun & Hgone & Hkept & Hb).
  assert (Hs : series_of (sample_record "sa-1" "shoot-a") subAccountProcessed
    ("true" :: shootValues (sample_record "sa-1" "shoot-a"))).
  { split; vm_decide. }
  exists r'. split; [|split; [exact (Hgone _ _ Hs)|]].
  - rewrite Hrun. f_equal. f_equal. apply Hb. do 2 eexists. split; [exact Hs|].
    vm_decide.
  - rewrite Hkept; [vm_decide|].
    intros [_ Hm]. revert Hm. vm_decide.
Defined.
