(* ===== verification/QueueSpec.v ===== *)
(** * QueueSpec: what processing one queue item does

    [processSubAccountID] on every branch, for any collector, kubeconfig provider and
    client factory that return and leave cache and queue alone. *)
From S2P Require Import Prelude GoStd GoFloat Resource Tracing PvcScan ClusterTracking Effects Libraries Clients Process.
From S2P Require Import Samples ProcessSpec.
Local Open Scope Z_scope.
Local Open Scope list_scope.

Section queue.
Context {QA : QuantityApi} {S : Type} {SS : SortSlice}.
Context {C Q M T : Type} {GC : GoCache (obj S) C} {WQ : WorkQueue Q} {PM : Prometheus M} {TC : TtlCache T}.
Context {GCL : GoCacheLaws (obj S) C} {WQL : WorkQueueLaws Q} {PML : PrometheusLaws M}.
Context {CS : CollectorSender S} {CP : ConfigProvider S} {CF : ClientFactory S}.
Context (env : Env).
Implicit Types w : world C Q M T.

Lemma handleError_run p rec x j err w : ∃ w',
  run env (handleError p (Some rec) x j err) w = (Returned (), w') ∧
  w_cache w' = w_cache w ∧ w_queue w' = q_add_after x (ScrapeInterval p) (w_queue w).
Proof. eexists. by split. Qed.

(** From the collector's answer on. *)
Lemma collectWith_run p rec x j clients w w1 scans err :
  run env (CollectAndSend Background (runtimeInfo rec) clients (ScanMap rec)) w = (Returned (scans, err), w1) → ∃ w',
  run env (collectWith p rec x j clients) w = (Returned (bool_decide (err = None)), w') ∧
  match err with
  | None => w_cache w' = cache_set (Effects.SubAccountID rec) (ObjRecord (with_ScanMap rec scans)) (w_cache w1) ∧
            w_queue w' = w_queue w1
  | Some _ => w_cache w' = w_cache w1 ∧ w_queue w' = q_add_after x (ScrapeInterval p) (w_queue w1)
  end.
Proof.
  intros Hrun. unfold collectWith. rewrite run_defer_eq, run_bind, Hrun. destruct err as [e|].
  - eexists. by repeat split.
  - eexists. by repeat split.
Qed.

(** When a cached sub-account is processed and its clients could be created, the
    collector's answer decides: after success the record with the new scans replaces
    the cached one and the item is to be requeued by the worker; after an error the
    cache keeps the record with its previous scans and the item is requeued after the scrape
    interval. *)
Theorem processSubAccountID_collects p x j rec w w1 w3 w4 kubeConfig restConfig clients scans err :
  cache_get x (w_cache w) = Some (ObjRecord rec) →
  run env (ConfigProvider_Get (Effects.RuntimeID rec)) (later 2 w) = (Returned (inl kubeConfig), w1) →
  env _ (RESTConfigFromKubeConfig kubeConfig) (w_tick w1) = inl restConfig →
  run env (NewClients restConfig) (tick (RESTConfigFromKubeConfig kubeConfig) w1) = (Returned (inl clients), w3) →
  run env (CollectAndSend Background (runtimeInfo rec) clients (ScanMap rec)) w3 = (Returned (scans, err), w4) → ∃ w',
  run env (processSubAccountID p x j) w = (Returned (bool_decide (err = None)), w') ∧
  match err with
  | None => w_cache w' = cache_set (Effects.SubAccountID rec) (ObjRecord (with_ScanMap rec scans)) (w_cache w4) ∧
            w_queue w' = w_queue w4
  | Some _ => w_cache w' = w_cache w4 ∧ w_queue w' = q_add_after x (ScrapeInterval p) (w_queue w4)
  end.
Proof.
  intros Hget Hkc Hrest Hcl Hcol. unfold processSubAccountID. rewrite run_logf_bind, run_call_bind. cbn [handle_eff fst snd]. change (w_cache (later 1 w)) with (w_cache w).
  rewrite Hget. unfold processRecord. rewrite run_logf_bind. change (later 1 (later 1 w)) with (later 2 w).
  rewrite run_bind, Hkc, run_bind, run_ext, Hrest, run_bind, Hcl.
  by apply collectWith_run.
Qed.

(** A cached object that is not a record makes the worker panic: [handleError] is
    called with a nil record and dereferences it after requeueing the item.  (The
    invariant of Concurrency.v shows that such an object is never cached.) *)
Theorem processSubAccountID_bad_cast_panics p x j w : cache_get x (w_cache w) = Some ObjOther → ∃ msg w',
  run env (processSubAccountID p x j) w = (Panicked msg, w') ∧
  w_queue w' = q_add_after x (ScrapeInterval p) (w_queue w).
Proof.
  intros Hget. do 2 eexists. unfold processSubAccountID. rewrite run_logf_bind, run_call_bind. cbn [handle_eff fst snd]. change (w_cache (later 1 w)) with (w_cache w).
  cbn [later w_cache]. rewrite Hget. by split.
Qed.

Context {CSL : CollectorSenderLaws S} {CPL : ConfigProviderLaws S} {CFL : ClientFactoryLaws S}.

(** What processing a cached record amounts to. *)
Definition processed (p : Process) (x : string) (rec : CacheRecord S) (requeue : bool) w w' : Prop :=
  if requeue
  then (∃ scans, w_cache w' = cache_set (Effects.SubAccountID rec) (ObjRecord (with_ScanMap rec scans)) (w_cache w)) ∧
       w_queue w' = w_queue w
  else w_cache w' = w_cache w ∧ w_queue w' = q_add_after x (ScrapeInterval p) (w_queue w).

Lemma failed_run p rec x j err w0 w : w_cache w = w_cache w0 → w_queue w = w_queue w0 → ∃ requeue w',
  run env (handleError p (Some rec) x j err;; mret false) w = (Returned requeue, w') ∧ processed p x rec requeue w0 w'.
Proof. intros Hc Hq. exists false. eexists. split; [reflexivity|]. unfold processed. simpl. by rewrite Hc, Hq. Qed.

Lemma processRecord_run p rec x j w : ∃ requeue w',
  run env (processRecord p rec x j) w = (Returned requeue, w') ∧ processed p x rec requeue w w'.
Proof.
  unfold processRecord. rewrite run_logf_bind.
  destruct (run_quiet env (ConfigProvider_Get (Effects.RuntimeID rec)) (later 1 w)) as ([kc|e] & w1 & Hrun1 & Hc1 & Hq1);
    [apply ConfigProvider_Get_quiet|rewrite run_bind, Hrun1..]; [|by apply failed_run].
  rewrite run_bind, run_ext.
  destruct (env _ (RESTConfigFromKubeConfig kc) (w_tick w1)) as [rc|e]; [|by apply failed_run].
  destruct (run_quiet env (NewClients rc) (tick (RESTConfigFromKubeConfig kc) w1))
    as ([cl|e] & w3 & Hrun3 & Hc3 & Hq3);
    [apply NewClients_quiet|rewrite run_bind, Hrun3..]; simpl in Hc1, Hq1, Hc3, Hq3;
    [|apply failed_run; congruence].
  destruct (run_quiet env (CollectAndSend Background (runtimeInfo rec) cl (ScanMap rec)) w3)
    as ([scans err] & w4 & Hrun4 & Hc4 & Hq4); [apply CollectAndSend_quiet|].
  destruct (collectWith_run p rec x j cl _ _ _ _ Hrun4) as (w' & Hrun & Hw').
  exists (bool_decide (err = None)), w'. split; [done|]. unfold processed. destruct err as [e|]; simpl.
  - destruct Hw' as [-> ->]. by rewrite Hc4, Hc3, Hc1, Hq4, Hq3, Hq1.
  - destruct Hw' as [-> ->]. rewrite Hc4, Hc3, Hc1, Hq4, Hq3, Hq1. eauto.
Qed.

(** Two records of the same runtime, with possibly other scans. *)
Definition same_runtime (rec rec' : CacheRecord S) : Prop := rec' = with_ScanMap rec (ScanMap rec').

(** C27 -- Processing a queue item never panics and never loses a cluster: a worker that
    took [x] returns with [x] released; [x] is scheduled again if it is still cached, and
    was dropped from the rotation only if the poller removed it; no other entry of the
    cache changes, and that of [x] only in its scans. *)
Theorem executeItem_reschedules p x j w : cache_ok (w_cache w) → ∃ w',
  run env (executeItem p x j) w = (Returned (), w') ∧ cache_ok (w_cache w') ∧
  q_processing (w_queue w') = q_processing (w_queue w) ∖ {[x]} ∧
  q_pending (w_queue w') = (if decide (is_Some (cache_get x (w_cache w))) then {[x]} else ∅) ∪ q_pending (w_queue w) ∧
  ∀ y, match cache_get y (w_cache w) with
       | Some (ObjRecord rec) => ∃ rec', cache_get y (w_cache w') = Some (ObjRecord rec') ∧
                                   same_runtime rec rec' ∧ (y ≠ x → rec' = rec)
       | o => cache_get y (w_cache w') = o
       end.
Proof.
  intros Hok. unfold executeItem, processSubAccountID. pose proof (Hok x) as Hx.
  rewrite run_bind, run_logf_bind, run_call_bind. cbn [handle_eff fst snd]. change (w_cache (later 1 w)) with (w_cache w).
  destruct (cache_get x (w_cache w)) as [[rec|]|] eqn:Hget; simpl in Hx; [|done|].
  - destruct (processRecord_run p rec x j (later 1 w)) as (requeue & w1 & -> & Hw1). rewrite run_call_bind. cbn [handle_eff fst snd].
    rewrite decide_True by eauto. change (processed p x rec requeue w w1) in Hw1. unfold processed in Hw1. destruct requeue.
    + destruct Hw1 as [[scans Hc] Hq]. eexists. split; [reflexivity|]. simpl. rewrite Hc, Hq. subst x. split_and!.
      * intros y. specialize (Hok y). rewrite cache_get_set. case_decide; [by subst|done].
      * by rewrite q_processing_add_after, q_processing_done.
      * by rewrite q_pending_add_after, q_pending_done.
      * intros y. rewrite cache_get_set. case_decide as Hy.
        { subst y. rewrite Hget. eexists. split_and!; [done..|]. done. }
        destruct (cache_get y (w_cache w)) as [[rec'|]|]; [|done..].
        exists rec'. split_and!; [done| |done]. by destruct rec'.
    + destruct Hw1 as [Hc Hq]. eexists. split; [reflexivity|]. simpl. rewrite Hc, Hq. split_and!.
      * done.
      * by rewrite q_processing_done, q_processing_add_after.
      * by rewrite q_pending_done, q_pending_add_after.
      * intros y. destruct (cache_get y (w_cache w)) as [[rec'|]|]; [|done..].
        exists rec'. split_and!; [done| |done]. by destruct rec'.
  - rewrite decide_False by (by intros []). eexists. split; [reflexivity|]. simpl. split_and!.
    + done.
    + apply q_processing_done.
    + rewrite q_pending_done. set_solver.
    + intros y. destruct (cache_get y (w_cache w)) as [[rec'|]|]; [|done..].
      exists rec'. split_and!; [done| |done]. by destruct rec'.
Qed.
End queue.

(** ** Concrete runs *)

Definition sample_item : sample_world_type := cached_world [("sa-1", "shoot-a")].

Lemma processSubAccountID_collects_witness :
  cache_get "sa-1" (w_cache sample_item) = Some (ObjRecord (sample_record "sa-1" "shoot-a")) ∧ ∃ w',
  run sample_env (processSubAccountID sample_process "sa-1" 0) sample_item = (Returned true, w') ∧
  cache_get "sa-1" (w_cache w') =
    Some (ObjRecord (with_ScanMap (sample_record "sa-1" "shoot-a") {["node" := tt]})).
Proof.
  split; [reflexivity|].
  pose (rec := sample_record "sa-1" "shoot-a").
  pose (w1 := (run sample_env (ConfigProvider_Get (Effects.RuntimeID rec)) (later 2 sample_item)).2).
  pose (w3 := (run sample_env (NewClients sample_rest) (tick (RESTConfigFromKubeConfig "content of kubeconfig-r-sa-1") w1)).2).
  pose (w4 := (run sample_env (CollectAndSend Background (runtimeInfo rec) sample_clients (ScanMap rec)) w3).2).
  destruct (processSubAccountID_collects sample_env sample_process "sa-1" 0 rec sample_item w1 w3 w4
    "content of kubeconfig-r-sa-1" sample_rest sample_clients {["node" := tt]} None) as (w' & Hrun & Hc & _);
    [reflexivity..|].
  exists w'. split; [exact Hrun|]. rewrite Hc. vm_compute. reflexivity.
Defined.

Definition bad_item : sample_world_type := with_cache {["sa-1" := ObjOther]} sample_item.

Lemma processSubAccountID_bad_cast_panics_witness : ∃ msg w',
  run sample_env (processSubAccountID sample_process "sa-1" 0) bad_item = (Panicked msg, w').
Proof.
  destruct (processSubAccountID_bad_cast_panics sample_env sample_process "sa-1" 0 bad_item) as (msg & w' & Hrun & _);
    [reflexivity|].
  exists msg, w'. exact Hrun.
Defined.

Lemma executeItem_reschedules_witness : cache_ok (w_cache sample_before) ∧ ∃ w',
  run sample_env (executeItem sample_process "sa-2" 0) sample_before = (Returned (), w') ∧
  "sa-2" ∈ q_pending (w_queue w').
Proof.
  split; [exact sample_before_ok|].
  destruct (executeItem_reschedules sample_env sample_process "sa-2" 0 sample_before sample_before_ok)
    as (w' & Hrun & _ & _ & Hq & _).
  exists w'. split; [exact Hrun|]. rewrite Hq. vm_decide.
Defined.
