(* ===== verification/KubeconfigProvider.v ===== *)
(** * KubeconfigProvider: cached kubeconfigs ([pkg/runtime/kubeconfigprovider/kubeconfig.go])

    The provider keeps the kubeconfigs it read from secrets in a cache whose entries live for a
    random time.  The cache ([w_kube]) is shared by all workers; each of its calls, the lookup of a secret
    and the random number are effects of their own, so that workers may interleave between them.  Times
    and durations are nanoseconds. *)
From S2P Require Import Prelude GoStd GoFloat Rfc3339 Logger Resource PvcScan ClusterTracking Effects Libraries Clients Process Samples.
Local Open Scope Z_scope.
Local Open Scope list_scope.

Definition Minute : Z := 60 * 10 ^ 9.
Definition ErrNotFound : error := Sentinel "kubeconfigprovider.ErrNotFound" "item not found in cache".
Definition kcpNamespace : string := "kcp-system".
Definition kubconfigSecretPrefix : string := "kubeconfig-".

(** The name [main] gives the cache. *)
Definition kubeconfigProviderName : string := "kubeconfig".

(** [Duration.Minutes]. *)
Definition Minutes (d : Z) : float64 :=
  fadd (float64_of_int64 (Z.quot d Minute)) (fdiv (float64_of_int64 (Z.rem d Minute)) (float64_of_int64 Minute)).

(** The constant [0.3]. *)
Definition jitterFactor : float64 := S754_finite false 5404319552844595 (-54).

(** The fields that configure the provider; the cache and the client of the control plane belong to the
    world, and the logger is the base logger of [main]. *)
Record KubeconfigProvider := { kp_ttl : Z; kp_name : string }.

Definition New (ttl : Z) (name : string) : KubeconfigProvider := {| kp_ttl := ttl; kp_name := name |}.

(** ** The code *)

Section provider.
Context {QA : QuantityApi} {S : Type}.

(** [rand.Int63n] *)
Definition rand_Int63n (n : Z) : prog S Z :=
  if decide (n ≤ 0) then Panic "invalid argument to Int63n" else ext (Int63n n).

(** What the jitter is drawn below. *)
Definition jitterBuffer (ttl : Z) : Z := int64_of_float64 (fmul (Minutes ttl) jitterFactor).

Definition getJitterTTL (ttl : Z) : prog S Z :=
  if decide (ttl < 3 * Minute) then mret ttl else
  r ← rand_Int63n (jitterBuffer ttl);
  let jitter := add64 r (int64_of_float64 (Minutes ttl)) in
  mret (mul64 jitter Minute).

(** Which entry is written about a secret that could not be read. *)
Definition logSecretError (runtimeID secretResourceName : string) (err : ApiError) : prog S unit :=
  let args := [ArgString secretResourceName; ArgString runtimeID; ArgError (apiErr err)] in
  if isNotFound err then
    logf LDebug NewLogger "kubeconfig provider cannot find kubeconfig-secret '%s' for runtimeID %s: %v" args
  else if isForbidden err then
    logf LError NewLogger "kubeconfig provider is not allowed to lookup kubeconfig-secret '%s' for runtimeID %s: %v" args
  else
    logf LError NewLogger "kubeconfig provider failed to lookup kubeconfig-secret '%s' for runtimeID %s: %v" args.

Definition getKubeConfigSecret (runtimeID secretResourceName : string) : prog S (Secret + error) :=
  secret ← ext (GetSecret kcpNamespace secretResourceName);
  match secret with
  | inr err => logSecretError runtimeID secretResourceName err;; mret (inr (apiErr err))
  | inl secret => mret (inl secret)
  end.

(** What [getKubeConfigFromSecret] makes of the answer. *)
Definition kubeConfigOf (runtimeID : string) (answer : Secret + error) : string + error :=
  let secretResourceName := kubconfigSecretPrefix +:+ runtimeID in
  match answer with
  | inr err => inr (wrapError ("failed to get secret: " +:+ Error err) err)
  | inl secret =>
      match Secret_Data secret !! "config" with
      | None => inr (errorString ("kubeconfig-secret '" +:+ secretResourceName +:+ "' for runtime '" +:+ runtimeID +:+
                       "' does not include the data-key 'config'"))
      | Some kubeconfig =>
          if decide (String.length kubeconfig = O) then
            inr (errorString ("kubeconfig-secret '" +:+ secretResourceName +:+ "' for runtime '" +:+ runtimeID +:+
                   "' includes an empty kubeconfig string"))
          else inl kubeconfig
      end
  end.

Definition getKubeConfigFromSecret (runtimeID : string) : prog S (string + error) :=
  answer ← getKubeConfigSecret runtimeID (kubconfigSecretPrefix +:+ runtimeID);
  mret (kubeConfigOf runtimeID answer).

(** [loaderFunc]: the value of the item that was stored, nothing if loading failed. *)
Definition loader (ttl : Z) (key : string) : prog S (option string) :=
  logf LInfo NewLogger "loading Kubeconfig for: %v" [ArgString key];;
  result ← getKubeConfigFromSecret key;
  match result with
  | inr err =>
      logf LError NewLogger "failed to get kubeconfig for runtimeID %s from secret: %s" [ArgString key; ArgError err];;
      mret None
  | inl kubeconfig =>
      logf LInfo NewLogger "storing Kubeconfig for: %v" [ArgString key];;
      d ← getJitterTTL ttl;
      call (Ttl (TtlSet key kubeconfig d));;
      mret (Some kubeconfig)
  end.

Definition recordMetrics (k : KubeconfigProvider) : prog S unit :=
  n ← call (Ttl TtlLen);
  call (MetricSet cacheSizeMetric [kp_name k] (float64_of_int64 n)).

(** [ttlcache.Cache.Get] of a cache with a loader, which is called for a missing entry. *)
Definition cache_Get (k : KubeconfigProvider) (key : string) : prog S (option string) :=
  item ← call (Ttl (TtlGet key));
  match item with
  | Some value => mret (Some value)
  | None => loader (kp_ttl k) key
  end.

Definition Get (k : KubeconfigProvider) (runtimeID : string) : prog S (string + error) :=
  call (Ttl TtlDeleteExpired);;
  recordMetrics k;;
  item ← cache_Get k runtimeID;
  match item with
  | Some value => mret (inl value)
  | None => mret (inr (wrapError (Error ErrNotFound +:+ ": " +:+ runtimeID) ErrNotFound))
  end.
End provider.

(** ** The jitter *)

(** The TTLs for which a kubeconfig can be stored. *)
Definition jitter_ok (ttl : Z) : Prop := ttl < 3 * Minute ∨ 0 < jitterBuffer ttl.
#[global] Instance jitter_ok_dec ttl : Decision (jitter_ok ttl).
Proof. unfold jitter_ok. apply _. Defined.

(** The lifetimes a TTL can result in: itself, or some whole number of minutes. *)
Definition jittered (ttl d : Z) : Prop :=
  if decide (ttl < 3 * Minute) then d = ttl else
  ∃ r, 0 ≤ r < jitterBuffer ttl ∧ d = mul64 (add64 r (int64_of_float64 (Minutes ttl))) Minute.

Lemma jittered_ok ttl d : jittered ttl d → jitter_ok ttl.
Proof. unfold jittered, jitter_ok. case_decide; [by left|]. intros (r & Hr & _). right. lia. Qed.

(** The TTLs whose float arithmetic is evaluated here: every whole second from 200 on up to an hour, and every whole
    minute up to a day.  The minutes are then rounded down, and the bound of the jitter is at most three tenths of the TTL. *)
Definition Second : Z := 10 ^ 9.
Definition checked_seconds : list Z := seqZ 200 3401 ++ ((λ m, 60 * m) <$> seqZ 4 1437).
Definition buffer_ok (sec : Z) : bool :=
  (0 <? jitterBuffer (sec * Second)) && (jitterBuffer (sec * Second) <=? sec / 200) &&
  (int64_of_float64 (Minutes (sec * Second)) =? sec / 60).

Lemma buffers_ok : forallb buffer_ok checked_seconds = true.
Proof. vm_compute. reflexivity. Qed.

Lemma buffer_bounds sec : sec ∈ checked_seconds →
  0 < jitterBuffer (sec * Second) ≤ sec / 200 ∧ int64_of_float64 (Minutes (sec * Second)) = sec / 60 ∧ 200 ≤ sec ≤ 86400.
Proof.
  intros Hin. assert (Hok : buffer_ok sec = true).
  { pose proof buffers_ok as Hall. rewrite forallb_forall in Hall. by apply Hall, list_elem_of_In. }
  unfold buffer_ok in Hok. split; [lia|]. split; [lia|]. apply elem_of_app in Hin as [Hin|Hin].
  - apply elem_of_seqZ in Hin. lia.
  - apply list_elem_of_fmap in Hin as (m & -> & Hm%elem_of_seqZ). lia.
Qed.

(** These, and any TTL below three minutes. *)
Definition usable_ttl (ttl : Z) : Prop := 0 < ttl < 3 * Minute ∨ ∃ sec, ttl = sec * Second ∧ sec ∈ checked_seconds.

(** What is left of a TTL when its seconds are dropped, as they are from three minutes on. *)
Definition whole_minutes (ttl : Z) : Z := if decide (ttl < 3 * Minute) then ttl else ttl / Minute * Minute.

Lemma usable_jitter ttl : usable_ttl ttl → jitter_ok ttl.
Proof. intros [Ht|(sec & -> & Hs)]; [left; lia|]. right. by apply buffer_bounds. Qed.

Lemma usable_jittered ttl d : usable_ttl ttl → jittered ttl d → 0 < whole_minutes ttl ≤ d ∧ 10 * d ≤ 13 * ttl.
Proof.
  unfold jittered, whole_minutes. intros [Ht|(sec & -> & Hs)]; [case_decide; lia|].
  destruct (buffer_bounds sec Hs) as (Hb & Hm & Hsec). case_decide as Hlt; [unfold Second, Minute in *; lia|].
  intros (r & Hr & ->). rewrite Hm. replace (sec * Second / Minute) with (sec / 60)
    by (unfold Second, Minute; rewrite Z.div_mul_cancel_r; lia).
  assert (H60 : 60 * (sec / 60) ≤ sec < 60 * (sec / 60) + 60) by (pose proof (Z.div_mod sec 60); pose proof (Z.mod_pos_bound sec 60); lia).
  assert (H200 : 200 * (sec / 200) ≤ sec) by (apply Z.mul_div_le; lia).
  rewrite add64_id by (unfold in_int64, min_int64, max_int64; lia).
  rewrite mul64_id by (unfold in_int64, min_int64, max_int64, Minute; lia).
  unfold Minute, Second in *. lia.
Qed.

(** The TTLs for which a kubeconfig cannot be stored. *)
Lemma jitterBuffer_zero sec : 180 ≤ sec < 200 → jitterBuffer (sec * 10 ^ 9) = 0.
Proof.
  intros Hs. assert (Hall : forallb (λ s, jitterBuffer (s * 10 ^ 9) =? 0) (seqZ 180 20) = true) by (vm_compute; reflexivity).
  rewrite forallb_forall in Hall. apply Z.eqb_eq, Hall, list_elem_of_In, elem_of_seqZ. lia.
Qed.

(** ** Getting a kubeconfig *)

(** The random numbers are in range and time does not run backwards. *)
Record runtime_ok {QA : QuantityApi} (env : Env) : Prop := {
  rand_range n t : 0 < n → 0 ≤ env _ (Int63n n) t < n;
  clock_mono t t' : (t ≤ t')%nat → env _ Clock t ≤ env _ Clock t';
}.

Section facts.
Context {QA : QuantityApi} {S C Q M T : Type}.
Context {GC : GoCache (obj S) C} {WQ : WorkQueue Q} {PM : Prometheus M} {TC : TtlCache T} {TCL : TtlCacheLaws T}.
Context (env : Env).
Implicit Types w : world C Q M T.

(** The provider is one in the sense of [process]: it returns, and leaves the cache of clusters and
    the queue alone. *)
Lemma logSecretError_only (P : ∀ X, eff S X → Prop) runtimeID name err :
  (∀ entry, worker_entry entry = false → P unit (Ext (Log entry))) → only P (logSecretError (S := S) runtimeID name err).
Proof. intros Hlog. unfold logSecretError. destruct (isNotFound err), (isForbidden err); (split; [by apply Hlog|done]). Qed.

Lemma Get_only (P : ∀ X, eff S X → Prop) k runtimeID :
  (∀ X (op : ttl_op X), P X (Ttl op)) → (∀ n, P Z (Ext (Int63n n))) →
  (∀ ns name, P (Secret + ApiError)%type (Ext (GetSecret ns name))) → (∀ ls v, P unit (MetricSet cacheSizeMetric [ls] v)) →
  (∀ entry, worker_entry entry = false → P unit (Ext (Log entry))) →
  jitter_ok (kp_ttl k) → only P (Get (S := S) k runtimeID).
Proof.
  intros Httl Hrand Hsec Hmet Hlog Hj. unfold Get. apply only_bind; [done|]. intros [].
  apply only_bind; [by split|]. intros []. apply only_bind; [|by intros []].
  split; [done|]. intros [v|]; [done|]. apply only_bind; [by split; [apply Hlog|]|]. intros [].
  apply only_bind.
  - apply only_bind; [|done]. split; [done|]. intros [secret|err]; [done|]. by apply only_bind; [apply logSecretError_only|].
  - intros [kc|err]; [|split; [by apply Hlog|done]]. apply only_bind; [by split; [apply Hlog|]|]. intros [].
    apply only_bind; [|intros d; by split]. unfold getJitterTTL, rand_Int63n, jitter_ok in *.
    case_decide; [done|]. rewrite decide_False by lia. by split.
Qed.

Lemma getJitterTTL_run ttl w : runtime_ok env → jitter_ok ttl → ∃ d w',
  run env (getJitterTTL (S := S) ttl) w = (Returned d, w') ∧ jittered ttl d ∧ w_kube w' = w_kube w ∧ (w_tick w ≤ w_tick w')%nat.
Proof.
  intros Hok Hj. unfold getJitterTTL, jittered, rand_Int63n, jitter_ok in *. case_decide; [by exists ttl, w|].
  rewrite decide_False by lia. do 2 eexists. split; [reflexivity|]. split; [|simpl; split; [done|lia]].
  eexists. split; [|reflexivity]. apply (rand_range _ Hok). lia.
Qed.

(** The lifetime of a cached kubeconfig: a TTL below three minutes is used as it is; of a longer one the seconds are
    dropped, and it is prolonged by at most three tenths, whatever the random number. *)
Theorem getJitterTTL_bounds ttl w : runtime_ok env → usable_ttl ttl → ∃ d w',
  run env (getJitterTTL (S := S) ttl) w = (Returned d, w') ∧ whole_minutes ttl ≤ d ∧ 10 * d ≤ 13 * ttl.
Proof.
  intros Hok Httl. destruct (getJitterTTL_run ttl w Hok (usable_jitter _ Httl)) as (d & w' & Hrun & Hd & _).
  exists d, w'. split; [done|]. by destruct (usable_jittered ttl d Httl Hd) as [[_ ?] ?].
Qed.

(** Storing panics when the bound of the jitter is zero. *)
Lemma getJitterTTL_panics ttl w : ¬ jitter_ok ttl →
  run env (getJitterTTL (S := S) ttl) w = (Panicked "invalid argument to Int63n", w).
Proof. intros Hj. unfold getJitterTTL, rand_Int63n, jitter_ok in *. rewrite decide_False, decide_True by lia. done. Qed.

(** The answer for the runtime's secret holds this kubeconfig. *)
Definition holds_kubeconfig {E} (answer : Secret + E) (kubeconfig : string) : Prop :=
  ∃ secret, answer = inl secret ∧ Secret_Data secret !! "config" = Some kubeconfig ∧ kubeconfig ≠ "".

Lemma kubeConfigOf_spec runtimeID answer :
  match kubeConfigOf runtimeID answer with
  | inl kubeconfig => holds_kubeconfig answer kubeconfig
  | inr _ => ∀ kubeconfig, ¬ holds_kubeconfig answer kubeconfig
  end.
Proof.
  unfold kubeConfigOf, holds_kubeconfig. destruct answer as [secret|err]; [|naive_solver].
  destruct (Secret_Data secret !! "config") as [kc|] eqn:Hd; [|naive_solver]. case_decide as Hl.
  - destruct kc; [|done]. naive_solver.
  - exists secret. split_and!; [done..|]. by intros ->.
Qed.

(** The answer to the request for the runtime's secret, at some point of a run. *)
Definition secret_answer runtimeID w w' (answer : Secret + ApiError) : Prop :=
  ∃ t, (w_tick w ≤ t < w_tick w')%nat ∧ answer = env _ (GetSecret kcpNamespace (kubconfigSecretPrefix +:+ runtimeID)) t.

Lemma getKubeConfigFromSecret_run runtimeID w : ∃ answer r n,
  run env (getKubeConfigFromSecret (S := S) runtimeID) w = (Returned r, later (Datatypes.S n) w) ∧
  answer = env _ (GetSecret kcpNamespace (kubconfigSecretPrefix +:+ runtimeID)) (w_tick w) ∧
  match r with
  | inl kubeconfig => holds_kubeconfig answer kubeconfig
  | inr _ => ∀ kubeconfig, ¬ holds_kubeconfig answer kubeconfig
  end.
Proof.
  unfold getKubeConfigFromSecret, getKubeConfigSecret. rewrite !run_bind, run_ext. set (answer := env _ _ _). exists answer.
  destruct answer as [secret|err].
  - exists (kubeConfigOf runtimeID (inl secret)), 0%nat. split; [done|]. split; [done|].
    pose proof (kubeConfigOf_spec runtimeID (inl secret)) as Hspec. destruct (kubeConfigOf _ _); unfold holds_kubeconfig in *; naive_solver.
  - exists (kubeConfigOf runtimeID (inr (apiErr err))), 1%nat. split; [|split; [done|]; by intros kc (secret & [=] & _)].
    unfold logSecretError. by destruct (isNotFound err), (isForbidden err).
Qed.

(** The entries of the kubeconfig cache from [now] on are the same. *)
Definition same_entries (now : Z) (c c' : T) : Prop := ∀ t key, now ≤ t → tc_get t key c' = tc_get t key c.

(** What one call of [Get] did: it looked into the cache at [now]. *)
Record got (k : KubeconfigProvider) (runtimeID : string) (now : Z) (r : string + error) w w' : Prop := {
  got_now : clock env w ≤ now ≤ clock env w';
  got_hit kubeconfig : tc_get now runtimeID (w_kube w) = Some kubeconfig →
    r = inl kubeconfig ∧ same_entries now (w_kube w) (w_kube w');
  got_miss : tc_get now runtimeID (w_kube w) = None → ∃ answer, secret_answer runtimeID w w' answer ∧
    match r with
    | inl kubeconfig => holds_kubeconfig answer kubeconfig ∧
        ∃ stored d c, clock env w ≤ stored ≤ clock env w' ∧ jittered (kp_ttl k) d ∧ same_entries now (w_kube w) c ∧
          w_kube w' = tc_set stored runtimeID kubeconfig d c
    | inr err => errors_Is err "kubeconfigprovider.ErrNotFound" = true ∧
        (∀ kubeconfig, ¬ holds_kubeconfig answer kubeconfig) ∧ same_entries now (w_kube w) (w_kube w')
    end;
}.

(** A call that panicked: the kubeconfig was not cached, the secret holds one, and it cannot be stored. *)
Record got_panic (k : KubeconfigProvider) (runtimeID : string) (now : Z) w w' : Prop := {
  panic_missed : tc_get now runtimeID (w_kube w) = None;
  panic_loaded : ∃ answer kubeconfig, secret_answer runtimeID w w' answer ∧ holds_kubeconfig answer kubeconfig;
  panic_jitter : ¬ jitter_ok (kp_ttl k);
  panic_entries : same_entries now (w_kube w) (w_kube w');
}.

(** The call may have been made a little later. *)
Lemma got_later n k runtimeID now r w w' : runtime_ok env → got k runtimeID now r (later n w) w' → got k runtimeID now r w w'.
Proof.
  intros Hok [Hnow Hhit Hmiss]. assert (Hclk : clock env w ≤ clock env (later n w)) by (apply (clock_mono _ Hok); simpl; lia).
  split; [lia|exact Hhit|]. intros (answer & (t & Ht & Ha) & Hr)%Hmiss. exists answer. split; [exists t; simpl in Ht; split; [lia|done]|].
  destruct r as [kubeconfig|err]; [|exact Hr]. destruct Hr as (Hh & stored & d & c & Hst & Hrest). split; [done|].
  exists stored, d, c. split; [lia|exact Hrest].
Qed.

(** What the loader did. *)
Lemma loader_run ttl key w : runtime_ok env → ∃ answer o w',
  run env (loader (S := S) ttl key) w = (o, w') ∧ secret_answer key w w' answer ∧
  match o with
  | Returned (Some kubeconfig) => holds_kubeconfig answer kubeconfig ∧ ∃ stored d,
      clock env w ≤ stored ≤ clock env w' ∧ jittered ttl d ∧ w_kube w' = tc_set stored key kubeconfig d (w_kube w)
  | Returned None => (∀ kubeconfig, ¬ holds_kubeconfig answer kubeconfig) ∧ w_kube w' = w_kube w
  | Panicked _ => (∃ kubeconfig, holds_kubeconfig answer kubeconfig) ∧ ¬ jitter_ok ttl ∧ w_kube w' = w_kube w
  | Exited _ => False
  end.
Proof.
  intros Hok. unfold loader. rewrite run_logf_bind, run_bind.
  destruct (getKubeConfigFromSecret_run key (later 1 w)) as (answer & r & n & -> & Ha & Hr). exists answer.
  set (w1 := later (Datatypes.S n) (later 1 w)).
  assert (Hans : ∀ w', (w_tick w1 ≤ w_tick w')%nat → secret_answer key w w' answer).
  { intros w' Hw'. exists (w_tick (later 1 w)). simpl in *. split; [lia|done]. }
  destruct r as [kc|err].
  - rewrite run_logf_bind, run_bind. destruct (decide (jitter_ok ttl)) as [Hj|Hj].
    + destruct (getJitterTTL_run ttl (later 1 w1) Hok Hj) as (d & w2 & -> & Hd & Hk2 & Ht2). simpl in Ht2.
      do 2 eexists. split; [reflexivity|]. split; [apply Hans; simpl; lia|]. split; [done|].
      exists (clock env w2), d. split; [split; apply (clock_mono _ Hok); simpl; lia|]. split; [done|]. simpl. by rewrite Hk2.
    + rewrite getJitterTTL_panics by done. do 2 eexists. split; [reflexivity|]. split; [apply Hans; simpl; lia|]. by eauto.
  - do 2 eexists. split; [reflexivity|]. split; [apply Hans; simpl; lia|]. done.
Qed.

Lemma Get_outcome k runtimeID w : runtime_ok env → ∃ now o w',
  run env (Get (S := S) k runtimeID) w = (o, w') ∧
  match o with
  | Returned r => got k runtimeID now r w w'
  | Panicked _ => got_panic k runtimeID now w w'
  | Exited _ => False
  end.
Proof.
  intros Hok. set (c := tc_delete_expired (clock env w) (w_kube w)).
  set (now := env _ Clock (Datatypes.S (w_tick w))).
  set (w2 := with_metrics (m_set cacheSizeMetric [kp_name k] (float64_of_int64 (tc_len c)) (w_metrics w)) (with_kube c (tick Clock w))).
  assert (Hclk : clock env w ≤ now) by (apply (clock_mono _ Hok); lia).
  assert (Hc : same_entries now (w_kube w) c) by (intros t key Ht; apply tc_get_delete_expired; lia).
  assert (Hget : run env (Get (S := S) k runtimeID) w = run env
    (item ← match tc_get now runtimeID c with Some v => mret (Some v) | None => loader (kp_ttl k) runtimeID end;
     mret (match item with Some v => inl v | None => inr (wrapError (Error ErrNotFound +:+ ": " +:+ runtimeID) ErrNotFound) end))
    (tick Clock w2)).
  { unfold Get. rewrite run_call_bind. unfold recordMetrics. rewrite run_bind. change (run env _ _) with (Returned tt, w2) at 1.
    cbv iota beta. unfold cache_Get. rewrite !run_bind. rewrite run_call. cbn [fst snd].
    change (handle_eff env (Ttl (TtlGet runtimeID)) w2) with (tc_get now runtimeID c, tick Clock w2 : world C Q M T). cbn [fst snd].
    destruct (run env _ (tick Clock w2)) as [[[v|]|msg|msg] w']; reflexivity. }
  exists now. rewrite Hget, (Hc now runtimeID) by lia. rewrite run_bind.
  destruct (tc_get now runtimeID (w_kube w)) as [v|] eqn:Hv.
  - do 2 eexists. split; [reflexivity|]. split; [|intros kc ?; split; [congruence|done]|congruence].
    split; [done|]. apply (clock_mono _ Hok). simpl. lia.
  - destruct (loader_run (kp_ttl k) runtimeID (tick Clock w2) Hok) as (answer & o & w' & Hrun & (t & Ht & Hans) & Hr).
    assert (Hsec : secret_answer runtimeID w w' answer) by (exists t; simpl in Ht; split; [lia|done]).
    rewrite Hrun. destruct o as [r|msg|msg]; (do 2 eexists; split; [reflexivity|]); [| |done].
    + split; [|congruence|].
      * split; [done|]. apply (clock_mono _ Hok). simpl in Ht. lia.
      * intros _. exists answer. split; [done|]. destruct r as [kc|].
        -- destruct Hr as [Hkc (stored & d & Hst & Hd & Hw')]. split; [done|]. exists stored, d, c.
           split; [|done]. split; [|lia]. etrans; [exact Hclk|]. etrans; [|apply Hst]. apply (clock_mono _ Hok). simpl. lia.
        -- destruct Hr as [Hno ->]. done.
    + destruct Hr as ([kc Hkc] & Hj & Hw'). split; [done|by exists answer, kc|done|]. by rewrite Hw'.
Qed.

Lemma Get_run k runtimeID w : runtime_ok env → jitter_ok (kp_ttl k) → ∃ now r w',
  run env (Get (S := S) k runtimeID) w = (Returned r, w') ∧ got k runtimeID now r w w'.
Proof.
  intros Hok Hj. destruct (Get_outcome k runtimeID w Hok) as (now & [r|msg|msg] & w' & Hrun & Hgot); [by eauto| |done].
  by destruct (panic_jitter _ _ _ _ _ Hgot).
Qed.

(** C36 -- What [Get] does, in any state of the shared cache and for any TTL: it returns the cached kubeconfig if there is a
    live one, otherwise that of the runtime's secret, which is stored for the jittered TTL; if the secret cannot be
    read, has no [config] key or an empty one, an error that is [ErrNotFound].  Nothing else changes in the cache that a
    later call could see.  It panics exactly if there is a kubeconfig to store and the bound of the jitter is not
    positive; nothing is stored then. *)
Theorem Get_spec k runtimeID w : runtime_ok env → ∃ now o w',
  run env (Get (S := S) k runtimeID) w = (o, w') ∧
  match o with
  | Returned r => got k runtimeID now r w w'
  | Panicked _ => got_panic k runtimeID now w w'
  | Exited _ => False
  end.
Proof. apply Get_outcome. Qed.

(** C37 -- A kubeconfig that was loaded is served from the cache for at least the TTL without the seconds that [getJitterTTL]
    drops from three minutes on, whatever happens to the secret meanwhile, and not beyond 1.3 times the TTL: after that the
    next [Get] reads the secret again.  Between the two calls others may use the cache, as long as they leave this
    entry alone.  The TTL is below three minutes, a whole number of seconds from 200 up to an hour, or a whole number of
    minutes up to a day. *)
Theorem Get_caches k runtimeID kubeconfig w w1 w2 r w3 : runtime_ok env → usable_ttl (kp_ttl k) →
  (∀ now, clock env w ≤ now → tc_get now runtimeID (w_kube w) = None) →
  run env (Get (S := S) k runtimeID) w = (Returned (inl kubeconfig), w1) →
  (∀ t, clock env w2 ≤ t → tc_get t runtimeID (w_kube w2) = tc_get t runtimeID (w_kube w1)) → (w_tick w1 ≤ w_tick w2)%nat →
  run env (Get (S := S) k runtimeID) w2 = (Returned r, w3) →
  (clock env w3 < clock env w + whole_minutes (kp_ttl k) → r = inl kubeconfig) ∧
  (10 * clock env w1 + 13 * kp_ttl k < 10 * clock env w2 → ∃ answer, secret_answer runtimeID w2 w3 answer ∧
     match r with
     | inl kubeconfig' => holds_kubeconfig answer kubeconfig'
     | inr _ => ∀ kubeconfig', ¬ holds_kubeconfig answer kubeconfig'
     end).
Proof.
  intros Hok Httl Hmiss Hrun1 Hsame Ht Hrun2. pose proof (usable_jitter _ Httl) as Hj.
  destruct (Get_run k runtimeID w Hok Hj) as (now1 & r1 & w1' & Hr1 & Hg1). rewrite Hrun1 in Hr1. injection Hr1 as <- <-.
  destruct (Get_run k runtimeID w2 Hok Hj) as (now2 & r2 & w3' & Hr2 & Hg2). rewrite Hrun2 in Hr2. injection Hr2 as <- <-.
  destruct (got_miss _ _ _ _ _ _ Hg1) as (a1 & _ & _ & stored & d & c & Hst & Hd & _ & Hk1); [apply Hmiss, Hg1|].
  pose proof (clock_mono _ Hok _ _ Ht) as H12. fold (clock env w1) (clock env w2) in H12.
  pose proof (got_now _ _ _ _ _ _ Hg1) as Hn1. pose proof (got_now _ _ _ _ _ _ Hg2) as Hn2.
  destruct (usable_jittered _ _ Httl Hd) as [Hleast Hmost].
  pose proof (Hsame now2 ltac:(lia)) as Hget. rewrite Hk1 in Hget. split; intros Hclk.
  - apply (got_hit _ _ _ _ _ _ Hg2). rewrite Hget. apply tc_get_live. lia.
  - destruct (got_miss _ _ _ _ _ _ Hg2) as (answer & Ha & Hr); [rewrite Hget; apply tc_get_expired; lia|].
    exists answer. split; [done|]. destruct r; naive_solver.
Qed.
End facts.

(** ** Concrete calls *)

(** The default TTL. *)
Definition DefaultKubeconfigCacheTTL : Z := 30 * Minute.
Definition sample_provider : KubeconfigProvider := New DefaultKubeconfigCacheTTL kubeconfigProviderName.

Lemma default_usable : usable_ttl DefaultKubeconfigCacheTTL.
Proof. right. exists 1800. split; [reflexivity|]. apply elem_of_app. left. apply elem_of_seqZ. lia. Qed.

Lemma default_jitter : jitter_ok DefaultKubeconfigCacheTTL.
Proof. apply usable_jitter, default_usable. Qed.

Lemma sample_runtime_ok : runtime_ok sample_env.
Proof. split; cbn; intros; lia. Qed.

Lemma getJitterTTL_bounds_witness : ∃ d w',
  run sample_env (getJitterTTL (S := unit) DefaultKubeconfigCacheTTL) empty_world = (Returned d, w') ∧
  whole_minutes DefaultKubeconfigCacheTTL ≤ d ∧ 10 * d ≤ 13 * DefaultKubeconfigCacheTTL.
Proof. exact (getJitterTTL_bounds sample_env DefaultKubeconfigCacheTTL empty_world sample_runtime_ok default_usable). Defined.

Lemma Get_spec_witness : ∃ w',
  run sample_env (Get (S := unit) sample_provider "r-1") empty_world = (Returned (inl "content of kubeconfig-r-1"), w').
Proof.
  destruct (Get_spec (S := unit) sample_env sample_provider "r-1" empty_world sample_runtime_ok)
    as (now & o & w' & Hrun & Hgot).
  exists w'. rewrite Hrun. f_equal. destruct o as [r|msg|msg]; [f_equal| |destruct Hgot].
  - destruct (got_miss _ _ _ _ _ _ _ Hgot eq_refl) as (answer & (t & _ & ->) & Hr). destruct r as [kc|err].
    + destruct Hr as [(secret & [= <-] & Hd & _) _]. vm_compute in Hd. congruence.
    + destruct Hr as (_ & Hno & _). exfalso. apply (Hno "content of kubeconfig-r-1"). eexists. split_and!; [reflexivity..|discriminate].
  - exfalso. apply (panic_jitter _ _ _ _ _ _ Hgot). apply usable_jitter, default_usable.
Defined.

(** The secrets are gone. *)
Definition no_secrets (t0 : nat) : Env := λ X q t,
  match q in request X return X with
  | GetSecret ns name => if decide (t < t0)%nat then sample_env _ (GetSecret ns name) t else inr {| ReasonForError := StatusReasonNotFound; apiErr := errorString "not found" |}
  | q => sample_env _ q t
  end.
Lemma no_secrets_ok t0 : runtime_ok (no_secrets t0).
Proof. split; cbn; intros; lia. Qed.

Lemma Get_caches_witness :
  (run (no_secrets 10) (Get (S := unit) sample_provider "r-1" ;; Get (S := unit) sample_provider "r-1") empty_world).1 =
    Returned (inl "content of kubeconfig-r-1").
Proof.
  assert (Hval : (run (no_secrets 10) (Get (S := unit) sample_provider "r-1") empty_world).1 =
    Returned (inl "content of kubeconfig-r-1")) by (vm_compute; reflexivity).
  assert (Hclk : clock (no_secrets 10) (run (no_secrets 10) (Get (S := unit) sample_provider "r-1" ;;
    Get (S := unit) sample_provider "r-1") empty_world).2 < clock (no_secrets 10) empty_world + whole_minutes (kp_ttl sample_provider))
    by (vm_compute; reflexivity).
  rewrite run_bind in Hclk |- *.
  destruct (run (no_secrets 10) (Get (S := unit) sample_provider "r-1") empty_world) as [o w1] eqn:Hrun1.
  cbn [fst] in Hval. subst o. cbv iota beta in Hclk |- *.
  destruct (Get_run (S := unit) (no_secrets 10) sample_provider "r-1" w1 (no_secrets_ok 10) (usable_jitter _ default_usable))
    as (now & r & w3 & Hrun2 & _).
  rewrite Hrun2 in Hclk |- *. cbn [fst snd] in *.
  assert (Hmiss : ∀ now, clock (no_secrets 10) empty_world ≤ now → tc_get now "r-1" (w_kube empty_world) = None) by done.
  destruct (Get_caches (S := unit) (no_secrets 10) sample_provider "r-1" "content of kubeconfig-r-1" empty_world w1 w1 r w3
    (no_secrets_ok 10) default_usable Hmiss Hrun1 (λ t _, eq_refl) (le_n _) Hrun2) as [Hlive _].
  by rewrite (Hlive Hclk).
Defined.
