(* ===== verification/Concurrency.v ===== *)
(** * Concurrency: the poller and the workers together ([Process.Start])

    [Start] runs one goroutine polling KEB and [WorkersPoolSize] workers, which share
    the cache, the queue and the metrics.  Here thread 0 is the poller and the others
    are workers; a step is one effect of one thread, so every interleaving of the
    calls of the shared libraries (each of which takes its own lock) is covered. *)
From S2P Require Import Prelude GoStd GoFloat Resource PvcScan ClusterTracking Effects Libraries Clients Process.
From S2P Require Import Samples ProcessSpec QueueSpec.
Local Open Scope Z_scope.
Local Open Scope list_scope.

(** ** Threads *)

(** The rest of a loop iteration, the queue item the thread took for it, and the same until the item is marked
    as done. *)
Record thread {QA : QuantityApi} {S : Type} := { th_prog : prog S unit; th_item : option string; th_held : option string }.
#[global] Arguments thread {QA} S.

Record system {QA : QuantityApi} {S C Q M T : Type} := {
  sys_world : world C Q M T;
  sys_threads : list (option (thread S));   (** [None]: between two iterations *)
}.
#[global] Arguments system {QA} S C Q M T.

(** [QueueDone] ends the possession of the item. *)
Definition release {QA : QuantityApi} {S X} (held : option string) (e : eff S X) : option string :=
  match e with QueueDone _ => None | _ => held end.

Section system.
Context {QA : QuantityApi} {S : Type} {SS : SortSlice}.
Context {C Q M T : Type} {GC : GoCache (obj S) C} {WQ : WorkQueue Q} {PM : Prometheus M} {TC : TtlCache T}.
Context {CS : CollectorSender S} {CP : ConfigProvider S} {CF : ClientFactory S}.
Context (env : Env) (p : Process).

(** Worker [j] of [Start] is thread [j + 1].  [Start] itself returns: nothing is added to the group it waits for. *)
Definition identifier (i : nat) : Z := Z.of_nat i - 1.

Inductive action :=
| Poll (answer : RuntimesPage + error)     (** [GetAllRuntimes] answered the poller *)
| Take (i : nat)                           (** [Queue.Get] answered worker [i] *)
| Effect (i : nat)                         (** thread [i] performs its next call *)
| Finish (i : nat)                         (** thread [i] ends its iteration *)
| Elapse (d : Z).                          (** time passes for the delaying queue *)

Definition set_thread (i : nat) (t : option (thread S)) (w : world C Q M T) (s : system S C Q M T) : system S C Q M T :=
  {| sys_world := w; sys_threads := <[i := t]> (sys_threads s) |}.

Definition pollBody (answer : RuntimesPage + error) : prog S unit :=
  match answer with inl page => pollFetched p page | inr err => pollFailed p err end.

Inductive step : action → system S C Q M T → system S C Q M T → Prop :=
| step_poll answer s :
    sys_threads s !! 0%nat = Some None →
    step (Poll answer) s (set_thread 0 (Some {| th_prog := pollBody answer; th_item := None; th_held := None |}) (sys_world s) s)
| step_take i x q' s :
    i ≠ 0%nat → sys_threads s !! i = Some None → q_get (w_queue (sys_world s)) = Some (x, q') →
    step (Take i) s
      (set_thread i (Some {| th_prog := executeItem p x (identifier i); th_item := Some x; th_held := Some x |})
        (with_queue q' (sys_world s)) s)
| step_effect i X (e : eff S X) k item held s :
    sys_threads s !! i = Some (Some {| th_prog := Vis e k; th_item := item; th_held := held |}) →
    step (Effect i) s
      (set_thread i (Some {| th_prog := k (handle_eff env e (sys_world s)).1; th_item := item; th_held := release held e |})
        (handle_eff env e (sys_world s)).2 s)
| step_finish i item held s :
    sys_threads s !! i = Some (Some {| th_prog := Ret (); th_item := item; th_held := held |}) →
    step (Finish i) s (set_thread i None (sys_world s) s)
| step_elapse d s :
    step (Elapse d) s
      {| sys_world := with_queue (q_elapse d (w_queue (sys_world s))) (sys_world s); sys_threads := sys_threads s |}.

(** The step as a function, for traces. *)
Definition next (a : action) (s : system S C Q M T) : option (system S C Q M T) :=
  match a with
  | Poll answer =>
      match sys_threads s !! 0%nat with
      | Some None => Some (set_thread 0 (Some {| th_prog := pollBody answer; th_item := None; th_held := None |}) (sys_world s) s)
      | _ => None
      end
  | Take i =>
      if decide (i = 0%nat) then None else
      match sys_threads s !! i, q_get (w_queue (sys_world s)) with
      | Some None, Some (x, q') =>
          Some (set_thread i (Some {| th_prog := executeItem p x (identifier i); th_item := Some x; th_held := Some x |})
                  (with_queue q' (sys_world s)) s)
      | _, _ => None
      end
  | Effect i =>
      match sys_threads s !! i with
      | Some (Some {| th_prog := Vis e k; th_item := item; th_held := held |}) =>
          let r := handle_eff env e (sys_world s) in
          Some (set_thread i (Some {| th_prog := k r.1; th_item := item; th_held := release held e |}) r.2 s)
      | _ => None
      end
  | Finish i =>
      match sys_threads s !! i with
      | Some (Some {| th_prog := Ret () |}) => Some (set_thread i None (sys_world s) s)
      | _ => None
      end
  | Elapse d =>
      Some {| sys_world := with_queue (q_elapse d (w_queue (sys_world s))) (sys_world s);
              sys_threads := sys_threads s |}
  end.

Fixpoint trace (l : list action) (s : system S C Q M T) : option (system S C Q M T) :=
  match l with
  | [] => Some s
  | a :: l' => match next a s with Some s' => trace l' s' | None => None end
  end.

Lemma next_step a s s' : next a s = Some s' → step a s s'.
Proof.
  destruct a as [answer|i|i|i|d]; simpl; intros H; repeat case_match; simplify_eq; by econstructor.
Qed.

(** The poller before its loop; [kebReq] is the request for KEB, or why there is none. *)
Definition setup (kebReq : HttpRequest + error) : thread S := {| th_prog := pollSetup kebReq; th_item := None; th_held := None |}.

(** [New] and [Start]: an empty cache, an empty queue, the poller at its beginning, no worker in an iteration. *)
Definition starting (kebReq : HttpRequest + error) (s : system S C Q M T) : Prop :=
  (∀ x, cache_get x (w_cache (sys_world s)) = None) ∧ q_pending (w_queue (sys_world s)) = ∅ ∧
  ∃ workers, sys_threads s = Some (setup kebReq) :: workers ∧ Forall (λ t, t = None) workers.
Lemma starting_thread kebReq s i t : starting kebReq s → sys_threads s !! i = Some (Some t) → i = 0%nat ∧ t = setup kebReq.
Proof.
  intros (_ & _ & workers & -> & Hw). destruct i as [|i]; simpl; [naive_solver|]. intros Ht.
  by apply (proj1 (Forall_lookup _ _) Hw) in Ht.
Qed.

Definition initial (s : system S C Q M T) : Prop :=
  q_processing (w_queue (sys_world s)) = ∅ ∧ ∃ kebReq, starting kebReq s.

(** The poller ended the process, because there is no request. *)
Definition halted (s : system S C Q M T) : Prop := ∃ err, starting (inr err) s.

Inductive reachable : system S C Q M T → Prop :=
| reachable_init s : initial s → reachable s
| reachable_step a s s' : reachable s → step a s s' → reachable s'.

Lemma trace_reachable l s s' : reachable s → trace l s = Some s' → reachable s'.
Proof.
  revert s. induction l as [|a l IH]; intros s Hs; simpl; [by intros [= <-]|].
  destruct (next a s) as [s1|] eqn:Hn; [|done]. apply IH. by eapply reachable_step, next_step.
Qed.
End system.

(** ** What a thread's remaining code guarantees *)

Section static.
Context {QA : QuantityApi} {S : Type}.

(** The effect puts [x] into the queue. *)
Definition queues {X} (x : string) (e : eff S X) : Prop :=
  match e with QueueAdd y | QueueAddAfter y _ => y = x | _ => False end.

(** [r] is an answer the cache can give to [e] while [x] is cached. *)
Definition possible {X} (x : string) (e : eff S X) : X → Prop :=
  match e in eff _ X return X → Prop with CacheGet y => λ r, y = x → r ≠ None | _ => λ _, True end.

(** Whatever happens, [p] puts [x] into the queue or returns a value in [Post], as long
    as [x] is cached when [p] looks. *)
Fixpoint commits (x : string) {A} (Post : A → Prop) (p : prog S A) : Prop :=
  match p with
  | Ret a => Post a
  | Panic _ | Fatal _ => False
  | Vis e k => queues x e ∨ ∀ r, possible x e r → commits x Post (k r)
  end.

(** An answer of a cache that holds records under their sub-accounts. *)
Definition answer_ok {X} (e : eff S X) : X → Prop :=
  match e in eff _ X return X → Prop with CacheGet y => λ r, entry_ok y r | _ => λ _, True end.

(** After the answer [r], [e] has stored [v] under [y]. *)
Definition stores {X} (e : eff S X) : X → string → obj S → Prop :=
  match e in eff _ X return X → string → obj S → Prop with
  | CacheSet y' v' => λ _ y v, y = y' ∧ v = v'
  | CacheAdd y' v' => λ r y v, y = y' ∧ v = v' ∧ r = None
  | _ => λ _ _ _, False
  end.

(** The keys known to be cached after [e] answered [r]. *)
Definition known {X} (K : gset string) (e : eff S X) : X → gset string :=
  match e in eff _ X return X → gset string with
  | CacheGet y => λ r, match r with Some _ => {[y]} ∪ K | None => K end
  | CacheDelete y => λ _, K ∖ {[y]}
  | _ => λ _, K
  end.

(** Nothing is left to do but to add items to the queue again. *)
Definition rescheduling_eff {X} (e : eff S X) : Prop := match e with QueueAddAfter _ _ => True | _ => False end.
Abbreviation rescheduling := (only (λ X, rescheduling_eff)).

(** After [Done], that is all that follows. *)
Definition final {X A} (e : eff S X) (p : prog S A) : Prop := match e with QueueDone _ => rescheduling p | _ => True end.

(** Only the owner deletes; [Done] is called for the item taken. *)
Definition allowed {X} (owner : bool) (held : option string) (e : eff S X) : Prop :=
  match e with CacheDelete _ => owner = true | QueueDone y => held = Some y | _ => True end.

(** The code does not panic, stores records under their sub-account only, and stores
    nothing new without queueing it, or returning a value in [Post] for its key.  [K] are
    keys known to be cached; only the poller, which alone deletes, may rely on them. *)
Fixpoint safe (owner : bool) (K : gset string) (held : option string) {A} (Post : string → A → Prop)
    (p : prog S A) : Prop :=
  match p with
  | Ret _ => True
  | Panic _ | Fatal _ => False
  | Vis e k => (allowed owner held e ∧ ∀ r, final e (k r)) ∧ ∀ r, answer_ok e r →
      (∀ y v, stores e r y v → entry_ok y (Some v) ∧ (y ∈ K ∨ commits y (Post y) (k r))) ∧
      safe owner (if owner then known K e r else ∅) (release held e) Post (k r)
  end.

Lemma commits_bind {A B} x (Post : A → Prop) (Post' : B → Prop) (p : prog S A) (k : A → prog S B) :
  commits x Post p → (∀ a, Post a → commits x Post' (k a)) → commits x Post' (p ≫= k).
Proof.
  intros Hp Hk. induction p as [a|X e k' IH|msg|msg]; simpl in *; [by apply Hk| |done|done].
  destruct Hp as [Hq|Hp]; [by left|right]. intros r Hr. by apply IH, Hp.
Qed.

Lemma commits_quiet {A} x (Post : A → Prop) (p : prog S A) : quiet p → (∀ a, Post a) → commits x Post p.
Proof.
  intros Hq HP. induction p as [a|X e k IH|msg|msg]; simpl in *; [apply HP| |done|done].
  right. intros r _. apply IH, Hq.
Qed.

Lemma known_mono {X} K K' (e : eff S X) r : K ⊆ K' → known K e r ⊆ known K' e r.
Proof. intros HK. destruct e; simpl; repeat case_match; set_solver. Qed.

Lemma safe_mono {A} owner K K' held Post (p : prog S A) :
  K ⊆ K' → safe owner K held Post p → safe owner K' held Post p.
Proof.
  revert K K' held. induction p as [a|X e k IH|msg|msg]; intros K K' held HK; simpl; [done| |done|done].
  intros [Ha Hs]. split; [done|]. intros r Hr. destruct (Hs r Hr) as [Hst Hs']. split.
  - intros y v Hyv. destruct (Hst y v Hyv) as [? [?|?]]; set_solver.
  - eapply IH; [|done]. destruct owner; [by apply known_mono|done].
Qed.

Lemma safe_bind {A B} owner K held (Post : string → A → Prop) (Post' : string → B → Prop)
    (p : prog S A) (k : A → prog S B) :
  safe owner K None Post p → (∀ y a, Post y a → commits y (Post' y) (k a)) →
  (∀ a, safe owner ∅ held Post' (k a)) → safe owner K held Post' (p ≫= k).
Proof.
  intros Hp HP Hk. revert K Hp. induction p as [a|X e k' IH|msg|msg]; intros K Hp; simpl in *; [|  |done|done].
  { eapply safe_mono; [|apply Hk]. set_solver. }
  destruct Hp as [[Ha _] Hs]. split; [by destruct e|]. intros r Hr. destruct (Hs r Hr) as [Hst Hs'].
  assert (Hrel : ∀ h, h = None ∨ h = held → release h e = h) by (intros h; by destruct e).
  rewrite (Hrel None) in Hs' by auto. rewrite Hrel by auto. split; [|by apply IH].
  intros y v Hyv. destruct (Hst y v Hyv) as [? [?|?]]; [by auto|]. split; [done|]. right.
  eapply commits_bind; [done|apply HP].
Qed.

(** The effect stores nothing, deletes nothing and releases nothing. *)
Definition inert_eff {X} (e : eff S X) : Prop :=
  match e with CacheSet _ _ | CacheAdd _ _ | CacheDelete _ | QueueDone _ => False | _ => True end.
Abbreviation inert := (only (λ X, inert_eff)).

Lemma safe_inert {A} owner K held Post (p : prog S A) : inert p → safe owner K held Post p.
Proof.
  revert K held. induction p as [a|X e k IH|msg|msg]; intros K held Hq; simpl in *; [done| |done|done].
  destruct Hq as [He Hk]. split; [by destruct e|]. intros r _. split; [by destruct e|]. by apply IH.
Qed.

Lemma safe_quiet {A} owner K held Post (p : prog S A) : quiet p → safe owner K held Post p.
Proof. intros Hp. eapply safe_inert, only_mono; [|exact Hp]. by intros X []. Qed.

(** A deferred call that is quiet does not matter. *)
Lemma commits_defer {A} x (Post : A → Prop) d (p : prog S A) : quiet d → commits x Post p → commits x Post (defer d p).
Proof.
  intros Hd. induction p as [a|X e k IH|msg|msg]; simpl; [|  |done|done].
  - intros Ha. eapply (commits_bind _ (λ _, True)); [by apply commits_quiet|done].
  - intros [Hq|Hk]; [by left|right]. intros r Hr. by apply IH, Hk.
Qed.

Lemma safe_defer {A} owner K Post d (p : prog S A) :
  quiet d → safe owner K None Post p → safe owner K None Post (defer d p).
Proof.
  intros Hd. revert K. induction p as [a|X e k IH|msg|msg]; intros K; simpl; [|  |done|done].
  - intros _. apply safe_quiet. by apply only_bind.
  - intros [[Ha _] Hs]. split; [split; [done|]; intros r; by destruct e|]. intros r Hr. destruct (Hs r Hr) as [Hst Hs'].
    assert (Hrel : release None e = None) by (by destruct e). rewrite Hrel in *. split; [|by apply IH].
    intros y v Hyv. destruct (Hst y v Hyv) as [? [?|?]]; (split; [done|]); [by left|right]. by apply commits_defer.
Qed.

(** Deleting the metrics of a record, with the entry that says there were none. *)
Lemma deletion_inert rec level l msg :
  inert (success ← deleteMetrics rec; if (success : bool) then mret () else logf level l msg []).
Proof. cbn. repeat (split; [done|]; intros ?). by case_match. Qed.

Lemma safe_for_each {A St} K Post (body : St → A → prog S St) st l :
  (∀ st x, safe true ∅ None (λ _ _, False) (body st x)) → safe true K None Post (for_each body st l).
Proof.
  intros Hbody. apply (safe_mono _ ∅); [set_solver|]. revert st.
  induction l as [|x l IH]; intros st; simpl; [done|].
  eapply safe_bind; [apply Hbody|done|apply IH].
Qed.
End static.
Abbreviation rescheduling := (only (λ X, rescheduling_eff)).

(** ** The threads' code is safe *)

Section code.
Context {QA : QuantityApi} {S : Type} {SS : SortSlice}.
Context {CS : CollectorSender S} {CP : ConfigProvider S} {CF : ClientFactory S}.
Context {CSL : CollectorSenderLaws S} {CPL : ConfigProviderLaws S} {CFL : ClientFactoryLaws S}.
Context (p : Process).
Abbreviation never := (λ _ _, False).

Lemma handleTrackable_safe rt found : ClusterTracking.SubAccountID rt ≠ "" →
  safe (S := S) true (match found with Some _ => {[ClusterTracking.SubAccountID rt]} | None => ∅ end) None never
    (handleTrackable rt found).
Proof.
  intros Hid. unfold handleTrackable. destruct found as [[rec|]|].
  - case_decide; [done|]. split; [done|]. intros [] _. split; [done|]. split; [done|].
    intros [] _. split; [intros y v [-> ->]; split; [done|]; left; set_solver|]. split; [done|].
    intros ? _. split; [done|]. cbn [pbind]. apply safe_inert, deletion_inert.
  - done.
  - simpl. split; [done|]. intros [] _. split; [done|]. split; [done|]. intros [err|] _.
    + split; [|done]. by intros y v (_ & _ & [=]).
    + split; [|done]. intros y v (-> & -> & _). split; [done|]. right. simpl. by left.
Qed.

Lemma handleUntrackable_safe rt found K : safe (S := S) true K None never (handleUntrackable rt found).
Proof.
  unfold handleUntrackable. destruct found as [[rec|]|]; [|done..].
  do 3 (split; [done|]; intros ? _; split; [done|]). cbn [pbind]. apply safe_inert, deletion_inert.
Qed.

Lemma populateRuntime_safe st rt : safe (S := S) true ∅ None never (populateRuntime p st rt).
Proof.
  unfold populateRuntime. case_decide as Hid; [done|]. cbn [mbind prog_bind pbind call]. split; [done|].
  intros found _. split; [done|]. split; [done|]. intros [] _. split; [done|]. cbn [pbind].
  destruct (skipRuntime p rt); [done|].
  eapply (safe_bind _ _ _ never); [|done|done]. destruct (isRuntimeTrackable rt).
  - pose proof (handleTrackable_safe rt found Hid) as H. destruct found; [|done].
    eapply safe_mono; [|exact H]. set_solver.
  - apply handleUntrackable_safe.
Qed.

Lemma cleanupItem_safe v st item : safe (S := S) true ∅ None never (cleanupItem v st item).
Proof.
  destruct item as [k o]. unfold cleanupItem. case_decide; [done|].
  eapply (safe_bind _ _ _ never); [done|done|]. intros []. eapply (safe_bind _ _ _ never); [by destruct o|done|]. intros [].
  apply safe_inert, deletion_inert.
Qed.

Lemma populateCacheAndQueue_safe page : safe (S := S) true ∅ None never (populateCacheAndQueue p page).
Proof.
  unfold populateCacheAndQueue. eapply (safe_bind _ _ _ never); [done|done|]. intros [].
  eapply (safe_bind _ _ _ never); [apply safe_for_each, populateRuntime_safe|done|].
  intros v. eapply (safe_bind _ _ _ never); [done|done|]. intros items.
  apply safe_for_each, cleanupItem_safe.
Qed.

Lemma pollBody_safe answer : safe (S := S) true ∅ None never (pollBody p answer).
Proof.
  destruct answer as [page|err]; [|done]. split; [done|]. intros [] _. split; [done|].
  eapply (safe_bind _ _ _ never); [apply populateCacheAndQueue_safe|done|done].
Qed.

(** A worker stores the record only when it will ask for the item to be requeued. *)
Definition requeued (x y : string) (requeue : bool) : Prop := y = x ∧ requeue = true.

Lemma handleError_safe rec x j err Post : safe (S := S) false ∅ None Post (handleError p (Some rec) x j err;; mret false).
Proof. done. Qed.

Lemma handleError_commits rec x j err Post : commits (S := S) x Post (handleError p rec x j err;; mret false).
Proof. right. intros ? _. by left. Qed.

Lemma collectWith_safe rec x j clients : Effects.SubAccountID rec = x →
  safe (S := S) false ∅ None (requeued x) (collectWith p rec x j clients).
Proof.
  intros Hx. apply safe_defer; [done|]. eapply (safe_bind _ _ _ never); [apply safe_quiet, CollectAndSend_quiet|done|].
  intros [scans [err|]]; [done|]. simpl. do 3 (split; [done|]; intros [] _; split; [done|]).
  split; [done|]. intros [] _. split; [|done]. intros y v [-> ->]. split; [done|]. right. right. intros [] _. by split.
Qed.

Lemma collectWith_commits rec x j clients : commits (S := S) x (requeued x x) (collectWith p rec x j clients).
Proof.
  apply commits_defer; [done|]. eapply (commits_bind _ (λ _, True)); [apply commits_quiet; [apply CollectAndSend_quiet|done]|].
  intros [scans [err|]] _; [right; intros ? _; by left|]. simpl. do 5 (right; intros ? _). done.
Qed.

Lemma processRecord_safe rec x j : Effects.SubAccountID rec = x →
  safe (S := S) false ∅ None (requeued x) (processRecord p rec x j).
Proof.
  intros Hx. split; [done|]. intros [] _. split; [done|].
  eapply (safe_bind _ _ _ never); [apply safe_quiet, ConfigProvider_Get_quiet|done|].
  intros [kc|err]; [|done]. eapply (safe_bind _ _ _ never); [by apply safe_quiet|done|].
  intros [rc|err]; [|done]. eapply (safe_bind _ _ _ never); [apply safe_quiet, NewClients_quiet|done|].
  intros [cl|err]; [|done]. by apply collectWith_safe.
Qed.

Lemma processRecord_commits rec x j : commits (S := S) x (requeued x x) (processRecord p rec x j).
Proof.
  right. intros [] _. eapply (commits_bind _ (λ _, True)); [apply commits_quiet; [apply ConfigProvider_Get_quiet|done]|].
  intros [kc|err] _; [|apply handleError_commits]. eapply (commits_bind _ (λ _, True)); [by right|].
  intros [rc|err] _; [|apply handleError_commits].
  eapply (commits_bind _ (λ _, True)); [apply commits_quiet; [apply NewClients_quiet|done]|].
  intros [cl|err] _; [|apply handleError_commits]. apply collectWith_commits.
Qed.

Lemma processSubAccountID_safe x j : safe (S := S) false ∅ None (requeued x) (processSubAccountID p x j).
Proof.
  split; [done|]. intros [] _. split; [done|]. split; [done|]. intros [[rec|]|] Hr; (split; [done|]); simpl in Hr.
  - by apply processRecord_safe.
  - done.
  - done.
Qed.

Lemma executeItem_safe x j : safe (S := S) false ∅ (Some x) never (executeItem p x j).
Proof.
  eapply safe_bind; [apply processSubAccountID_safe| |].
  - intros y b [-> ->]. right. intros [] _. by left.
  - intros []; simpl; done.
Qed.

Lemma executeItem_commits x j : commits (S := S) x (λ _, False) (executeItem p x j).
Proof.
  eapply (commits_bind _ (requeued x x)).
  - right. intros [] _. right. intros [[rec|]|] Hr; [apply processRecord_commits|apply handleError_commits|]. by destruct (Hr eq_refl).
  - intros b [_ ->]. right. intros [] _. by left.
Qed.
End code.

(** ** What one effect changes *)

Section effects.
Context {QA : QuantityApi} {S C Q M T : Type}.
Context {GC : GoCache (obj S) C} {WQ : WorkQueue Q} {PM : Prometheus M} {TC : TtlCache T}.
Context {GCL : GoCacheLaws (obj S) C} {WQL : WorkQueueLaws Q}.
Context (env : Env).
Implicit Types w : world C Q M T.

Definition deletes {X} (e : eff S X) (y : string) : Prop :=
  match e with CacheDelete y' => y = y' | _ => False end.

Definition completes {X} (e : eff S X) (y : string) : Prop :=
  match e with QueueDone y' => y = y' | _ => False end.

Lemma handle_answer_ok {X} (e : eff S X) w : cache_ok (w_cache w) → answer_ok e (handle_eff env e w).1.
Proof. intros Hok. destruct e; try done. apply Hok. Qed.

Lemma handle_possible {X} x (e : eff S X) w :
  is_Some (cache_get x (w_cache w)) → possible x e (handle_eff env e w).1.
Proof. intros [o Ho]. destruct e; try done. simpl. intros ->. by rewrite Ho. Qed.

(** An entry stays, is stored, or is deleted. *)
Lemma handle_cache {X} (e : eff S X) w y :
  (cache_get y (w_cache (handle_eff env e w).2) = cache_get y (w_cache w) ∧ ¬ deletes e y) ∨
  (∃ v, stores e (handle_eff env e w).1 y v ∧ cache_get y (w_cache (handle_eff env e w).2) = Some v) ∨
  (deletes e y ∧ cache_get y (w_cache (handle_eff env e w).2) = None).
Proof.
  destruct e as [k|k v|k v|k| | |k|k d|k|m ls|m ls v|m ls|m ls|m|m pairs|X op|X q]; try destruct op; simpl; auto.
  - rewrite cache_get_set. case_decide; [subst|by auto]. right. left. eauto.
  - destruct (cache_get k (w_cache w)) as [o|] eqn:Hk.
    + destruct (cache_add_present k v (w_cache w)) as [_ Hget]; [by eauto|]. left. rewrite Hget. auto.
    + destruct (cache_add_fresh k v (w_cache w) Hk) as [Herr Hget]. rewrite Hget. case_decide; [subst|by auto].
      right. left. eauto.
  - rewrite cache_get_delete. case_decide; subst; [by auto|]. left. split; [done|]. congruence.
Qed.

Lemma handle_known {X} K (e : eff S X) w :
  (∀ y, y ∈ K → is_Some (cache_get y (w_cache w))) →
  ∀ y, y ∈ known K e (handle_eff env e w).1 → is_Some (cache_get y (w_cache (handle_eff env e w).2)).
Proof.
  intros HK y Hy.
  assert (Hy' : is_Some (cache_get y (w_cache w)) ∧ ¬ deletes e y).
  { destruct e as [k|k v|k v|k| | |k|k d|k|m ls|m ls v|m ls|m ls|m|m pairs|X op|X q]; simpl in *; auto; [|set_solver].
    split; [|auto]. destruct (cache_get k (w_cache w)) eqn:Hk; [|by auto].
    apply elem_of_union in Hy as [->%elem_of_singleton|]; eauto. }
  destruct Hy' as [Hy' Hnd]. destruct (handle_cache e w y) as [[-> _]|[(v & _ & ->)|[? _]]]; [done|by eexists|by destruct Hnd].
Qed.

Lemma handle_pending {X} (e : eff S X) w :
  q_pending (w_queue w) ⊆ q_pending (w_queue (handle_eff env e w).2) ∧
  ∀ x, queues x e → x ∈ q_pending (w_queue (handle_eff env e w).2).
Proof.
  destruct e as [| | | | | | | | | | | | | | |X op|]; try destruct op; simpl; rewrite ?q_pending_add, ?q_pending_add_after, ?q_pending_done;
    (split; [set_solver|]); naive_solver (set_solver).
Qed.

Lemma handle_processing {X} (e : eff S X) w x : ¬ completes e x →
  x ∈ q_processing (w_queue w) → x ∈ q_processing (w_queue (handle_eff env e w).2).
Proof.
  intros Hc Hx. destruct e as [| | | | | | | | | | | | | | |X op|]; try destruct op; simpl in *;
    rewrite ?q_processing_add, ?q_processing_add_after, ?q_processing_done; try done. set_solver.
Qed.

Lemma release_Some {X} (e : eff S X) held x : release held e = Some x → held = Some x ∧ ¬ completes e x.
Proof. destruct e; simpl; naive_solver. Qed.

Lemma allowed_completes {X} (e : eff S X) owner held x : allowed owner held e → completes e x → held = Some x.
Proof. destruct e; simpl; naive_solver. Qed.
End effects.

(** ** The invariant of all interleavings *)

Section invariant.
Context {QA : QuantityApi} {S : Type} {SS : SortSlice}.
Context {C Q M T : Type} {GC : GoCache (obj S) C} {WQ : WorkQueue Q} {PM : Prometheus M} {TC : TtlCache T}.
Context {GCL : GoCacheLaws (obj S) C} {WQL : WorkQueueLaws Q}.
Context {CS : CollectorSender S} {CP : ConfigProvider S} {CF : ClientFactory S}.
Context {CSL : CollectorSenderLaws S} {CPL : ConfigProviderLaws S} {CFL : ClientFactoryLaws S}.
Context (env : Env) (p : Process).
Implicit Types s : system S C Q M T.
Abbreviation never := (λ _ _, False).

Definition sys_cache s : C := w_cache (sys_world s).
Definition sys_queue s : Q := w_queue (sys_world s).
Definition running s (i : nat) (t : thread S) : Prop := sys_threads s !! i = Some (Some t).

(** [x] will be handed to a worker: it is in the queue, or a thread is about to put it
    there. *)
Definition scheduled s (x : string) : Prop :=
  x ∈ q_pending (sys_queue s) ∨ ∃ i t, running s i t ∧ commits x (λ _, False) (th_prog t).

(** The code thread [i] has left to run is safe. *)
Definition thread_ok (c : C) (i : nat) (t : thread S) : Prop := ∃ K,
  (∀ y, y ∈ K → is_Some (cache_get y c)) ∧ (i ≠ 0%nat → K = ∅) ∧
  safe (bool_decide (i = 0%nat)) K (th_held t) never (th_prog t).

(** It holds its item, or has nothing left to do with it. *)
Definition item_ok (t : thread S) : Prop := th_held t = th_item t ∨ rescheduling (th_prog t).

Record inv s : Prop := {
  inv_cache : cache_ok (sys_cache s);
  inv_threads i t : running s i t → thread_ok (sys_cache s) i t;
  inv_items i t : running s i t → item_ok t;
  inv_scheduled x : is_Some (cache_get x (sys_cache s)) → scheduled s x;
  inv_held i t x : running s i t → th_held t = Some x → x ∈ q_processing (sys_queue s);
  inv_exclusive i j t u x : running s i t → running s j u → th_held t = Some x → th_held u = Some x → i = j;
}.

(** A thread after thread [i] was replaced. *)
Lemma running_set_thread s i j t w u : running (set_thread i t w s) j u →
  (i = j ∧ t = Some u) ∨ (i ≠ j ∧ running s j u).
Proof.
  unfold running. simpl. rewrite list_lookup_insert_Some. naive_solver.
Qed.

Lemma running_other s i j t w u : i ≠ j → running s j u → running (set_thread i t w s) j u.
Proof. intros Hij. unfold running. simpl. by rewrite list_lookup_insert_ne. Qed.

Lemma running_self s i t0 t w : sys_threads s !! i = Some t0 → running (set_thread i (Some t) w s) i t.
Proof. intros Hi. unfold running. simpl. apply list_lookup_insert_eq. by eapply lookup_lt_Some. Qed.

Lemma initial_inv s : initial s → inv s ∨ halted s.
Proof.
  intros (Hq & [kebReq|err] & Hs); [left|right; by exists err]. pose proof (starting_thread (inl kebReq) s) as Hrun.
  destruct Hs as (Hc & Hp & Hs). split; unfold sys_cache, sys_queue.
  - intros x. by rewrite Hc.
  - intros i t [-> ->]%Hrun; [|done]. by exists ∅.
  - intros i t [_ ->]%Hrun; [|done]. by left.
  - intros x. rewrite Hc. by intros [].
  - by intros i t x [_ ->]%Hrun; [|].
  - by intros i j t u x [_ ->]%Hrun; [|].
Qed.

(** Starting an iteration: cache and queue contents do not shrink but for the item taken. *)
Lemma start_inv s i t w : inv s → sys_threads s !! i = Some None →
  w_cache w = sys_cache s → safe (bool_decide (i = 0%nat)) ∅ (th_held t) never (th_prog t) → th_held t = th_item t →
  (∀ x, x ∈ q_pending (sys_queue s) → x ∈ q_pending (w_queue w) ∨ commits x (λ _, False) (th_prog t)) →
  (∀ x, th_held t = Some x → x ∈ q_processing (w_queue w) ∧ x ∉ q_processing (sys_queue s)) →
  q_processing (sys_queue s) ⊆ q_processing (w_queue w) →
  inv (set_thread i (Some t) w s).
Proof.
  intros Hinv Hi Hc Hsafe Hit Hp Hh Hq. unfold sys_cache in Hc.
  split; unfold sys_cache, sys_queue; cbn [set_thread sys_world]; rewrite ?Hc.
  - apply Hinv.
  - intros j u [[<- [= <-]]|[_ Hu]]%running_set_thread; [|by apply Hinv].
    exists ∅. split_and!; [set_solver|done|done].
  - intros j u [[<- [= <-]]|[_ Hu]]%running_set_thread; [by left|by apply (inv_items _ Hinv j)].
  - intros x Hx. destruct (inv_scheduled _ Hinv x Hx) as [Hpend|(j & u & Hu & Hcom)].
    + destruct (Hp x Hpend) as [?|Hcom]; [by left|]. right. exists i, t. split; [|done]. by eapply running_self.
    + right. exists j, u. split; [|done]. apply running_other; [|done]. unfold running in Hu. congruence.
  - intros j u x [[<- [= <-]]|[_ Hu]]%running_set_thread Hx; [by apply Hh|]. by apply Hq, (inv_held _ Hinv j u x).
  - intros j1 j2 u1 u2 x [[<- [= <-]]|[_ Hu1]]%running_set_thread [[<- [= <-]]|[_ Hu2]]%running_set_thread H1 H2;
      [done| | |by eapply (inv_exclusive _ Hinv _ _ u1 u2)].
    + destruct (Hh x H1) as [_ []]. by apply (inv_held _ Hinv j2 u2).
    + destruct (Hh x H2) as [_ []]. by apply (inv_held _ Hinv j1 u1).
Qed.

Lemma finish_inv s i item held : inv s → running s i {| th_prog := Ret (); th_item := item; th_held := held |} →
  inv (set_thread i None (sys_world s) s).
Proof.
  intros Hinv Hi. assert (Hrun : ∀ j u, running (set_thread i None (sys_world s) s) j u → running s j u).
  { intros j u [[_ [=]]|[_ Hu]]%running_set_thread. done. }
  split.
  - apply Hinv.
  - intros j u Hu. by apply Hinv, Hrun.
  - intros j u Hu. by apply (inv_items _ Hinv j), Hrun.
  - intros x Hx. destruct (inv_scheduled _ Hinv x Hx) as [?|(j & u & Hu & Hcom)]; [by left|].
    right. exists j, u. split; [|done]. apply running_other; [|done]. intros <-.
    unfold running in *. rewrite Hi in Hu. by injection Hu as <-.
  - intros j u x Hu. by apply (inv_held _ Hinv j), Hrun.
  - intros j1 j2 u1 u2 x Hu1 Hu2. apply (inv_exclusive _ Hinv); by apply Hrun.
Qed.

Lemma elapse_inv s d : inv s →
  inv {| sys_world := with_queue (q_elapse d (w_queue (sys_world s))) (sys_world s); sys_threads := sys_threads s |}.
Proof.
  intros Hinv. split; unfold sys_cache, sys_queue; simpl.
  - apply Hinv.
  - apply (inv_threads _ Hinv).
  - apply (inv_items _ Hinv).
  - intros x Hx. unfold scheduled, sys_queue. simpl. rewrite q_pending_elapse. by apply (inv_scheduled _ Hinv).
  - intros i t x. rewrite q_processing_elapse. apply (inv_held _ Hinv).
  - apply (inv_exclusive _ Hinv).
Qed.

(** One effect of thread [i]. *)
Section effect.
Context (s : system S C Q M T) (i : nat) {X : Type} (e : eff S X) (k : X → prog S unit) (item held : option string).
Context (Hinv : inv s) (Hi : running s i {| th_prog := Vis e k; th_item := item; th_held := held |}).
Let r := (handle_eff env e (sys_world s)).1.
Let w' := (handle_eff env e (sys_world s)).2.
Let t' := {| th_prog := k r; th_item := item; th_held := release held e |}.
Let s' := set_thread i (Some t') w' s.

Lemma effect_self : running s' i t'.
Proof. by eapply running_self. Qed.

Lemma effect_safe : ∃ K, (∀ y, y ∈ K → is_Some (cache_get y (sys_cache s))) ∧ (i ≠ 0%nat → K = ∅) ∧
  allowed (bool_decide (i = 0%nat)) held e ∧
  (∀ y v, stores e r y v → entry_ok y (Some v) ∧ (y ∈ K ∨ commits y (λ _, False) (k r))) ∧
  safe (bool_decide (i = 0%nat)) (if bool_decide (i = 0%nat) then known K e r else ∅) (release held e) never (k r).
Proof.
  destruct (inv_threads _ Hinv _ _ Hi) as (K & HK & HK0 & [Hal _] & Hs). exists K.
  destruct (Hs r) as [Hst Hsafe]; [by apply handle_answer_ok, Hinv|]. done.
Qed.

Lemma effect_cache_ok : cache_ok (sys_cache s').
Proof.
  intros y. destruct effect_safe as (K & _ & _ & _ & Hst & _). unfold sys_cache. simpl. unfold w'.
  destruct (handle_cache env e (sys_world s) y) as [[-> _]|[(v & Hv & ->)|[_ ->]]]; [apply Hinv| |done].
  by apply Hst.
Qed.

Lemma effect_threads j u : running s' j u → thread_ok (sys_cache s') j u.
Proof.
  destruct effect_safe as (K & HK & HK0 & Hal & Hst & Hsafe).
  intros [[<- [= <-]]|[Hij Hu]]%running_set_thread.
  - exists (if bool_decide (i = 0%nat) then known K e r else ∅). split_and!; [| |done].
    + case_bool_decide; [|set_solver]. by apply handle_known.
    + intros Hi0. by rewrite bool_decide_false.
  - destruct (inv_threads _ Hinv _ _ Hu) as (K' & HK' & HK0' & Hsafe'). exists K'. split_and!; [|done..].
    intros y Hy. unfold sys_cache. simpl. unfold w'.
    destruct (handle_cache env e (sys_world s) y) as [[-> _]|[(v & _ & ->)|[Hdel _]]]; [by apply HK'|by eauto|].
    exfalso. destruct (decide (j = 0%nat)) as [->|Hj]; [|rewrite HK0' in Hy by done; set_solver].
    rewrite bool_decide_false in Hal by done. by destruct e.
Qed.

Lemma effect_items j u : running s' j u → item_ok u.
Proof.
  intros [[<- [= <-]]|[_ Hu]]%running_set_thread; [|by apply (inv_items _ Hinv j)].
  destruct (inv_threads _ Hinv _ _ Hi) as (K & _ & _ & [_ Hfin] & _).
  destruct (inv_items _ Hinv _ _ Hi) as [Hheld|[_ Hres]]; [|right; apply Hres]. simpl in Hheld.
  destruct e; try (left; exact Hheld). right. apply Hfin.
Qed.

Lemma effect_scheduled x : is_Some (cache_get x (sys_cache s')) → scheduled s' x.
Proof.
  intros Hx. destruct effect_safe as (K & HK & _ & _ & Hst & _).
  destruct (handle_pending env e (sys_world s)) as [Hmono Hadd].
  assert (Hcase : is_Some (cache_get x (sys_cache s)) ∨ commits x (λ _, False) (k r)).
  { unfold sys_cache in Hx. simpl in Hx. unfold w' in Hx.
    destruct (handle_cache env e (sys_world s) x) as [[Heq _]|[(v & Hv & _)|[_ Heq]]];
      [rewrite Heq in Hx; by left| |rewrite Heq in Hx; by destruct Hx].
    destruct (Hst x v Hv) as [_ [?|?]]; [left; by apply HK|by right]. }
  destruct Hcase as [Hold|Hcom]; [|right; exists i, t'; split; [apply effect_self|done]].
  destruct (inv_scheduled _ Hinv x Hold) as [Hp|(j & u & Hu & Hcom)]; [left; by apply Hmono|].
  destruct (decide (i = j)) as [<-|Hij]; [|right; exists j, u; split; [by apply running_other|done]].
  unfold running in *. rewrite Hi in Hu. injection Hu as <-.
  destruct Hcom as [Hq|Hcom]; [left; by apply Hadd|]. right. exists i, t'. split; [apply effect_self|].
  apply Hcom, handle_possible, Hold.
Qed.

(** Another thread's item is not the one [e] completes. *)
Lemma effect_keeps j u x : running s' j u → th_held u = Some x →
  ∃ u0, running s j u0 ∧ th_held u0 = Some x ∧ ¬ completes e x.
Proof.
  intros [[<- [= <-]]|[Hij Hu]]%running_set_thread Hx.
  - apply release_Some in Hx as [-> Hc]. by eexists.
  - exists u. split_and!; [done..|]. intros Hc. destruct effect_safe as (K & _ & _ & Hal & _).
    apply (allowed_completes _ _ _ _ Hal) in Hc. destruct Hij. by apply (inv_exclusive _ Hinv _ _ _ _ x Hi Hu).
Qed.

Lemma effect_inv : inv s'.
Proof.
  split.
  - apply effect_cache_ok.
  - apply effect_threads.
  - apply effect_items.
  - apply effect_scheduled.
  - intros j u x Hu Hx. destruct (effect_keeps j u x Hu Hx) as (u0 & Hu0 & Hx0 & Hc).
    apply handle_processing; [done|]. by apply (inv_held _ Hinv j u0).
  - intros j1 j2 u1 u2 x Hu1 Hu2 H1 H2. destruct (effect_keeps _ _ _ Hu1 H1) as (v1 & ? & ? & _).
    destruct (effect_keeps _ _ _ Hu2 H2) as (v2 & ? & ? & _). by apply (inv_exclusive _ Hinv _ _ v1 v2 x).
Qed.
End effect.

Lemma step_inv a s s' : inv s → step env p a s s' → inv s'.
Proof.
  intros Hinv. destruct 1 as [answer s Hi|i x q' s Hi0 Hi Hget|i X e k item held s Hi|i item held s Hi|d s].
  - apply start_inv; try done; [apply pollBody_safe|by left].
  - apply q_pending_get in Hget as Hpend. destruct Hpend as (_ & Hpend & _).
    apply q_processing_get in Hget as [Hfresh Hproc].
    apply start_inv; try done; simpl.
    + rewrite bool_decide_false by done. apply executeItem_safe.
    + intros y Hy. destruct (decide (y = x)) as [->|Hne]; [right; apply executeItem_commits|].
      left. set_solver.
    + intros y [= <-]. rewrite Hproc. split; [set_solver|done].
    + rewrite Hproc. set_solver.
  - by apply effect_inv.
  - by eapply finish_inv.
  - by apply elapse_inv.
Qed.

(** Nothing happens after the process has ended, but that time passes. *)
Lemma step_halted a s s' : halted s → step env p a s s' → halted s'.
Proof.
  intros (err & Hst) Hstep. assert (Hidle : ∀ i t, sys_threads s !! i = Some (Some t) → t = setup (inr err))
    by (intros i t Ht; by destruct (starting_thread _ _ _ _ Hst Ht)).
  destruct Hst as (Hc & Hp & workers & Hs & Hw). destruct Hstep as [answer s Hi|i x q' s Hi0 Hi Hget|i X e k item held s Hi|i item held s Hi|d s].
  - by rewrite Hs in Hi.
  - apply q_pending_get in Hget as (Hx & _). set_solver.
  - by apply Hidle in Hi.
  - by apply Hidle in Hi.
  - exists err. split_and!; [done|by simpl; rewrite q_pending_elapse|by exists workers].
Qed.

Lemma reachable_inv s : reachable env p s → inv s ∨ halted s.
Proof.
  induction 1 as [s Hs|a s s' _ [IH|IH] Hstep]; [by apply initial_inv|left; by eapply step_inv|right; by eapply step_halted].
Qed.

Lemma cached_inv s x : reachable env p s → is_Some (cache_get x (sys_cache s)) → inv s.
Proof. intros [?|(err & Hc & _)]%reachable_inv; [done|]. unfold sys_cache. rewrite Hc. by intros []. Qed.

(** ** Theorems *)

(** One effect of safe code, of a thread running alone. *)
Lemma safe_effect {X} (e : eff S X) (k : X → prog S unit) owner K held (w : world C Q M T) :
  cache_ok (w_cache w) → safe owner K held never (Vis e k) →
  (∀ y, y ∈ K → is_Some (cache_get y (w_cache w))) →
  let r := (handle_eff env e w).1 in let w' := (handle_eff env e w).2 in
  cache_ok (w_cache w') ∧ ∃ K', safe owner K' (release held e) never (k r) ∧
  (∀ y, y ∈ K' → is_Some (cache_get y (w_cache w'))) ∧
  ∀ x, is_Some (cache_get x (w_cache w')) → is_Some (cache_get x (w_cache w)) ∨ commits x (λ _, False) (k r).
Proof.
  intros Hok [Hal Hs] HK r w'. destruct (Hs r) as [Hst Hsafe]; [by apply handle_answer_ok|]. split.
  { intros y. unfold w'. destruct (handle_cache env e w y) as [[-> _]|[(v & Hv & ->)|[_ ->]]]; [apply Hok| |done].
    by apply Hst. }
  eexists. split; [exact Hsafe|]. split; [destruct owner; [by apply handle_known|set_solver]|].
  intros x Hx. unfold w' in Hx. destruct (handle_cache env e w x) as [[Heq _]|[(v & Hv & _)|[_ Heq]]].
  - left. by rewrite <- Heq.
  - destruct (Hst x v Hv) as [_ [HxK|?]]; [left; by apply HK|by right].
  - rewrite Heq in Hx. by destruct Hx.
Qed.

(** A thread left to run alone returns. *)
Lemma solo_returns (q : prog S unit) owner K held (w : world C Q M T) :
  cache_ok (w_cache w) → safe owner K held never q →
  (∀ y, y ∈ K → is_Some (cache_get y (w_cache w))) → ∃ w', run env q w = (Returned (), w').
Proof.
  revert K held w. induction q as [[]|X e k IH|msg|msg]; intros K held w Hok Hsafe HK; [by eauto| |done|done].
  destruct (safe_effect e k owner K held w Hok Hsafe HK) as (Hok' & K' & Hsafe' & HK' & _).
  by eapply (IH (handle_eff env e w).1).
Qed.

(** It leaves [x] in the queue if it leaves it in the cache and was bound to queue it. *)
Lemma solo_queues x (q : prog S unit) owner K held (w w' : world C Q M T) :
  cache_ok (w_cache w) → safe owner K held never q →
  (∀ y, y ∈ K → is_Some (cache_get y (w_cache w))) →
  (is_Some (cache_get x (w_cache w)) → x ∈ q_pending (w_queue w) ∨ commits x (λ _, False) q) →
  run env q w = (Returned (), w') → is_Some (cache_get x (w_cache w')) → x ∈ q_pending (w_queue w').
Proof.
  revert K held w. induction q as [[]|X e k IH|msg|msg]; intros K held w Hok Hsafe HK Hx; [|  |done|done].
  { intros [= <-] [?|[]]%Hx. done. }
  destruct (safe_effect e k owner K held w Hok Hsafe HK) as (Hok' & K' & Hsafe' & HK' & Hnew).
  destruct (handle_pending env e w) as [Hmono Hadd].
  apply (IH (handle_eff env e w).1 K' (release held e) _ Hok' Hsafe' HK').
  intros [Hc|?]%Hnew; [|by right]. destruct (Hx Hc) as [?|[Hq|Hcom]]; [left; by apply Hmono|left; by apply Hadd|].
  right. by apply Hcom, handle_possible.
Qed.

(** C1 -- No interleaving of the poller and the workers loses a cluster: at any time, a
    cached sub-account is waiting in the queue, or a thread is in the middle of an iteration
    that, left to run, ends with the sub-account in the queue (unless it removes it from
    the cache). *)
Theorem no_cluster_lost s x : reachable env p s → is_Some (cache_get x (sys_cache s)) →
  x ∈ q_pending (sys_queue s) ∨
  ∃ i t w', running s i t ∧ run env (th_prog t) (sys_world s) = (Returned (), w') ∧
    (is_Some (cache_get x (w_cache w')) → x ∈ q_pending (w_queue w')).
Proof.
  intros Hr Hx. pose proof (cached_inv s x Hr Hx) as Hinv.
  destruct (inv_scheduled _ Hinv x Hx) as [?|(i & t & Ht & Hcom)]; [by left|right].
  destruct (inv_threads _ Hinv i t Ht) as (K & HK & _ & Hsafe).
  destruct (solo_returns (th_prog t) _ K (th_held t) (sys_world s) (inv_cache _ Hinv) Hsafe HK) as (w' & Hrun).
  exists i, t, w'. split_and!; [done..|].
  apply (solo_queues x (th_prog t) _ K (th_held t) (sys_world s) w' (inv_cache _ Hinv) Hsafe HK); [by right|done].
Qed.

(** The cache holds only records, each under its own sub-account. *)
Lemma reachable_records s x o : reachable env p s → cache_get x (sys_cache s) = Some o →
  ∃ rec, o = ObjRecord rec ∧ Effects.SubAccountID rec = x.
Proof.
  intros Hr Ho. pose proof (inv_cache _ (cached_inv s x Hr ltac:(by eauto)) x) as Hok. rewrite Ho in Hok.
  destruct o as [rec|]; [|done]. by exists rec.
Qed.

Lemma halted_setup s i t : halted s → running s i t → i = 0%nat ∧ ∃ err, t = setup (inr err).
Proof. intros [err Hs] Ht. destruct (starting_thread _ _ _ _ Hs Ht) as [-> ->]. eauto. Qed.

(** What a goroutine has left to do returns; the exception is the poller that has no request for KEB. *)
Lemma reachable_returns s i t : reachable env p s → running s i t →
  (∃ w', run env (th_prog t) (sys_world s) = (Returned (), w')) ∨
  i = 0%nat ∧ ∃ err, t = setup (inr err) ∧ halted s.
Proof.
  intros [Hinv|Hhalt]%reachable_inv Ht.
  - left. destruct (inv_threads _ Hinv i t Ht) as (K & HK & _ & Hsafe).
    exact (solo_returns (th_prog t) _ K (th_held t) (sys_world s) (inv_cache _ Hinv) Hsafe HK).
  - right. destruct (halted_setup s i t Hhalt Ht) as (-> & err & ->). eauto.
Qed.

(** A thread processes [x] from the moment it takes it until all it has left to do is to add items to the queue again,
    whether or not it called [Done]. *)
Definition processing (t : thread S) (x : string) : Prop := th_item t = Some x ∧ ¬ rescheduling (th_prog t).

(** C8 -- No sub-account is processed by two workers at the same time: from the moment [Queue.Get] hands an item to a worker until
    its last access to the cache, the metrics, the cluster or EDP is done, no other worker processes the same item; in
    particular [Queue.Done] is not called too early. *)
Theorem processing_exclusive s i j t u x : reachable env p s → running s i t → running s j u →
  processing t x → processing u x → i = j.
Proof.
  intros Hr Hi Hj [Ht Hpt] [Hu Hpu]. destruct (reachable_inv _ Hr) as [Hinv|Hhalt].
  - destruct (inv_items _ Hinv _ _ Hi) as [Hht|]; [|done]. destruct (inv_items _ Hinv _ _ Hj) as [Hhu|]; [|done].
    apply (inv_exclusive _ Hinv i j t u x); congruence.
  - by destruct (halted_setup s i t Hhalt Hi) as (-> & err & ->).
Qed.

(** A thread that runs alone to the end of its iteration. *)
Lemma solo_trace s i t w' : running s i t → run env (th_prog t) (sys_world s) = (Returned (), w') → ∃ n,
  trace env p (replicate n (Effect i) ++ [Finish i]) s = Some (set_thread i None w' s).
Proof.
  destruct t as [q item held]. intros Hi. simpl. revert s held Hi.
  induction q as [[]|X e k IH|msg|msg]; intros s held Hi; simpl; [|  |done|done].
  - intros [= <-]. exists 0%nat. simpl. unfold running in Hi. rewrite Hi. done.
  - intros Hrun. set (s1 := set_thread i (Some {| th_prog := k (handle_eff env e (sys_world s)).1; th_item := item;
      th_held := release held e |}) (handle_eff env e (sys_world s)).2 s).
    destruct (IH (handle_eff env e (sys_world s)).1 s1 (release held e)) as [n Hn]; [by eapply running_self|done|]. exists (Datatypes.S n). simpl.
    unfold running in Hi. rewrite Hi. fold s1. rewrite Hn. unfold set_thread, s1. simpl. by rewrite list_insert_insert_eq.
Qed.

(** C40 -- The write-back of a worker is not conditional on the record still being cached: when a cluster was removed from the cache
    after a worker had read its record, and before the worker's next call, the worker, left to run, ends its iteration, and
    then the cluster is queued again, and cached again exactly if the collection succeeded. *)
Theorem removed_cluster_resurrected s i t rec : running s i t →
  th_prog t = (requeue ← processRecord p rec (Effects.SubAccountID rec) (identifier i);
    call (QueueDone (Effects.SubAccountID rec));;
    if (requeue : bool) then call (QueueAddAfter (Effects.SubAccountID rec) (ScrapeInterval p)) else mret ()) →
  cache_get (Effects.SubAccountID rec) (sys_cache s) = None → ∃ requeue w' n s',
  run env (processRecord p rec (Effects.SubAccountID rec) (identifier i)) (sys_world s) = (Returned requeue, w') ∧
  trace env p (replicate n (Effect i) ++ [Finish i]) s = Some s' ∧
  Effects.SubAccountID rec ∈ q_pending (sys_queue s') ∧
  if requeue : bool then ∃ scans, cache_get (Effects.SubAccountID rec) (sys_cache s') = Some (ObjRecord (with_ScanMap rec scans))
  else cache_get (Effects.SubAccountID rec) (sys_cache s') = None.
Proof.
  intros Hi Hprog Hnone. destruct (processRecord_run env p rec (Effects.SubAccountID rec) (identifier i) (sys_world s))
    as (requeue & w' & Hrun & Hproc). exists requeue, w'.
  assert (Hall : ∃ w2, run env (th_prog t) (sys_world s) = (Returned (), w2) ∧ w_cache w2 = w_cache w' ∧
    q_pending (w_queue w2) = (if requeue then {[Effects.SubAccountID rec]} else ∅) ∪ q_pending (w_queue w')).
  { rewrite Hprog, run_bind, Hrun. destruct requeue; eexists; (split; [reflexivity|]); simpl;
      rewrite ?q_pending_add_after, q_pending_done; set_solver. }
  destruct Hall as (w2 & Hrun2 & Hc2 & Hq2). destruct (solo_trace s i t w2 Hi Hrun2) as [n Hn].
  exists n, (set_thread i None w2 s). split; [done|]. split; [done|]. unfold sys_cache, sys_queue, processed in *. simpl.
  rewrite Hc2, Hq2. destruct requeue.
  - destruct Hproc as [[scans ->] _]. split; [set_solver|]. exists scans. by rewrite cache_get_set, decide_True.
  - destruct Hproc as [-> ->]. rewrite q_pending_add_after. split; [set_solver|done].
Qed.
End invariant.

(** ** Concrete traces *)

Definition sample_request : HttpRequest :=
  {| Method := "GET"; URL := "https://keb/runtimes"; RawQuery := ""; Header := []; Body := "" |}.
Definition sample_start : system unit sample_cache simple_queue metric_map ttl_map :=
  {| sys_world := empty_world; sys_threads := [Some (setup (inl sample_request)); None; None] |}.

Lemma sample_start_initial : initial sample_start.
Proof. split; [reflexivity|]. eexists. split_and!; [done|reflexivity|]. eexists. split; [reflexivity|]. repeat constructor. Qed.

(** [n] effects of thread [i]. *)
Definition effects (i n : nat) : list action := replicate n (Effect i).

Abbreviation sample_trace l := (trace sample_env sample_process l sample_start).

(** KEB reports a cluster; worker 1 takes it and has read its record. *)
Definition trace_taken : list action :=
  [Finish 0; Poll (inl (sample_page [sample_runtime "ga" "sa-1" "shoot-a" false]))] ++ effects 0 15 ++ [Finish 0] ++
  [Take 1] ++ effects 1 2.
Definition sys_taken : system unit sample_cache simple_queue metric_map ttl_map := default sample_start (sample_trace trace_taken).

(** The trace is possible. *)
Definition completed (l : list action) : bool := match sample_trace l with Some _ => true | None => false end.

Lemma completed_reachable l : completed l = true →
  reachable sample_env sample_process (default sample_start (sample_trace l)).
Proof.
  unfold completed. destruct (sample_trace l) as [s|] eqn:Hs; [|done]. intros _.
  apply (trace_reachable _ _ l sample_start); [apply reachable_init, sample_start_initial|done].
Qed.

Lemma no_cluster_lost_witness : reachable sample_env sample_process sys_taken ∧
  is_Some (cache_get "sa-1" (sys_cache sys_taken)) ∧ "sa-1" ∉ q_pending (sys_queue sys_taken) ∧
  ∃ i t w', running sys_taken i t ∧ run sample_env (th_prog t) (sys_world sys_taken) = (Returned (), w') ∧
    (is_Some (cache_get "sa-1" (w_cache w')) → "sa-1" ∈ q_pending (w_queue w')).
Proof.
  assert (Hr : reachable sample_env sample_process sys_taken)
    by (apply completed_reachable; vm_compute; reflexivity).
  assert (Hc : is_Some (cache_get "sa-1" (sys_cache sys_taken))) by vm_decide.
  assert (Hn : "sa-1" ∉ q_pending (sys_queue sys_taken)) by vm_decide.
  split_and!; [exact Hr|exact Hc|exact Hn|].
  destruct (no_cluster_lost sample_env sample_process sys_taken "sa-1" Hr Hc) as [Hp|Hthread]; [|exact Hthread].
  destruct (Hn Hp).
Defined.

(** Thread [i] has this item and a call before it that is more than to reschedule. *)
Definition busy (s : system unit sample_cache simple_queue metric_map ttl_map) (i : nat) (x : string) : bool :=
  match sys_threads s !! i with
  | Some (Some t) =>
      bool_decide (th_item t = Some x) && match th_prog t with Ret _ | Vis (QueueAddAfter _ _) _ => false | _ => true end
  | _ => false
  end.

Lemma busy_processing s i x : busy s i x = true → ∃ t, running s i t ∧ processing t x.
Proof.
  unfold busy. destruct (sys_threads s !! i) as [[t|]|] eqn:Ht; [|done..].
  intros [Hx%bool_decide_eq_true Hp]%andb_prop. exists t. split; [exact Ht|]. split; [done|].
  destruct (th_prog t) as [|X e k| |]; [done| |by intros []..]. intros [He _]. by destruct e.
Qed.

(** Worker 1 processes the item, as the theorem says alone. *)
Lemma processing_exclusive_witness : ∃ t, reachable sample_env sample_process sys_taken ∧ running sys_taken 1 t ∧
  processing t "sa-1" ∧ ∀ j u, running sys_taken j u → processing u "sa-1" → 1%nat = j.
Proof.
  assert (Hr : reachable sample_env sample_process sys_taken)
    by (apply completed_reachable; vm_compute; reflexivity).
  destruct (busy_processing sys_taken 1 "sa-1") as (t & Ht & Hp); [vm_compute; reflexivity|].
  exists t. split_and!; [exact Hr|exact Ht|exact Hp|]. intros j u Hu Hx.
  exact (processing_exclusive sample_env sample_process sys_taken 1 j t u "sa-1" Hr Ht Hu Hp Hx).
Defined.

(** While worker 1 is collecting, KEB reports that the cluster is gone and the poller
    removes it; then the worker finishes. *)
Definition trace_resurrected : list action :=
  trace_taken ++ [Poll (inl (sample_page []))] ++ effects 0 16 ++ [Finish 0].
Definition sys_removed : system unit sample_cache simple_queue metric_map ttl_map :=
  default sample_start (sample_trace trace_resurrected).

(** What thread [i] has left to do. *)
Definition prog_of (i : nat) (s : system unit sample_cache simple_queue metric_map ttl_map) : prog unit unit :=
  match sys_threads s !! i with Some (Some t) => th_prog t | _ => mret () end.
Lemma prog_of_running i s t : running s i t → prog_of i s = th_prog t.
Proof. unfold prog_of, running. by intros ->. Qed.

Lemma removed_cluster_resurrected_witness : reachable sample_env sample_process sys_removed ∧
  cache_get "sa-1" (sys_cache sys_removed) = None ∧ ∃ n s',
  trace sample_env sample_process (replicate n (Effect 1) ++ [Finish 1]) sys_removed = Some s' ∧
  "sa-1" ∈ q_pending (sys_queue s') ∧ is_Some (cache_get "sa-1" (sys_cache s')).
Proof.
  assert (Hr : reachable sample_env sample_process sys_removed) by (apply completed_reachable; vm_compute; reflexivity).
  assert (Hn : cache_get "sa-1" (sys_cache sys_removed) = None) by (vm_compute; reflexivity).
  split_and!; [exact Hr|exact Hn|]. pose (rec := sample_record "sa-1" "shoot-a").
  destruct (busy_processing sys_removed 1 "sa-1") as (t & Ht & _); [vm_compute; reflexivity|].
  destruct (removed_cluster_resurrected sample_env sample_process sys_removed 1 t rec Ht) as (requeue & w' & n & s' & Hrun & Htr & Hq & Hc).
  - rewrite <- (prog_of_running 1 sys_removed t Ht). reflexivity.
  - exact Hn.
  - exists n, s'. split_and!; [exact Htr|exact Hq|].
    assert (Htrue : (run sample_env (processRecord sample_process rec "sa-1" 0) (sys_world sys_removed)).1 = Returned true)
      by (vm_compute; reflexivity).
    change (identifier 1) with 0 in Hrun. change (Effects.SubAccountID rec) with "sa-1" in Hrun. rewrite Hrun in Htrue.
    injection Htrue as ->. destruct Hc as [scans Hc]. eexists. exact Hc.
Defined.
