(* ===== verification/Retry.v ===== *)
(** * Retry: what the clients rely on of github.com/avast/retry-go

    [retry.DoWithData] with [retry.Attempts(n)], [n > 0], calls its argument until it
    succeeds, at most [n] times, waiting between two calls, and returns the value of the
    successful call or an error. *)
From S2P Require Import Prelude GoStd GoFloat Resource PvcScan Effects Libraries.
Local Open Scope Z_scope.
Local Open Scope list_scope.

Class Retry {QA : QuantityApi} (S : Type) :=
  DoWithData : ∀ A : Type, Z → Z → prog S (A + error) → prog S (A + error).
#[global] Arguments DoWithData {QA S _ A} _ _ _.

(** [n] calls are left at most; [f] is called from [w]; the result is [r] in [w'], after the calls [l] of the environment. *)
Inductive retried {QA : QuantityApi} {S C Q M T A : Type} {GC : GoCache (obj S) C} {WQ : WorkQueue Q}
    {PM : Prometheus M} {TC : TtlCache T} (env : Env) (f : prog S (A + error)) :
    nat → world C Q M T → list answered_call → A + error → world C Q M T → Prop :=
| retried_success n w a w' :
    run env f w = (Returned (inl a), w') → retried env f (Datatypes.S n) w (calls env f w) (inl a) w'
| retried_exhausted w e e' w' :
    run env f w = (Returned (inr e), w') → retried env f 1 w (calls env f w) (inr e') w'
| retried_again n w e w1 d l r w' :
    run env f w = (Returned (inr e), w1) → retried env f n (tick (Sleep d) w1) l r w' →
    retried env f (Datatypes.S n) w (calls env f w ++ existT _ (Sleep d, tt) :: l) r w'.

Class RetryLaws {QA : QuantityApi} (S : Type) {R : Retry S} : Prop := {
  retry_only {A} (P : ∀ X, eff S X → Prop) n d (f : prog S (A + error)) : (∀ d, P unit (Ext (Sleep d))) → 0 < n →
    only P f → only P (DoWithData n d f);
  retry_run {A C Q M T} {GC : GoCache (obj S) C} {WQ : WorkQueue Q} {PM : Prometheus M} {TC : TtlCache T}
      (env : Env) n d (f : prog S (A + error)) (w : world C Q M T) : 0 < n → quiet f →
    ∃ r w', run env (DoWithData n d f) w = (Returned r, w') ∧
      retried env f (Z.to_nat n) w (calls env (DoWithData n d f) w) r w';
}.

(** ** A retry loop with a constant delay *)

Fixpoint retry_loop {QA : QuantityApi} {S A} (n : nat) (d : Z) (f : prog S (A + error)) : prog S (A + error) :=
  match n with
  | O => mret (inr (extError 7 "All attempts fail"))
  | Datatypes.S n' =>
      r ← f;
      match r with
      | inl a => mret (inl a)
      | inr e => if decide (n' = O) then mret (inr (wrapError ("All attempts fail: " +:+ Error e) e))
                 else ext (Sleep d);; retry_loop n' d f
      end
  end.

#[global] Instance loop_Retry {QA : QuantityApi} {S} : Retry S := λ A n d f, retry_loop (Z.to_nat n) d f.

Lemma retry_loop_only {QA : QuantityApi} {S A} (P : ∀ X, eff S X → Prop) n d (f : prog S (A + error)) :
  (∀ d, P unit (Ext (Sleep d))) → only P f → only P (retry_loop n d f).
Proof.
  intros HP Hf. induction n as [|n IH]; [done|]. simpl. apply only_bind; [done|].
  intros [a|e]; [done|]. by case_decide.
Qed.

Lemma retry_loop_run {QA : QuantityApi} {S A C Q M T} {GC : GoCache (obj S) C} {WQ : WorkQueue Q} {PM : Prometheus M} {TC : TtlCache T}
    (env : Env) n d (f : prog S (A + error)) (w : world C Q M T) : n ≠ O → quiet f →
  ∃ r w', run env (retry_loop n d f) w = (Returned r, w') ∧ retried env f n w (calls env (retry_loop n d f) w) r w'.
Proof.
  intros Hn Hf. revert w. induction n as [|n IH]; intros w; [done|]. simpl retry_loop.
  destruct (run_quiet env f w Hf) as (r & w1 & Hrun & _). rewrite run_bind, calls_bind, Hrun.
  destruct r as [a|e]; [do 2 eexists; rewrite app_nil_r; split; [done|by econstructor]|].
  case_decide as Hz; [subst n; do 2 eexists; rewrite app_nil_r; split; [done|by econstructor]|].
  destruct (IH Hz (tick (Sleep d) w1)) as (r & w' & Hrun' & Hret). exists r, w'. split; [done|].
  simpl calls. destruct (env _ (Sleep d) _). by eapply retried_again.
Qed.

#[global] Instance loop_RetryLaws {QA : QuantityApi} {S} : RetryLaws S.
Proof.
  split.
  - intros A P n d f HP _ Hf. by apply retry_loop_only.
  - intros A C Q M T GC WQ PM TC env n d f w Hn Hf. apply retry_loop_run; [lia|done].
Qed.

(** ** What a retried function does and nothing else *)

(** [DoWithData] is made of calls of its argument and of waiting: what holds of these, and of everything composed of them, holds
    of it. *)
Class RetryComposes {QA : QuantityApi} (S : Type) {R : Retry S} : Prop :=
  retry_composed A (P : ∀ B, prog S B → Prop) n d (f : prog S (A + error)) : 0 < n →
    (∀ B (b : B), P B (mret b)) → (∀ B D (p : prog S B) (k : B → prog S D), P B p → (∀ b, P D (k b)) → P D (p ≫= k)) →
    (∀ d, P unit (ext (Sleep d))) → P _ f → P _ (DoWithData n d f).

#[global] Instance loop_RetryComposes {QA : QuantityApi} {S} : RetryComposes S.
Proof.
  intros A P n d f _ Hret Hbind Hsleep Hf. unfold DoWithData, loop_Retry. generalize (Z.to_nat n) as m.
  induction m as [|m IH]; [apply Hret|]. cbn [retry_loop]. apply Hbind; [exact Hf|]. intros [a|e]; [apply Hret|].
  case_decide; [apply Hret|]. apply Hbind; [apply Hsleep|]. by intros [].
Qed.
