(* ===== verification/EdpPayload.v ===== *)
(** * EdpPayload: the event sent to EDP ([pkg/collector/edp/payload.go]) *)
From S2P Require Import Prelude GoStd GoFloat Resource.
Local Open Scope Z_scope.
Local Open Scope list_scope.

Record networking := { ProvisionedVnets : Z; ProvisionedIPs : Z }.

(** The pointer [Networking] may be nil. *)
Record payload := {
  Payload_RuntimeID : string;
  Payload_SubAccountID : string;
  Payload_ShootName : string;
  Timestamp : string;
  Compute : EDPMeasurement;
  Networking : option networking;
}.

(** One iteration of the loop. *)
Definition aggregateStep (acc m : EDPMeasurement) : EDPMeasurement := {|
  VMTypes := VMTypes acc ++ VMTypes m;
  ProvisionedCPUs := fadd (ProvisionedCPUs acc) (ProvisionedCPUs m);
  ProvisionedRAMGb := fadd (ProvisionedRAMGb acc) (ProvisionedRAMGb m);
  Volumes := {|
    SizeGbTotal := add64 (SizeGbTotal (Volumes acc)) (SizeGbTotal (Volumes m));
    Count := add64 (Count (Volumes acc)) (Count (Volumes m));
    SizeGbRounded := add64 (SizeGbRounded (Volumes acc)) (SizeGbRounded (Volumes m));
  |};
|}.

Definition aggregateEDPMeasurements (EDPMeasurements : list EDPMeasurement) : EDPMeasurement :=
  foldl aggregateStep zeroMeasurement EDPMeasurements.

Definition newPayload (runtimeID subAccountID shootName timeStamp : string)
    (EDPMeasurements : list EDPMeasurement) : payload :=
  {| Payload_RuntimeID := runtimeID; Payload_SubAccountID := subAccountID; Payload_ShootName := shootName;
     Timestamp := timeStamp; Compute := aggregateEDPMeasurements EDPMeasurements; Networking := None |}.

(** ** Behaviour *)

Lemma aggregate_snoc ms m : aggregateEDPMeasurements (ms ++ [m]) = aggregateStep (aggregateEDPMeasurements ms) m.
Proof. unfold aggregateEDPMeasurements. by rewrite foldl_app. Qed.

Lemma aggregate_VMTypes ms : VMTypes (aggregateEDPMeasurements ms) = ms ≫= VMTypes.
Proof.
  induction ms as [|m ms IH] using rev_ind; [done|]. rewrite aggregate_snoc, bind_app. simpl.
  by rewrite IH, app_nil_r.
Qed.

(** A field summed with wrap-around is the sum, reduced once. *)
Lemma aggregate_sum (get : EDPMeasurement → Z) ms : get zeroMeasurement = 0 →
  (∀ acc m, get (aggregateStep acc m) = add64 (get acc) (get m)) →
  get (aggregateEDPMeasurements ms) = wrap64 (Zsum (get <$> ms)).
Proof.
  intros H0 Hstep. induction ms as [|m ms IH] using rev_ind; [done|].
  rewrite aggregate_snoc, Hstep, IH, fmap_app, Zsum_app. unfold add64. rewrite wrap64_wrap_l.
  simpl fmap. by rewrite Zsum_singleton.
Qed.

Lemma aggregate_volumes ms : Volumes (aggregateEDPMeasurements ms) =
  {| SizeGbTotal := wrap64 (Zsum ((SizeGbTotal ∘ Volumes) <$> ms));
     Count := wrap64 (Zsum ((Count ∘ Volumes) <$> ms));
     SizeGbRounded := wrap64 (Zsum ((SizeGbRounded ∘ Volumes) <$> ms)) |}.
Proof.
  rewrite <- (aggregate_sum (SizeGbTotal ∘ Volumes)), <- (aggregate_sum (Count ∘ Volumes)),
    <- (aggregate_sum (SizeGbRounded ∘ Volumes)) by done. simpl.
  by destruct (Volumes (aggregateEDPMeasurements ms)).
Qed.

(** A float field whose values are whole numbers is summed exactly. *)
Lemma aggregate_float (get : EDPMeasurement → float64) (z : EDPMeasurement → Z) ms :
  get zeroMeasurement = float64_of_int64 0 →
  (∀ acc m, get (aggregateStep acc m) = fadd (get acc) (get m)) →
  Forall (λ m, get m = float64_of_int64 (z m) ∧ 0 ≤ z m) ms → Zsum (z <$> ms) < 2 ^ 53 →
  get (aggregateEDPMeasurements ms) = float64_of_int64 (Zsum (z <$> ms)).
Proof.
  intros H0 Hstep. induction ms as [|m ms IH] using rev_ind; intros Hall Hsum; [done|].
  apply Forall_app in Hall as [Hall [[Hm Hz] _]%Forall_cons].
  rewrite fmap_app, Zsum_app in *. simpl fmap in *. rewrite Zsum_singleton in *.
  assert (0 ≤ Zsum (z <$> ms)).
  { apply Zsum_nonneg, Forall_fmap. eapply Forall_impl; [done|]. by intros ? []. }
  rewrite aggregate_snoc, Hstep, IH, Hm, fadd_int by (done || lia). done.
Qed.

(** If all values but one are zero, the sum is the remaining one. *)
Lemma fadd_zero_l x : fadd (S754_zero false) x ≠ S754_zero true ∧ (x ≠ S754_zero true → fadd (S754_zero false) x = x).
Proof. by destruct x as [[]|[]| |]. Qed.

Lemma aggregate_zeros (get : EDPMeasurement → float64) acc ms :
  (∀ acc m, get (aggregateStep acc m) = fadd (get acc) (get m)) → get acc ≠ S754_zero true →
  Forall (λ m, get m = S754_zero false) ms → get (foldl aggregateStep acc ms) = get acc.
Proof.
  intros Hstep Hacc Hms. revert acc Hacc. induction Hms as [|m ms Hm _ IH]; intros acc Hacc; [done|].
  assert (Hget : get (aggregateStep acc m) = get acc) by (rewrite Hstep, Hm; by destruct (get acc) as [[]|[]| |]).
  simpl. rewrite IH; rewrite Hget; done.
Qed.

Lemma aggregate_source (get : EDPMeasurement → float64) ms m rest : get zeroMeasurement = S754_zero false →
  (∀ acc m, get (aggregateStep acc m) = fadd (get acc) (get m)) →
  ms ≡ₚ m :: rest → Forall (λ m', get m' = S754_zero false) rest →
  get (aggregateEDPMeasurements ms) = fadd (S754_zero false) (get m).
Proof.
  intros H0 Hstep Hms Hrest.
  destruct (list_elem_of_split ms m) as (l1 & l2 & ->); [rewrite Hms; by apply list_elem_of_here|].
  rewrite <- Permutation_middle in Hms. apply Permutation_cons_inv in Hms. rewrite <- Hms in Hrest.
  apply Forall_app in Hrest as [H1 H2]. unfold aggregateEDPMeasurements. rewrite foldl_app. cbn [foldl].
  assert (Hm : get (aggregateStep (foldl aggregateStep zeroMeasurement l1) m) = fadd (S754_zero false) (get m)).
  { rewrite Hstep. rewrite aggregate_zeros; rewrite ?H0; done. }
  rewrite aggregate_zeros; rewrite ?Hm; try done. apply fadd_zero_l.
Qed.

(** C30 -- What EDP is sent does not depend on the order in which Go ranges over the scans: permuting the measurements permutes
    the machine types and leaves all volume totals, wrap-around included, as they are.  The same holds for the totals of CPU
    and of memory if at most one of the measurements has such a value, as only the scan of the nodes has, and then the total
    is this value, fractional or not; and if all values are whole numbers with a sum below [2^53], which is then the total.
    (Fractional values of several measurements are rounded at each addition; their total may depend on the order.) *)
Theorem aggregate_order_independent ms ms' : ms ≡ₚ ms' →
  VMTypes (aggregateEDPMeasurements ms) ≡ₚ VMTypes (aggregateEDPMeasurements ms') ∧
  Volumes (aggregateEDPMeasurements ms) = Volumes (aggregateEDPMeasurements ms') ∧
  ∀ total, total = ProvisionedCPUs ∨ total = ProvisionedRAMGb →
    (∀ m rest, ms ≡ₚ m :: rest → Forall (λ m', total m' = S754_zero false) rest →
       total (aggregateEDPMeasurements ms) = total (aggregateEDPMeasurements ms') ∧
       (total m ≠ S754_zero true → total (aggregateEDPMeasurements ms) = total m)) ∧
    (∀ whole : EDPMeasurement → Z, Forall (λ m, total m = float64_of_int64 (whole m) ∧ 0 ≤ whole m) ms →
       Zsum (whole <$> ms) < 2 ^ 53 →
       total (aggregateEDPMeasurements ms) = float64_of_int64 (Zsum (whole <$> ms)) ∧
       total (aggregateEDPMeasurements ms') = float64_of_int64 (Zsum (whole <$> ms))).
Proof.
  intros Hp.
  assert (Hsum : ∀ f : EDPMeasurement → Z, Zsum (f <$> ms) = Zsum (f <$> ms')).
  { intros f. apply Zsum_perm. by apply Permutation_map. }
  split; [rewrite !aggregate_VMTypes; by rewrite Hp|]. split; [rewrite !aggregate_volumes; by rewrite !Hsum|].
  intros total Htotal. assert (H0 : total zeroMeasurement = S754_zero false) by by destruct Htotal as [->| ->].
  assert (Hstep : ∀ acc m, total (aggregateStep acc m) = fadd (total acc) (total m)) by by destruct Htotal as [->| ->].
  split.
  - intros m rest Hm Hrest. rewrite (aggregate_source total ms m rest), (aggregate_source total ms' m rest) by (done || by rewrite <- Hp).
    split; [done|]. apply fadd_zero_l.
  - intros whole Hall Hlt. split; [by apply aggregate_float|]. rewrite Hsum. apply aggregate_float; try done; [by rewrite <- Hp|].
    by rewrite <- Hsum.
Qed.

(** Aggregating equivalent measurements gives equivalent totals. *)
#[global] Instance aggregate_proper : Proper (Forall2 (≡) ==> (≡)) aggregateEDPMeasurements.
Proof.
  intros ms ms' Hms. unfold aggregateEDPMeasurements.
  generalize zeroMeasurement as acc. assert (Hrefl : ∀ a : EDPMeasurement, a ≡ a) by done.
  intros acc. generalize (Hrefl acc). generalize acc at 2 4 as acc'. revert acc.
  induction Hms as [|m m' ms ms' (Hv & Hc & Hr & Hvol) _ IH]; intros acc acc' Hacc; simpl; [done|].
  apply IH. destruct Hacc as (Hv' & Hc' & Hr' & Hvol').
  split_and!; simpl; [by rewrite Hv, Hv'|congruence..].
Qed.

(** ** Example *)

Definition sample_compute : EDPMeasurement :=
  {| VMTypes := [{| Name := "m5.large"; VMCount := 2 |}]; ProvisionedCPUs := float64_of_int64 4;
     ProvisionedRAMGb := float64_of_int64 16; Volumes := zeroVolumes |}.
Definition sample_storage : EDPMeasurement :=
  {| VMTypes := []; ProvisionedCPUs := float64_of_int64 0; ProvisionedRAMGb := float64_of_int64 0;
     Volumes := {| SizeGbTotal := 20; Count := 1; SizeGbRounded := 32 |} |}.

Lemma aggregate_order_independent_witness :
  VMTypes (aggregateEDPMeasurements [sample_compute; sample_storage]) ≡ₚ
    VMTypes (aggregateEDPMeasurements [sample_storage; sample_compute]) ∧
  ProvisionedRAMGb (aggregateEDPMeasurements [sample_storage; sample_compute]) = float64_of_int64 16.
Proof.
  destruct (aggregate_order_independent [sample_storage; sample_compute] [sample_compute; sample_storage]) as (Hvm & _ & Htotal).
  { apply Permutation_swap. }
  destruct (Htotal ProvisionedRAMGb (or_intror eq_refl)) as [Hone _].
  destruct (Hone sample_compute [sample_storage]) as [_ Hram]; [apply Permutation_swap|by repeat constructor|].
  split; [symmetry; exact Hvm|]. apply Hram. discriminate.
Defined.

(** The limits: three measurements with fractional values. *)
Definition fractional (x : float64) : EDPMeasurement :=
  {| VMTypes := []; ProvisionedCPUs := x; ProvisionedRAMGb := S754_zero false; Volumes := zeroVolumes |}.
Definition tenths (n : Z) : float64 := fdiv (float64_of_int64 n) (float64_of_int64 10).

Example fractions_depend_on_order :
  ProvisionedCPUs (aggregateEDPMeasurements [fractional (tenths 1); fractional (tenths 2); fractional (tenths 3)]) ≠
  ProvisionedCPUs (aggregateEDPMeasurements [fractional (tenths 3); fractional (tenths 2); fractional (tenths 1)]).
Proof. vm_compute. discriminate. Qed.
