(* ===== verification/PayloadJson.v ===== *)
(** * PayloadJson: the event on the wire

    [json.Marshal] of the payload, field by field as the struct tags of
    [pkg/collector/edp/payload.go] and [pkg/resource/structures.go] say; the schema EDP holds
    events against ([docs/contributor/assets/prod-schema.json]); what the two make of each other. *)
From S2P Require Import Prelude GoStd GoFloat Resource Decimal Json EdpPayload.
Local Open Scope Z_scope.
Local Open Scope list_scope.

(** ** Encoding *)

Definition member (k : string) (j : json) : text * json := (txt k, j).
Definition ofString (s : string) : json := JStr (String.list_ascii_of_string s).
Definition ofInt (z : Z) : json := JNum (number_of_int z).

(** [strconv.FormatFloat(f, 'g', -1, 64)] of a value that JSON does not have. *)
Definition unsupported (f : float64) : string :=
  match f with S754_infinity neg => if neg then "-Inf" else "+Inf" | _ => "NaN" end.

Definition ofFloat (f : float64) : json + error :=
  match number_of_float f with
  | Some n => inl (JNum n)
  | None => inr (errorString ("json: unsupported value: " +:+ unsupported f))
  end.

Definition ofVMType (v : VMType) : json :=
  JObj [member "name" (ofString (Name v)); member "count" (ofInt (VMCount v))].

(** A nil slice becomes [null]; the aggregated slice is nil if nothing was appended to it. *)
Definition ofVMTypes (l : list VMType) : json :=
  match l with [] => JNull | _ => JArr (ofVMType <$> l) end.

Definition ofVolumes (v : ProvisionedVolumes) : json :=
  JObj [member "size_gb_total" (ofInt (SizeGbTotal v)); member "count" (ofInt (Count v));
        member "size_gb_rounded" (ofInt (SizeGbRounded v))].

Definition ofMeasurement (m : EDPMeasurement) : json + error :=
  match ofFloat (ProvisionedCPUs m) with
  | inr err => inr err
  | inl cpus =>
      match ofFloat (ProvisionedRAMGb m) with
      | inr err => inr err
      | inl ram =>
          inl (JObj [member "vm_types" (ofVMTypes (VMTypes m)); member "provisioned_cpus" cpus;
                     member "provisioned_ram_gb" ram; member "provisioned_volumes" (ofVolumes (Volumes m))])
      end
  end.

Definition ofNetworking (n : networking) : json :=
  JObj [member "provisioned_vnets" (ofInt (ProvisionedVnets n)); member "provisioned_ips" (ofInt (ProvisionedIPs n))].

(** [omitempty]: a nil pointer has no member. *)
Definition ofPayload (pl : payload) : json + error :=
  match ofMeasurement (Compute pl) with
  | inr err => inr err
  | inl compute =>
      inl (JObj ([member "runtime_id" (ofString (Payload_RuntimeID pl));
                  member "sub_account_id" (ofString (Payload_SubAccountID pl));
                  member "shoot_name" (ofString (Payload_ShootName pl));
                  member "timestamp" (ofString (Timestamp pl));
                  member "compute" compute] ++
                 match Networking pl with None => [] | Some n => [member "networking" (ofNetworking n)] end))
  end.

Definition Marshal (pl : payload) : string + error :=
  match ofPayload pl with inl j => inl (to_string j) | inr err => inr err end.

(** ** Decoding *)

Definition toString (j : json) : option string :=
  match j with JStr s => Some (String.string_of_list_ascii s) | _ => None end.
Definition toInt (j : json) : option Z := match j with JNum n => int_of_number n | _ => None end.
Definition toFloat (j : json) : option float64 := match j with JNum n => Some (float_of_number n) | _ => None end.

Definition toVMType (j : json) : option VMType :=
  name ← get "name" j ≫= toString; count ← get "count" j ≫= toInt;
  Some {| Name := name; VMCount := count |}.
Definition toVMTypes (j : json) : option (list VMType) :=
  match j with JNull => Some [] | JArr l => mapM toVMType l | _ => None end.

Definition toVolumes (j : json) : option ProvisionedVolumes :=
  total ← get "size_gb_total" j ≫= toInt; count ← get "count" j ≫= toInt;
  rounded ← get "size_gb_rounded" j ≫= toInt;
  Some {| SizeGbTotal := total; Count := count; SizeGbRounded := rounded |}.

Definition toMeasurement (j : json) : option EDPMeasurement :=
  vms ← get "vm_types" j ≫= toVMTypes; cpus ← get "provisioned_cpus" j ≫= toFloat;
  ram ← get "provisioned_ram_gb" j ≫= toFloat; volumes ← get "provisioned_volumes" j ≫= toVolumes;
  Some {| VMTypes := vms; ProvisionedCPUs := cpus; ProvisionedRAMGb := ram; Volumes := volumes |}.

Definition toNetworking (j : json) : option networking :=
  vnets ← get "provisioned_vnets" j ≫= toInt; ips ← get "provisioned_ips" j ≫= toInt;
  Some {| ProvisionedVnets := vnets; ProvisionedIPs := ips |}.

Definition toPayload (j : json) : option payload :=
  runtimeID ← get "runtime_id" j ≫= toString; subAccountID ← get "sub_account_id" j ≫= toString;
  shootName ← get "shoot_name" j ≫= toString; timestamp ← get "timestamp" j ≫= toString;
  compute ← get "compute" j ≫= toMeasurement;
  networking ← match get "networking" j with None => Some None | Some n => Some <$> toNetworking n end;
  Some {| Payload_RuntimeID := runtimeID; Payload_SubAccountID := subAccountID; Payload_ShootName := shootName;
          Timestamp := timestamp; Compute := compute; Networking := networking |}.

Definition Unmarshal (s : string) : option payload := of_string s ≫= toPayload.

(** ** The round trip *)

(** [utf8.ValidString] *)
Definition ValidString (s : string) : Prop := valid_utf8 (String.list_ascii_of_string s) = true.

(** Its strings are UTF-8. *)
Record payload_utf8 (pl : payload) : Prop := {
  utf8_RuntimeID : ValidString (Payload_RuntimeID pl);
  utf8_SubAccountID : ValidString (Payload_SubAccountID pl);
  utf8_ShootName : ValidString (Payload_ShootName pl);
  utf8_Timestamp : ValidString (Timestamp pl);
  utf8_VMTypes : Forall (λ v, ValidString (Name v)) (VMTypes (Compute pl));
}.

Lemma toString_ofString s : toString (ofString s) = Some s.
Proof. simpl. by rewrite String.string_of_list_ascii_of_string. Qed.

Lemma toInt_ofInt z : toInt (ofInt z) = Some z.
Proof. apply int_of_number_of_int. Qed.

Lemma toFloat_ofFloat f j : ofFloat f = inl j → toFloat j = Some f ∧ json_ok j.
Proof.
  unfold ofFloat. destruct (number_of_float f) as [n|] eqn:Hn; [|done]. intros [= <-].
  apply number_of_float_reads in Hn as [Hok <-]. done.
Qed.

Lemma toVMType_ofVMType v : toVMType (ofVMType v) = Some v.
Proof.
  unfold toVMType. change (get "name" (ofVMType v)) with (Some (ofString (Name v))).
  change (get "count" (ofVMType v)) with (Some (ofInt (VMCount v))). cbn [mbind option_bind].
  rewrite toString_ofString, toInt_ofInt. by destruct v.
Qed.

Lemma toVMTypes_ofVMTypes l : toVMTypes (ofVMTypes l) = Some l.
Proof.
  destruct l as [|v l]; [done|]. unfold ofVMTypes, toVMTypes. apply mapM_Some. apply Forall2_fmap_l.
  apply Forall_Forall2_diag. apply Forall_true. intros x. apply toVMType_ofVMType.
Qed.

Lemma toVolumes_ofVolumes v : toVolumes (ofVolumes v) = Some v.
Proof.
  unfold toVolumes. change (get "size_gb_total" (ofVolumes v)) with (Some (ofInt (SizeGbTotal v))).
  change (get "count" (ofVolumes v)) with (Some (ofInt (Count v))).
  change (get "size_gb_rounded" (ofVolumes v)) with (Some (ofInt (SizeGbRounded v))). cbn [mbind option_bind].
  rewrite !toInt_ofInt. by destruct v.
Qed.

Lemma toNetworking_ofNetworking n : toNetworking (ofNetworking n) = Some n.
Proof.
  unfold toNetworking. change (get "provisioned_vnets" (ofNetworking n)) with (Some (ofInt (ProvisionedVnets n))).
  change (get "provisioned_ips" (ofNetworking n)) with (Some (ofInt (ProvisionedIPs n))). cbn [mbind option_bind].
  rewrite !toInt_ofInt. by destruct n.
Qed.

Lemma toMeasurement_ofMeasurement m j : ofMeasurement m = inl j → toMeasurement j = Some m.
Proof.
  unfold ofMeasurement. destruct (ofFloat (ProvisionedCPUs m)) as [cpus|] eqn:Hc; [|done].
  destruct (ofFloat (ProvisionedRAMGb m)) as [ram|] eqn:Hr; [|done]. intros [= <-].
  apply toFloat_ofFloat in Hc as [Hc _], Hr as [Hr _]. unfold toMeasurement. set (o := JObj _).
  change (get "vm_types" o) with (Some (ofVMTypes (VMTypes m))). change (get "provisioned_cpus" o) with (Some cpus).
  change (get "provisioned_ram_gb" o) with (Some ram). change (get "provisioned_volumes" o) with (Some (ofVolumes (Volumes m))).
  cbn [mbind option_bind]. rewrite toVMTypes_ofVMTypes, Hc, Hr, toVolumes_ofVolumes. by destruct m.
Qed.

Lemma toPayload_ofPayload pl j : ofPayload pl = inl j → toPayload j = Some pl.
Proof.
  unfold ofPayload. destruct (ofMeasurement (Compute pl)) as [compute|] eqn:Hc; [|done]. intros [= <-].
  apply toMeasurement_ofMeasurement in Hc. unfold toPayload. set (o := JObj _).
  change (get "runtime_id" o) with (Some (ofString (Payload_RuntimeID pl))).
  change (get "sub_account_id" o) with (Some (ofString (Payload_SubAccountID pl))).
  change (get "shoot_name" o) with (Some (ofString (Payload_ShootName pl))).
  change (get "timestamp" o) with (Some (ofString (Timestamp pl))). change (get "compute" o) with (Some compute).
  assert (get "networking" o = ofNetworking <$> Networking pl) as -> by (unfold o; by destruct (Networking pl)).
  cbn [mbind option_bind]. rewrite !toString_ofString, Hc. cbn [mbind option_bind].
  destruct pl as [? ? ? ? ? [n|]]; [|done]. cbn [fmap option_fmap option_map EdpPayload.Networking]. rewrite toNetworking_ofNetworking. done.
Qed.

(** The names of the fields are ASCII. *)
Lemma ofInt_ok z : json_ok (ofInt z).
Proof. apply number_of_int_ok. Qed.

Lemma ofVMTypes_ok l : Forall (λ v, ValidString (Name v)) l → json_ok (ofVMTypes l).
Proof.
  intros Hl. assert (Hall : json_ok (JArr (ofVMType <$> l))).
  { apply foldr_and_Forall, Forall_fmap. eapply Forall_impl; [exact Hl|]. intros v Hv.
    repeat split; [exact Hv|apply number_of_int_ok..]. }
  by destruct l.
Qed.

Lemma ofMeasurement_ok m j : ofMeasurement m = inl j → Forall (λ v, ValidString (Name v)) (VMTypes m) → json_ok j.
Proof.
  unfold ofMeasurement. destruct (ofFloat (ProvisionedCPUs m)) as [cpus|] eqn:Hc; [|done].
  destruct (ofFloat (ProvisionedRAMGb m)) as [ram|] eqn:Hr; [|done]. intros [= <-] Hv.
  apply toFloat_ofFloat in Hc as [_ Hc], Hr as [_ Hr]. repeat split; try done; try apply number_of_int_ok.
  by apply ofVMTypes_ok.
Qed.

Lemma ofPayload_ok pl j : ofPayload pl = inl j → payload_utf8 pl → json_ok j.
Proof.
  unfold ofPayload. destruct (ofMeasurement (Compute pl)) as [compute|] eqn:Hc; [|done]. intros [= <-] [].
  apply ofMeasurement_ok in Hc; [|done]. destruct (Networking pl); repeat split; try done; apply number_of_int_ok.
Qed.

Lemma Marshal_decodes pl s : payload_utf8 pl → Marshal pl = inl s → Unmarshal s = Some pl.
Proof.
  intros Hutf Hs. unfold Marshal in Hs. destruct (ofPayload pl) as [j|] eqn:Hj; [|done]. injection Hs as <-.
  unfold Unmarshal. rewrite of_to_string by eauto using ofPayload_ok. by apply toPayload_ofPayload.
Qed.

(** C6 -- What EDP reads is what the collector sent: the text [json.Marshal] makes of a payload
    decodes to the same payload, every number included (the shortest decimals that
    identify the floats, and all integers), if its strings are UTF-8. *)
Theorem Marshal_roundtrip pl s : payload_utf8 pl → Marshal pl = inl s → Unmarshal s = Some pl.
Proof. apply Marshal_decodes. Qed.

(** Its sums are numbers of ordinary size. *)
Definition payload_ordinary (pl : payload) : Prop :=
  ordinary (ProvisionedCPUs (Compute pl)) ∧ ordinary (ProvisionedRAMGb (Compute pl)).

Lemma ofFloat_total f : ordinary f → ∃ n, ofFloat f = inl (JNum n).
Proof. intros [n Hn]%number_of_float_total. exists n. unfold ofFloat. by rewrite Hn. Qed.

Lemma ofPayload_total pl : payload_ordinary pl → ∃ j, ofPayload pl = inl j.
Proof.
  intros [[c Hc]%ofFloat_total [r Hr]%ofFloat_total]. unfold ofPayload, ofMeasurement. rewrite Hc, Hr. by eexists.
Qed.

(** ** The schema *)

(** The part of JSON Schema that the event's schema uses; formats, titles, defaults and examples
    constrain nothing. *)
Inductive schema :=
| TString
| TInteger
| TNumber
| TArray (items : schema)
| TObject (properties : list (string * schema)) (required : list string).

Fixpoint validates (s : schema) (j : json) : bool :=
  match s, j with
  | TString, JStr _ => true
  | TInteger, JNum n => bool_decide (is_Some (int_of_number n))
  | TNumber, JNum _ => true
  | TArray items, JArr l => forallb (validates items) l
  | TObject properties required, JObj l =>
      forallb (λ p, match assoc (txt p.1) l with None => true | Some j => validates p.2 j end) properties &&
      forallb (λ k, bool_decide (is_Some (assoc (txt k) l))) required
  | _, _ => false
  end.

Definition vm_types_schema : schema :=
  TArray (TObject [("name", TString); ("count", TInteger)] ["name"; "count"]).
Definition compute_schema : schema :=
  TObject [("vm_types", vm_types_schema); ("provisioned_cpus", TNumber); ("provisioned_ram_gb", TNumber);
           ("provisioned_volumes", TObject [("size_gb_total", TNumber); ("count", TNumber); ("size_gb_rounded", TNumber)]
              ["size_gb_total"; "count"; "size_gb_rounded"])]
    ["vm_types"; "provisioned_cpus"; "provisioned_ram_gb"; "provisioned_volumes"].
Definition prod_schema : schema :=
  TObject [("runtime_id", TString); ("timestamp", TString); ("sub_account_id", TString); ("shoot_name", TString);
           ("networking", TObject [("provisioned_vnets", TInteger); ("provisioned_ips", TInteger)]
              ["provisioned_vnets"; "provisioned_ips"]);
           ("compute", compute_schema)]
    ["timestamp"; "compute"].

(** The text is an event of the schema. *)
Definition accepted (s : string) : bool :=
  match of_string s with Some j => validates prod_schema j | None => false end.

Lemma validates_int z : validates TInteger (ofInt z) = true.
Proof. unfold ofInt, validates. by rewrite int_of_number_of_int. Qed.

(** Checking one property and one requirement of an object. *)
Definition property_ok (l : list (text * json)) (k : string) (s : schema) : bool :=
  match assoc (txt k) l with None => true | Some j => validates s j end.

Lemma property_present l k s j : assoc (txt k) l = Some j → property_ok l k s = validates s j.
Proof. unfold property_ok. by intros ->. Qed.

Lemma validates_vm_types l : validates vm_types_schema (ofVMTypes l) = bool_decide (l ≠ []).
Proof.
  destruct l as [|v l]; [done|]. rewrite bool_decide_true by done.
  change (forallb (validates (TObject [("name", TString); ("count", TInteger)] ["name"; "count"]))
    (ofVMType <$> v :: l) = true).
  apply forallb_forall. intros j Hj. apply list_elem_of_In, list_elem_of_fmap in Hj as (v' & -> & _).
  change ((property_ok [member "name" (ofString (Name v')); member "count" (ofInt (VMCount v'))] "count" TInteger && true)
    && true = true).
  rewrite (property_present _ _ _ (ofInt (VMCount v'))) by done. by rewrite validates_int.
Qed.

Lemma validates_measurement m j : ofMeasurement m = inl j →
  validates compute_schema j = bool_decide (VMTypes m ≠ []).
Proof.
  unfold ofMeasurement. destruct (ofFloat (ProvisionedCPUs m)) as [cpus|] eqn:Hc; [|done].
  destruct (ofFloat (ProvisionedRAMGb m)) as [ram|] eqn:Hr; [|done]. intros [= <-].
  apply toFloat_ofFloat in Hc as [Hc _], Hr as [Hr _]. destruct cpus; try done. destruct ram; try done.
  set (l := [member "vm_types" _; _; _; _]).
  change ((property_ok l "vm_types" vm_types_schema && true) && true = bool_decide (VMTypes m ≠ [])).
  rewrite (property_present _ _ _ (ofVMTypes (VMTypes m))) by done. by rewrite validates_vm_types, !andb_true_r.
Qed.

Lemma validates_payload pl j : ofPayload pl = inl j →
  validates prod_schema j = bool_decide (VMTypes (Compute pl) ≠ []).
Proof.
  unfold ofPayload. destruct (ofMeasurement (Compute pl)) as [compute|] eqn:Hc; [|done]. intros [= <-].
  apply validates_measurement in Hc. destruct (Networking pl) as [n|]; set (l := member "runtime_id" _ :: _).
  - change (((validates TInteger (ofInt (ProvisionedVnets n)) && (validates TInteger (ofInt (ProvisionedIPs n)) && true))
      && true && (validates compute_schema compute && true)) && true = bool_decide (VMTypes (Compute pl) ≠ [])).
    by rewrite !validates_int, Hc, !andb_true_r.
  - change ((validates compute_schema compute && true) && true = bool_decide (VMTypes (Compute pl) ≠ [])).
    by rewrite Hc, !andb_true_r.
Qed.

(** C18 -- The event against its schema: with sums of ordinary size, [json.Marshal] succeeds, and the
    text is an event of the schema EDP holds it against if and only if the payload has a machine
    type.  Without one the slice is nil and encoded as [null], where the schema demands an array. *)
Theorem Marshal_schema pl : payload_utf8 pl → payload_ordinary pl → ∃ s,
  Marshal pl = inl s ∧ (accepted s = true ↔ VMTypes (Compute pl) ≠ []).
Proof.
  intros Hutf [j Hj]%ofPayload_total. exists (to_string j). unfold Marshal, accepted. rewrite Hj.
  split; [done|]. rewrite of_to_string by eauto using ofPayload_ok. by rewrite (validates_payload pl), bool_decide_eq_true.
Qed.

(** A sum that is not a number makes [json.Marshal] fail, naming the value. *)
Lemma Marshal_unsupported pl f : ProvisionedCPUs (Compute pl) = f → f ∈ [S754_nan; S754_infinity false; S754_infinity true] →
  Marshal pl = inr (errorString ("json: unsupported value: " +:+ unsupported f)).
Proof.
  intros Hf Hin. unfold Marshal, ofPayload, ofMeasurement, ofFloat. rewrite Hf.
  rewrite !elem_of_cons, elem_of_nil in Hin. by destruct Hin as [->|[->|[->|[]]]].
Qed.

(** ** Example *)

(** The aggregated measurements of a cluster with two machines and one volume. *)
Definition sample_payload : payload :=
  newPayload "rt-1" "sa-1" "c-7ea3c81" "2020-03-25T09:16:41Z" [sample_compute; sample_storage].

Example sample_payload_text : Marshal sample_payload = inl (dequote
  ("{'runtime_id':'rt-1','sub_account_id':'sa-1','shoot_name':'c-7ea3c81','timestamp':'2020-03-25T09:16:41Z'," +:+
   "'compute':{'vm_types':[{'name':'m5.large','count':2}],'provisioned_cpus':4,'provisioned_ram_gb':16," +:+
   "'provisioned_volumes':{'size_gb_total':20,'count':1,'size_gb_rounded':32}}}")).
Proof. vm_compute. reflexivity. Qed.

Lemma Marshal_roundtrip_witness : ∃ s, Marshal sample_payload = inl s ∧ Unmarshal s = Some sample_payload.
Proof.
  assert (Hs : ∃ s, Marshal sample_payload = inl s) by (eexists; vm_compute; reflexivity).
  destruct Hs as [s Hs]. exists s. split; [exact Hs|].
  apply (Marshal_roundtrip sample_payload s); [|exact Hs]. repeat constructor.
Defined.

(** Only a volume: the nodes could not be scanned. *)
Definition storage_payload : payload :=
  newPayload "rt-1" "sa-1" "c-7ea3c81" "2020-03-25T09:16:41Z" [sample_storage].

Lemma Marshal_schema_witness :
  (∃ s, Marshal sample_payload = inl s ∧ accepted s = true) ∧
  (∃ s, Marshal storage_payload = inl s ∧ accepted s ≠ true).
Proof.
  split.
  - destruct (Marshal_schema sample_payload) as (s & Hs & Hacc); [repeat constructor|vm_compute; split_and!; done|].
    exists s. split; [exact Hs|]. apply Hacc. vm_compute. discriminate.
  - destruct (Marshal_schema storage_payload) as (s & Hs & Hacc); [repeat constructor|vm_compute; split_and!; done|].
    exists s. split; [exact Hs|]. intros Htrue. apply Hacc in Htrue. apply Htrue. vm_compute. reflexivity.
Defined.
