(* ===== verification/EdpClient.v ===== *)
(** * EdpClient: sending events to EDP ([pkg/collector/edp/client.go]) *)
From S2P Require Import Prelude GoStd GoFloat Logger Resource PvcScan Effects Libraries Retry Process Samples.
Local Open Scope Z_scope.
Local Open Scope list_scope.

(** [edp.Config]; durations are nanoseconds, [EventRetry] is an [int]. *)
Record Config := {
  Config_URL : string;
  Namespace : string;
  DataStreamName : string;
  DataStreamVersion : string;
  DataStreamEnv : string;
  Config_Timeout : Z;
  EventRetry : Z;
  Token : string;
}.

(** [edpConfig.Token = token], in [main] *)
Definition with_Token (c : Config) (token : string) : Config :=
  {| Config_URL := Config_URL c; Namespace := Namespace c; DataStreamName := DataStreamName c;
     DataStreamVersion := DataStreamVersion c; DataStreamEnv := DataStreamEnv c;
     Config_Timeout := Config_Timeout c; EventRetry := EventRetry c; Token := token |}.

Definition contentType : string := "application/json;charset=utf-8".
Definition userAgentKMC : string := "kyma-metrics-collector".
Definition userAgentKeyHeader : string := "User-Agent".
Definition contentTypeKeyHeader : string := "Content-Type".
Definition authorizationKeyHeader : string := "Authorization".
Definition tenantIdPlaceholder : string := "<subAccountId>".
Definition retryInterval : Z := 10 * 10 ^ 9.
Definition StatusCreated : Z := 201.
Definition StatusBadRequest : Z := 400.
Definition StatusRequestTimeout : Z := 408.

Definition clientName : string := "edp-client".

(** [uint(n)] of an [int]. *)
Definition uint64_of_int (n : Z) : Z := n mod 2 ^ 64.

Definition getEDPURL (c : Config) (dataTenant : string) : string :=
  Config_URL c +:+ "/namespaces/" +:+ Namespace c +:+ "/dataStreams/" +:+ DataStreamName c +:+ "/" +:+
  DataStreamVersion c +:+ "/dataTenants/" +:+ dataTenant +:+ "/" +:+ DataStreamEnv c +:+ "/events".

(** The client's logger; [main] hands it the base logger. *)
Definition namedLogger : SugaredLogger := With "component" "EDP" (Named clientName NewLogger).

Section client.
Context {QA : QuantityApi} {S : Type} {R : Retry S}.

(** [url_Parse] is [url.Parse], which decides whether [http.NewRequest] fails. *)
Definition NewRequest (url_Parse : string → option error) (c : Config) (dataTenant : string) : HttpRequest + error :=
  let edpURL := getEDPURL c dataTenant in
  match url_Parse edpURL with
  | Some err => inr (errorString ("failed generate request for EDP, " +:+ pretty StatusBadRequest +:+ ": " +:+ Error err))
  | None => inl {|
      Method := "POST";
      URL := edpURL;
      RawQuery := "";
      Header := [(userAgentKeyHeader, userAgentKMC); (contentTypeKeyHeader, contentType);
                 (authorizationKeyHeader, "Bearer " +:+ Token c)];
      Body := "" |}
  end.

Definition recordEDPLatency (statusCode : Z) (destSvc : string) : prog S unit :=
  call (MetricObserve edpLatency [pretty statusCode; destSvc]).

(** [req.Body = io.NopCloser(bytes.NewReader(payload))] *)
Definition with_Body (req : HttpRequest) (payload : string) : HttpRequest :=
  {| Method := Method req; URL := URL req; RawQuery := RawQuery req; Header := Header req; Body := payload |}.

(** [defer func() { if err := resp.Body.Close(); err != nil { ... } }()] *)
Definition closeBody (resp : HttpResponse) : prog S unit :=
  err ← ext (BodyClose resp);
  match err with
  | Some err => logf LWarn namedLogger "" [ArgError err]
  | None => mret ()
  end.

(** The function [Send] retries. *)
Definition sendOnce (c : Config) (req : HttpRequest) (payload : string) : prog S (HttpResponse + error) :=
  result ← ext (HttpDo (with_Body req payload));
  match result with
  | inr urlErr =>
      let responseCode := if Timeout urlErr then StatusRequestTimeout else StatusBadRequest in
      recordEDPLatency responseCode (getEDPURL c tenantIdPlaceholder);;
      logf LDebug namedLogger "req: %v" [ArgRequest (with_Body req payload)];;
      logf LWarn (With KeyRetry ValueTrue (With KeyError (Error (UrlErr urlErr)) (With KeyResult ValueFail namedLogger)))
        "send event stream to EDP" [];;
      mret (inr (UrlErr urlErr))
  | inl resp => defer (closeBody resp)
     (if decide (StatusCode resp = StatusCreated) then
        recordEDPLatency (StatusCode resp) (getEDPURL c tenantIdPlaceholder);;
        mret (inl resp)
      else
        let err := errorString ("failed to send event stream as EDP returned HTTP: " +:+ pretty (StatusCode resp)) in
        logf LWarn (With KeyRetry ValueTrue (With KeyError (Error err) namedLogger)) "send event stream as EDP" [];;
        recordEDPLatency (StatusCode resp) (getEDPURL c tenantIdPlaceholder);;
        mret (inr err))
  end.

Definition Send (c : Config) (req : HttpRequest) (payload : string) : prog S (HttpResponse + error) :=
  result ← DoWithData (uint64_of_int (EventRetry c)) retryInterval (sendOnce c req payload);
  match result with
  | inr err => mret (inr (withMessage "failed to POST event to EDP" err))
  | inl resp =>
      logf LDebug namedLogger "sent an event to '%s' with eventstream: '%s'" [ArgString (URL req); ArgString payload];;
      mret (inl resp)
  end.

(** ** Behaviour *)

Lemma sendOnce_tame c req payload : tame (sendOnce c req payload).
Proof.
  split; [done|]. intros [resp|urlErr]; [|done]. apply only_defer; [|by case_decide].
  split; [done|]. by intros [].
Qed.

Context {RL : RetryLaws S}.

Lemma Send_tame c req payload : 0 < EventRetry c < 2 ^ 63 → tame (Send c req payload).
Proof.
  intros Hr. apply only_bind; [|by intros []]. apply retry_only; [done| |apply sendOnce_tame].
  unfold uint64_of_int. rewrite Z.mod_small; lia.
Qed.

Context {C Q M T : Type} {GC : GoCache (obj S) C} {WQ : WorkQueue Q} {PM : Prometheus M} {TC : TtlCache T}.
Context (env : Env).
Implicit Types w : world C Q M T.

(** EDP accepted the event. *)
Definition created (answer : HttpResponse + UrlError) : Prop :=
  match answer with inl resp => StatusCode resp = StatusCreated | inr _ => False end.

(** Closing the response does not send anything, nor change the result. *)
Lemma closing_run resp (body : prog S (HttpResponse + error)) w r w1 :
  run env body w = (Returned r, w1) → ∃ n, run env (defer (closeBody resp) body) w = (Returned r, later n w1) ∧
  exchanges (calls env (defer (closeBody resp) body) w) = exchanges (calls env body w).
Proof.
  intros Hrun. rewrite run_defer_eq, calls_defer_eq, Hrun, run_bind. unfold exchanges, closeBody.
  rewrite run_bind, calls_bind, run_ext, !omap_app. simpl.
  destruct (env _ (BodyClose resp) _); [exists 2%nat|exists 1%nat]; (split; [done|]); by rewrite app_nil_r.
Qed.

(** One attempt sends one request, and succeeds exactly on 201. *)
Lemma sendOnce_run c req payload w r w' : run env (sendOnce c req payload) w = (Returned r, w') →
  w_cache w' = w_cache w ∧ w_queue w' = w_queue w ∧ ∃ answer,
  exchanges (calls env (sendOnce c req payload) w) = [(with_Body req payload, answer)] ∧
  match r with inl resp => answer = inl resp ∧ created answer | inr _ => ¬ created answer end.
Proof.
  unfold sendOnce. rewrite run_bind, calls_bind, run_ext. unfold exchanges. rewrite omap_app.
  simpl (omap _ (calls env (ext _) w)). destruct (env _ _ _) as [resp|urlErr].
  - case_decide; (edestruct (closing_run resp) as (n & -> & Hx); [reflexivity|]); unfold exchanges in Hx; rewrite Hx;
      intros [= <- <-]; (split; [done|]; split; [done|]; by exists (inl resp)).
  - intros [= <- <-]. split; [done|]. split; [done|]. exists (inr urlErr). by split; [|intros []].
Qed.

(** The attempts to send a request, at most [n], and the result: all but a last successful one were not answered with 201. *)
Definition attempted (req : HttpRequest) (n : nat) (l : list exchange) (r : HttpResponse + error) : Prop :=
  Forall (λ x, x.1 = req) l ∧
  match r with
  | inl resp => ∃ failed, l = failed ++ [(req, inl resp)] ∧ StatusCode resp = StatusCreated ∧
      Forall (λ x, ¬ created x.2) failed ∧ (length failed < n)%nat
  | inr _ => length l = n ∧ Forall (λ x, ¬ created x.2) l
  end.

Lemma attempted_count req n l r : n ≠ 0%nat → attempted req n l r → (1 <= length l <= n)%nat.
Proof.
  intros Hn [_ Hr]. destruct r as [resp|err]; [|lia]. destruct Hr as (failed & -> & _ & _ & Hlen).
  rewrite length_app. simpl. lia.
Qed.

Lemma attempted_success req n l r : attempted req n l r → (∃ resp, r = inl resp) ↔ Exists (λ x, created x.2) l.
Proof.
  intros [_ Hr]. destruct r as [resp|err].
  - destruct Hr as (failed & -> & Hok & _). split; [intros _|by eauto]. apply Exists_app. right. by apply Exists_cons_hd.
  - destruct Hr as [_ Hno]. split; [by intros [? [=]]|]. intros Hex. apply Exists_exists in Hex as (x & Hx & Hc).
    by apply (proj1 (Forall_forall _ _) Hno x) in Hc.
Qed.

Lemma retried_sends c req payload n w l r w' : retried env (sendOnce c req payload) n w l r w' →
  attempted (with_Body req payload) n (exchanges l) r ∧ w_cache w' = w_cache w ∧ w_queue w' = w_queue w.
Proof.
  induction 1 as [n w resp w' Hrun|w e e' w' Hrun|n w e w1 d l r w' Hrun _ IH];
    apply sendOnce_run in Hrun as (Hc & Hq & answer & Hx & Hr).
  - rewrite Hx. destruct Hr as [-> Hok]. split_and!; [|done..]. split; [by constructor|]. exists []. split_and!; [done..|simpl; lia].
  - rewrite Hx. split_and!; [|done..]. split; [by constructor|]. split; [done|]. by constructor.
  - destruct IH as ([HF IH] & Hc' & Hq'). split_and!; [|simpl in *; congruence..].
    rewrite exchanges_app, Hx. change (exchanges (_ :: l)) with (exchanges l). split; [by constructor|].
    destruct r as [resp|err].
    + destruct IH as (failed & -> & Hok & Hno & Hlen). exists ((with_Body req payload, answer) :: failed).
      split_and!; [done|done|by constructor|simpl; lia].
    + destruct IH as [Hlen Hno]. split; [simpl; by f_equal|by constructor].
Qed.

Lemma Send_run c req payload w : 0 < EventRetry c < 2 ^ 63 → ∃ r w',
  run env (Send c req payload) w = (Returned r, w') ∧ w_cache w' = w_cache w ∧ w_queue w' = w_queue w ∧
  attempted (with_Body req payload) (Z.to_nat (EventRetry c)) (exchanges (calls env (Send c req payload) w)) r.
Proof.
  intros Hr. assert (Hu : uint64_of_int (EventRetry c) = EventRetry c)
    by (unfold uint64_of_int; rewrite Z.mod_small; lia).
  destruct (retry_run env (uint64_of_int (EventRetry c)) retryInterval (sendOnce c req payload) w)
    as (r & w' & Hrun & Hret); [lia|apply tame_quiet, sendOnce_tame|].
  apply retried_sends in Hret as (Hatt & Hc & Hq). rewrite Hu in *.
  unfold Send. rewrite Hu, run_bind, calls_bind, Hrun. rewrite exchanges_app.
  destruct r as [resp|err]; do 2 eexists; (split; [reflexivity|]); by rewrite app_nil_r.
Qed.

(** C28 -- [Send] posts the payload to EDP at least once and at most [EventRetry] times, always with the same request.  It succeeds
    exactly if an attempt is answered with 201 Created: then that is the last one and its response is returned; any other
    status and any failure of the connection is retried, and an error is returned after [EventRetry] of them.
    [EventRetry] must be positive. *)
Theorem Send_attempts c req payload w : 0 < EventRetry c < 2 ^ 63 → ∃ r w',
  run env (Send c req payload) w = (Returned r, w') ∧
  (1 <= length (exchanges (calls env (Send c req payload) w)) <= Z.to_nat (EventRetry c))%nat ∧
  attempted (with_Body req payload) (Z.to_nat (EventRetry c)) (exchanges (calls env (Send c req payload) w)) r ∧
  ((∃ resp, r = inl resp) ↔ Exists (λ x, created x.2) (exchanges (calls env (Send c req payload) w))).
Proof.
  intros Hr. destruct (Send_run c req payload w Hr) as (r & w' & Hrun & _ & _ & Hatt). exists r, w'.
  split_and!; [done|..|done|by eapply attempted_success]; apply attempted_count in Hatt; lia.
Qed.
End client.

(** ** A concrete run *)

Definition sample_config : Config :=
  {| Config_URL := "https://input.yevents.io"; Namespace := "kyma-dev"; DataStreamName := "consumption-metrics";
     DataStreamVersion := "1"; DataStreamEnv := "dev"; Config_Timeout := 30 * 10 ^ 9; EventRetry := 3;
     Token := "secret" |}.

Definition sample_post : HttpRequest :=
  {| Method := "POST"; URL := getEDPURL sample_config "sa-1"; RawQuery := ""; Header := []; Body := "" |}.

(** EDP is down. *)
Definition unavailable_env : Env := λ X q t,
  match q in request X return X with
  | HttpDo _ => inl {| StatusCode := 503; ResponseBody := inl "" |}
  | q => sample_env _ q t
  end.

Lemma Send_attempts_witness : (0 < EventRetry sample_config < 2 ^ 63) ∧ ∃ err w',
  run (S := unit) unavailable_env (Send sample_config sample_post "{}") empty_world = (Returned (inr err), w') ∧
  length (exchanges (calls (S := unit) unavailable_env (Send sample_config sample_post "{}") empty_world)) = 3%nat.
Proof.
  split; [simpl; lia|].
  destruct (Send_attempts (S := unit) unavailable_env sample_config sample_post "{}" empty_world)
    as (r & w' & Hrun & _ & [_ Hr] & _); [simpl; lia|].
  destruct r as [resp|err]; [|exists err, w'; split; [exact Hrun|exact (proj1 Hr)]].
  exfalso. assert (Hres : (run (S := unit) unavailable_env (Send sample_config sample_post "{}") empty_world).1 =
    Returned (inl resp)) by (rewrite Hrun; reflexivity).
  vm_compute in Hres. discriminate Hres.
Defined.
