(* ===== verification/EdpCollector.v ===== *)
(** * EdpCollector: collecting from a cluster and sending to EDP ([pkg/collector/edp/collector.go])

    [executeScans] runs the scanners, [convertScansToEDPMeasurements] turns their scans into
    measurements, both falling back to the scan of the last collection; [CollectAndSend] sends
    the aggregated measurements. *)
From S2P Require Import Prelude GoStd GoFloat Rfc3339 Resource Tracing PvcScan Effects Libraries Clients Process Retry EdpPayload EdpClient.
Local Open Scope Z_scope.
Local Open Scope list_scope.

Definition errNoMeasurementsSent : error := Sentinel "edp.errNoMeasurementsSent" "no measurements sent to EDP".
Definition EDPBackendName : string := "edp".

(** [resource.Scanner]: the ID, and the scan of a cluster. *)
Record Scanner {QA : QuantityApi} {S : Type} := {
  ID : ScannerID;
  Scan : Context → Info → Clients → prog S (S + error);
}.
#[global] Arguments Scanner {QA} S.

Section collector.
Context {QA : QuantityApi} {S : Type} {SC : ScanConverter S} {R : Retry S}.
(** [json.Marshal] of the payload and [url.Parse]. *)
Context (json_Marshal : payload → string + error) (url_Parse : string → option error).
Context (config : Config) (scanners : list (Scanner S)).
Abbreviation ScanMap := (gmap ScannerID S).

(** ** Metrics ([pkg/collector/metrics.go]) *)

Definition runtimeValues (info : Info) : list string :=
  [Info_ShootName info; Info_InstanceID info; Info_RuntimeID info; Info_SubAccountID info; Info_GlobalAccountID info].

Definition RecordScan (success : bool) (resourceName : string) (runtimeInfo : Info) : prog S unit :=
  call (MetricInc TotalScans (FormatBool success :: resourceName :: runtimeValues runtimeInfo)).

Definition RecordScanConversion (success : bool) (resourceName backendName : string) (runtimeInfo : Info) : prog S unit :=
  call (MetricInc TotalScansConverted (FormatBool success :: resourceName :: backendName :: runtimeValues runtimeInfo)).

(** ** The code *)

Definition errScanFailed (id : ScannerID) (err : error) : error :=
  wrapError ("scanner with ID(" +:+ id +:+ ") failed during scanning: " +:+ Error err) err.
Definition errNoPreviousScan (id : ScannerID) : error :=
  errorString ("no previous scan found for scanner with ID(" +:+ id +:+ ")").
Definition errConversionFailed (id : ScannerID) (err : error) : error :=
  wrapError ("failed to convert scan to an EDP measurement for scanner with ID(" +:+ id +:+ "): " +:+ Error err) err.
Definition errPreviousConversionFailed (id : ScannerID) (err : error) : error :=
  wrapError ("failed to convert previous scan to an EDP measurement for scanner with ID(" +:+ id +:+ "): " +:+ Error err) err.

(** One iteration of the loop over the scanners, on [currentScans] and [errs]. *)
Definition scanStep (ctx : Context) (previousScans : ScanMap) (info : Info) (clients : Clients)
    (st : ScanMap * list error) (s : Scanner S) : prog S (ScanMap * list error) :=
  let '(currentScans, errs) := st in
  result ← Scan s ctx info clients;
  match result with
  | inl scan =>
      RecordScan true (ID s) info;;
      mret (<[ID s := scan]> currentScans, errs)
  | inr err =>
      RecordScan false (ID s) info;;
      let errs := errs ++ [errScanFailed (ID s) err] in
      match previousScans !! ID s with
      | Some previousScan => mret (<[ID s := previousScan]> currentScans, errs)
      | None =>
          RecordScanConversion false (ID s) EDPBackendName info;;
          mret (currentScans, errs ++ [errNoPreviousScan (ID s)])
      end
  end.

Definition executeScans (ctx : Context) (previousScans : ScanMap) (info : Info) (clients : Clients) :
    prog S (ScanMap * option error) :=
  '(currentScans, errs) ← for_each (scanStep ctx previousScans info clients) (∅, []) scanners;
  mret (currentScans, errors_Join errs).

(** The variables of the loop over the scans. *)
Record convert_state := {
  convertableScans : ScanMap;
  EDPMeasurements : list EDPMeasurement;
  convertErrs : list error;
}.

Definition add_converted (st : convert_state) (id : ScannerID) (scan : S) (m : EDPMeasurement) (errs : list error) :
    convert_state :=
  {| convertableScans := <[id := scan]> (convertableScans st);
     EDPMeasurements := EDPMeasurements st ++ [m];
     convertErrs := convertErrs st ++ errs |}.
Definition add_errs (st : convert_state) (errs : list error) : convert_state :=
  {| convertableScans := convertableScans st; EDPMeasurements := EDPMeasurements st;
     convertErrs := convertErrs st ++ errs |}.

(** One iteration, for the scan of [id]; [scan.EDP()] may itself range over a map. *)
Definition convertStep (currentScans previousScans : ScanMap) (info : Info) (st : convert_state) (id : ScannerID) :
    prog S convert_state :=
  match currentScans !! id with
  | None => mret st
  | Some scan =>
      ord ← ext MapOrder;
      match Resource.EDP ord scan with
      | (m, None) =>
          RecordScanConversion true id EDPBackendName info;;
          mret (add_converted st id scan m [])
      | (_, Some err) =>
          RecordScanConversion false id EDPBackendName info;;
          match previousScans !! id with
          | None => mret (add_errs st [errConversionFailed id err; errNoPreviousScan id])
          | Some previousScan =>
              ord ← ext MapOrder;
              match Resource.EDP ord previousScan with
              | (_, Some err') =>
                  mret (add_errs st [errConversionFailed id err; errPreviousConversionFailed id err'])
              | (m, None) => mret (add_converted st id previousScan m [errConversionFailed id err])
              end
          end
      end
  end.

Definition convertScansToEDPMeasurements (currentScans previousScans : ScanMap) (info : Info) :
    prog S (ScanMap * list EDPMeasurement * option error) :=
  ord ← ext MapOrder;
  st ← for_each (convertStep currentScans previousScans info)
         {| convertableScans := ∅; EDPMeasurements := []; convertErrs := [] |}
         (ord (map_to_list currentScans).*1);
  mret (convertableScans st, EDPMeasurements st, errors_Join (convertErrs st)).

Definition isSuccess (status : Z) : bool := (200 <=? status) && (status <? 300).

Definition sendPayload (pl : payload) (subAccountID : string) : prog S (option error) :=
  match json_Marshal pl with
  | inr err => mret (Some (wrapError ("failed to marshal payload for subAccountID (" +:+ subAccountID +:+ "): " +:+ Error err) err))
  | inl payloadJSON =>
      match NewRequest url_Parse config subAccountID with
      | inr err => mret (Some (wrapError ("failed to create a new request for EDP for subAccountID (" +:+ subAccountID +:+ "): " +:+ Error err) err))
      | inl req =>
          result ← Send config req payloadJSON;
          match result with
          | inr err => mret (Some (wrapError ("failed to send payload to EDP for subAccountID (" +:+ subAccountID +:+ "): " +:+ Error err) err))
          | inl resp =>
              if isSuccess (StatusCode resp) then mret None
              else mret (Some (errorString ("failed to send payload to EDP for subAccountID (" +:+ subAccountID +:+
                     ") as it returned HTTP status code " +:+ pretty (StatusCode resp))))
          end
      end
  end.

(** [errs = append(errs, fmt.Errorf(prefix + "%w", err))], if [err] is not nil *)
Definition appendErr (errs : list error) (prefix : string) (err : option error) : list error :=
  match err with
  | None => errs
  | Some err => errs ++ [wrapError (prefix +:+ Error err) err]
  end.

(** [time.Now().Format(time.RFC3339)] *)
Definition getTimestampNow : prog S string := now ← ext Now; mret (Format now).

(** [if err != nil { span.RecordError(err); span.SetStatus(codes.Error, err.Error()) }] *)
Definition fail_span_if (span : Span) (err : option error) : prog S unit :=
  match err with
  | None => mret ()
  | Some e => fail_span span err (Error e)
  end.

(** [CollectAndSend] after its span was started.  Without a measurement the span records the error of the
    conversion, which may be nil. *)
Definition collectWithin (span : Span) (info : Info) (clients : Clients) (previousScans : ScanMap) :
    prog S (ScanMap * option error) :=
  currentTimestamp ← getTimestampNow;
  '(scans, err) ← executeScans (Some span) previousScans info clients;
  let errs := appendErr [] "failed to successfully execute one or more scans : " err in
  fail_span_if span err;;
  '(scans, EDPMeasurements, err) ← convertScansToEDPMeasurements scans previousScans info;
  let errs := appendErr errs "failed to convert one or more scans to EDP measurements: " err in
  fail_span_if span err;;
  if decide (length EDPMeasurements = O) then
    fail_span span err (Error errNoMeasurementsSent);;
    mret (scans, errors_Join (errs ++ [errNoMeasurementsSent]))
  else
    let pl := newPayload (Info_RuntimeID info) (Info_SubAccountID info) (Info_ShootName info) currentTimestamp
                EDPMeasurements in
    err ← sendPayload pl (Info_SubAccountID info);
    let errs := appendErr errs "failed to send payload to EDP: " err in
    fail_span_if span err;;
    mret (scans, errors_Join errs).

Definition CollectAndSend (ctx : Context) (info : Info) (clients : Clients) (previousScans : ScanMap) :
    prog S (ScanMap * option error) :=
  span ← ext (SpanStart ctx "collect_scans_and_send_measurements" (SpanAttributes info));
  defer (ext (SpanEnd span)) (collectWithin span info clients previousScans).

(** ** Discharging the interface *)

#[global] Instance edp_CollectorSender : CollectorSender S := CollectAndSend.

(** What a scanner promises: its scan returns, talks only to the cluster's API, and leaves
    the collector's state alone. *)
Definition scanner_ok (s : Scanner S) : Prop := ∀ ctx info clients, silent (Scan s ctx info clients).

Lemma scanStep_silent ctx previous info clients st s : scanner_ok s → silent (scanStep ctx previous info clients st s).
Proof.
  intros Hs. destruct st as [cur errs]. apply only_bind; [apply Hs|].
  intros [scan|err]; simpl; [done|]. by destruct (previous !! ID s).
Qed.

Lemma executeScans_silent ctx previous info clients : Forall scanner_ok scanners → silent (executeScans ctx previous info clients).
Proof.
  intros Hs. apply only_bind; [|by intros []]. apply only_for_each. intros st s Hin.
  apply scanStep_silent. rewrite Forall_forall in Hs. by apply Hs.
Qed.

Lemma convertStep_silent current previous info st id : silent (convertStep current previous info st id).
Proof.
  unfold convertStep. destruct (current !! id) as [scan|]; [|done]. split; [done|]. intros ord. simpl.
  destruct (Resource.EDP ord scan) as [m [err|]]; [|done]. split; [done|]. intros [].
  destruct (previous !! id) as [prev|]; [|done]. split; [done|]. intros ord'. simpl.
  by destruct (Resource.EDP ord' prev) as [m' [err'|]].
Qed.

Lemma convertScans_silent current previous info : silent (convertScansToEDPMeasurements current previous info).
Proof.
  split; [done|]. intros ord. apply only_bind; [|done]. apply only_for_each. intros st id _.
  apply convertStep_silent.
Qed.

Context {RL : RetryLaws S}.

Lemma sendPayload_tame pl subAccountID : 0 < EventRetry config < 2 ^ 63 → tame (sendPayload pl subAccountID).
Proof.
  intros Hr. unfold sendPayload. destruct (json_Marshal pl); [|done]. destruct (NewRequest _ _ _); [|done].
  apply only_bind; [by apply Send_tame|]. intros [resp|err]; [|done]. by destruct (isSuccess _).
Qed.

Lemma fail_span_if_tame span err : tame (fail_span_if span err).
Proof. by destruct err. Qed.

(** The EDP collector is a collector in the sense of [process]: it returns, and leaves cache
    and queue alone. *)
Lemma edp_CollectorSenderLaws : 0 < EventRetry config < 2 ^ 63 → Forall scanner_ok scanners → CollectorSenderLaws S.
Proof.
  intros Hr Hs ctx info clients previous. split; [done|]. intros span. apply only_defer; [done|].
  split; [done|]. intros now.
  apply only_bind; [by apply silent_tame, executeScans_silent|]. intros [scans err].
  apply only_bind; [apply fail_span_if_tame|]. intros [].
  apply only_bind; [apply silent_tame, convertScans_silent|]. intros [[scans' ms] err'].
  apply only_bind; [apply fail_span_if_tame|]. intros []. case_decide; [done|].
  apply only_bind; [by apply sendPayload_tame|]. intros err''. apply only_bind; [apply fail_span_if_tame|done].
Qed.
End collector.
