(* ===== verification/EdpCollectorSpec.v ===== *)
(** * EdpCollectorSpec: what a collection bills

    The specification is per scanner: [scan_kept] is the scan a collection goes on with,
    [billed] the one whose measurement is sent and which is kept for the next collection. *)
From S2P Require Import Prelude GoStd GoFloat Rfc3339 Resource Tracing PvcScan Effects Libraries Clients Process Samples Retry.
From S2P Require Import Decimal Json EdpPayload EdpClient EdpCollector.
Local Open Scope Z_scope.
Local Open Scope list_scope.

Section spec.
Context {QA : QuantityApi} {S : Type} {SC : ScanConverter S} {SCL : ScanConverterLaws S}.
Context {R : Retry S} {RL : RetryLaws S}.
Context {C Q M T : Type} {GC : GoCache (obj S) C} {WQ : WorkQueue Q} {PM : Prometheus M} {TC : TtlCache T}.
Context (env : Env).
Implicit Types w : world C Q M T.
Abbreviation ScanMap := (gmap ScannerID S).

(** No request was sent, and cache and queue are as before. *)
Definition undisturbed w w' : Prop :=
  w_cache w' = w_cache w ∧ w_queue w' = w_queue w ∧ w_http w' = w_http w.

Lemma undisturbed_trans w1 w2 w3 : undisturbed w1 w2 → undisturbed w2 w3 → undisturbed w1 w3.
Proof. intros (?&?&?) (?&?&?). split_and!; congruence. Qed.

(** ** Scanning *)

(** The scan a scanner contributes: its answer, or after an error the previous one. *)
Definition scan_kept (previous : ScanMap) (id : ScannerID) (answer : S + error) : option S :=
  match answer with inl scan => Some scan | inr _ => previous !! id end.

Definition succeeded (answer : S + error) : Prop := match answer with inl _ => True | inr _ => False end.

(** The scanner was run as part of a run with these calls, and gave [answer]: the calls of the scan are a segment of them. *)
Definition answered (info : Info) (clients : Clients) (l : list answered_call) (s : Scanner S) (answer : S + error) : Prop :=
  ∃ ctx w w' before after, run env (Scan s ctx info clients) w = (Returned answer, w') ∧
    l = before ++ calls env (Scan s ctx info clients) w ++ after.

Lemma answered_mono info clients l0 l l1 s answer :
  answered info clients l s answer → answered info clients (l0 ++ l ++ l1) s answer.
Proof.
  intros (ctx & w & w' & before & after & Hrun & ->). exists ctx, w, w', (l0 ++ before), (after ++ l1).
  split; [done|]. by rewrite !app_assoc.
Qed.

(** The state of the loop after some scanners answered. *)
Record scanned (previous : ScanMap) (l : list (Scanner S * (S + error))) (cur : ScanMap) (errs : list error) : Prop := {
  scanned_kept s answer : (s, answer) ∈ l → cur !! ID s = scan_kept previous (ID s) answer;
  scanned_other id : id ∉ (ID ∘ fst) <$> l → cur !! id = None;
  scanned_errs : errs = [] ↔ Forall succeeded l.*2;
}.

Lemma scanStep_run ctx previous info clients l cur errs s w : scanner_ok s →
  ID s ∉ (ID ∘ fst) <$> l → scanned previous l cur errs → ∃ answer cur' errs' w',
  run env (scanStep ctx previous info clients (cur, errs) s) w = (Returned (cur', errs'), w') ∧
  answered info clients (calls env (scanStep ctx previous info clients (cur, errs) s) w) s answer ∧
  scanned previous (l ++ [(s, answer)]) cur' errs' ∧ undisturbed w w'.
Proof.
  intros Hs Hnew Hl. destruct (run_silent env (Scan s ctx info clients) w (Hs ctx info clients))
    as (answer & w1 & Hrun & Hw1). exists answer.
  assert (Hans : answered info clients (calls env (scanStep ctx previous info clients (cur, errs) s) w) s answer).
  { exists ctx, w, w1, []. unfold scanStep. rewrite calls_bind. by eexists. }
  revert Hans. generalize (calls env (scanStep ctx previous info clients (cur, errs) s) w). intros cs Hans.
  unfold scanStep. rewrite run_bind, Hrun.
  assert (Hcur : cur !! ID s = None) by by apply (scanned_other _ _ _ _ Hl).
  assert (Hstep : ∀ cur' es, (es = [] ↔ succeeded answer) →
    (∀ id, cur' !! id = if decide (ID s = id) then scan_kept previous (ID s) answer else cur !! id) →
    scanned previous (l ++ [(s, answer)]) cur' (errs ++ es)).
  { intros cur' es Hes Hcur'. split.
    - intros s' answer' [Hin|[= -> ->]%list_elem_of_singleton]%elem_of_app; rewrite Hcur'.
      + rewrite decide_False; [by apply (scanned_kept _ _ _ _ Hl)|]. intros Heq. apply Hnew. rewrite Heq.
        apply list_elem_of_fmap. by exists (s', answer').
      + by rewrite decide_True.
    - intros id Hid. rewrite fmap_app in Hid. rewrite Hcur', decide_False by set_solver.
      apply (scanned_other _ _ _ _ Hl). set_solver.
    - rewrite fmap_app, Forall_app, <- (scanned_errs _ _ _ _ Hl), app_nil, Hes. simpl.
      rewrite Forall_singleton. done. }
  destruct answer as [scan|err].
  - do 3 eexists. split; [reflexivity|]. split; [done|]. split; [|done].
    rewrite <- (app_nil_r errs). apply Hstep; [done|]. intros id. apply lookup_insert.
  - destruct (previous !! ID s) as [prev|] eqn:Hp.
    + do 3 eexists. split; [reflexivity|]. split; [done|]. split; [|done]. apply Hstep; [done|].
      intros id. rewrite lookup_insert. simpl. by rewrite Hp.
    + do 3 eexists. split; [reflexivity|]. split; [done|]. split; [|done].
      rewrite <- app_assoc. apply Hstep; [done|]. intros id. case_decide; simpl; congruence.
Qed.

Lemma executeScans_run ctx scanners previous info clients w :
  Forall scanner_ok scanners → NoDup (ID <$> scanners) → ∃ answers cur errs w',
  run env (executeScans scanners ctx previous info clients) w = (Returned (cur, errors_Join errs), w') ∧
  Forall2 (answered info clients (calls env (executeScans scanners ctx previous info clients) w)) scanners answers ∧
  scanned previous (zip scanners answers) cur errs ∧ undisturbed w w'.
Proof.
  intros Hok Hnd. unfold executeScans.
  destruct (calls_for_each env (scanStep ctx previous info clients) (λ done st w' cs, ∃ answers,
      Forall2 (answered info clients cs) done answers ∧ scanned previous (zip done answers) st.1 st.2 ∧ undisturbed w w')
    scanners) with (st := (∅, []) : ScanMap * list error) (w := w)
    as ([cur errs] & w' & Hrun & answers & Hans & Hsc & Hw').
  - intros done s [cur errs] w1 cs Hpre (answers & Hans & Hsc & Hw1). destruct Hpre as [rest ->].
    rewrite !Forall_app, Forall_singleton in Hok. destruct Hok as [[_ Hs] _].
    pose proof (Forall2_length _ _ _ Hans) as Hlen.
    assert (Hids : (ID ∘ fst) <$> zip done answers = ID <$> done).
    { rewrite list_fmap_compose. f_equal. apply fst_zip. lia. }
    destruct (scanStep_run ctx previous info clients (zip done answers) cur errs s w1) as (a & cur' & errs' & w2 & Hrun & Ha & Hsc' & Hw2);
      [done| |done|].
    { rewrite Hids. rewrite !fmap_app in Hnd. apply NoDup_app in Hnd as [Hnd _].
      apply NoDup_app in Hnd as (_ & Hdis & _). intros Hin. apply (Hdis _ Hin). simpl. set_solver. }
    exists (cur', errs'), w2. split; [done|]. exists (answers ++ [a]). split_and!.
    + apply Forall2_app; [|constructor; [|constructor]].
      * eapply Forall2_impl; [exact Hans|]. intros s' a'. apply (answered_mono _ _ []).
      * rewrite <- (app_nil_r (calls _ _ _)). by apply answered_mono.
    + rewrite zip_with_app by done. done.
    + by eapply undisturbed_trans.
  - exists []. split_and!; [done| |done]. split; [|done|done]. intros s a Hin. by apply elem_of_nil in Hin.
  - exists answers, cur, errs, w'. rewrite run_bind, calls_bind, Hrun, app_nil_r. done.
Qed.

(** ** Converting *)

(** Visiting the keys as they come. *)
Definition plain : RangeOrder := λ l, l.

(** The measurement of a scan, up to the order of its machine types, and whether it has one. *)
Definition measurement (s : S) : EDPMeasurement := (Resource.EDP plain s).1.
Definition converts (s : S) : Prop := (Resource.EDP plain s).2 = None.
#[global] Instance converts_dec s : Decision (converts s).
Proof. unfold converts. apply _. Defined.

(** The scan of [id] that is sent and kept: the current one, or if it does not convert the
    previous one. *)
Definition billed (current previous : ScanMap) (id : ScannerID) : option S :=
  s ← current !! id; if decide (converts s) then Some s else
  s' ← previous !! id; if decide (converts s') then Some s' else None.

Lemma plain_valid : valid_order plain.
Proof. by intros l. Qed.

Context (Henv : env_ok env).

Lemma EDP_env s t : ∃ m, Resource.EDP (env _ MapOrder t) s = (m, (Resource.EDP plain s).2) ∧ m ≡ measurement s.
Proof.
  destruct (EDP_order (env _ MapOrder t) plain s (Henv t) plain_valid) as [He Hm].
  exists (Resource.EDP (env _ MapOrder t) s).1. split; [|done]. rewrite <- He. by destruct (Resource.EDP _ s).
Qed.

(** One iteration of the loop over the scans. *)
Lemma convertStep_run current previous info st id w s : current !! id = Some s → ∃ st' w',
  run env (convertStep current previous info st id) w = (Returned st', w') ∧ undisturbed w w' ∧
  ∃ errs, (errs = [] ↔ converts s) ∧
  match billed current previous id with
  | Some s' => ∃ m, m ≡ measurement s' ∧ st' = add_converted st id s' m errs
  | None => st' = add_errs st errs
  end.
Proof.
  intros Hs. unfold convertStep, billed. rewrite Hs. simpl.
  destruct (EDP_env s (w_tick w)) as (m & -> & Hm).
  assert (Hc : converts s ↔ (Resource.EDP plain s).2 = None) by done. revert Hc.
  generalize (Resource.EDP plain s).2 as o. intros [err|] Hc; simpl.
  2:{ do 2 eexists. split; [reflexivity|]. split; [done|]. exists []. split; [naive_solver|].
      rewrite decide_True by naive_solver. eauto. }
  rewrite decide_False by naive_solver. destruct (previous !! id) as [s'|]; simpl.
  2:{ do 2 eexists. split; [reflexivity|]. split; [done|]. eexists. split; [|reflexivity]. naive_solver. }
  destruct (EDP_env s' (Datatypes.S (w_tick w))) as (m' & -> & Hm').
  assert (Hc' : converts s' ↔ (Resource.EDP plain s').2 = None) by done. revert Hc'.
  generalize (Resource.EDP plain s').2 as o. intros [err'|] Hc'; simpl.
  - do 2 eexists. split; [reflexivity|]. split; [done|]. eexists. rewrite decide_False by naive_solver.
    split; [|reflexivity]. naive_solver.
  - do 2 eexists. split; [reflexivity|]. split; [done|]. eexists. rewrite decide_True by naive_solver.
    split; [|eauto]. naive_solver.
Qed.

(** The measurements of a map of scans, in some order. *)
Definition bills (scans : ScanMap) (ms : list EDPMeasurement) : Prop :=
  ∃ l, l ≡ₚ map_to_list scans ∧ Forall2 (λ m (x : ScannerID * S), m ≡ measurement x.2) ms l.

Lemma bills_insert scans ms id s m : scans !! id = None → bills scans ms → m ≡ measurement s →
  bills (<[id := s]> scans) (ms ++ [m]).
Proof.
  intros Hid (l & Hl & HF) Hm. exists (l ++ [(id, s)]). split.
  - rewrite map_to_list_insert by done. rewrite Hl. by rewrite Permutation_app_comm.
  - by apply Forall2_app; [|constructor].
Qed.

(** The state of the loop after the scans of [done]. *)
Record converted (current previous : ScanMap) (done : list ScannerID) (st : convert_state) : Prop := {
  converted_scans id : convertableScans st !! id = if decide (id ∈ done) then billed current previous id else None;
  converted_bills : bills (convertableScans st) (EDPMeasurements st);
  converted_errs : convertErrs st = [] ↔ ∀ id s, id ∈ done → current !! id = Some s → converts s;
}.

Lemma convertStep_converted current previous info done st id w :
  id ∉ done → is_Some (current !! id) → converted current previous done st → ∃ st' w',
  run env (convertStep current previous info st id) w = (Returned st', w') ∧
  converted current previous (done ++ [id]) st' ∧ undisturbed w w'.
Proof.
  intros Hnew [s Hs] Hst.
  destruct (convertStep_run current previous info st id w s Hs) as (st' & w' & Hrun & Hw' & errs & Herrs & Hst').
  exists st', w'. split; [done|]. split; [|done].
  assert (Hid : convertableScans st !! id = None).
  { rewrite (converted_scans _ _ _ _ Hst). by rewrite decide_False. }
  assert (He : convertErrs st ++ errs = [] ↔ ∀ id' s', id' ∈ done ++ [id] → current !! id' = Some s' → converts s').
  { rewrite app_nil, Herrs, (converted_errs _ _ _ _ Hst). split.
    - intros [Hold Hc] id' s' [Hin|Hin%list_elem_of_singleton]%elem_of_app Hs'; [by eapply Hold|]. by simplify_eq.
    - intros Hall. split; [intros id' s' Hin; apply Hall, elem_of_app; by left|].
      apply (Hall id); [|done]. apply elem_of_app. right. by apply list_elem_of_singleton. }
  assert (Hb : ∀ id', id ≠ id' → (if decide (id' ∈ done ++ [id]) then billed current previous id' else None) =
    convertableScans st !! id').
  { intros id' Hne. rewrite (converted_scans _ _ _ _ Hst). repeat case_decide; set_solver. }
  assert (Hid' : (if decide (id ∈ done ++ [id]) then billed current previous id else None) = billed current previous id).
  { rewrite decide_True; [done|]. apply elem_of_app. right. by apply list_elem_of_singleton. }
  destruct (billed current previous id) as [s'|] eqn:Hbill.
  - destruct Hst' as (m & Hm & ->). split; [|apply bills_insert; [done|apply Hst|done]|done].
    intros id'. simpl. destruct (decide (id = id')) as [<-|Hne]; [by rewrite lookup_insert_eq, Hbill, Hid'|].
    rewrite lookup_insert_ne by done. by rewrite Hb.
  - subst st'. split; [|apply Hst|done]. intros id'. simpl.
    destruct (decide (id = id')) as [<-|Hne]; [by rewrite Hid, Hbill, Hid'|]. by rewrite Hb.
Qed.

Lemma convertScans_run current previous info w : ∃ scans ms errs w',
  run env (convertScansToEDPMeasurements current previous info) w = (Returned (scans, ms, errors_Join errs), w') ∧
  (∀ id, scans !! id = billed current previous id) ∧ bills scans ms ∧
  (errs = [] ↔ ∀ id s, current !! id = Some s → converts s) ∧ undisturbed w w'.
Proof.
  unfold convertScansToEDPMeasurements. rewrite run_bind, run_ext.
  set (keys := env _ MapOrder (w_tick w) (map_to_list current).*1).
  assert (Hkeys : keys ≡ₚ (map_to_list current).*1) by apply Henv.
  assert (Hnd : NoDup keys) by (rewrite Hkeys; apply NoDup_fst_map_to_list).
  assert (Hdom : ∀ id, id ∈ keys ↔ is_Some (current !! id)).
  { intros id. rewrite Hkeys, list_elem_of_fmap. split.
    - intros ([id' s] & -> & Hin%elem_of_map_to_list). by exists s.
    - intros [s Hin%elem_of_map_to_list]. by exists (id, s). }
  destruct (run_for_each env (convertStep current previous info) (λ done st w', converted current previous done st ∧ undisturbed w w') keys)
    with (st := {| convertableScans := (∅ : ScanMap); EDPMeasurements := []; convertErrs := [] |})
         (w := tick MapOrder w) as (st & w' & Hrun & Hst & Hw').
  - intros done id st w1 [rest Hrest] [Hst Hw1]. rewrite Hrest in Hnd, Hdom.
    destruct (convertStep_converted current previous info done st id w1) as (st' & w2 & Hrun & Hst' & Hw2);
      [| |done|].
    + apply NoDup_app in Hnd as [Hnd _]. apply NoDup_app in Hnd as (_ & Hdis & _).
      intros Hin. apply (Hdis _ Hin). by apply list_elem_of_singleton.
    + apply Hdom. set_solver.
    + exists st', w2. split; [done|]. split; [done|]. by eapply undisturbed_trans.
  - split; [|done]. split.
    + intros id. done.
    + exists []. simpl. by rewrite map_to_list_empty.
    + split; [|done]. intros _ id s Hin. by apply elem_of_nil in Hin.
  - exists (convertableScans st), (EDPMeasurements st), (convertErrs st), w'. rewrite run_bind, Hrun.
    split_and!; [done| |apply Hst| |apply Hw'..].
    + intros id. rewrite (converted_scans _ _ _ _ Hst). case_decide as Hin; [done|].
      unfold billed. destruct (current !! id) eqn:Hc; [|done]. destruct Hin. apply Hdom. by eexists.
    + rewrite (converted_errs _ _ _ _ Hst). split; [|naive_solver].
      intros Hall id s Hs. apply (Hall id); [|done]. apply Hdom. by eexists.
Qed.

(** ** Sending *)

Context (json_Marshal : payload → string + error) (url_Parse : string → option error) (config : Config).
Context (Hretry : 0 < EventRetry config < 2 ^ 63).

(** Among these calls, the payload was posted with this result: every HTTP request is the same one for the payload, sent at
    least once and at most [EventRetry] times. *)
Definition posted_with (pl : payload) (subAccountID : string) (l : list answered_call) (r : HttpResponse + error) : Prop :=
  ∃ body req, json_Marshal pl = inl body ∧ NewRequest url_Parse config subAccountID = inl req ∧
    attempted (with_Body req body) (Z.to_nat (EventRetry config)) (exchanges l) r.
Definition posted (pl : payload) (subAccountID : string) (l : list answered_call) : Prop :=
  ∃ r, posted_with pl subAccountID l r.

(** EDP accepted it: it answered the last of these requests with 201 Created, and no other. *)
Definition acknowledged (pl : payload) (subAccountID : string) (l : list answered_call) : Prop :=
  ∃ resp, posted_with pl subAccountID l (inl resp).

(** The payload and the request can be built. *)
Definition sendable (pl : payload) (subAccountID : string) : Prop :=
  (∃ body, json_Marshal pl = inl body) ∧ url_Parse (getEDPURL config subAccountID) = None.

Lemma sendPayload_run pl subAccountID w : ∃ err w' l,
  run env (sendPayload json_Marshal url_Parse config pl subAccountID) w = (Returned err, w') ∧
  l = calls env (sendPayload json_Marshal url_Parse config pl subAccountID) w ∧
  (err = None → acknowledged pl subAccountID l) ∧ (sendable pl subAccountID → posted pl subAccountID l) ∧
  (posted pl subAccountID l ∨ exchanges l = []).
Proof.
  unfold sendPayload, sendable, acknowledged, posted, posted_with, NewRequest.
  destruct (json_Marshal pl) as [body|e]; [|do 3 eexists; split; [reflexivity|]; split; [reflexivity|]; naive_solver].
  destruct (url_Parse _) as [e|]; [do 3 eexists; split; [reflexivity|]; split; [reflexivity|]; naive_solver|].
  set (req := {| Method := _ |}).
  destruct (Send_run env config req body w Hretry) as (r & w' & Hrun & _ & _ & Hatt).
  rewrite run_bind, calls_bind, Hrun.
  assert (Hnone : ∀ w1, exchanges (calls env (match r with
      | inl resp => if isSuccess (StatusCode resp) then mret None else mret (Some (errorString ("failed to send payload to EDP for subAccountID (" +:+
          subAccountID +:+ ") as it returned HTTP status code " +:+ pretty (StatusCode resp))))
      | inr err => mret (Some (wrapError ("failed to send payload to EDP for subAccountID (" +:+ subAccountID +:+ "): " +:+ Error err) err))
      end) w1) = []) by (intros w1; destruct r as [resp|]; [by destruct (isSuccess _)|done]).
  destruct r as [resp|e]; [destruct (isSuccess _)|]; do 3 eexists; (split; [reflexivity|]; split; [reflexivity|]);
    rewrite exchanges_app, app_nil_r; naive_solver.
Qed.

(** ** A collection *)

Context (scanners : list (Scanner S)) (ctx : Context) (info : Info) (clients : Clients) (previous : ScanMap).
Context (Hscanners : Forall scanner_ok scanners) (Hids : NoDup (ID <$> scanners)).

(** The event for these measurements, stamped with the time. *)
Definition payload_of (now : Time) (ms : list EDPMeasurement) : payload :=
  newPayload (Info_RuntimeID info) (Info_SubAccountID info) (Info_ShootName info) (Format now) ms.

(** The time at the next call, and the time when the collection starts: its first call starts the span. *)
Definition time_at w : Time := env _ Now (w_tick w).
Definition start_time w : Time := env _ Now (Datatypes.S (w_tick w)).

(** What a collection from [w] with the calls [l] did. *)
Record collection (answers : list (S + error)) (current scans : ScanMap) (ms : list EDPMeasurement)
    (err : option error) w (l : list answered_call) : Prop := {
  col_now : existT _ (Now, start_time w) ∈ l;
  col_answers : Forall2 (answered info clients l) scanners answers;
  col_current s answer : (s, answer) ∈ zip scanners answers → current !! ID s = scan_kept previous (ID s) answer;
  col_others id : id ∉ ID <$> scanners → current !! id = None;
  col_scans id : scans !! id = billed current previous id;
  col_bills : bills scans ms;
  col_empty : ms = [] → exchanges l = [] ∧ ∃ e, err = Some e ∧ errors_Is e "edp.errNoMeasurementsSent" = true;
  col_sent : ms ≠ [] → sendable (payload_of (start_time w) ms) (Info_SubAccountID info) →
    posted (payload_of (start_time w) ms) (Info_SubAccountID info) l;
  col_events : posted (payload_of (start_time w) ms) (Info_SubAccountID info) l ∨ exchanges l = [];
  col_success : err = None →
    Forall succeeded answers ∧ (∀ id s, current !! id = Some s → converts s) ∧
    acknowledged (payload_of (start_time w) ms) (Info_SubAccountID info) l;
}.

(** More calls before and after a collection, none of them HTTP. *)
Lemma collection_calls answers current scans ms err w l0 l l1 : exchanges l0 = [] → exchanges l1 = [] →
  collection answers current scans ms err w l → collection answers current scans ms err w (l0 ++ l ++ l1).
Proof.
  intros H0 H1 [Hnow Hans]. assert (Hx : exchanges (l0 ++ l ++ l1) = exchanges l) by (by rewrite !exchanges_app, H0, H1, app_nil_r).
  split; unfold posted, acknowledged, posted_with in *; rewrite ?Hx; try done; [set_solver|].
  eapply Forall2_impl; [exact Hans|]. intros s a. apply answered_mono.
Qed.

Lemma appendErr_nil errs prefix es : appendErr errs prefix (errors_Join es) = [] ↔ errs = [] ∧ es = [].
Proof. destruct es; simpl; [naive_solver|]. rewrite app_nil. naive_solver. Qed.

Lemma no_measurements_joined errs : ∃ e,
  errors_Join (errs ++ [errNoMeasurementsSent]) = Some e ∧ errors_Is e "edp.errNoMeasurementsSent" = true.
Proof.
  destruct (errors_Join (errs ++ [errNoMeasurementsSent])) as [e|] eqn:He; [|by apply errors_Join_None, app_nil in He as [_ [=]]].
  exists e. split; [done|]. rewrite (errors_Join_Is _ _ _ He), existsb_app. apply orb_true_r.
Qed.

(** The scanners with their answers. *)
Lemma zip_answers (answers : list (S + error)) : length scanners = length answers →
  (ID ∘ fst) <$> zip scanners answers = ID <$> scanners ∧ (zip scanners answers).*2 = answers.
Proof. intros Hlen. split; [rewrite list_fmap_compose; f_equal; apply fst_zip; lia|apply snd_zip; lia]. Qed.

Lemma fail_span_if_run span err w : ∃ w', run env (fail_span_if (S := S) span err) w = (Returned tt, w') ∧ undisturbed w w' ∧
  exchanges (calls env (fail_span_if (S := S) span err) w) = [].
Proof. destruct err; eexists; (split; [simpl; unfold mret, prog_ret; repeat f_equal; by destruct (env _ _ _)|done]). Qed.

(** The collection after the span was started in [w0]. *)
Lemma collectWithin_run span w0 w : time_at w0 = start_time w → ∃ answers current scans ms err w',
  run env (collectWithin json_Marshal url_Parse config scanners span info clients previous) w0 =
    (Returned (scans, err), w') ∧
  collection answers current scans ms err w
    (calls env (collectWithin json_Marshal url_Parse config scanners span info clients previous) w0).
Proof.
  intros Hnow. unfold collectWithin, getTimestampNow. rewrite run_bind, calls_bind.
  change (run env (now ← ext Now; mret (Format now)) w0) with (Returned (Format (time_at w0)), tick Now w0). rewrite Hnow.
  cbv iota beta. set (w0' := tick _ w0). set (l0 := calls env _ w0).
  assert (H0 : existT _ (Now, start_time w) ∈ l0) by (unfold l0; simpl; fold (time_at w0); rewrite Hnow; left).
  destruct (executeScans_run (Some span) scanners previous info clients w0') as (answers & cur & errs & w1 & Hrun1 & Hans & Hsc & _);
    [done..|].
  pose proof (silent_exchanges env _ w0' (executeScans_silent scanners (Some span) previous info clients Hscanners)) as Hx1.
  rewrite run_bind, calls_bind, Hrun1. cbv beta iota. set (l1 := calls env _ w0') in *.
  destruct (fail_span_if_run span (errors_Join errs) w1) as (w1' & Hf1 & _ & Hy1). rewrite run_bind, calls_bind, Hf1. set (l2 := calls env _ w1) in *.
  destruct (convertScans_run cur previous info w1') as (scans & ms & errs' & w2 & Hrun2 & Hscans & Hms & Herrs' & _).
  pose proof (silent_exchanges env _ w1' (convertScans_silent cur previous info)) as Hx2.
  rewrite run_bind, calls_bind, Hrun2. cbv beta iota. set (l3 := calls env _ w1') in *.
  destruct (fail_span_if_run span (errors_Join errs') w2) as (w2' & Hf2 & _ & Hy2). rewrite run_bind, calls_bind, Hf2. set (l4 := calls env _ w2) in *.
  destruct (zip_answers answers (Forall2_length _ _ _ Hans)) as [Hkeys Hans'].
  exists answers, cur, scans, ms. destruct Hsc as [Hkept Hother Herrs]. rewrite Hkeys in Hother. rewrite Hans' in Herrs.
  assert (Hin : ∀ l, Forall2 (answered info clients (l0 ++ l1 ++ l2 ++ l3 ++ l4 ++ l)) scanners answers).
  { intros l. eapply Forall2_impl; [exact Hans|]. intros s a. apply (answered_mono _ _ l0 l1). }
  assert (Hx : ∀ l, exchanges (l0 ++ l1 ++ l2 ++ l3 ++ l4 ++ l) = exchanges l).
  { intros l. rewrite !exchanges_app, Hx1, Hy1, Hx2, Hy2. done. }
  case_decide as Hlen0.
  - destruct ms; [|done]. do 2 eexists. split; [reflexivity|]. split; try done.
    + apply elem_of_app. by left.
    + intros _. split; [apply Hx|apply no_measurements_joined].
    + right. apply Hx.
    + intros He. by apply errors_Join_None, app_nil in He as [_ [=]].
  - destruct (sendPayload_run (payload_of (start_time w) ms) (Info_SubAccountID info) w2') as (err & w3 & l & Hrun3 & Hl & Hok & Hsend & Hev).
    fold (payload_of (start_time w) ms). rewrite run_bind, calls_bind, Hrun3, <- Hl.
    destruct (fail_span_if_run span err w3) as (w3' & Hf3 & _ & Hy3). rewrite run_bind, calls_bind, Hf3.
    do 2 eexists. split; [reflexivity|].
    assert (Hx' : ∀ l', exchanges l' = [] → exchanges (l0 ++ l1 ++ l2 ++ l3 ++ l4 ++ l ++ l') = exchanges l).
    { intros l' Hl'. rewrite Hx, exchanges_app, Hl'. apply app_nil_r. }
    set (l5 := calls env (fail_span_if span err) w3 ++ _).
    assert (Hx5 : exchanges l5 = []) by (unfold l5; by rewrite exchanges_app, Hy3).
    split; unfold posted, acknowledged, posted_with in *; rewrite ?(Hx' l5 Hx5); try done.
    + apply elem_of_app. by left.
    + by intros ->.
    + intros He. apply errors_Join_None in He. destruct err as [e|]; [by apply app_nil in He as [_ [=]]|].
      simpl in He. apply appendErr_nil in He as [He1 ->]. apply appendErr_nil in He1 as [_ ->].
      split_and!; [by apply Herrs|by apply Herrs'|by apply Hok].
Qed.

Lemma CollectAndSend_run w : ∃ answers current scans ms err w',
  run env (EdpCollector.CollectAndSend json_Marshal url_Parse config scanners ctx info clients previous) w =
    (Returned (scans, err), w') ∧
  collection answers current scans ms err w
    (calls env (EdpCollector.CollectAndSend json_Marshal url_Parse config scanners ctx info clients previous) w).
Proof.
  unfold EdpCollector.CollectAndSend. rewrite run_bind, calls_bind, run_ext. set (span := env _ _ _).
  destruct (collectWithin_run span (tick (SpanStart ctx "collect_scans_and_send_measurements" (SpanAttributes info)) w) w)
    as (answers & cur & scans & ms & err & w' & Hrun & Hcol); [done|].
  exists answers, cur, scans, ms, err, (tick (SpanEnd span) w'). split; [by apply run_defer|].
  rewrite (calls_defer _ _ _ _ _ _ Hrun). by apply collection_calls.
Qed.

(** ** Theorems *)

(** [executeScans] runs every scanner once and keeps for each the new scan, or when
    scanning failed the scan of the previous collection if there is one; other IDs do not
    appear.  It reports an error exactly when a scanner failed. *)
Theorem executeScans_fallback w : ∃ answers current err w',
  run env (executeScans scanners ctx previous info clients) w = (Returned (current, err), w') ∧
  Forall2 (answered info clients (calls env (executeScans scanners ctx previous info clients) w)) scanners answers ∧
  (∀ s answer, (s, answer) ∈ zip scanners answers → current !! ID s = scan_kept previous (ID s) answer) ∧
  (∀ id, id ∉ ID <$> scanners → current !! id = None) ∧
  (err = None ↔ Forall succeeded answers) ∧ w_http w' = w_http w.
Proof.
  destruct (executeScans_run ctx scanners previous info clients w) as (answers & cur & errs & w' & Hrun & Hans & Hsc & Hw');
    [done..|].
  exists answers, cur, (errors_Join errs), w'. pose proof (Forall2_length _ _ _ Hans) as Hlen.
  destruct Hsc as [Hkept Hother Herrs]. rewrite snd_zip in Herrs by lia.
  rewrite list_fmap_compose, fst_zip in Hother by lia. rewrite errors_Join_None. by split_and!; try apply Hw'.
Qed.

(** [convertScansToEDPMeasurements], in whatever order the scans are visited: a scan that
    converts is kept with its measurement; one that does not is replaced by the previous
    scan if that converts, and is dropped otherwise.  There is exactly one measurement per kept scan,
    and an error is reported exactly when some current scan did not convert. *)
Theorem convertScans_fallback current w : ∃ scans ms err w',
  run env (convertScansToEDPMeasurements current previous info) w = (Returned (scans, ms, err), w') ∧
  (∀ id, scans !! id = billed current previous id) ∧ bills scans ms ∧ length ms = size scans ∧
  (err = None ↔ ∀ id s, current !! id = Some s → converts s).
Proof.
  destruct (convertScans_run current previous info w) as (scans & ms & errs & w' & Hrun & Hsc & Hb & He & _).
  exists scans, ms, (errors_Join errs), w'. rewrite errors_Join_None. split_and!; try done; [|apply He..].
  destruct Hb as (l & Hl & HF). rewrite (Forall2_length _ _ _ HF), Hl. apply length_map_to_list.
Qed.

Lemma CollectAndSend_success_run scans w w' :
  run env (EdpCollector.CollectAndSend json_Marshal url_Parse config scanners ctx info clients previous) w =
    (Returned (scans, None), w') →
  (∀ s, s ∈ scanners → ∃ scan, answered info clients
     (calls env (EdpCollector.CollectAndSend json_Marshal url_Parse config scanners ctx info clients previous) w) s (inl scan) ∧
     scans !! ID s = Some scan ∧ converts scan) ∧
  (∀ id, id ∉ ID <$> scanners → scans !! id = None) ∧
  ∃ ms, bills scans ms ∧ acknowledged (payload_of (start_time w) ms) (Info_SubAccountID info)
    (calls env (EdpCollector.CollectAndSend json_Marshal url_Parse config scanners ctx info clients previous) w).
Proof.
  intros Hrun. destruct (CollectAndSend_run w) as (answers & cur & scans' & ms & err & w1 & Hrun' & Hcol).
  rewrite Hrun in Hrun'. injection Hrun' as <- <- <-. destruct (col_success _ _ _ _ _ _ _ Hcol eq_refl) as (Hsucc & Hconv & Hpost).
  pose proof (Forall2_length _ _ _ (col_answers _ _ _ _ _ _ _ Hcol)) as Hlen. split_and!.
  - intros s [i Hi]%list_elem_of_lookup_1.
    destruct (Forall2_lookup_l _ _ _ _ _ (col_answers _ _ _ _ _ _ _ Hcol) Hi) as (answer & Ha & Hans).
    assert (Hin : (s, answer) ∈ zip scanners answers).
    { apply (list_elem_of_lookup_2 _ i). by rewrite lookup_zip_with, Hi, Ha. }
    rewrite Forall_lookup in Hsucc. specialize (Hsucc i answer Ha). destruct answer as [scan|]; [|done].
    exists scan. pose proof (col_current _ _ _ _ _ _ _ Hcol _ _ Hin) as Hcur. simpl in Hcur.
    split_and!; [done| |by eapply Hconv]. rewrite (col_scans _ _ _ _ _ _ _ Hcol). unfold billed. rewrite Hcur. simpl.
    rewrite decide_True; [done|]. by eapply Hconv.
  - intros id Hid. rewrite (col_scans _ _ _ _ _ _ _ Hcol). unfold billed.
    by rewrite (col_others _ _ _ _ _ _ _ Hcol).
  - exists ms. split; [apply Hcol|done].
Qed.

(** C10 -- If [CollectAndSend] reports no error, the cluster was billed completely and with
    fresh data: every scanner was run during this collection and succeeded, its scan converts and is returned for
    the next collection, and the payload with the sum of exactly these measurements, stamped with
    the time at which the collection started, is what was posted to EDP, which answered the last of these requests, and
    only the last, with 201 Created. *)
Theorem CollectAndSend_success scans w w' :
  run env (EdpCollector.CollectAndSend json_Marshal url_Parse config scanners ctx info clients previous) w =
    (Returned (scans, None), w') →
  (∀ s, s ∈ scanners → ∃ scan, answered info clients
     (calls env (EdpCollector.CollectAndSend json_Marshal url_Parse config scanners ctx info clients previous) w) s (inl scan) ∧
     scans !! ID s = Some scan ∧ converts scan) ∧
  (∀ id, id ∉ ID <$> scanners → scans !! id = None) ∧
  ∃ ms, bills scans ms ∧ acknowledged (payload_of (start_time w) ms) (Info_SubAccountID info)
    (calls env (EdpCollector.CollectAndSend json_Marshal url_Parse config scanners ctx info clients previous) w).
Proof. apply CollectAndSend_success_run. Qed.

End spec.

(** ** Concrete collections *)

(** Scans that are numbers of volumes; a negative one does not convert. *)
Definition count_measurement (n : Z) : EDPMeasurement :=
  {| VMTypes := []; ProvisionedCPUs := S754_zero false; ProvisionedRAMGb := S754_zero false;
     Volumes := {| SizeGbTotal := n; Count := 1; SizeGbRounded := n |} |}.
#[local] Instance count_ScanConverter : ScanConverter Z := {|
  Resource.UM := λ _ _, (Build_UMMeasurement, None);
  Resource.EDP := λ _ n, if decide (n < 0) then (zeroMeasurement, Some (errorString "negative")) else (count_measurement n, None);
|}.
#[local] Instance count_ScanConverterLaws : ScanConverterLaws Z.
Proof. by intros ord ord' s _ _. Qed.

Definition sample_scanner (id : ScannerID) (answer : Z + error) : Scanner Z :=
  {| ID := id; Scan := λ ctx info clients, mret answer |}.

Definition good_scanners : list (Scanner Z) := [sample_scanner "node" (inl 1); sample_scanner "pvc" (inl 2)].
(** The second scanner fails and the third one's scan does not convert. *)
Definition failing_scanners : list (Scanner Z) :=
  [sample_scanner "node" (inl 1); sample_scanner "pvc" (inr (errorString "timeout")); sample_scanner "vsc" (inl (-1))].

Lemma good_scanners_ok : Forall scanner_ok good_scanners.
Proof. by repeat constructor. Qed.
Lemma failing_scanners_ok : Forall scanner_ok failing_scanners.
Proof. by repeat constructor. Qed.

Definition sample_info : Info := runtimeInfo (sample_record "sa-1" "shoot-a").
Definition sample_Marshal (pl : payload) : string + error := inl "{}".
Definition sample_Parse (url : string) : option error := None.
Abbreviation collector_world := (world (gmap string (obj Z)) simple_queue metric_map ttl_map).
Definition collector_start : collector_world :=
  {| w_cache := ∅; w_queue := sq_empty; w_metrics := ∅; w_kube := ∅; w_tick := 0; w_http := [] |}.

Lemma sample_env_ok : env_ok sample_env.
Proof. by intros t l. Qed.

Definition sample_previous : gmap ScannerID Z := {["pvc" := 7]}.

Lemma executeScans_fallback_witness : Forall scanner_ok failing_scanners ∧ NoDup (ID <$> failing_scanners) ∧
  ∃ current err (w' : collector_world),
  run sample_env (executeScans failing_scanners Background sample_previous sample_info sample_clients) collector_start =
    (Returned (current, err), w') ∧ current !! "pvc" = Some 7 ∧ err ≠ None.
Proof.
  assert (Hnd : NoDup (ID <$> failing_scanners)) by vm_decide.
  split_and!; [exact failing_scanners_ok|exact Hnd|].
  destruct (executeScans_fallback sample_env failing_scanners Background sample_info sample_clients sample_previous failing_scanners_ok Hnd
    collector_start) as (answers & current & err & w' & Hrun & Hans & Hcur & _ & Herr & _).
  exists current, err, w'.
  assert (Hval : match (run sample_env (executeScans failing_scanners Background sample_previous sample_info sample_clients) collector_start).1 with
    | Returned (current, _) => current !! "pvc" | _ => None end = Some 7) by (vm_compute; reflexivity).
  rewrite Hrun in Hval. split_and!; [exact Hrun|exact Hval|]. rewrite Herr. intros Hall.
  assert (Hpvc : ∃ answer, answers !! 1%nat = Some answer ∧ answered sample_env sample_info sample_clients
    (calls sample_env (executeScans failing_scanners Background sample_previous sample_info sample_clients) collector_start)
    (sample_scanner "pvc" (inr (errorString "timeout"))) answer) by (apply (Forall2_lookup_l _ _ _ 1 _ Hans); reflexivity).
  destruct Hpvc as (answer & Ha & ctx & w1 & w2 & before & after & Hanswer & _). injection Hanswer as <- _.
  exact (proj1 (Forall_lookup _ _) Hall 1%nat _ Ha).
Defined.

Lemma convertScans_fallback_witness : env_ok sample_env ∧ ∃ scans ms err (w' : collector_world),
  run sample_env (convertScansToEDPMeasurements {["pvc" := -3; "node" := 1]} sample_previous sample_info) collector_start =
    (Returned (scans, ms, err), w') ∧ scans !! "pvc" = Some 7 ∧ scans !! "node" = Some 1 ∧ length ms = 2%nat.
Proof.
  split; [exact sample_env_ok|].
  destruct (convertScans_fallback sample_env sample_env_ok sample_info sample_previous {["pvc" := -3; "node" := 1]}
    collector_start) as (scans & ms & err & w' & Hrun & Hsc & _ & Hlen & _).
  exists scans, ms, err, w'. split; [exact Hrun|]. rewrite !Hsc. split_and!; [vm_compute; reflexivity..|].
  assert (Hval : match (run sample_env (convertScansToEDPMeasurements {["pvc" := -3; "node" := 1]} sample_previous
    sample_info) collector_start).1 with Returned (_, ms, _) => length ms | _ => 0%nat end = 2%nat)
    by (vm_compute; reflexivity).
  rewrite Hrun in Hval. exact Hval.
Defined.

Lemma CollectAndSend_success_witness : ∃ scans (w' : collector_world),
  run sample_env (EdpCollector.CollectAndSend sample_Marshal sample_Parse sample_config good_scanners Background sample_info sample_clients ∅)
    collector_start = (Returned (scans, None), w') ∧
  scans !! "pvc" = Some 2.
Proof.
  destruct (run sample_env (EdpCollector.CollectAndSend sample_Marshal sample_Parse sample_config good_scanners Background sample_info sample_clients ∅)
    collector_start) as [o w'] eqn:Hrun.
  assert (Hval : ∃ scans, o = Returned (scans, None)).
  { assert (Hval : (run sample_env (EdpCollector.CollectAndSend sample_Marshal sample_Parse sample_config good_scanners
      Background sample_info sample_clients ∅) collector_start).1 = o) by (rewrite Hrun; reflexivity).
    vm_compute in Hval. eexists. exact (eq_sym Hval). }
  destruct Hval as [scans ->]. exists scans, w'. split; [reflexivity|].
  destruct (CollectAndSend_success sample_env sample_env_ok sample_Marshal sample_Parse sample_config ltac:(simpl; lia)
    good_scanners Background sample_info sample_clients ∅ good_scanners_ok ltac:(vm_decide) scans collector_start w' Hrun) as [Hall _].
  destruct (Hall (sample_scanner "pvc" (inl 2))) as (scan & (ctx & w1 & w2 & before & after & Hans & _) & Hscan & _).
  { right. left. }
  injection Hans as <- _. exact Hscan.
Defined.

