(* ===== verification/UnifiedMetering.v ===== *)
(** * UnifiedMetering: the collector for the unified metering backend
    ([pkg/collector/unifiedmetering])

    An alternative implementation of [collector.CollectorSender] that [main] does not use yet: its record
    is empty and sending it does nothing.  A scan is an interface value here, nil where there is none. *)
From S2P Require Import Prelude GoStd GoFloat Rfc3339 Resource Tracing PvcScan Effects Libraries Clients Process Samples.
From S2P Require Import EdpPayload EdpClient EdpCollector EdpCollectorSpec.
Local Open Scope Z_scope.
Local Open Scope list_scope.

(** [zap.Logger.Error] on a pointer, which may be nil. *)
Class ZapLogger {QA : QuantityApi} (S : Type) := logger_Error : option handle → string → error → prog S unit.
Class ZapLoggerLaws {QA : QuantityApi} (S : Type) {ZL : ZapLogger S} : Prop := {
  logger_Error_nil msg err : ∃ why, logger_Error None msg err = Panic why;
  logger_Error_silent logger msg err : silent (logger_Error (Some logger) msg err);
}.

(** [unifiedmetering.Record] *)
Record UMRecord := {}.

Section unifiedmetering.
Context {QA : QuantityApi} {S : Type} {ZL : ZapLogger S}.
(** [collector.ScanMap], whose values may be nil. *)
Abbreviation Measures := (gmap ScannerID (option S)).

Record UMCollector := { um_scanners : list (Scanner S); um_logger : option handle }.

(** The logger is not set. *)
Definition NewCollector (scanner : list (Scanner S)) : UMCollector :=
  {| um_scanners := scanner; um_logger := None |}.

Definition NewRecord (from to : Time) (scans : list (option S)) : UMRecord := Build_UMRecord.

Definition sendRecord (c : UMCollector) (record : UMRecord) : prog S (option error) := mret None.

(** One iteration; reading a key that a map does not have gives nil. *)
Definition measureStep (c : UMCollector) (ctx : Context) (info : Info) (clients : Clients) (previousScans measures : Measures)
    (s : Scanner S) : prog S Measures :=
  result ← Scan s ctx info clients;
  match result with
  | inl scan => mret (<[ID s := Some scan]> measures)
  | inr err =>
      logger_Error (um_logger c) "error measuring" err;;
      mret (<[ID s := mjoin (previousScans !! ID s)]> measures)
  end.

Definition UM_CollectAndSend (c : UMCollector) (ctx : Context) (info : Info) (clients : Clients) (previousScans : Measures) :
    prog S (Measures * option error) :=
  measures ← for_each (measureStep c ctx info clients previousScans) ∅ (um_scanners c);
  from ← ext Now;
  to ← ext Now;
  let record := NewRecord from to (map_to_list measures).*2 in
  err ← sendRecord c record;
  mret (measures, err).

Context {C Q M T : Type} {GC : GoCache (obj S) C} {WQ : WorkQueue Q} {PM : Prometheus M} {TC : TtlCache T}.
Context {ZLL : ZapLoggerLaws S} (env : Env).
Context (ctx : Context) (info : Info) (clients : Clients) (previous : Measures).
Implicit Types w : world C Q M T.
Abbreviation answered := (answered (C := C) (Q := Q) (M := M) (T := T) env info clients).

(** What is kept for a scanner: its new scan, or else the previous one, or else nil. *)
Definition measure_kept (s : Scanner S) (answer : S + error) : option S :=
  match answer with inl scan => Some scan | inr _ => mjoin (previous !! ID s) end.

Definition measured (l : list (Scanner S * (S + error))) : Measures :=
  foldl (λ m sa, <[ID sa.1 := measure_kept sa.1 sa.2]> m) ∅ l.

Lemma measured_lookup l s answer : NoDup ((ID ∘ fst) <$> l) → (s, answer) ∈ l →
  measured l !! ID s = Some (measure_kept s answer).
Proof.
  induction l as [|[s' a'] l IH] using rev_ind; intros Hnd Hin; [by apply not_elem_of_nil in Hin|].
  unfold measured. rewrite foldl_app. cbn [foldl fst snd]. rewrite fmap_app in Hnd. apply NoDup_app in Hnd as (Hnd & Hdis & _).
  apply elem_of_app in Hin as [Hin|Hin].
  - rewrite lookup_insert_ne; [by apply IH|]. intros Heq. apply (Hdis (ID s)).
    + apply list_elem_of_fmap. by exists (s, answer).
    + simpl. rewrite <- Heq. by left.
  - apply list_elem_of_singleton in Hin as [= <- <-]. by rewrite lookup_insert_eq.
Qed.

Lemma measured_dom l id : is_Some (measured l !! id) ↔ id ∈ (ID ∘ fst) <$> l.
Proof.
  induction l as [|[s a] l IH] using rev_ind; [simpl; rewrite elem_of_nil; by split; intros []|].
  unfold measured. rewrite foldl_app, fmap_app, elem_of_app. cbn [foldl fst snd].
  change (((ID ∘ fst) <$> [(s, a)])) with [ID s]. rewrite list_elem_of_singleton, <- IH.
  destruct (decide (id = ID s)) as [->|Hne].
  - rewrite lookup_insert_eq. split; [by right|by eexists].
  - rewrite lookup_insert_ne by done. naive_solver.
Qed.

Lemma measureStep_run c s m w : scanner_ok s → ∃ answer w1,
  answered (calls env (measureStep c ctx info clients previous m s) w) s answer ∧
  w_http w1 = w_http w ∧
  (run env (measureStep c ctx info clients previous m s) w = (Returned (<[ID s := measure_kept s answer]> m), w1) ∧
   (um_logger c = None → succeeded answer) ∨
   um_logger c = None ∧ (∃ err, answer = inr err) ∧
   ∃ why, run env (measureStep c ctx info clients previous m s) w = (Panicked why, w1)).
Proof.
  intros Hs. destruct (run_silent env (Scan s ctx info clients) w (Hs ctx info clients)) as (answer & w1 & Hrun & _ & _ & Hh).
  assert (Hans : answered (calls env (measureStep c ctx info clients previous m s) w) s answer).
  { exists ctx, w, w1, []. unfold measureStep. rewrite calls_bind. by eexists. }
  revert Hans. generalize (calls env (measureStep c ctx info clients previous m s) w). intros cs Hans.
  unfold measureStep. rewrite run_bind, Hrun. destruct answer as [scan|err].
  - exists (inl scan), w1. split; [done|]. split; [done|]. by left.
  - destruct (um_logger c) as [logger|].
    + destruct (run_silent env (logger_Error (Some logger) "error measuring" err) w1 (logger_Error_silent _ _ _))
        as ([] & w2 & Hlog & _ & _ & Hh2). exists (inr err), w2. split; [done|]. split; [congruence|]. left.
      rewrite run_bind, Hlog. done.
    + exists (inr err), w1. split; [done|]. split; [done|]. right. split; [done|]. split; [by eexists|].
      destruct (logger_Error_nil (S := S) "error measuring" err) as [why Hnil]. exists why. rewrite run_bind, Hnil. done.
Qed.

Lemma measure_loop c l past w : Forall scanner_ok l →
  (∃ answers w', run env (for_each (measureStep c ctx info clients previous) (measured past) l) w =
      (Returned (measured (past ++ zip l answers)), w') ∧
    Forall2 (answered (calls env (for_each (measureStep c ctx info clients previous) (measured past) l) w)) l answers ∧
    w_http w' = w_http w ∧ (um_logger c = None → Forall succeeded answers)) ∨
  (um_logger c = None ∧ ∃ s err why w', s ∈ l ∧
     answered (calls env (for_each (measureStep c ctx info clients previous) (measured past) l) w) s (inr err) ∧
     run env (for_each (measureStep c ctx info clients previous) (measured past) l) w = (Panicked why, w')).
Proof.
  intros Hl. revert past w. induction Hl as [|s l Hs _ IH]; intros past w.
  { left. exists [], w. rewrite app_nil_r. split_and!; [done|constructor|done|constructor]. }
  cbn [for_each]. rewrite run_bind, calls_bind.
  set (cs := calls env (measureStep c ctx info clients previous (measured past) s) w).
  destruct (measureStep_run c s (measured past) w Hs) as (answer & w1 & Hans & Hh & [[-> Hsucc]|(Hnil & [err ->] & why & ->)]); fold cs in Hans.
  - replace (<[ID s := measure_kept s answer]> (measured past)) with (measured (past ++ [(s, answer)]))
      by (unfold measured; by rewrite foldl_app).
    destruct (IH (past ++ [(s, answer)]) w1)
      as [(answers & w' & Hrun & Hall & Hh' & Hs')|(Hnil & s' & err & why & w' & Hin & Ha & Hrun)].
    + left. exists (answer :: answers), w'. rewrite <- app_assoc in Hrun. split_and!; [exact Hrun| |congruence|].
      { constructor; [by apply (answered_mono env info clients [])|]. eapply Forall2_impl; [exact Hall|]. intros s1 a1 H1.
        rewrite <- (app_nil_r (calls _ _ w1)). by apply answered_mono. }
      intros Hnil. constructor; auto.
    + right. split; [done|]. exists s', err, why, w'. split_and!; [by right| |done].
      rewrite <- (app_nil_r (calls _ _ w1)). by apply answered_mono.
  - right. split; [done|]. exists s, err, why, w1. split_and!; [by left| |done]. by rewrite app_nil_r.
Qed.
End unifiedmetering.

Section theorem.
Context {QA : QuantityApi} {S : Type} {ZL : ZapLogger S} {ZLL : ZapLoggerLaws S}.
Context {C Q M T : Type} {GC : GoCache (obj S) C} {WQ : WorkQueue Q} {PM : Prometheus M} {TC : TtlCache T} (env : Env).

(** The unified metering collector returns for every scanner its new scan, or the previous
    one, or nil if there is none, never an error, and sends nothing; but one built by
    [NewCollector], which sets no logger, panics as soon as a scan fails. *)
Theorem UM_CollectAndSend_result c ctx info clients previous (w : world C Q M T) :
  Forall scanner_ok (um_scanners c) → NoDup (ID <$> um_scanners c) →
  (∃ answers measures w', run env (UM_CollectAndSend c ctx info clients previous) w = (Returned (measures, None), w') ∧
     Forall2 (answered (C := C) (Q := Q) (M := M) (T := T) env info clients (calls env (UM_CollectAndSend c ctx info clients previous) w))
       (um_scanners c) answers ∧
     (∀ s answer, (s, answer) ∈ zip (um_scanners c) answers → measures !! ID s = Some (measure_kept previous s answer)) ∧
     (∀ id, is_Some (measures !! id) ↔ id ∈ ID <$> um_scanners c) ∧ w_http w' = w_http w ∧
     (um_logger c = None → Forall succeeded answers)) ∨
  (um_logger c = None ∧ ∃ s err why w', s ∈ um_scanners c ∧
     answered (C := C) (Q := Q) (M := M) (T := T) env info clients (calls env (UM_CollectAndSend c ctx info clients previous) w)
       s (inr err) ∧
     run env (UM_CollectAndSend c ctx info clients previous) w = (Panicked why, w')).
Proof.
  intros Hok Hnd. unfold UM_CollectAndSend.
  destruct (measure_loop env ctx info clients previous c (um_scanners c) [] w Hok)
    as [(answers & w' & Hrun & Hall & Hh & Hs)|(Hnil & s & err & why & w' & Hin & Ha & Hrun)].
  - left. assert (Hzip : (ID ∘ fst) <$> zip (um_scanners c) answers = ID <$> um_scanners c).
    { rewrite list_fmap_compose, fst_zip; [done|]. by rewrite (Forall2_length _ _ _ Hall). }
    exists answers, (measured previous (zip (um_scanners c) answers)). eexists. rewrite run_bind, calls_bind.
    change (measured previous []) with (∅ : gmap ScannerID (option S)) in *. rewrite Hrun.
    split; [reflexivity|]. split; [eapply Forall2_impl; [exact Hall|]; intros s a; apply (answered_mono env info clients [])|]. split; [intros s answer; apply measured_lookup; by rewrite Hzip|].
    split; [intros id; by rewrite measured_dom, Hzip|done].
  - right. split; [done|]. exists s, err, why, w'. rewrite run_bind, calls_bind.
    change (measured previous []) with (∅ : gmap ScannerID (option S)) in *. rewrite Hrun. split_and!; [done| |done].
    by apply (answered_mono env info clients []).
Qed.
End theorem.

(** ** Concrete collections *)

(** A logger that writes nothing the model keeps. *)
#[local] Instance sample_ZapLogger : ZapLogger Z := λ logger msg err,
  match logger with Some _ => mret tt | None => Panic "invalid memory address or nil pointer dereference" end.
#[local] Instance sample_ZapLoggerLaws : ZapLoggerLaws Z.
Proof. split; [by eexists|done]. Qed.

Lemma UM_CollectAndSend_result_witness :
  (∃ measures (w' : collector_world), run sample_env (UM_CollectAndSend (NewCollector good_scanners) Background sample_info sample_clients ∅)
     collector_start = (Returned (measures, None), w') ∧ w_http w' = []) ∧
  (∃ why (w' : collector_world), run sample_env (UM_CollectAndSend (NewCollector failing_scanners) Background sample_info sample_clients ∅)
     collector_start = (Panicked why, w')).
Proof.
  split.
  - destruct (UM_CollectAndSend_result sample_env (NewCollector good_scanners) Background sample_info sample_clients ∅ collector_start
      good_scanners_ok) as [(answers & m & w' & Hrun & _ & _ & _ & Hh & _)|(_ & s & err & why & w' & _ & _ & Hrun)].
    + vm_decide.
    + exists m, w'. split; [exact Hrun|exact Hh].
    + exfalso. assert (Hb : match (run sample_env (UM_CollectAndSend (NewCollector good_scanners) Background sample_info sample_clients ∅)
        collector_start).1 with Returned _ => true | _ => false end = true) by (vm_compute; reflexivity).
      rewrite Hrun in Hb. discriminate Hb.
  - destruct (UM_CollectAndSend_result sample_env (NewCollector failing_scanners) Background sample_info sample_clients ∅ collector_start
      failing_scanners_ok) as [(answers & m & w' & Hrun & _)|(_ & s & err & why & w' & _ & _ & Hrun)].
    + vm_decide.
    + exfalso. assert (Hb : match (run sample_env (UM_CollectAndSend (NewCollector failing_scanners) Background sample_info sample_clients ∅)
        collector_start).1 with Returned _ => true | _ => false end = false) by (vm_compute; reflexivity).
      rewrite Hrun in Hb. discriminate Hb.
    + exists why, w'. exact Hrun.
Defined.
