(* ===== verification/Scanners.v ===== *)
(** * Scanners: the four scanners ([pkg/resource/*/scanner.go])

    Each lists its resources through the cluster's API and wraps them in a scan.  [AnyScan] is
    the interface value [resource.ScanConverter] with the four dynamic types. *)
From S2P Require Import Prelude GoStd GoFloat Resource CloudSpecs Tracing NodeScan PvcScan VscScan RedisScan.
From S2P Require Import Effects Libraries Clients Process Samples Retry EdpPayload EdpClient EdpCollector.
Local Open Scope Z_scope.
Local Open Scope list_scope.

Definition ErrNoNodesFound : error := Sentinel "node.ErrNoNodesFound" "no nodes found".

Inductive AnyScan {QA : QuantityApi} :=
| NodeScan_ (s : NodeScan.Scan)
| PvcScan_ (s : PvcScan.Scan)
| VscScan_ (s : VscScan.Scan)
| RedisScan_ (s : RedisScan.Scan).

#[global] Instance any_ScanConverter {QA : QuantityApi} : ScanConverter AnyScan := {|
  Resource.UM d s := match s with
    | NodeScan_ s => Resource.UM d s | PvcScan_ s => Resource.UM d s
    | VscScan_ s => Resource.UM d s | RedisScan_ s => Resource.UM d s end;
  Resource.EDP ord s := match s with
    | NodeScan_ s => Resource.EDP ord s | PvcScan_ s => Resource.EDP ord s
    | VscScan_ s => Resource.EDP ord s | RedisScan_ s => Resource.EDP ord s end;
|}.

#[global] Instance any_ScanConverterLaws {QA : QuantityApi} : ScanConverterLaws AnyScan.
Proof. intros ord ord' [s|s|s|s] Ho Ho'; exact (EDP_order ord ord' s Ho Ho'). Qed.

Definition cloudResourcesGroup : string := "cloud-resources.kyma-project.io".
Definition cloudResourcesVersion : string := "v1beta1".
Definition awsRedisGVR : GroupVersionResource :=
  {| Group := cloudResourcesGroup; Version := cloudResourcesVersion; ResourceName := "awsredisinstances" |}.
Definition azureRedisGVR : GroupVersionResource :=
  {| Group := cloudResourcesGroup; Version := cloudResourcesVersion; ResourceName := "azureredisinstances" |}.
Definition gcpRedisGVR : GroupVersionResource :=
  {| Group := cloudResourcesGroup; Version := cloudResourcesVersion; ResourceName := "gcpredisinstances" |}.

Section scanners.
Context {QA : QuantityApi}.
(** [UnstructuredList.MarshalJSON] and [json.Unmarshal] into a list of Redis instances. *)
Context (MarshalJSON : string → string + error) (json_Unmarshal : string → list RedisInstance + error).
Context (specs : PublicCloudSpecs).

(** [ctx, span := otel.Tracer("").Start(ctx, name, kmcotel.SpanAttributes(runtime)); defer span.End()] *)
Definition with_span {A} (ctx : Context) (name : string) (info : Info) (body : Span → prog AnyScan A) : prog AnyScan A :=
  span ← ext (SpanStart ctx name (SpanAttributes info));
  defer (ext (SpanEnd span)) (body span).

(** The span records the error of the API, not the wrapped one, and nothing when there are no nodes. *)
Definition node_Scan (ctx : Context) (info : Info) (clients : Clients) : prog AnyScan (AnyScan + error) :=
  with_span ctx "node_scan" info (λ span,
    list ← ext (ListNodes (Metadata clients));
    match list with
    | inr err =>
        fail_span span (Some err) (Error err);;
        mret (inr (wrapError ("failed to list list: " +:+ Error err) err))
    | inl items =>
        if decide (length items = O) then mret (inr ErrNoNodesFound) else
        mret (inl (NodeScan_ {| NodeScan.providerType := Info_ProviderType info; NodeScan.specs := specs; Items := items |}))
    end).

Definition pvc_Scan (ctx : Context) (info : Info) (clients : Clients) : prog AnyScan (AnyScan + error) :=
  with_span ctx "pvc_scan" info (λ span,
    pvcs ← ext (ListPVCs (K8s clients));
    match pvcs with
    | inr err =>
        let retErr := wrapError ("failed to list pvcs: " +:+ Error err) err in
        fail_span span (Some retErr) (Error retErr);;
        mret (inr retErr)
    | inl pvcs => mret (inl (PvcScan_ {| PvcScan.pvcs := pvcs |}))
    end).

Definition vsc_Scan (ctx : Context) (info : Info) (clients : Clients) : prog AnyScan (AnyScan + error) :=
  with_span ctx "vsc_scan" info (λ span,
    vscs ← ext (ListVSCs (VolumeSnapshot clients));
    match vscs with
    | inr err =>
        let retErr := wrapError ("failed to list vscs: " +:+ Error err) err in
        fail_span span (Some retErr) (Error retErr);;
        mret (inr retErr)
    | inl vscs => mret (inl (VscScan_ {| VscScan.vscs := vscs |}))
    end).

Definition convertUnstructuredListToRedisList (unstructuredList : string) : list RedisInstance + error :=
  match MarshalJSON unstructuredList with
  | inr err => inr (wrapError ("failed to marshal unstructured list: " +:+ Error err) err)
  | inl redisListBytes =>
      match json_Unmarshal redisListBytes with
      | inr err => inr (wrapError ("failed to unmarshal unstructured list: " +:+ Error err) err)
      | inl targetList => inl targetList
      end
  end.

(** The list it leaves in [targetList], which is empty before. *)
Definition listRedisInstances (clients : Clients) (resource : GroupVersionResource) : prog AnyScan (list RedisInstance + error) :=
  result ← ext (ListRedis (Dynamic clients) resource);
  match result with
  | inr err => if isNotFound err then mret (inl []) else mret (inr (apiErr err))
  | inl unstructuredList => mret (convertUnstructuredListToRedisList unstructuredList)
  end.

(** [errs = append(errs, err)] after a failed listing. *)
Definition listErrs (r : list RedisInstance + error) : list error := match r with inl _ => [] | inr err => [err] end.
Definition listItems (r : list RedisInstance + error) : list RedisInstance := match r with inl l => l | inr _ => [] end.

(** One of the three listings of [Scan], with its error handling. *)
Definition listWith (span : Span) (clients : Clients) (resource : GroupVersionResource) : prog AnyScan (list RedisInstance + error) :=
  r ← listRedisInstances clients resource;
  match r with
  | inl l => mret (inl l)
  | inr err => fail_span span (Some err) (Error err);; mret (inr err)
  end.

Definition redis_Scan (ctx : Context) (info : Info) (clients : Clients) : prog AnyScan (AnyScan + error) :=
  with_span ctx "redis_scan" info (λ span,
    aws ← listWith span clients awsRedisGVR;
    azure ← listWith span clients azureRedisGVR;
    gcp ← listWith span clients gcpRedisGVR;
    match errors_Join (listErrs aws ++ listErrs azure ++ listErrs gcp) with
    | None => mret (inl (RedisScan_ {| RedisScan.specs := specs; aws := listItems aws; azure := listItems azure;
                                       gcp := listItems gcp |}))
    | Some err => mret (inr err)
    end).

(** [NewScanner] and [ID] of the four packages, and the scanners [main] registers. *)
Definition node_NewScanner : Scanner AnyScan := {| ID := "node"; Scan := node_Scan |}.
Definition pvc_NewScanner : Scanner AnyScan := {| ID := "pvc"; Scan := pvc_Scan |}.
Definition redis_NewScanner : Scanner AnyScan := {| ID := "redis"; Scan := redis_Scan |}.
Definition vsc_NewScanner : Scanner AnyScan := {| ID := "vsc"; Scan := vsc_Scan |}.
Definition scanners : list (Scanner AnyScan) := [node_NewScanner; pvc_NewScanner; redis_NewScanner; vsc_NewScanner].

Lemma listRedisInstances_silent clients resource : silent (listRedisInstances clients resource).
Proof. split; [done|]. intros [u|err]; simpl; [done|]. by destruct (isNotFound err). Qed.

Lemma listWith_silent span clients resource : silent (listWith span clients resource).
Proof. apply only_bind; [apply listRedisInstances_silent|]. by intros [l|err]. Qed.

Lemma with_span_silent {A} ctx name info (body : Span → prog AnyScan A) :
  (∀ span, silent (body span)) → silent (with_span ctx name info body).
Proof. intros Hbody. split; [done|]. intros span. by apply only_defer. Qed.

Lemma scanners_ok : Forall scanner_ok scanners.
Proof.
  repeat (constructor; [intros ctx info clients; apply with_span_silent; intros span|]); [..|constructor].
  - split; [done|]. intros [l|err]; [|done]. simpl. by case_decide.
  - split; [done|]. by intros [l|err].
  - apply only_bind; [apply listWith_silent|]. intros a.
    apply only_bind; [apply listWith_silent|]. intros b.
    apply only_bind; [apply listWith_silent|]. intros c. by destruct (errors_Join _).
  - split; [done|]. by intros [l|err].
Qed.

Lemma scanners_NoDup : NoDup (ID <$> scanners).
Proof. vm_decide. Qed.

(** What listing one kind of Redis instance amounts to. *)
Definition redis_listing (answer : string + ApiError) : option (list RedisInstance) :=
  match answer with
  | inr err => if isNotFound err then Some [] else None
  | inl u => match convertUnstructuredListToRedisList u with inl l => Some l | inr _ => None end
  end.

Context {C Q M T : Type} {GC : GoCache (obj AnyScan) C} {WQ : WorkQueue Q} {PM : Prometheus M} {TC : TtlCache T}.
Context (env : Env).
Implicit Types w : world C Q M T.

(** The answer of the cluster for one kind, in the call that is made as number [t]. *)
Definition redis_answer (clients : Clients) (resource : GroupVersionResource) (t : nat) : option (list RedisInstance) :=
  redis_listing (env _ (ListRedis (Dynamic clients) resource) t).

Lemma listWith_run span clients resource w : ∃ r w',
  run env (listWith span clients resource) w = (Returned r, w') ∧ (w_tick w < w_tick w')%nat ∧
  match redis_answer clients resource (w_tick w) with
  | Some l => r = inl l
  | None => ∃ err, r = inr err
  end.
Proof.
  unfold listWith, listRedisInstances, redis_answer. rewrite !run_bind, run_ext.
  destruct (env _ _ _) as [u|err]; simpl.
  - destruct (convertUnstructuredListToRedisList u); do 2 eexists; (split; [reflexivity|]); simpl; eauto with lia.
  - destruct (isNotFound err); do 2 eexists; (split; [reflexivity|]); simpl; eauto with lia.
Qed.

(** A cluster without one of the Redis resource kinds is billed for the others: the scan asks for the three kinds one after
    the other, succeeds exactly when each of them could be listed and decoded or is not known
    to the cluster, and a kind that is not known counts as no instance. *)
Theorem redis_Scan_result ctx info clients w : ∃ r w' t1 t2 t3,
  run env (redis_Scan ctx info clients) w = (Returned r, w') ∧ (w_tick w < t1 < t2)%nat ∧ (t2 < t3 < w_tick w')%nat ∧
  match redis_answer clients awsRedisGVR t1, redis_answer clients azureRedisGVR t2, redis_answer clients gcpRedisGVR t3 with
  | Some aws, Some azure, Some gcp =>
      r = inl (RedisScan_ {| RedisScan.specs := specs; aws := aws; azure := azure; gcp := gcp |})
  | _, _, _ => ∃ err, r = inr err
  end.
Proof.
  unfold redis_Scan, with_span. rewrite run_bind, run_ext. set (span := env _ _ _). set (w0 := tick _ w).
  destruct (listWith_run span clients awsRedisGVR w0) as (a & w1 & Ha & Ht1 & Hla).
  destruct (listWith_run span clients azureRedisGVR w1) as (b & w2 & Hb & Ht2 & Hlb).
  destruct (listWith_run span clients gcpRedisGVR w2) as (c & w3 & Hc & Ht3 & Hlc).
  set (result := match errors_Join (listErrs a ++ listErrs b ++ listErrs c) with
    | None => inl (RedisScan_ {| RedisScan.specs := specs; aws := listItems a; azure := listItems b; gcp := listItems c |})
    | Some err => inr err end).
  exists result, (tick (SpanEnd span) w3), (w_tick w0), (w_tick w1), (w_tick w2). split.
  { apply run_defer. rewrite run_bind, Ha, run_bind, Hb, run_bind, Hc. unfold result. by destruct (errors_Join _). }
  split; [simpl in *; lia|]. split; [simpl in *; lia|]. unfold result.
  destruct (redis_answer _ awsRedisGVR _), (redis_answer _ azureRedisGVR _), (redis_answer _ gcpRedisGVR _);
    repeat match goal with H : ∃ _, _ |- _ => destruct H end; subst; simpl; eauto.
Qed.
End scanners.
