(* ===== verification/Kmc.v ===== *)
(** * Kmc: the collector put together ([cmd/main.go])

    [process] with the EDP collector and its four scanners: the interfaces of the components are
    discharged by their implementations, and the theorems compose. *)
From S2P Require Import Prelude GoStd GoFloat Rfc3339 Logger Resource CloudSpecs NodeScan PvcScan VscScan RedisScan Tracing ClusterTracking.
From S2P Require Import Effects Libraries Clients Process Samples ProcessSpec QueueSpec KubeconfigProvider Concurrency Retry.
From S2P Require Import Decimal Json EdpPayload PayloadJson EdpClient EdpCollector EdpCollectorSpec Scanners.
Local Open Scope Z_scope.
Local Open Scope list_scope.

Section kmc.
Context {QA : QuantityApi} {SS : SortSlice} {R : Retry AnyScan} {RL : RetryLaws AnyScan}.
Context {C Q M T : Type} {GC : GoCache (obj AnyScan) C} {WQ : WorkQueue Q} {PM : Prometheus M} {TC : TtlCache T}.
Context {GCL : GoCacheLaws (obj AnyScan) C} {WQL : WorkQueueLaws Q} {PML : PrometheusLaws M} {TCL : TtlCacheLaws T}.
Context (MarshalJSON : string → string + error) (json_Unmarshal : string → list RedisInstance + error).
Context (url_Parse : string → option error).
Context (specs : PublicCloudSpecs) (config : Config) (ttl : Z).

Abbreviation kmc_scanners := (scanners MarshalJSON json_Unmarshal specs).

#[local] Instance kmc_Collector : CollectorSender AnyScan :=
  EdpCollector.CollectAndSend Marshal url_Parse config kmc_scanners.
#[local] Instance kmc_ConfigProvider : ConfigProvider AnyScan := KubeconfigProvider.Get (New ttl kubeconfigProviderName).
#[local] Instance kmc_ClientFactory : ClientFactory AnyScan := Clients.NewClients.

Context (Hretry : 0 < EventRetry config < 2 ^ 63) (Httl : jitter_ok ttl).

#[local] Instance kmc_CollectorLaws : CollectorSenderLaws AnyScan.
Proof. by apply edp_CollectorSenderLaws, scanners_ok. Qed.
#[local] Instance kmc_ConfigProviderLaws : ConfigProviderLaws AnyScan.
Proof. intros runtimeID. by apply Get_only. Qed.
#[local] Instance kmc_ClientFactoryLaws : ClientFactoryLaws AnyScan.
Proof. intros rc. apply NewClients_ext. Qed.

Context (env : Env).
Implicit Types w : world C Q M T.

(** C7 -- No interleaving makes a goroutine of the collector that [main] puts together panic: in every reachable state, whatever a
    goroutine has left of its iteration returns when it is run, and the cache only ever holds records, each under its own
    sub-account, so that the failed casts the code handles do not occur.  Only the poller may end the process, at its very beginning,
    when it cannot build its request for KEB.  The number of attempts for EDP is positive, and the TTL of kubeconfigs is
    one for which the bound of the jitter is positive or not used. *)
Theorem no_thread_panics p (s : system AnyScan C Q M T) : reachable env p s →
  (∀ x o, cache_get x (sys_cache s) = Some o → ∃ rec, o = ObjRecord rec ∧ Effects.SubAccountID rec = x) ∧
  ∀ i t, running s i t →
    (∃ w', run env (th_prog t) (sys_world s) = (Returned (), w')) ∨
    i = 0%nat ∧ ∃ err, th_prog t = pollSetup (inr err).
Proof.
  intros Hr. split; [intros x o; by apply (reachable_records env p)|]. intros i t Ht.
  destruct (reachable_returns env p s i t Hr Ht) as [?|[-> (err & -> & _)]]; [by left|right]. split; [done|]. by exists err.
Qed.

(** EDP accepted the payload, and what was sent decodes to it if its strings are UTF-8. *)
Definition delivered (pl : payload) (subAccountID : string) (l : list answered_call) : Prop :=
  acknowledged Marshal url_Parse config pl subAccountID l ∧
  (payload_utf8 pl → Forall (λ x, Unmarshal (Body x.1) = Some pl) (exchanges l)).

(** The requests that were sent for a payload. *)
Lemma posted_events pl subAccountID l : posted Marshal url_Parse config pl subAccountID l →
  Forall (λ x, Marshal pl = inl (Body x.1) ∧ URL x.1 = getEDPURL config subAccountID) (exchanges l).
Proof.
  intros (r & body & req & Hbody & Hreq & HF & _). eapply Forall_impl; [exact HF|]. intros x ->. split; [done|].
  unfold NewRequest in Hreq. destruct (url_Parse _); [done|]. by injection Hreq as <-.
Qed.

Lemma acknowledged_delivered pl subAccountID l :
  acknowledged Marshal url_Parse config pl subAccountID l → delivered pl subAccountID l.
Proof.
  intros Hack. split; [done|]. intros Hutf. destruct Hack as [resp Hpost].
  eapply Forall_impl; [apply (posted_events pl subAccountID); by eexists|]. intros x [Hbody _]. by apply Marshal_decodes.
Qed.

(** The clients are connected to the cluster of the runtime: they were built from the kubeconfig that the
    provider had cached for the runtime or read from its secret. *)
Definition connected (runtimeID : string) (clients : Clients) w : Prop := ∃ now kubeconfig w1 t rc,
  got env (New ttl kubeconfigProviderName) runtimeID now (inl kubeconfig) w w1 ∧
  env _ (RESTConfigFromKubeConfig kubeconfig) t = inl rc ∧ built env (with_Proxy rc) clients.

Lemma kmc_Get_silent runtimeID : silent (ConfigProvider_Get (S := AnyScan) runtimeID).
Proof. by apply Get_only. Qed.

Lemma connected_later runtimeID clients n w : runtime_ok env →
  connected runtimeID clients (later n w) → connected runtimeID clients w.
Proof.
  intros Hok (now & kc & w1 & t & rc & Hgot & Hrest). exists now, kc, w1, t, rc. split; [by apply (got_later env n)|exact Hrest].
Qed.

(** Where a worker's collection is among its calls, if it gets that far: nothing is sent before it. *)
Lemma processRecord_collects p rec x j w : runtime_ok env →
  exchanges (calls env (processRecord p rec x j) w) = [] ∧ (run env (processRecord p rec x j) w).1 ≠ Returned true ∨
  ∃ clients w3 l0, connected (Effects.RuntimeID rec) clients w ∧ exchanges l0 = [] ∧
    calls env (processRecord p rec x j) w = l0 ++ calls env (collectWith p rec x j clients) w3 ∧
    run env (processRecord p rec x j) w = run env (collectWith p rec x j clients) w3.
Proof.
  intros Hok. unfold processRecord. rewrite run_logf_bind, calls_logf_bind, run_bind, calls_bind.
  destruct (Get_run (S := AnyScan) env (New ttl kubeconfigProviderName) (Effects.RuntimeID rec) (later 1 w) Hok Httl)
    as (now & r & w1 & Hrun1 & Hgot).
  change (KubeconfigProvider.Get (New ttl kubeconfigProviderName) (Effects.RuntimeID rec)) with
    (ConfigProvider_Get (S := AnyScan) (Effects.RuntimeID rec)) in Hrun1. rewrite Hrun1.
  pose proof (silent_exchanges env _ (later 1 w) (kmc_Get_silent (Effects.RuntimeID rec))) as Hx1.
  set (l1 := calls env (ConfigProvider_Get (Effects.RuntimeID rec)) (later 1 w)) in *.
  assert (Hx1' : ∀ e l, exchanges (logged LDebug e "record found from kubeconfigprovider: %+v" [shown rec] :: l1 ++ l) = exchanges l)
    by (intros e l; change (exchanges (l1 ++ l) = exchanges l); by rewrite exchanges_app, Hx1).
  destruct r as [kc|]; [|left; by rewrite Hx1']. rewrite run_bind, calls_bind, run_ext.
  set (l2 := calls env (ext _) w1). assert (Hx2 : ∀ l, exchanges (l2 ++ l) = exchanges l) by done.
  destruct (env _ (RESTConfigFromKubeConfig kc) _) as [rc|] eqn:Hrc; [|left; by rewrite Hx1', Hx2].
  change (NewClients rc) with (Clients.NewClients (S := AnyScan) rc). rewrite run_bind, calls_bind.
  set (w2 := tick _ w1). set (l3 := calls env (Clients.NewClients rc) w2).
  assert (Hx3 : exchanges l3 = []).
  { apply unsent_exchanges. repeat (split; [done|]; intros [?|?]; [|done]). done. }
  destruct (NewClients_result env rc w2) as ([clients|err] & w3 & Hcl & _ & Hbuilt); rewrite Hcl.
  - right. exists clients, w3. eexists (_ :: l1 ++ l2 ++ l3). split_and!; [|by rewrite Hx1', Hx2|by rewrite <- !app_comm_cons, <- !app_assoc|done].
    exists now, kc, w1, (w_tick w1), rc. by split; [apply (got_later env 1)|].
  - left. rewrite Hx1', Hx2, exchanges_app, Hx3. done.
Qed.

(** The calls of a collection that was started, and what the worker makes of its result. *)
Lemma collectWith_collects p rec x j clients w : env_ok env → ∃ answers current scans ms err w1 l1 l2,
  run env (Process.CollectAndSend Background (runtimeInfo rec) clients (ScanMap rec)) w = (Returned (scans, err), w1) ∧
  collection env Marshal url_Parse config kmc_scanners (runtimeInfo rec) clients (ScanMap rec) answers current scans ms err w l1 ∧
  l1 = calls env (Process.CollectAndSend Background (runtimeInfo rec) clients (ScanMap rec)) w ∧
  calls env (collectWith p rec x j clients) w = l1 ++ l2 ∧ exchanges l2 = [].
Proof.
  intros Henv. destruct (CollectAndSend_run env Henv Marshal url_Parse config Hretry kmc_scanners Background (runtimeInfo rec) clients
    (ScanMap rec) (scanners_ok _ _ _) (scanners_NoDup _ _ _) w) as (answers & cur & scans & ms & err & w1 & Hrun & Hcol).
  change (EdpCollector.CollectAndSend Marshal url_Parse config kmc_scanners) with (Process.CollectAndSend (S := AnyScan)) in *.
  exists answers, cur, scans, ms, err, w1. do 2 eexists. split; [exact Hrun|]. split; [exact Hcol|]. split; [done|].
  unfold collectWith. rewrite calls_defer_eq, run_bind, calls_bind, Hrun, <- app_assoc. split; [reflexivity|].
  rewrite exchanges_app. destruct err; done.
Qed.

(** C3 -- End to end: when a worker processed a cached cluster successfully, then among the calls it made, its
    clients were built from the kubeconfig of this runtime, each of the four scanners scanned the
    cluster anew, their measurements were added up into one payload for the record's runtime, sub-account and
    shoot, stamped with the time the clock gave, every HTTP request it sent was to EDP with a text that decodes to this payload (if its
    strings are UTF-8), EDP answered the last of them and no other with 201 Created, and exactly the scans that were billed
    are cached for the next time. *)
Theorem processed_cluster_is_billed p x j rec w w' : env_ok env → runtime_ok env →
  cache_get x (w_cache w) = Some (ObjRecord rec) →
  run env (processSubAccountID p x j) w = (Returned true, w') → ∃ clients scans ms now,
  connected (Effects.RuntimeID rec) clients w ∧ existT _ (Now, now) ∈ calls env (processSubAccountID p x j) w ∧
  (∀ id, id ∈ ["node"; "pvc"; "redis"; "vsc"] → ∃ s scan, s ∈ kmc_scanners ∧ ID s = id ∧
     answered (C := C) (Q := Q) (M := M) (T := T) env (runtimeInfo rec) clients (calls env (processSubAccountID p x j) w) s (inl scan) ∧
     scans !! id = Some scan ∧ converts scan) ∧
  bills scans ms ∧
  delivered (newPayload (Effects.RuntimeID rec) (Effects.SubAccountID rec) (Effects.ShootName rec) (Format now) ms)
    (Effects.SubAccountID rec) (calls env (processSubAccountID p x j) w) ∧
  cache_get (Effects.SubAccountID rec) (w_cache w') = Some (ObjRecord (with_ScanMap rec scans)).
Proof.
  intros Henv Hok Hget. unfold processSubAccountID. rewrite run_logf_bind, run_call_bind, calls_logf_bind, calls_bind, run_call.
  change (calls env (call (CacheGet x)) (later 1 w)) with (@nil answered_call). cbn [handle_eff fst snd app].
  change (w_cache (later 1 w)) with (w_cache w). rewrite Hget. set (e := logged _ _ _ _). intros Hrun.
  destruct (processRecord_collects p rec x j (later 1 w) Hok) as [[_ Hno]|(clients & w3 & l0 & Hcon & Hx0 & Hcalls & Heq)];
    [by rewrite Hrun in Hno|]. rewrite Hrun in Heq. rewrite Hcalls.
  destruct (collectWith_collects p rec x j clients w3 Henv) as (answers & cur & scans & ms & err & w4 & l1 & l2 & Hcol & Hc & Hl1 & -> & Hx2).
  assert (err = None) as ->.
  { symmetry in Heq. unfold collectWith in Heq. rewrite run_defer_eq, run_bind, Hcol in Heq. destruct err; [|done]. simpl in Heq. congruence. }
  destruct (CollectAndSend_success_run env Henv Marshal url_Parse config Hretry kmc_scanners Background (runtimeInfo rec)
    clients (ScanMap rec) (scanners_ok _ _ _) (scanners_NoDup _ _ _) scans w3 w4 Hcol) as (Hall & _ & ms' & Hbills & Hack).
  change (EdpCollector.CollectAndSend Marshal url_Parse config kmc_scanners) with (Process.CollectAndSend (S := AnyScan)) in *.
  rewrite <- Hl1 in Hall, Hack. exists clients, scans, ms', (start_time env w3).
  assert (Hx : exchanges (e :: l0 ++ l1 ++ l2) = exchanges l1)
    by (change (exchanges (l0 ++ l1 ++ l2) = exchanges l1); by rewrite !exchanges_app, Hx0, Hx2, app_nil_r).
  split; [by apply (connected_later _ _ 1)|]. split; [pose proof (col_now _ _ _ _ _ _ _ _ _ _ _ _ _ _ _ Hc); set_solver|].
  split_and!; [|exact Hbills| |].
  - intros id Hid. change (id ∈ ID <$> kmc_scanners) in Hid. apply list_elem_of_fmap in Hid as (s & -> & Hs).
    destruct (Hall s Hs) as (scan & Hans & Hscan & Hconv). exists s, scan. split_and!; try done.
    apply (answered_mono env _ _ (e :: l0)) with (l1 := l2) in Hans. done.
  - apply acknowledged_delivered. unfold acknowledged, posted_with in *. rewrite Hx. exact Hack.
  - symmetry in Heq. unfold collectWith in Heq. rewrite run_defer_eq, run_bind, Hcol in Heq. simpl in Heq. injection Heq as <-.
    simpl. by rewrite cache_get_set, decide_True.
Qed.

(** C17 -- A worker sends nothing over HTTP but events of the cluster it is processing: every request it sends, retries included and
    whether or not the collection succeeds, goes to the EDP URL of the sub-account of the record that is cached for its queue item, and
    its body is the event of that record for some measurements; the event decodes to the payload if its strings are UTF-8, and its
    timestamp is an RFC 3339 date-time that denotes the second in which the collection started (for zones of whole
    minutes and years of four digits). *)
Theorem only_events_sent p x j w req answer : env_ok env → runtime_ok env →
  (req, answer) ∈ exchanges (calls env (processSubAccountID p x j) w) → ∃ rec ms now pl,
  cache_get x (w_cache w) = Some (ObjRecord rec) ∧ existT _ (Now, now) ∈ calls env (processSubAccountID p x j) w ∧
  pl = newPayload (Effects.RuntimeID rec) (Effects.SubAccountID rec) (Effects.ShootName rec) (Format now) ms ∧
  URL req = getEDPURL config (Effects.SubAccountID rec) ∧ Marshal pl = inl (Body req) ∧
  (payload_utf8 pl → Unmarshal (Body req) = Some pl) ∧
  (whole_zone (zoneOffset now) → four_digit_year now → Parse (Timestamp pl) = Some (whole_second now)).
Proof.
  intros Henv Hok. unfold processSubAccountID. rewrite calls_logf_bind, calls_bind, run_call.
  change (calls env (call (CacheGet x)) (later 1 w)) with (@nil answered_call). cbn [handle_eff fst snd app].
  change (w_cache (later 1 w)) with (w_cache w). set (e := logged _ _ _ _).
  destruct (cache_get x (w_cache w)) as [[rec|]|]; [|simpl; set_solver..].
  change (exchanges (e :: ?l)) with (exchanges l).
  destruct (processRecord_collects p rec x j (later 1 w) Hok) as [[-> _]|(clients & w3 & l0 & _ & Hx0 & -> & _)]; [set_solver|].
  destruct (collectWith_collects p rec x j clients w3 Henv) as (answers & cur & scans & ms & err & w4 & l1 & l2 & _ & Hc & _ & -> & Hx2).
  rewrite !exchanges_app, Hx0, Hx2, app_nil_r. intros Hin.
  destruct (col_events _ _ _ _ _ _ _ _ _ _ _ _ _ _ _ Hc) as [Hpost|Hnone]; [|rewrite Hnone in Hin; set_solver].
  pose proof (proj1 (Forall_forall _ _) (posted_events _ _ _ Hpost) _ Hin) as [Hbody Hurl].
  exists rec, ms, (start_time env w3). eexists. split; [done|]. split; [pose proof (col_now _ _ _ _ _ _ _ _ _ _ _ _ _ _ _ Hc); set_solver|].
  split; [reflexivity|]. split_and!; [exact Hurl|exact Hbody| |].
  - intros Hutf. by apply Marshal_decodes.
  - intros Hz Hy. by apply Parse_Format.
Qed.

(** Either no client set was built, or one was and closing its HTTP client is the last call. *)
Definition scoped (l : list answered_call) : Prop :=
  (opened l = [] ∧ closed l = []) ∨
  ∃ cl l', l = l' ++ [closing cl] ∧ opened l' = [cl] ∧ closed l' = [].

(** What was called before a client set was built does not matter. *)
Lemma scoped_prefix l1 l2 : opened l1 = [] → closed l1 = [] → scoped l2 → scoped (l1 ++ l2).
Proof.
  unfold scoped, opened, closed. intros Ho Hc [[Ho' Hc']|(cl & l' & -> & Ho' & Hc')].
  - left. by rewrite !omap_app, Ho, Hc, Ho', Hc'.
  - right. exists cl, (l1 ++ l'). rewrite !omap_app, Ho, Hc, Ho', Hc', app_assoc. done.
Qed.

Lemma collectWith_calls p rec x j clients w : ∃ l,
  calls env (collectWith p rec x j clients) w = l ++ [closing (client clients)] ∧
  opened l = [] ∧ closed l = [].
Proof.
  unfold collectWith. rewrite calls_defer_eq, run_bind, calls_bind.
  destruct (run_quiet env (Process.CollectAndSend Background (runtimeInfo rec) clients (ScanMap rec)) w)
    as ([scans err] & w4 & Hrun & _); [apply CollectAndSend_quiet|]. rewrite Hrun.
  assert (Hcl : ∀ t, env _ (CloseIdleConnections (client clients)) t = tt) by (intros t; by destruct (env _ _ t)).
  destruct (calls_tame env _ w (CollectAndSend_tame Background (runtimeInfo rec) clients (ScanMap rec))) as [Ho Hc].
  unfold opened, closed, closing in *.
  set (l1 := calls env (Process.CollectAndSend Background (runtimeInfo rec) clients (ScanMap rec)) w) in *.
  eexists. split.
  - apply (f_equal2 app); [reflexivity|]. destruct err; simpl; rewrite Hcl; reflexivity.
  - rewrite !omap_app, Ho, Hc. by destruct err.
Qed.

Lemma processRecord_calls p rec x j w : scoped (calls env (processRecord p rec x j) w).
Proof.
  unfold processRecord. rewrite calls_logf_bind. apply (scoped_prefix [_]); [done..|].
  rewrite calls_bind. apply scoped_prefix; [apply calls_tame, ConfigProvider_Get_tame..|].
  destruct (run_silent env _ (later 1 w) (kmc_Get_silent (Effects.RuntimeID rec))) as ([kc|] & w1 & -> & _); [|by left].
  rewrite calls_bind, run_ext. apply scoped_prefix; [done..|].
  destruct (env _ (RESTConfigFromKubeConfig kc) _) as [rc|]; [|by left].
  change (NewClients rc) with (Clients.NewClients (S := AnyScan) rc).
  rewrite calls_bind. set (w2 := tick _ _).
  destruct (calls_NewClients env rc w2) as [Hc Ho].
  destruct (NewClients_result env rc w2) as ([clients|err] & w3 & Hrun & _); rewrite Hrun in *; cbn [fst] in Ho.
  - destruct (collectWith_calls p rec x j clients w3) as (l & -> & Hol & Hcl). right.
    exists (client clients), (calls env (Clients.NewClients rc) w2 ++ l). unfold opened, closed in *.
    by rewrite !omap_app, Ho, Hc, Hol, Hcl, app_assoc.
  - left. unfold opened, closed in *. by rewrite !omap_app, Ho, Hc.
Qed.

(** All calls of the outside are those of [processSubAccountID]. *)
Lemma executeItem_calls p x j w : calls env (executeItem p x j) w = calls env (processSubAccountID p x j) w.
Proof.
  unfold executeItem. rewrite calls_bind. destruct (run env (processSubAccountID p x j) w) as [[[]|msg|msg] w']; apply app_nil_r.
Qed.

(** C9 -- Workers do not leak connections: while a worker handles an item it builds at most one
    complete set of cluster clients, and whatever happens then, success or error, the last thing it
    does with the outside world is to close the connections of the one HTTP client this set
    shares; nothing is closed otherwise. *)
Theorem connections_released p x j w : scoped (calls env (executeItem p x j) w).
Proof.
  rewrite executeItem_calls. unfold processSubAccountID. rewrite calls_logf_bind. apply (scoped_prefix [_]); [done..|].
  rewrite calls_bind. apply scoped_prefix; [done..|]. cbn [run call handle_eff fst snd].
  destruct (cache_get x _) as [[rec|]|]; [apply processRecord_calls|by left..].
Qed.
End kmc.

(** ** A TTL that crashes the collector *)

Section crash.
Context {QA : QuantityApi} {CS : CollectorSender AnyScan} {CF : ClientFactory AnyScan}.
Context {C Q M T : Type} {GC : GoCache (obj AnyScan) C} {WQ : WorkQueue Q} {PM : Prometheus M} {TC : TtlCache T}.
Context {TCL : TtlCacheLaws T} (env : Env) (sec : Z).

(** C38 -- A cache TTL from 180 to 199 seconds, which the command line accepts, stops the collector: the
    first worker that takes a cached cluster whose kubeconfig is not cached yet and whose secret can be
    read panics while it stores the kubeconfig, because the bound of the jitter is rounded down
    to zero and [rand.Int63n] does not accept it.  The item is then never marked as done. *)
Theorem short_ttl_crashes p x j rec (w : world C Q M T) : 180 ≤ sec < 200 →
  (∀ t t', (t ≤ t')%nat → env _ Clock t ≤ env _ Clock t') →
  cache_get x (w_cache w) = Some (ObjRecord rec) →
  (∀ now, tc_get now (Effects.RuntimeID rec) (w_kube w) = None) →
  (∀ t, ∃ kubeconfig, holds_kubeconfig
     (env _ (GetSecret kcpNamespace (kubconfigSecretPrefix +:+ Effects.RuntimeID rec)) t) kubeconfig) →
  ∃ w', run env (executeItem (CP := kmc_ConfigProvider (sec * 10 ^ 9)) p x j) w = (Panicked "invalid argument to Int63n", w') ∧ w_queue w' = w_queue w.
Proof.
  intros Hsec Hclk Hget Hmiss Hsecret.
  assert (Hload : ∀ w1, ∃ w', run env (loader (S := AnyScan) (sec * 10 ^ 9) (Effects.RuntimeID rec)) w1 =
    (Panicked "invalid argument to Int63n", w') ∧ w_queue w' = w_queue w1).
  { intros w1. unfold loader. rewrite run_logf_bind, run_bind.
    destruct (getKubeConfigFromSecret_run (S := AnyScan) env (Effects.RuntimeID rec) (later 1 w1)) as (answer & r & n & -> & -> & Hr).
    destruct r as [kc|err]; [|by destruct (Hsecret (w_tick (later 1 w1))) as [kc []%Hr]].
    rewrite run_logf_bind, run_bind, getJitterTTL_panics; [by eexists|].
    unfold jitter_ok. rewrite jitterBuffer_zero by lia. unfold Minute. lia. }
  set (w1 := later 2 w). set (c := tc_delete_expired (clock env w1) (w_kube w1)).
  set (w2 := with_metrics (m_set cacheSizeMetric [kubeconfigProviderName] (float64_of_int64 (tc_len c)) (w_metrics w1))
    (with_kube c (tick Clock w1))).
  assert (Hc : ∀ now, clock env w1 ≤ now → tc_get now (Effects.RuntimeID rec) c = None)
    by (intros now Hnow; unfold c; rewrite tc_get_delete_expired by done; apply Hmiss).
  destruct (Hload (tick Clock w2)) as (w' & Hrun & Hq). exists w'. split; [|by rewrite Hq].
  unfold executeItem, processSubAccountID. rewrite run_bind, run_logf_bind, run_call_bind. cbn [handle_eff fst snd].
  change (w_cache (later 1 w)) with (w_cache w). rewrite Hget.
  unfold processRecord. rewrite run_logf_bind. change (later 1 (later 1 w)) with w1.
  unfold ConfigProvider_Get, kmc_ConfigProvider, Get, cache_Get.
  rewrite !run_bind. change (run env (call (Ttl TtlDeleteExpired)) w1) with (Returned tt, with_kube c (tick Clock w1)).
  cbv iota beta. rewrite !run_bind. change (run env (recordMetrics _) _) with (Returned tt, w2). cbv iota beta. rewrite !run_bind.
  rewrite run_call. change (handle_eff env (Ttl (TtlGet ?k)) w2) with (tc_get (clock env w2) k c, tick Clock w2 : world C Q M T).
  cbn [fst snd]. rewrite Hc by (apply Hclk; simpl; lia). cbn [kp_ttl New]. by rewrite Hrun.
Qed.
End crash.

(** ** A concrete run *)

Definition sample_cluster_node : NodeScan.PartialObjectMetadata := sample_node "m5.xlarge".

(** An environment with a cluster of one node. *)
Definition cluster_env : Env := λ X q t,
  match q in request X return X with
  | ListNodes _ => inl [sample_cluster_node]
  | q => sample_env _ q t
  end.

Definition kmc_world : world (gmap string (obj AnyScan)) simple_queue metric_map ttl_map :=
  {| w_cache := {["sa-1" := ObjRecord (newRecord (sample_runtime "ga" "sa-1" "shoot-a" false))]};
     w_queue := sq_add "sa-1" sq_empty; w_metrics := ∅; w_kube := ∅; w_tick := 0; w_http := [] |}.
Definition sample_redis (body : string) : list RedisInstance + error := inl [].

#[local] Instance sample_kmc : CollectorSender AnyScan :=
  kmc_Collector inl sample_redis sample_Parse NodeScan.sample_specs sample_config.
#[local] Instance sample_kubeconfigs : ConfigProvider AnyScan := kmc_ConfigProvider DefaultKubeconfigCacheTTL.
#[local] Existing Instance kmc_ClientFactory.

Lemma cluster_env_ok : env_ok cluster_env.
Proof. by intros t l. Qed.
Lemma cluster_runtime_ok : runtime_ok cluster_env.
Proof. split; cbn; intros; lia. Qed.

Lemma processed_cluster_is_billed_witness : ∃ w' failed req resp,
  run cluster_env (processSubAccountID sample_process "sa-1" 0) kmc_world = (Returned true, w') ∧
  exchanges (calls cluster_env (processSubAccountID sample_process "sa-1" 0) kmc_world) = failed ++ [(req, inl resp)] ∧
  StatusCode resp = 201 ∧ URL req = getEDPURL sample_config "sa-1".
Proof.
  pose (w' := (run cluster_env (processSubAccountID sample_process "sa-1" 0) kmc_world).2).
  assert (Hrun : run cluster_env (processSubAccountID sample_process "sa-1" 0) kmc_world = (Returned true, w')).
  { rewrite (surjective_pairing (run _ _ _)). unfold w'. f_equal. }
  assert (Hget : cache_get "sa-1" (w_cache kmc_world) =
    Some (ObjRecord (newRecord (sample_runtime "ga" "sa-1" "shoot-a" false)))) by apply lookup_singleton_eq.
  destruct (processed_cluster_is_billed inl sample_redis sample_Parse NodeScan.sample_specs sample_config
    DefaultKubeconfigCacheTTL ltac:(simpl; lia) default_jitter cluster_env sample_process "sa-1" 0 (newRecord (sample_runtime "ga" "sa-1" "shoot-a" false))
    kmc_world w' cluster_env_ok cluster_runtime_ok Hget Hrun)
    as (clients & scans & ms & now & _ & _ & _ & _ & ((resp & body & req & _ & Hreq & _ & failed & Hx & Hok & _) & _) & _).
  exists w', failed, (with_Body req body), resp. split_and!; [exact Hrun|exact Hx|exact Hok|]. injection Hreq as <-. reflexivity.
Defined.

(** The one event of this run. *)
Lemma only_events_sent_witness : ∃ req answer pl,
  exchanges (calls cluster_env (processSubAccountID sample_process "sa-1" 0) kmc_world) = [(req, answer)] ∧
  Marshal pl = inl (Body req) ∧ URL req = getEDPURL sample_config "sa-1".
Proof.
  assert (Hlen : length (exchanges (calls cluster_env (processSubAccountID sample_process "sa-1" 0) kmc_world)) = 1%nat)
    by (vm_compute; reflexivity).
  destruct (exchanges (calls cluster_env (processSubAccountID sample_process "sa-1" 0) kmc_world)) as [|[req answer] [|]] eqn:Hx;
    [discriminate Hlen| |discriminate Hlen].
  assert (Hin : (req, answer) ∈ exchanges (calls cluster_env (processSubAccountID sample_process "sa-1" 0) kmc_world))
    by (rewrite Hx; left).
  destruct (only_events_sent inl sample_redis sample_Parse NodeScan.sample_specs sample_config
    DefaultKubeconfigCacheTTL ltac:(simpl; lia) default_jitter cluster_env sample_process "sa-1" 0 kmc_world req answer
    cluster_env_ok cluster_runtime_ok Hin) as (rec & ms & now & pl & Hget & _ & _ & Hurl & Hbody & _).
  exists req, answer, pl. split_and!; [reflexivity|exact Hbody|]. rewrite Hurl.
  assert (Hrec : cache_get "sa-1" (w_cache kmc_world) = Some (ObjRecord (newRecord (sample_runtime "ga" "sa-1" "shoot-a" false))))
    by apply lookup_singleton_eq.
  rewrite Hrec in Hget. injection Hget as <-. reflexivity.
Defined.

Definition kmc_start : system AnyScan (gmap string (obj AnyScan)) simple_queue metric_map ttl_map :=
  {| sys_world := with_cache ∅ (with_queue sq_empty kmc_world); sys_threads := [Some (setup (inl sample_request)); None] |}.

(** The poller has its request and is about to enter its loop. *)
Lemma no_thread_panics_witness : reachable cluster_env sample_process kmc_start ∧ ∃ w',
  run cluster_env (pollSetup (inl sample_request)) (sys_world kmc_start) = (Returned (), w').
Proof.
  assert (Hr : reachable cluster_env sample_process kmc_start).
  { apply reachable_init. split; [reflexivity|]. exists (inl sample_request). split_and!; [reflexivity..|]. eexists. split; [reflexivity|].
    repeat constructor. }
  split; [exact Hr|].
  destruct (no_thread_panics inl sample_redis sample_Parse NodeScan.sample_specs sample_config DefaultKubeconfigCacheTTL
    ltac:(simpl; lia) default_jitter cluster_env sample_process kmc_start Hr) as [_ Hall].
  destruct (Hall 0%nat (setup (inl sample_request)) eq_refl) as [Hret|[_ [err Herr]]]; [exact Hret|discriminate Herr].
Defined.

(** The HTTP client is number 2 in [sample_env]. *)
Lemma connections_released_witness :
  opened (calls cluster_env (executeItem sample_process "sa-1" 0) kmc_world) = [2%positive] ∧
  ∃ l, calls cluster_env (executeItem sample_process "sa-1" 0) kmc_world = l ++ [closing 2%positive].
Proof.
  assert (Ho : opened (calls cluster_env (executeItem sample_process "sa-1" 0) kmc_world) = [2%positive])
    by (vm_compute; reflexivity).
  split; [exact Ho|].
  destruct (connections_released inl sample_redis sample_Parse NodeScan.sample_specs sample_config
    DefaultKubeconfigCacheTTL ltac:(simpl; lia) default_jitter cluster_env sample_process "sa-1" 0 kmc_world) as [[Hnone _]|(cl & l & Hl & Hopen & _)].
  - exfalso. unfold sample_kmc, sample_kubeconfigs in Ho. rewrite Hnone in Ho. discriminate Ho.
  - exists l. unfold sample_kmc, sample_kubeconfigs in *. rewrite Hl in Ho |- *. unfold opened in *. rewrite omap_app, Hopen in Ho.
    injection Ho as ->. reflexivity.
Defined.

(** A cluster whose nodes cannot be listed; its volumes can. *)
Definition no_nodes_env : Env := λ X q t,
  match q in request X return X with
  | ListNodes _ => inr (errorString "nodes is forbidden")
  | q => sample_env _ q t
  end.

(** A cluster that was never scanned before and whose nodes cannot be listed is billed with an event
    that has no machine types; the schema EDP holds events against does not admit the text sent. *)
Theorem rejected_event_sent : ∃ b w' req,
  run no_nodes_env (processSubAccountID sample_process "sa-1" 0) kmc_world = (Returned b, w') ∧
  w_http w' = [req] ∧ accepted (Body req) = false.
Proof.
  pose (r := run no_nodes_env (processSubAccountID sample_process "sa-1" 0) kmc_world).
  assert (H1 : match r.1 with Returned _ => true | _ => false end = true) by (vm_compute; reflexivity).
  assert (H2 : match w_http r.2 with [req] => negb (accepted (Body req)) | _ => false end = true) by (vm_compute; reflexivity).
  unfold r in *. destruct (run no_nodes_env _ kmc_world) as [[b|msg|msg] w']; [|done|done]. cbn [snd] in H2.
  destruct (w_http w') as [|req [|]] eqn:Hh; [done| |done]. exists b, w', req. split_and!; [done|done|].
  by apply negb_true_iff.
Qed.

Lemma short_ttl_crashes_witness : ∃ w',
  run cluster_env (executeItem (CP := kmc_ConfigProvider (180 * 10 ^ 9)) sample_process "sa-1" 0) kmc_world =
    (Panicked "invalid argument to Int63n", w') ∧ w_queue w' = w_queue kmc_world.
Proof.
  apply (short_ttl_crashes (T := ttl_map) cluster_env 180 sample_process "sa-1" 0
    (newRecord (sample_runtime "ga" "sa-1" "shoot-a" false)) kmc_world).
  - lia.
  - apply (clock_mono _ cluster_runtime_ok).
  - apply lookup_singleton_eq.
  - done.
  - intros t. eexists. eexists. split_and!; [reflexivity..|discriminate].
Defined.
