(* ===== verification/WorkerLog.v ===== *)
(** * WorkerLog: what a worker writes to the log

    A worker writes with loggers that carry its number; the components it calls do not ([worker_entry] of Effects,
    which the interfaces of [process] forbid them).  The worker's own entries for one queue item are given exactly, on
    every branch. *)
From S2P Require Import Prelude GoStd GoFloat Logger Resource CloudSpecs NodeScan PvcScan VscScan RedisScan Tracing ClusterTracking.
From S2P Require Import Effects Libraries Clients Process Samples KubeconfigProvider Retry.
From S2P Require Import EdpPayload PayloadJson EdpClient EdpCollector EdpCollectorSpec Scanners Kmc.
Local Open Scope Z_scope.
Local Open Scope list_scope.

(** ** Entries of a run *)

Section entries.
Context {QA : QuantityApi} {S C Q M T : Type}.
Context {GC : GoCache (obj S) C} {WQ : WorkQueue Q} {PM : Prometheus M} {TC : TtlCache T}.
Context (env : Env).
Implicit Types w : world C Q M T.

Definition log_of (c : answered_call) : option LogEntry := match c with existT _ (Log entry, _) => Some entry | _ => None end.
Definition log_entries {A} (p : prog S A) w : list LogEntry := omap log_of (calls env p w).

(** The entries with the number of a worker. *)
Definition own (l : list LogEntry) : list LogEntry := filter (λ entry, worker_entry entry = true) l.

Lemma log_entries_bind {A B} (p : prog S A) (k : A → prog S B) w : log_entries (p ≫= k) w =
  log_entries p w ++ match run env p w with (Returned a, w') => log_entries (k a) w' | _ => [] end.
Proof. unfold log_entries. rewrite calls_bind, omap_app. by destruct (run env p w) as [[a|msg|msg] w']. Qed.

Lemma log_entries_logf level l format args {B} (k : unit → prog S B) w :
  log_entries (logf level l format args ≫= k) w =
    {| log_level := level; log_logger := l; log_format := format; log_args := args |} :: log_entries (k tt) (later 1 w).
Proof. unfold log_entries. by rewrite calls_logf_bind. Qed.

Lemma tame_entries {A} (p : prog S A) w : tame p → Forall (λ entry, worker_entry entry = false) (log_entries p w).
Proof.
  revert w. induction p as [a|X e k IH|msg|msg]; intros w Hp; [constructor| |done|done]. destruct Hp as [He Hk].
  unfold log_entries. simpl. rewrite omap_app. apply Forall_app. split; [|apply IH, Hk].
  destruct e as [| | | | | | | | | | | | | | |X op|X q]; try apply Forall_nil_2.
  destruct q; first [by apply Forall_nil_2|by apply Forall_singleton].
Qed.

(** A program without log calls. *)
Definition unlogged_eff {X} (e : eff S X) : Prop := match e with Ext (Log _) => False | _ => True end.

Lemma unlogged_entries {A} (p : prog S A) w : only (λ X, unlogged_eff) p → log_entries p w = [].
Proof.
  revert w. induction p as [a|X e k IH|msg|msg]; intros w Hp; [done| |done|done]. destruct Hp as [He Hk].
  unfold log_entries in *. simpl. rewrite omap_app, (IH _ _ (Hk _)), app_nil_r.
  destruct e as [| | | | | | | | | | | | | | |X op|X q]; try done. by destruct q.
Qed.

(** A component leaves no trace among these. *)
Lemma component_own l : Forall (λ entry, worker_entry entry = false) l → own l = [].
Proof.
  unfold own. induction 1 as [|entry l He _ IH]; [done|]. rewrite filter_cons, decide_False by congruence. done.
Qed.

(** The worker's entries of a run; the run returns, with a result and a report as in [Φ]. *)
Definition report {A} (p : prog S A) w : list LogEntry := own (log_entries p w).
Definition reported {A} (p : prog S A) w (Φ : A → list LogEntry → Prop) : Prop :=
  ∃ a w', run env p w = (Returned a, w') ∧ Φ a (report p w).

Lemma reported_mono {A} (p : prog S A) w (Φ Ψ : A → list LogEntry → Prop) :
  (∀ a r, Φ a r → Ψ a r) → reported p w Φ → reported p w Ψ.
Proof. intros HΦ (a & w' & Hrun & Hr). exists a, w'. auto. Qed.

(** What a component writes is not in the report. *)
Lemma reported_component {A B} (p : prog S A) (k : A → prog S B) w Φ :
  quiet p → Forall (λ entry, worker_entry entry = false) (log_entries p w) → (∀ a w', reported (k a) w' Φ) →
  reported (p ≫= k) w Φ.
Proof.
  intros Hp Hn%component_own Hk. destruct (run_quiet env p w Hp) as (a & w1 & Hrun & _).
  destruct (Hk a w1) as (b & w2 & Hrun' & HΦ). exists b, w2. split; [by rewrite run_bind, Hrun|].
  unfold report. rewrite log_entries_bind, Hrun. unfold own in *. by rewrite filter_app, Hn.
Qed.

(** Nor is what a deferred call writes that does not log. *)
Lemma reported_defer {A} q (p : prog S A) w Φ : log_of (existT _ (q, tt)) = None →
  reported p w Φ → reported (defer (ext q) p) w Φ.
Proof.
  intros Hq (a & w' & Hrun & HΦ). exists a, (tick q w'). split; [by apply run_defer|].
  unfold report, log_entries in *. rewrite (calls_defer _ _ _ _ _ _ Hrun), omap_app.
  assert (Hnil : omap log_of [existT _ (q, tt)] = []) by (unfold omap, list_omap; by rewrite Hq). by rewrite Hnil, app_nil_r.
Qed.

(** An entry of the worker. *)
Lemma reported_own {B} level l format args (k : unit → prog S B) w Φ :
  worker_entry {| log_level := level; log_logger := l; log_format := format; log_args := args |} = true →
  reported (k tt) (later 1 w) (λ b r, Φ b ({| log_level := level; log_logger := l; log_format := format; log_args := args |} :: r)) →
  reported (logf level l format args ≫= k) w Φ.
Proof.
  intros Hl (b & w' & Hrun & HΦ). exists b, w'. split; [done|].
  unfold report, own in *. rewrite log_entries_logf, filter_cons, decide_True by done. done.
Qed.

Lemma reported_CacheGet {B} x (k : option (obj S) → prog S B) w Φ :
  reported (k (cache_get x (w_cache w))) w Φ → reported (call (CacheGet x) ≫= k) w Φ.
Proof. done. Qed.
End entries.

(** ** The report on a queue item *)

Section worker.
Context {QA : QuantityApi} {S : Type}.

Definition entry (level : Level) (l : SugaredLogger) (format : string) (args : list LogArg) : LogEntry :=
  {| log_level := level; log_logger := l; log_format := format; log_args := args |}.

Abbreviation worker := (queueProcessingLogger (S := S)).
Definition fetched (x : string) (j : Z) : LogEntry := entry LDebug (worker None x j) "fetched subAccountID from queue" [].
Definition dropped (x : string) (j : Z) : LogEntry :=
  entry LInfo (With KeyRequeue ValueFalse (worker None x j))
    "subAccountID is not found in kubeconfigprovider which means it is not trackable anymore" [].
Definition found (rec : CacheRecord S) (x : string) (j : Z) : LogEntry :=
  entry LDebug (worker (Some rec) x j) "record found from kubeconfigprovider: %+v" [shown rec].
Definition failure (rec : option (CacheRecord S)) (x : string) (j : Z) (err : error) : LogEntry :=
  entry LError (worker rec x j) (Error err) [].
Definition requeued (p : Process) (rec : option (CacheRecord S)) (x : string) (j : Z) : LogEntry :=
  entry LDebug (With KeyRequeue ValueTrue (worker rec x j)) "successfully requeued subAccountID after %v"
    [ArgDuration (ScrapeInterval p)].
Definition billed (rec : CacheRecord S) (x : string) (j : Z) : LogEntry :=
  entry LInfo (worker (Some rec) x j) "successfully collected and sent measurements to EDP backend" [].
Definition updated (rec : CacheRecord S) (x : string) (j : Z) : LogEntry :=
  entry LDebug (worker (Some rec) x j) "updated kubeconfigprovider with new record" [].

(** Where the processing of a cached cluster can fail. *)
Definition stages : list string :=
  ["failed to load kubeconfig from kubeconfigprovider: "; "failed to create REST config from kubeconfig: ";
   "failed to create clients: "; "failed to collect and send measurements to EDP backend: "].

Context {C Q M T : Type} {GC : GoCache (obj S) C} {WQ : WorkQueue Q} {PM : Prometheus M} {TC : TtlCache T}.
Context {CS : CollectorSender S} {CP : ConfigProvider S} {CF : ClientFactory S}.
Context {CSL : CollectorSenderLaws S} {CPL : ConfigProviderLaws S} {CFL : ClientFactoryLaws S}.
Context (env : Env) (Hfactory : ∀ rc (w : world C Q M T), log_entries env (NewClients rc) w = []).
Implicit Types w : world C Q M T.

(** What the worker reports on a cached cluster after [found]. *)
Definition outcome_report (p : Process) (rec : CacheRecord S) (x : string) (j : Z) (requeue : bool) (r : list LogEntry) : Prop :=
  if requeue then r = [billed rec x j; updated rec x j]
  else ∃ stage err, stage ∈ stages ∧ r = [failure (Some rec) x j (wrapf stage err); requeued p (Some rec) x j].

Lemma failed_reported p rec x j stage err w : stage ∈ stages →
  reported env (handleError p (Some rec) x j (wrapf stage err);; mret false) w (outcome_report p rec x j).
Proof. intros Hs. do 2 eexists. split; [reflexivity|]. by exists stage, err. Qed.

Lemma collectWith_reported p rec x j clients w : reported env (collectWith p rec x j clients) w (outcome_report p rec x j).
Proof.
  apply reported_defer; [done|]. apply reported_component; [apply CollectAndSend_quiet|apply tame_entries, CollectAndSend_tame|].
  intros [scans [e|]] w1; do 2 eexists; (split; [reflexivity|]); [|done].
  exists "failed to collect and send measurements to EDP backend: ", e. split; [|done]. unfold stages. set_solver.
Qed.

Lemma processRecord_reported p rec x j w : reported env (processRecord p rec x j) w (λ requeue r, ∃ r',
  r = found rec x j :: r' ∧ outcome_report p rec x j requeue r').
Proof.
  apply reported_own; [done|].
  apply (reported_mono _ _ _ (outcome_report p rec x j)); [by eauto|].
  apply reported_component; [apply ConfigProvider_Get_quiet|apply tame_entries, ConfigProvider_Get_tame|].
  intros [kc|err] w1; [|apply failed_reported; unfold stages; set_solver].
  apply reported_component; [done..|]. intros [rc|err] w2; [|apply failed_reported; unfold stages; set_solver].
  apply reported_component; [apply NewClients_quiet|by rewrite Hfactory|].
  intros [clients|err] w3; [apply collectWith_reported|apply failed_reported; unfold stages; set_solver].
Qed.

(** The report on an item. *)
Definition item_report (p : Process) (x : string) (j : Z) w : list LogEntry :=
  report env (executeItem p x j) w.

Lemma item_report_process p x j w : item_report p x j w = report env (processSubAccountID p x j) w.
Proof.
  unfold item_report, report, executeItem. rewrite log_entries_bind.
  destruct (run env (processSubAccountID p x j) w) as [[[]|msg|msg] w']; by rewrite app_nil_r.
Qed.

Lemma worker_reports p x j w :
  match cache_get x (w_cache w) with
  | None => item_report p x j w = [fetched x j; dropped x j]
  | Some ObjOther => ∃ err, item_report p x j w = [fetched x j; failure None x j err; requeued p None x j]
  | Some (ObjRecord rec) => ∃ requeue w' l, run env (processSubAccountID p x j) w = (Returned requeue, w') ∧
      item_report p x j w = fetched x j :: found rec x j :: l ∧ outcome_report p rec x j requeue l
  end.
Proof.
  destruct (cache_get x (w_cache w)) as [[rec|]|] eqn:Hget; setoid_rewrite item_report_process.
  - enough (reported env (processSubAccountID p x j) w (λ requeue r, ∃ r',
      r = fetched x j :: found rec x j :: r' ∧ outcome_report p rec x j requeue r')) as (requeue & w' & Hrun & l & Hr & Ho).
    { by exists requeue, w', l. }
    apply reported_own; [done|].
    apply reported_CacheGet. change (w_cache (later 1 w)) with (w_cache w). rewrite Hget.
    eapply reported_mono; [|apply processRecord_reported]. intros b r (r' & -> & Ho). by exists r'.
  - exists (errorString "bad item from kubeconfigprovider, could not cast it to a record obj").
    unfold report, log_entries, processSubAccountID. rewrite calls_logf_bind. simpl. rewrite Hget. reflexivity.
  - unfold report, log_entries, processSubAccountID. rewrite calls_logf_bind. simpl. rewrite Hget. reflexivity.
Qed.
End worker.

(** ** The collector *)

Section collector.
Context {QA : QuantityApi} {R : Retry AnyScan} {RL : RetryLaws AnyScan}.
Context {C Q M T : Type} {GC : GoCache (obj AnyScan) C} {WQ : WorkQueue Q} {PM : Prometheus M} {TC : TtlCache T}.
Context (MarshalJSON : string → string + error) (json_Unmarshal : string → list RedisInstance + error).
Context (url_Parse : string → option error) (specs : PublicCloudSpecs) (config : Config) (ttl : Z).
Context (Hretry : 0 < EventRetry config < 2 ^ 63) (Httl : jitter_ok ttl).
Context (env : Env).

#[local] Instance log_Collector : CollectorSender AnyScan := kmc_Collector MarshalJSON json_Unmarshal url_Parse specs config.
#[local] Instance log_ConfigProvider : ConfigProvider AnyScan := kmc_ConfigProvider ttl.
#[local] Existing Instance kmc_ClientFactory.

Lemma NewClients_unlogged rc (w : world C Q M T) : log_entries env (NewClients rc) w = [].
Proof.
  apply unlogged_entries. repeat (split; [done|]; intros [?|?]; [|done]). done.
Qed.

End collector.

(** ** A concrete report *)

#[local] Instance report_Collector : CollectorSender AnyScan :=
  kmc_Collector inl sample_redis sample_Parse NodeScan.sample_specs sample_config.
#[local] Instance report_ConfigProvider : ConfigProvider AnyScan := kmc_ConfigProvider DefaultKubeconfigCacheTTL.
#[local] Existing Instance kmc_ClientFactory.

Definition cached_record : CacheRecord AnyScan := newRecord (sample_runtime "ga" "sa-1" "shoot-a" false).

