(* ===== verification/Traces.v ===== *)
(** * Traces: the spans of a queue item

    What the tracing backend is told about one item: the calls of the tracer are replayed into trees of finished
    spans.  [replay] fails on a trace that is not well nested: a span that is started in a context other
    than that of the innermost open span, or a call of a span that is not the innermost open one. *)
From S2P Require Import Prelude GoStd GoFloat Rfc3339 Logger Resource CloudSpecs NodeScan PvcScan VscScan RedisScan Tracing ClusterTracking.
From S2P Require Import Effects Libraries Clients Process Samples Retry KubeconfigProvider.
From S2P Require Import EdpPayload PayloadJson EdpClient EdpCollector EdpCollectorSpec Scanners Kmc.
Local Open Scope Z_scope.
Local Open Scope list_scope.

(** ** The SDK's view *)

(** What a span has recorded; the status is a code and its description. *)
Record span_data := {
  span_name : string;
  span_attributes : list (string * string);
  span_errors : list error;
  span_status : Code * string;
}.
Definition new_span (name : string) (attributes : list (string * string)) : span_data :=
  {| span_name := name; span_attributes := attributes; span_errors := []; span_status := (CodeUnset, "") |}.

(** [RecordError(nil)] does nothing. *)
Definition record_error (err : option error) (d : span_data) : span_data :=
  {| span_name := span_name d; span_attributes := span_attributes d; span_errors := span_errors d ++ option_list err;
     span_status := span_status d |}.

(** [Ok] is not overwritten by [Error], nor [Error] by [Unset]; only [Error] keeps its description. *)
Definition code_rank (c : Code) : Z := match c with CodeUnset => 0 | CodeError => 1 | CodeOk => 2 end.
Definition set_status (code : Code) (description : string) (d : span_data) : span_data :=
  {| span_name := span_name d; span_attributes := span_attributes d; span_errors := span_errors d;
     span_status := if decide (code_rank code < code_rank (span_status d).1) then span_status d
                    else (code, if decide (code = CodeError) then description else "") |}.

Definition failed (d : span_data) : Prop := (span_status d).1 = CodeError.

(** A finished span with the spans that were started in its context. *)
Inductive tree := Tree (d : span_data) (children : list tree).

(** An open span, or the background context at the bottom of the stack. *)
Record frame := Frame { frame_ctx : Context; frame_data : span_data; frame_children : list tree }.

(** The innermost open span handles the call. *)
Definition on_span (span : Span) (f : span_data → span_data) (st : list frame) : option (list frame) :=
  match st with
  | Frame ctx d ch :: rest => if decide (ctx = Some span) then Some (Frame ctx (f d) ch :: rest) else None
  | [] => None
  end.

Section replay.
Context {QA : QuantityApi}.

Definition replay_call (c : answered_call) (st : list frame) : option (list frame) :=
  let '(existT _ (q, answer)) := c in
  match q in request X return X → option (list frame) with
  | SpanStart ctx name attributes => λ span,
      match st with
      | f :: _ => if decide (ctx = frame_ctx f) then Some (Frame (Some span) (new_span name attributes) [] :: st) else None
      | [] => None
      end
  | SpanRecordError span err => λ _, on_span span (record_error err) st
  | SpanSetStatus span code description => λ _, on_span span (set_status code description) st
  | SpanEnd span => λ _,
      match st with
      | Frame ctx d ch :: Frame ctx' d' ch' :: rest =>
          if decide (ctx = Some span) then Some (Frame ctx' d' (ch' ++ [Tree d ch]) :: rest) else None
      | _ => None
      end
  | _ => λ _, Some st
  end answer.

Fixpoint replay (l : list answered_call) (st : list frame) : option (list frame) :=
  match l with
  | [] => Some st
  | c :: l' => st' ← replay_call c st; replay l' st'
  end.

(** The finished spans of a trace in which every span was ended. *)
Definition spans (l : list answered_call) : option (list tree) :=
  match replay l [Frame Background (new_span "" []) []] with
  | Some [f] => Some (frame_children f)
  | _ => None
  end.

Lemma replay_app l1 l2 st : replay (l1 ++ l2) st = replay l1 st ≫= replay l2.
Proof. revert st. induction l1 as [|c l1 IH]; intros st; [done|]. simpl. destruct (replay_call c st); [apply IH|done]. Qed.

(** ** Pieces of a trace *)

(** In the context of [ctx] the calls turn [d] into [d'] and leave the finished spans [ts] behind. *)
Definition traced (ctx : Context) (l : list answered_call) (d d' : span_data) (ts : list tree) : Prop :=
  ∀ ch rest, replay l (Frame ctx d ch :: rest) = Some (Frame ctx d' (ch ++ ts) :: rest).

Lemma traced_nil ctx d : traced ctx [] d d [].
Proof. intros ch rest. by rewrite app_nil_r. Qed.

Lemma traced_app ctx l1 l2 d1 d2 d3 ts1 ts2 :
  traced ctx l1 d1 d2 ts1 → traced ctx l2 d2 d3 ts2 → traced ctx (l1 ++ l2) d1 d3 (ts1 ++ ts2).
Proof. intros H1 H2 ch rest. rewrite replay_app, H1. simpl. by rewrite H2, app_assoc. Qed.

Lemma traced_app_nil ctx l1 l2 d1 d2 d3 ts :
  traced ctx l1 d1 d2 ts → traced ctx l2 d2 d3 [] → traced ctx (l1 ++ l2) d1 d3 ts.
Proof. intros H1 H2. rewrite <- (app_nil_r ts). by eapply traced_app. Qed.

(** A span around a piece. *)
Lemma traced_span ctx span name attributes l d d' ts :
  traced (Some span) l (new_span name attributes) d' ts →
  traced ctx (existT _ (SpanStart ctx name attributes, span) :: l ++ [existT _ (SpanEnd span, tt)]) d d [Tree d' ts].
Proof.
  intros Hl ch rest. simpl. rewrite decide_True by done. simpl. rewrite replay_app, Hl. simpl. by rewrite decide_True by done.
Qed.

Lemma spans_traced l d ts : traced Background l (new_span "" []) d ts → spans l = Some ts.
Proof. intros Hl. unfold spans. by rewrite Hl. Qed.

End replay.

Section programs.
Context {QA : QuantityApi} {S C Q M T : Type}.
Context {GC : GoCache (obj S) C} {WQ : WorkQueue Q} {PM : Prometheus M} {TC : TtlCache T}.
Context (env : Env).
Implicit Types w : world C Q M T.

Definition traces {A} (ctx : Context) (p : prog S A) w (a : A) w' (d d' : span_data) (ts : list tree) : Prop :=
  run env p w = (Returned a, w') ∧ traced ctx (calls env p w) d d' ts.

Lemma traces_ret {A} ctx (a : A) w d : traces ctx (mret a) w a w d d [].
Proof. split; [done|apply traced_nil]. Qed.

Lemma traces_bind {A B} ctx (p : prog S A) (k : A → prog S B) w a w1 b w2 d1 d2 d3 ts1 ts2 :
  traces ctx p w a w1 d1 d2 ts1 → traces ctx (k a) w1 b w2 d2 d3 ts2 → traces ctx (p ≫= k) w b w2 d1 d3 (ts1 ++ ts2).
Proof.
  intros [Hp Htp] [Hk Htk]. split; [by rewrite run_bind, Hp|]. rewrite calls_bind, Hp. by eapply traced_app.
Qed.

(** Code without tracing. *)
Lemma traces_untraced {A} (p : prog S A) w : untraced p → ∃ a w', ∀ ctx d, traces ctx p w a w' d d [].
Proof.
  revert w. induction p as [a|X e k IH|msg|msg]; intros w Hp; [by exists a, w; intros; apply traces_ret| |done|done].
  destruct Hp as [He Hk]. destruct (IH (handle_eff env e w).1 (handle_eff env e w).2 (Hk _)) as (a & w' & Hrun).
  exists a, w'. intros ctx d. destruct (Hrun ctx d) as [Hr Ht]. split; [exact Hr|]. simpl. refine (traced_app _ _ _ _ d _ [] _ _ Ht).
  destruct e as [| | | | | | | | | | | | | | |X op|X q]; try apply traced_nil. intros ch rest. rewrite app_nil_r. by destruct q.
Qed.

Lemma traces_then {A B} ctx (p : prog S A) (k : A → prog S B) w a w1 d1 d2 ts :
  traces ctx p w a w1 d1 d2 ts → untraced (k a) → ∃ b w', traces ctx (p ≫= k) w b w' d1 d2 ts.
Proof.
  intros Hp Hk. destruct (traces_untraced (k a) w1 Hk) as (b & w' & Hb). exists b, w'. rewrite <- (app_nil_r ts).
  by eapply traces_bind.
Qed.

(** The program returns, with its calls, its result and its trace as in [Φ]. *)
Definition trace_post {A} (ctx : Context) (p : prog S A) w (d : span_data)
    (Φ : list answered_call → A → span_data → list tree → Prop) : Prop :=
  ∃ a w' d' ts, traces ctx p w a w' d d' ts ∧ Φ (calls env p w) a d' ts.

Lemma trace_post_mono {A} ctx (p : prog S A) w d (Φ Ψ : list answered_call → A → span_data → list tree → Prop) :
  trace_post ctx p w d Φ → (∀ l a d' ts, Φ l a d' ts → Ψ l a d' ts) → trace_post ctx p w d Ψ.
Proof. intros (a & w' & d' & ts & Hp & HΦ) Himp. exists a, w', d', ts. split; [done|by apply Himp]. Qed.

Lemma trace_post_bind {A B} ctx (p : prog S A) (k : A → prog S B) w a w1 d d1 ts Φ : traces ctx p w a w1 d d1 ts →
  trace_post ctx (k a) w1 d1 (λ l b d' ts', Φ (calls env p w ++ l) b d' (ts ++ ts')) → trace_post ctx (p ≫= k) w d Φ.
Proof.
  intros Hp (b & w2 & d2 & ts' & Hk & HΦ). exists b, w2, d2, (ts ++ ts'). split; [by eapply traces_bind|].
  by rewrite calls_bind, (proj1 Hp).
Qed.

Lemma trace_post_ret {A} ctx (a : A) w d Φ : Φ [] a d [] → trace_post ctx (mret a) w d Φ.
Proof. intros HΦ. exists a, w, d, []. split; [apply traces_ret|done]. Qed.

(** A call of the outside that does not trace, and what is made of its answer. *)
Lemma trace_post_ext {X A} ctx (q : request X) (k : X → prog S A) w d Φ : untraced (ext (S := S) q) →
  (∀ x w l0, trace_post ctx (k x) w d (λ l, Φ (l0 ++ l))) → trace_post ctx (ext q ≫= k) w d Φ.
Proof.
  intros Hq Hk. destruct (traces_untraced (ext q) w Hq) as (x & w1 & Hrun). eapply trace_post_bind; [apply Hrun|apply Hk].
Qed.

(** Deferred code that is not traced. *)
Lemma trace_post_defer {A} ctx (df : prog S unit) (p : prog S A) w d Φ : untraced df →
  trace_post ctx p w d (λ l a d' ts, ∀ l', Φ (l ++ l') a d' ts) → trace_post ctx (defer df p) w d Φ.
Proof.
  intros Hdf (a & w1 & d1 & ts & [Hp Ht] & HΦ). destruct (traces_untraced df w1 Hdf) as ([] & w2 & Hrun).
  destruct (Hrun ctx d1) as [Hd Htd]. exists a, w2, d1, ts. rewrite calls_defer_eq, Hp. split; [split|done].
  - rewrite run_defer_eq, Hp, run_bind, Hd. done.
  - rewrite calls_defer_eq, Hp. by eapply traced_app_nil.
Qed.

Lemma traces_span {A} ctx name attributes (body : Span → prog S A) w a w' d d' ts :
  (∀ span, span = env _ (SpanStart ctx name attributes) (w_tick w) →
     traces (Some span) (body span) (tick (SpanStart ctx name attributes) w) a w' (new_span name attributes) d' ts) →
  ∃ w'', traces ctx (span ← ext (SpanStart ctx name attributes); defer (ext (SpanEnd span)) (body span)) w a w'' d d [Tree d' ts] ∧
    w_cache w'' = w_cache w' ∧ w_queue w'' = w_queue w'.
Proof.
  intros Hbody. destruct (Hbody _ eq_refl) as [Hrun Ht].
  eexists (tick (SpanEnd (env _ (SpanStart ctx name attributes) (w_tick w))) w'). split; [split|by split].
  - rewrite run_bind, run_ext. by apply run_defer.
  - rewrite calls_bind, run_ext. rewrite (calls_defer _ _ _ _ _ _ Hrun). by apply traced_span.
Qed.

(** Marking the span as failed. *)
Definition mark (err : option error) (description : string) (d : span_data) : span_data :=
  set_status CodeError description (record_error err d).

Lemma traces_fail span err description w d : ∃ w',
  traces (Some span) (fail_span span err description) w tt w' d (mark err description d) [].
Proof.
  eexists. split; [simpl; f_equal; by destruct (env _ _ _)|]. intros ch rest. simpl. rewrite app_nil_r, decide_True by done. simpl. rewrite decide_True by done.
  done.
Qed.

Definition mark_if (err : option error) (d : span_data) : span_data :=
  match err with None => d | Some e => mark err (Error e) d end.

Lemma traces_fail_if span err w d : ∃ w', traces (Some span) (fail_span_if span err) w tt w' d (mark_if err d) [].
Proof. destruct err as [e|]; [apply traces_fail|]. exists w. apply traces_ret. Qed.
End programs.

(** ** A collection *)

Lemma mark_if_keeps err d : span_name (mark_if err d) = span_name d ∧ span_attributes (mark_if err d) = span_attributes d.
Proof. by destruct err. Qed.

Lemma mark_failed err description d : (span_status d).1 ≠ CodeOk → failed (mark err description d).
Proof. intros Hd. unfold failed, mark, set_status. simpl. by destruct (span_status d) as [[] ?]. Qed.

(** An error so far is remembered by the status, and by [errs]. *)
Definition in_step (d : span_data) (errs : list error) : Prop :=
  (errs = [] → (span_status d).1 = CodeUnset) ∧ (errs ≠ [] → failed d).

Lemma in_step_not_ok d errs : in_step d errs → (span_status d).1 ≠ CodeOk.
Proof. intros [Hnil Herr]. destruct errs; [by rewrite Hnil|]. by rewrite Herr. Qed.

Lemma in_step_snoc d errs err description e : in_step d errs → in_step (mark err description d) (errs ++ [e]).
Proof.
  intros Hd. split; [by intros [_ [=]]%app_nil|]. intros _. by eapply mark_failed, in_step_not_ok.
Qed.

Lemma in_step_append d errs prefix err : in_step d errs → in_step (mark_if err d) (appendErr errs prefix err).
Proof. destruct err as [e|]; [apply in_step_snoc|done]. Qed.

Lemma in_step_failed d errs : in_step d errs → failed d ↔ is_Some (errors_Join errs).
Proof.
  unfold failed. intros [Hnil Herr]. rewrite <- not_eq_None_Some, errors_Join_None. split; [|auto].
  intros Hf Hn. rewrite (Hnil Hn) in Hf. done.
Qed.

Section collection.
Context {QA : QuantityApi} {S : Type} {SC : ScanConverter S} {R : Retry S} {RL : RetryLaws S}.
Context {C Q M T : Type} {GC : GoCache (obj S) C} {WQ : WorkQueue Q} {PM : Prometheus M} {TC : TtlCache T}.
Context (env : Env) (json_Marshal : payload → string + error) (url_Parse : string → option error) (config : Config).
Context (Hretry : 0 < EventRetry config < 2 ^ 63).
Implicit Types w : world C Q M T.

(** The span of a scan that gave [answer]. *)
Definition scan_span (info : Info) (s : Scanner S) (answer : S + error) (t : tree) : Prop := ∃ d,
  t = Tree d [] ∧ span_name d = ID s +:+ "_scan" ∧ span_attributes d = SpanAttributes info ∧
  (failed d ↔ ¬ succeeded answer ∧ answer ≠ inr ErrNoNodesFound).

(** A scanner whose scan is one span. *)
Definition scanner_traced (s : Scanner S) : Prop := ∀ ctx info clients w d, ∃ answer w' t,
  traces env ctx (Scan s ctx info clients) w answer w' d d [t] ∧ scan_span info s answer t.

(** The scan of this scanner, one of those made by the calls [l], is in the trace. *)
Definition scan_reported (info : Info) (clients : Clients) (l : list answered_call) (s : Scanner S) (t : tree) : Prop :=
  ∃ answer, answered (C := C) (Q := Q) (M := M) (T := T) env info clients l s answer ∧ scan_span info s answer t.

Lemma scan_reported_mono info clients l0 l l1 s t :
  scan_reported info clients l s t → scan_reported info clients (l0 ++ l ++ l1) s t.
Proof. intros (answer & Ha & Ht). exists answer. split; [by apply answered_mono|done]. Qed.

Lemma scans_reported_mono info clients l0 l l1 ss ts :
  Forall2 (scan_reported info clients l) ss ts → Forall2 (scan_reported info clients (l0 ++ l ++ l1)) ss ts.
Proof. intros H. eapply Forall2_impl; [exact H|]. intros s t. apply scan_reported_mono. Qed.

Lemma scanStep_traced ctx previous info clients st s w d : scanner_traced s → ∃ st' w' t,
  traces env ctx (scanStep ctx previous info clients st s) w st' w' d d [t] ∧
  scan_reported info clients (calls env (scanStep ctx previous info clients st s) w) s t.
Proof.
  intros Hs. destruct st as [cur errs]. destruct (Hs ctx info clients w d) as (answer & w1 & t & Hscan & Ht).
  enough (∃ st' w', traces env ctx (scanStep ctx previous info clients (cur, errs) s) w st' w' d d [t]) as (st' & w' & Hstep).
  { exists st', w', t. split; [exact Hstep|]. exists answer. split; [|done]. exists ctx, w, w1, []. eexists.
    split; [apply Hscan|]. unfold scanStep. by rewrite calls_bind, (proj1 Hscan). }
  eapply traces_then; [exact Hscan|].
  destruct answer as [scan|err]; [done|]. split; [done|]. intros []. by destruct (previous !! ID s).
Qed.

Lemma for_each_traced ctx previous info clients l st w d : Forall scanner_traced l → ∃ st' w' ts,
  traces env ctx (for_each (scanStep ctx previous info clients) st l) w st' w' d d ts ∧
  Forall2 (scan_reported info clients (calls env (for_each (scanStep ctx previous info clients) st l) w)) l ts.
Proof.
  intros Hl. revert st w. induction Hl as [|s l Hs _ IH]; intros st w.
  { exists st, w, []. split; [apply traces_ret|constructor]. }
  destruct (scanStep_traced ctx previous info clients st s w d Hs) as (st1 & w1 & t & Hstep & Ht).
  destruct (IH st1 w1) as (st' & w' & ts & Hrest & Hts). exists st', w', (t :: ts).
  split; [exact (traces_bind _ _ _ _ _ _ _ _ _ _ _ _ _ _ Hstep Hrest)|]. simpl for_each. rewrite calls_bind, (proj1 Hstep).
  constructor; [by apply (scan_reported_mono _ _ [])|].
  rewrite <- (app_nil_r (calls env (for_each _ _ _) _)). by apply scans_reported_mono.
Qed.
(** Converting and sending are not traced. *)
Lemma convertScans_untraced current previous info : untraced (convertScansToEDPMeasurements current previous info).
Proof.
  split; [done|]. intros ord. apply only_bind; [|done]. apply only_for_each. intros st id _. unfold convertStep.
  destruct (current !! id) as [scan|]; [|done]. split; [done|]. intros ord'. simpl.
  destruct (Resource.EDP ord' scan) as [m [err|]]; [|done]. split; [done|]. intros [].
  destruct (previous !! id) as [prev|]; [|done]. split; [done|]. intros ord''. simpl.
  by destruct (Resource.EDP ord'' prev) as [m' [err'|]].
Qed.

Lemma sendPayload_untraced pl subAccountID : untraced (sendPayload json_Marshal url_Parse config pl subAccountID).
Proof.
  unfold sendPayload. destruct (json_Marshal pl); [|done]. destruct (NewRequest _ _ _); [|done].
  apply only_bind; [|intros [resp|err]; [|done]; by destruct (isSuccess _)]. apply only_bind; [|by intros []].
  apply retry_only; [done|unfold uint64_of_int; rewrite Z.mod_small; lia|].
  split; [done|]. intros [resp|urlErr]; [|done]. apply only_defer; [split; [done|]; by intros []|by case_decide].
Qed.

Context (scanners : list (Scanner S)) (Hscanners : Forall scanner_traced scanners).

Lemma executeScans_traced ctx previous info clients w d : ∃ r w' ts,
  traces env ctx (executeScans scanners ctx previous info clients) w r w' d d ts ∧
  Forall2 (scan_reported info clients (calls env (executeScans scanners ctx previous info clients) w)) scanners ts.
Proof.
  destruct (for_each_traced ctx previous info clients scanners (∅, []) w d Hscanners) as ([cur errs] & w1 & ts & Hloop & Hts).
  destruct (traces_then env ctx _ (λ '(cur, errs), mret (cur, errors_Join errs)) w _ w1 d d ts Hloop) as (r & w' & Hrun); [done|].
  exists r, w', ts. split; [exact Hrun|]. unfold executeScans. rewrite calls_bind, (proj1 Hloop).
  by apply (scans_reported_mono _ _ []).
Qed.

(** The collection in the context of its span. *)
Lemma collectWithin_traced span previous info clients w d : in_step d [] →
  trace_post env (Some span) (collectWithin json_Marshal url_Parse config scanners span info clients previous) w d
    (λ l r d' ts, span_name d' = span_name d ∧ span_attributes d' = span_attributes d ∧ (failed d' ↔ is_Some r.2) ∧
      Forall2 (scan_reported info clients l) scanners ts).
Proof.
  intros H0. unfold collectWithin. destruct (traces_untraced env (getTimestampNow (S := S)) w) as (now & w1 & Hnow); [done|].
  eapply trace_post_bind; [apply Hnow|].
  destruct (executeScans_traced (Some span) previous info clients w1 d) as ([cur err1] & w2 & ts & Hscans & Hts).
  eapply trace_post_bind; [exact Hscans|]. destruct (traces_fail_if env span err1 w2 d) as (w3 & Hf1).
  eapply trace_post_bind; [exact Hf1|].
  destruct (traces_untraced env (convertScansToEDPMeasurements cur previous info) w3 (convertScans_untraced _ _ _))
    as ([[scans ms] err2] & w4 & Hconv).
  eapply trace_post_bind; [apply Hconv|]. destruct (traces_fail_if env span err2 w4 (mark_if err1 d)) as (w5 & Hf2).
  eapply trace_post_bind; [exact Hf2|].
  pose proof (in_step_append d [] "failed to successfully execute one or more scans : " err1 H0) as H1.
  pose proof (in_step_append _ _ "failed to convert one or more scans to EDP measurements: " err2 H1) as H2.
  destruct (mark_if_keeps err1 d) as [Hn1 Ha1], (mark_if_keeps err2 (mark_if err1 d)) as [Hn2 Ha2].
  set (d2 := mark_if err2 (mark_if err1 d)) in *. set (errs := appendErr _ _ err2) in *. case_decide.
  - destruct (traces_fail env span err2 (Error errNoMeasurementsSent) w5 d2) as (w6 & Hf3).
    eapply trace_post_bind; [exact Hf3|]. apply trace_post_ret. split_and!; [simpl; congruence..| |].
    { by apply in_step_failed, in_step_snoc. }
    refine (eq_ind ts (λ ts', Forall2 _ scanners ts') _ _ (eq_sym (app_nil_r ts))). by apply scans_reported_mono.
  - destruct (traces_untraced env (sendPayload json_Marshal url_Parse config
      (newPayload (Info_RuntimeID info) (Info_SubAccountID info) (Info_ShootName info) now ms) (Info_SubAccountID info)) w5
      (sendPayload_untraced _ _)) as (err3 & w6 & Hsend).
    eapply trace_post_bind; [apply Hsend|]. destruct (traces_fail_if env span err3 w6 d2) as (w7 & Hf3).
    eapply trace_post_bind; [exact Hf3|]. apply trace_post_ret. destruct (mark_if_keeps err3 d2) as [Hn3 Ha3].
    split_and!; [simpl; congruence..| |].
    { by apply in_step_failed, in_step_append. }
    refine (eq_ind ts (λ ts', Forall2 _ scanners ts') _ _ (eq_sym (app_nil_r ts))). by apply scans_reported_mono.
Qed.

(** The collection is one span with a child for every scan. *)
Definition collection_span (info : Info) (clients : Clients) (l : list answered_call) (complete : bool) (t : tree) : Prop :=
  ∃ d ts, t = Tree d ts ∧ span_name d = "collect_scans_and_send_measurements" ∧ span_attributes d = SpanAttributes info ∧
    (failed d ↔ complete = false) ∧ Forall2 (scan_reported info clients l) scanners ts.

Lemma collection_span_mono info clients l0 l l1 complete t :
  collection_span info clients l complete t → collection_span info clients (l0 ++ l ++ l1) complete t.
Proof. intros (d & ts & -> & Hn & Ha & Hf & Hts). exists d, ts. split_and!; [done..|by apply scans_reported_mono]. Qed.

Lemma CollectAndSend_traced ctx previous info clients w d :
  trace_post env ctx (EdpCollector.CollectAndSend json_Marshal url_Parse config scanners ctx info clients previous) w d
    (λ l r d' ts, d' = d ∧ ∃ t, ts = [t] ∧ collection_span info clients l (bool_decide (r.2 = None)) t).
Proof.
  set (span := env _ (SpanStart ctx "collect_scans_and_send_measurements" (SpanAttributes info)) (w_tick w)).
  destruct (collectWithin_traced span previous info clients
    (tick (SpanStart ctx "collect_scans_and_send_measurements" (SpanAttributes info)) w)
    (new_span "collect_scans_and_send_measurements" (SpanAttributes info)))
    as (r & w' & d' & ts & Hbody & Hn & Ha & Hf & Hts); [by split|].
  destruct (traces_span env ctx "collect_scans_and_send_measurements" (SpanAttributes info)
    (λ span, collectWithin json_Marshal url_Parse config scanners span info clients previous) w r w' d d' ts) as (w'' & Hrun & _).
  { by intros span' ->. }
  exists r, w'', d, [Tree d' ts]. split; [exact Hrun|]. split; [done|]. eexists. split; [done|].
  exists d', ts. split_and!; [done..| |].
  - rewrite Hf, bool_decide_eq_false, <- not_eq_None_Some. done.
  - unfold EdpCollector.CollectAndSend, with_span. rewrite calls_bind, run_ext. cbn [fst snd].
    rewrite (calls_defer _ _ _ _ _ _ (proj1 Hbody)). by apply scans_reported_mono.
Qed.
End collection.

(** ** The four scanners *)

Section scanners.
Context {QA : QuantityApi}.
Context {C Q M T : Type} {GC : GoCache (obj AnyScan) C} {WQ : WorkQueue Q} {PM : Prometheus M} {TC : TtlCache T}.
Context (env : Env) (MarshalJSON : string → string + error) (json_Unmarshal : string → list RedisInstance + error).
Context (specs : PublicCloudSpecs).
Implicit Types w : world C Q M T.

(** The answer agrees with what the span says. *)
Definition reported (answer : AnyScan + error) (d : span_data) : Prop :=
  failed d ↔ ¬ succeeded answer ∧ answer ≠ inr ErrNoNodesFound.

Lemma traced_with_span ctx name id info (body : Span → prog AnyScan (AnyScan + error)) scan clients w d :
  name = id +:+ "_scan" → (∀ ctx, scan ctx info clients = with_span ctx name info body) →
  (∀ span w, trace_post env (Some span) (body span) w (new_span name (SpanAttributes info)) (λ _ answer d' ts,
     ts = [] ∧ span_name d' = name ∧ span_attributes d' = SpanAttributes info ∧ reported answer d')) →
  ∃ answer w' t, traces env ctx (scan ctx info clients) w answer w' d d [t] ∧
    scan_span info {| ID := id; Scan := scan |} answer t.
Proof.
  intros -> Hscan Hbody.
  set (span := env _ (SpanStart ctx (id +:+ "_scan") (SpanAttributes info)) (w_tick w)).
  destruct (Hbody span (tick (SpanStart ctx (id +:+ "_scan") (SpanAttributes info)) w))
    as (answer & w' & d' & ts & Hrun & -> & Hn & Ha & Hrep).
  destruct (traces_span env ctx (id +:+ "_scan") (SpanAttributes info) body w answer w' d d' []) as (w'' & Htr & _).
  { by intros span' ->. }
  exists answer, w'', (Tree d' []). split; [rewrite Hscan; exact Htr|]. by exists d'.
Qed.

Lemma unfailed answer name attributes : succeeded answer ∨ answer = inr ErrNoNodesFound → reported answer (new_span name attributes).
Proof. intros Ha. split; [done|]. intros [Hn Hne]. by destruct Ha. Qed.

Lemma marked_reported e err description d : (span_status d).1 ≠ CodeOk → e ≠ ErrNoNodesFound →
  reported (inr e) (mark err description d).
Proof. intros Hd He. split; [|intros _; by apply mark_failed]. intros _. split; [by intros []|congruence]. Qed.

Lemma trace_post_fail {A} span err description w d (a : A)
    (Φ : list answered_call → A → span_data → list tree → Prop) : (∀ l, Φ l a (mark err description d) []) → trace_post env (Some span) (fail_span (S := AnyScan) span err description;; mret a) w d Φ.
Proof.
  intros HΦ. destruct (traces_fail env span err description w d) as (w1 & Hf). eapply trace_post_bind; [exact Hf|].
  by apply trace_post_ret.
Qed.

(** A listing of Redis instances marks the span if it fails. *)
Definition list_error (r : list RedisInstance + error) : option error := match r with inl _ => None | inr err => Some err end.

Lemma listWith_traced span clients resource w d :
  trace_post env (Some span) (listWith MarshalJSON json_Unmarshal span clients resource) w d
    (λ _ r d' ts, ts = [] ∧ d' = mark_if (list_error r) d).
Proof.
  assert (Hlist : untraced (listRedisInstances MarshalJSON json_Unmarshal clients resource)).
  { split; [done|]. intros [u|err]; [done|]. simpl. by destruct (isNotFound err). }
  destruct (traces_untraced env _ w Hlist) as (r & w1 & Hr). eapply trace_post_bind; [apply Hr|].
  destruct r as [l|err]; [by apply trace_post_ret|]. by apply trace_post_fail.
Qed.

Lemma in_step_list d errs r : in_step d errs → in_step (mark_if (list_error r) d) (errs ++ listErrs r).
Proof. destruct r as [l|e]; simpl; [by rewrite app_nil_r|]. apply in_step_snoc. Qed.

(** Each of the four scans is one span of its own name. *)
Lemma scanners_traced : Forall (scanner_traced (C := C) (Q := Q) (M := M) (T := T) env) (scanners MarshalJSON json_Unmarshal specs).
Proof.
  repeat (constructor; [intros ctx info clients w d; eapply traced_with_span; [reflexivity|reflexivity|]; clear w;
    intros span w; cbn beta|]); [..|constructor].
  - apply trace_post_ext; [done|]. intros [items|err] w1 l0.
    + case_decide; apply trace_post_ret; split_and!; try done; apply unfailed; [by right|by left].
    + apply trace_post_fail. intros l. split_and!; [done..|]. by apply marked_reported.
  - apply trace_post_ext; [done|]. intros [items|err] w1 l0.
    + apply trace_post_ret. split_and!; [done..|]. apply unfailed. by left.
    + apply trace_post_fail. intros l. split_and!; [done..|]. by apply marked_reported.
  - set (d0 := new_span _ _). assert (H0 : in_step d0 []) by by split.
    destruct (listWith_traced span clients awsRedisGVR w d0) as (a & w1 & d1 & ? & Ha & -> & ->).
    eapply trace_post_bind; [exact Ha|].
    destruct (listWith_traced span clients azureRedisGVR w1 (mark_if (list_error a) d0)) as (b & w2 & d2 & ? & Hb & -> & ->).
    eapply trace_post_bind; [exact Hb|].
    destruct (listWith_traced span clients gcpRedisGVR w2 (mark_if (list_error b) (mark_if (list_error a) d0)))
      as (c & w3 & d3 & ? & Hc & -> & ->).
    eapply trace_post_bind; [exact Hc|].
    assert (H3 : in_step (mark_if (list_error c) (mark_if (list_error b) (mark_if (list_error a) d0)))
      (listErrs a ++ listErrs b ++ listErrs c)).
    { rewrite app_assoc. apply in_step_list, in_step_list. exact (in_step_list d0 [] a H0). }
    set (d3 := mark_if (list_error c) _) in *.
    assert (Hkeep : span_name d3 = span_name d0 ∧ span_attributes d3 = span_attributes d0).
    { unfold d3. by destruct a, b, c. }
    destruct (listErrs a ++ listErrs b ++ listErrs c) as [|e es]; simpl; apply trace_post_ret; (split_and!; [done|apply Hkeep..|]);
      unfold reported; rewrite (in_step_failed _ _ H3); simpl; split; try done; [by intros []|naive_solver].
  - apply trace_post_ext; [done|]. intros [items|err] w1 l0.
    + apply trace_post_ret. split_and!; [done..|]. apply unfailed. by left.
    + apply trace_post_fail. intros l. split_and!; [done..|]. by apply marked_reported.
Qed.
End scanners.

(** ** A queue item *)

Section item.
Context {QA : QuantityApi} {R : Retry AnyScan} {RL : RetryLaws AnyScan}.
Context {C Q M T : Type} {GC : GoCache (obj AnyScan) C} {WQ : WorkQueue Q} {PM : Prometheus M} {TC : TtlCache T}.
Context (MarshalJSON : string → string + error) (json_Unmarshal : string → list RedisInstance + error).
Context (url_Parse : string → option error) (specs : PublicCloudSpecs) (config : Config) (ttl : Z).
Context (Hretry : 0 < EventRetry config < 2 ^ 63) (Httl : jitter_ok ttl) (env : Env).
Implicit Types w : world C Q M T.

#[local] Instance item_Collector : CollectorSender AnyScan := kmc_Collector MarshalJSON json_Unmarshal url_Parse specs config.
#[local] Instance item_ConfigProvider : ConfigProvider AnyScan := kmc_ConfigProvider ttl.
#[local] Existing Instance kmc_ClientFactory.

(** The span of a collection by the four scanners. *)
Abbreviation item_span := (collection_span (C := C) (Q := Q) (M := M) (T := T) env (scanners MarshalJSON json_Unmarshal specs)).

(** A collection was traced, or there was none and the worker does not report success. *)
Definition item_trace (rec : CacheRecord AnyScan) (l : list answered_call) (complete : bool) (ts : list tree) : Prop :=
  (ts = [] ∧ complete = false) ∨ ∃ clients t, ts = [t] ∧ item_span (runtimeInfo rec) clients l complete t.

Lemma item_trace_mono rec l0 l l1 complete ts :
  item_trace rec l complete ts → item_trace rec (l0 ++ l ++ l1) complete ts.
Proof. intros [H|(clients & t & -> & Ht)]; [by left|right; exists clients, t; split; [done|by apply collection_span_mono]]. Qed.

Lemma item_trace_after rec l0 l complete ts : item_trace rec l complete ts → item_trace rec (l0 ++ l) complete ts.
Proof. intros H. rewrite <- (app_nil_r l). by apply item_trace_mono. Qed.

Lemma collectWith_traced p rec x j clients w d :
  trace_post env Background (collectWith p rec x j clients) w d (λ l complete _ ts, item_trace rec l complete ts).
Proof.
  apply trace_post_defer; [by split; [|intros []]|].
  destruct (CollectAndSend_traced env Marshal url_Parse config Hretry _ (scanners_traced env MarshalJSON json_Unmarshal specs)
    Background (ScanMap rec) (runtimeInfo rec) clients w d) as ([scans err] & w1 & d' & ts & Hrun & -> & t & -> & Ht).
  eapply trace_post_bind; [exact Hrun|].
  destruct err as [e|]; [exists false|exists true]; eexists _, d, []; (split; [by split; [|intros ch rest; rewrite app_nil_r]|]);
    intros l'; rewrite <- app_assoc; apply (item_trace_mono _ []); right; by exists clients, t.
Qed.

(** Giving up before the collection starts. *)
Lemma handleError_traced p rec x j err w d l0 :
  trace_post env Background (handleError p (Some rec) x j err;; mret false) w d
    (λ l complete _ ts, item_trace rec (l0 ++ l) complete ts).
Proof. eexists false, _, d, []. split; [by split; [|intros ch rest; rewrite app_nil_r]|by left]. Qed.

Lemma processRecord_traced p rec x j w d :
  trace_post env Background (processRecord p rec x j) w d (λ l complete _ ts, item_trace rec l complete ts).
Proof.
  unfold processRecord. eapply (trace_post_bind _ _ (logf _ _ _ _) _ _ tt (later 1 w) _ _ []);
    [split; [done|intros ch rest; by rewrite app_nil_r]|].
  destruct (traces_untraced env (ConfigProvider_Get (S := AnyScan) (Effects.RuntimeID rec)) (later 1 w)) as (kc & w1 & Hkc).
  { by apply Get_only. }
  eapply trace_post_bind; [apply Hkc|].
  destruct kc as [kc|]; [|eapply trace_post_mono; [apply (handleError_traced _ _ _ _ _ _ _ [])|intros; by do 2 apply item_trace_after]].
  apply trace_post_ext; [done|]. intros [rc|] w2 l0;
    [|eapply trace_post_mono; [apply (handleError_traced _ _ _ _ _ _ _ [])|intros; by do 3 apply item_trace_after]].
  destruct (traces_untraced env (NewClients (S := AnyScan) rc) w2) as (cl & w3 & Hcl).
  { repeat (split; [done|]; intros [?|?]; [|done]). done. }
  eapply trace_post_bind; [apply Hcl|].
  destruct cl as [cl|]; (eapply trace_post_mono; [first [apply collectWith_traced|apply (handleError_traced _ _ _ _ _ _ _ [])]|]);
    intros; by do 4 apply item_trace_after.
Qed.

(** C14 -- What a worker does with a queue item is traced completely: every span it starts is ended, spans are properly
    nested, and nothing is recorded on a span that has ended.  A collection is one span with exactly one child for each scan
    the worker made meanwhile, all with the attributes of the cluster.  The span of the collection is marked as failed exactly if the worker
    does not count the item as processed, which is so if any scan, conversion or the sending failed, also if the remaining
    measurements were sent.  The span of a scan is marked as failed exactly if the scan returned an error other than
    [ErrNoNodesFound]: the scan of a cluster without nodes fails but leaves no mark.  Without a collection there is no span
    and the item is not processed.  It is assumed that [EventRetry] is positive and that the jitter of the provider's TTL can
    be drawn. *)
Theorem item_traced p x j w : ∃ ts, spans (calls env (executeItem p x j) w) = Some ts ∧
  ((ts = [] ∧ (run env (processSubAccountID p x j) w).1 ≠ Returned true) ∨
   ∃ rec clients complete t, cache_get x (w_cache w) = Some (ObjRecord rec) ∧ ts = [t] ∧
     (run env (processSubAccountID p x j) w).1 = Returned complete ∧
     item_span (runtimeInfo rec) clients (calls env (executeItem p x j) w) complete t).
Proof.
  change (executeItem p x j) with (executeItem (CS := kmc_Collector MarshalJSON json_Unmarshal url_Parse specs config)
    (CP := kmc_ConfigProvider ttl) (CF := kmc_ClientFactory) p x j).
  rewrite executeItem_calls. unfold processSubAccountID. rewrite run_logf_bind, run_call_bind. cbn [handle_eff fst snd].
  rewrite calls_logf_bind. simpl calls. change (w_cache (later 1 w)) with (w_cache w).
  destruct (cache_get x (w_cache w)) as [[rec|]|]; [|by exists []; split; [|left]..].
  destruct (processRecord_traced p rec x j (later 1 w) (new_span "" [])) as (complete & w' & d' & ts & [Hrun Ht] & Hitem).
  exists ts. split; [by eapply (spans_traced (logged _ _ _ _ :: _))|].
  apply (item_trace_after _ [logged LDebug (queueProcessingLogger (S := AnyScan) None x j) "fetched subAccountID from queue" []]) in Hitem.
  change (kmc_Collector MarshalJSON json_Unmarshal url_Parse specs config) with item_Collector.
  rewrite Hrun. cbn [fst]. destruct Hitem as [[-> ->]|(clients & t & -> & Hspan)]; [by left|]. right.
  by exists rec, clients, complete, t.
Qed.
End item.

(** ** Concrete traces *)

#[local] Instance trace_Collector : CollectorSender AnyScan :=
  kmc_Collector inl sample_redis sample_Parse NodeScan.sample_specs sample_config.
#[local] Instance trace_ConfigProvider : ConfigProvider AnyScan := kmc_ConfigProvider DefaultKubeconfigCacheTTL.
#[local] Existing Instance kmc_ClientFactory.

(** The names and codes of the spans of a trace, a span before its children. *)
Fixpoint outline (t : tree) : list (string * Code) :=
  match t with Tree d ts => (span_name d, (span_status d).1) :: flat_map outline ts end.

Lemma item_traced_witness : ∃ t,
  spans (calls cluster_env (executeItem sample_process "sa-1" 0) kmc_world) = Some [t] ∧
  outline t = [("collect_scans_and_send_measurements", CodeUnset); ("node_scan", CodeUnset); ("pvc_scan", CodeUnset);
    ("redis_scan", CodeUnset); ("vsc_scan", CodeUnset)].
Proof.
  assert (Ho : (flat_map outline <$> spans (calls cluster_env (executeItem sample_process "sa-1" 0) kmc_world)) =
    Some [("collect_scans_and_send_measurements", CodeUnset); ("node_scan", CodeUnset); ("pvc_scan", CodeUnset);
      ("redis_scan", CodeUnset); ("vsc_scan", CodeUnset)]) by (vm_compute; reflexivity).
  destruct (item_traced inl sample_redis sample_Parse NodeScan.sample_specs sample_config DefaultKubeconfigCacheTTL
    ltac:(simpl; lia) default_jitter cluster_env sample_process "sa-1" 0 kmc_world)
    as (ts & Hts & [[-> _]|(rec & clients & billed & t & _ & -> & _)]); unfold trace_Collector, trace_ConfigProvider, item_Collector, item_ConfigProvider in *;
    rewrite Hts in Ho; [discriminate Ho|].
  exists t. split; [exact Hts|]. cbn [fmap option_fmap option_map flat_map] in Ho. rewrite app_nil_r in Ho. injection Ho as Ho. exact Ho.
Defined.

(** A cluster of which nothing can be listed. *)
Definition nothing_env : Env := λ X q t,
  match q in request X return X with
  | ListNodes _ => inr (errorString "nodes is forbidden")
  | ListPVCs _ => inr (errorString "persistentvolumeclaims is forbidden")
  | ListVSCs _ => inr (errorString "volumesnapshotcontents is forbidden")
  | ListRedis _ _ => inr {| ReasonForError := StatusReasonForbidden; apiErr := errorString "redis is forbidden" |}
  | q => sample_env _ q t
  end.

(** If no measurement was sent, the status of the span says so, but the error is not among those the span records: the code
    passes the error of the conversion, which is nil here, instead of [errNoMeasurementsSent]. *)
Theorem no_measurements_unrecorded : ∃ d ts,
  spans (calls nothing_env (executeItem sample_process "sa-1" 0) kmc_world) = Some [Tree d ts] ∧
  span_status d = (CodeError, Error errNoMeasurementsSent) ∧ length (span_errors d) = 1%nat ∧
  existsb (λ e, errors_Is e "edp.errNoMeasurementsSent") (span_errors d) = false.
Proof.
  assert (H : match spans (calls nothing_env (executeItem sample_process "sa-1" 0) kmc_world) with
    | Some [Tree d _] => Some (span_status d, length (span_errors d),
        existsb (λ e, errors_Is e "edp.errNoMeasurementsSent") (span_errors d))
    | _ => None end = Some ((CodeError, Error errNoMeasurementsSent), 1%nat, false)) by (vm_compute; reflexivity).
  destruct (spans _) as [[|[d ts] [|]]|]; try discriminate H. exists d, ts. by injection H.
Qed.
