(* ===== verification/TokenSecrecy.v ===== *)
(** * TokenSecrecy: where the EDP token goes

    The token is read from a file and sent in the [Authorization] header of the requests to EDP.  Two runs of the
    collector are compared, one with a token and an EDP that answers to this token, the other with another token and an EDP
    that answers to the other one in the same way: everything but the header and the debug
    entries of the log is the same.  A debug entry of the EDP client holds the token. *)
From S2P Require Import Prelude GoStd GoFloat Rfc3339 Logger Resource CloudSpecs NodeScan PvcScan VscScan RedisScan.
From S2P Require Import ClusterTracking Effects Libraries Clients Process Samples Retry.
From S2P Require Import Decimal Json EdpPayload PayloadJson EdpClient EdpCollector EdpCollectorSpec Scanners KubeconfigProvider Kmc.
Local Open Scope Z_scope.
Local Open Scope list_scope.

(** ** What an observer without the token sees *)

(** The request without the credential. *)
Definition redact (req : HttpRequest) : HttpRequest :=
  {| Method := Method req; URL := URL req; RawQuery := RawQuery req;
     Header := (λ h, if decide (h.1 = authorizationKeyHeader) then (h.1, "") else h) <$> Header req; Body := Body req |}.

(** The request authenticates with this token and no other. *)
Definition bears (token : string) (req : HttpRequest) : Prop :=
  ∀ value, (authorizationKeyHeader, value) ∈ Header req → value = "Bearer " +:+ token.

Section alike.
Context {QA : QuantityApi} (token token' : string).

(** The calls of two runs: the same call, unless it sends an HTTP request; requests that differ in the token only, which
    is the one of the run; entries that are written for debugging. *)
Inductive alike_request : ∀ X : Type, request X → request X → Prop :=
| alike_same X (q : request X) : unsent_eff (S := unit) (Ext q) → alike_request X q q
| alike_http req req' : bears token req → bears token' req' → redact req = redact req' →
    alike_request _ (HttpDo req) (HttpDo req')
| alike_debug e e' : log_level e = LDebug → log_level e' = LDebug → alike_request _ (Log e) (Log e').

(** The environments of the two runs.  In one EDP knows one token, in the other the other one, and it treats the
    two alike; an EDP that rejects every other token is not excluded. *)
Definition peers (env env' : Env) : Prop :=
  ∀ X (q q' : request X) t, alike_request X q q' → env X q t = env' X q' t.

Context {S : Type}.

(** Effects other than calls of the outside. *)
Definition internal_eff {X} (e : eff S X) : Prop := match e with Ext _ => False | _ => True end.

Inductive alike {A : Type} : prog S A → prog S A → Prop :=
| alike_Ret a : alike (Ret a) (Ret a)
| alike_Vis X (e : eff S X) k k' : internal_eff e → (∀ x, alike (k x) (k' x)) → alike (Vis e k) (Vis e k')
| alike_Ext X (q q' : request X) k k' : alike_request X q q' → (∀ x, alike (k x) (k' x)) →
    alike (Vis (Ext q) k) (Vis (Ext q') k')
| alike_Panic msg : alike (Panic msg) (Panic msg)
| alike_Fatal msg : alike (Fatal msg) (Fatal msg).

Lemma alike_bind {A B} (p p' : prog S A) (k k' : A → prog S B) :
  alike p p' → (∀ a, alike (k a) (k' a)) → alike (p ≫= k) (p' ≫= k').
Proof. intros Hp Hk. induction Hp; simpl; [apply Hk|by constructor..]. Qed.

(** Code that sends no request is the same in both runs. *)
Lemma alike_unsent {A} (p : prog S A) : only (λ X, unsent_eff) p → alike p p.
Proof.
  induction p as [a|X e k IH|msg|msg]; simpl; [constructor| |constructor..]. intros [He Hk].
  destruct e as [| | | | | | | | | | | | | | |X op|X q]; try (constructor; [done|]; intros x; by apply IH).
  apply alike_Ext; [|intros x; by apply IH]. apply alike_same. by destruct q.
Qed.

Lemma alike_silent {A} (p : prog S A) : silent p → alike p p.
Proof.
  intros Hp. eapply alike_unsent, only_mono; [|exact Hp]. intros X e He.
  destruct e as [| | | | | | | | | | | | | | |X op|X q]; try done. by destruct q.
Qed.

Lemma alike_defer {A} d (p p' : prog S A) : alike d d → alike p p' → alike (defer d p) (defer d p').
Proof. intros Hd Hp. induction Hp; simpl; try by constructor. all: apply alike_bind; [done|]; intros []; constructor. Qed.
End alike.

Section runs.
Context {QA : QuantityApi} {S C Q M T : Type}.
Context {GC : GoCache (obj S) C} {WQ : WorkQueue Q} {PM : Prometheus M} {TC : TtlCache T}.
Implicit Types w : world C Q M T.

(** Worlds that differ in the requests that were sent only. *)
Record alike_world w w' : Prop := {
  alike_cache : w_cache w = w_cache w';
  alike_queue : w_queue w = w_queue w';
  alike_metrics : w_metrics w = w_metrics w';
  alike_kube : w_kube w = w_kube w';
  alike_tick : w_tick w = w_tick w';
}.

(** A call as it is seen without the credential, if the core of the logger does not drop it. *)
Definition seen (core : Core) (c : answered_call) : option answered_call :=
  let '(existT _ (q, a)) := c in
  match q in request X return X → option answered_call with
  | HttpDo req => λ a, Some (existT _ (HttpDo (redact req), a))
  | Log e => λ a, if written core e then Some (existT _ (Log e, a)) else None
  | q => λ a, Some (existT _ (q, a))
  end a.

(** All that can be seen of a run: how it ends, the shared state it leaves, and the calls of the outside. *)
Definition observed (env : Env) (core : Core) {A} (p : prog S A) w :
    outcome A * (C * Q * M * T) * list answered_call :=
  ((run env p w).1,
   (w_cache (run env p w).2, w_queue (run env p w).2, w_metrics (run env p w).2, w_kube (run env p w).2),
   omap (seen core) (calls env p w)).

Context (token token' : string) (env env' : Env) (Hpeers : peers token token' env env').

(** Both read the same clock. *)
Lemma handle_alike {X} (e : eff S X) w w' : internal_eff e → alike_world w w' →
  (handle_eff env e w).1 = (handle_eff env' e w').1 ∧ alike_world (handle_eff env e w).2 (handle_eff env' e w').2.
Proof.
  intros He [Hc Hq Hm Hk Ht].
  assert (Hclk : env _ Clock (w_tick w') = env' _ Clock (w_tick w')) by by apply Hpeers, alike_same.
  assert (Hnow : env _ Now (w_tick w') = env' _ Now (w_tick w')) by by apply Hpeers, alike_same.
  destruct e as [| | | | | | | | | | | | | | |X op|X q]; [..|destruct op|done];
    simpl; unfold now_value, clock; rewrite ?Hc, ?Hq, ?Hm, ?Hk, ?Ht, ?Hclk, ?Hnow; (split; [done|]); split; simpl; congruence.
Qed.

Lemma tick_alike {X} (q q' : request X) w w' : alike_world w w' → alike_world (tick q w) (tick q' w').
Proof. intros [Hc Hqu Hm Hk Ht]. split; simpl; congruence. Qed.

Lemma seen_alike {X} core (q q' : request X) a : core_level core ≠ LDebug → alike_request token token' X q q' →
  seen core (existT _ (q, a)) = seen core (existT _ (q', a)).
Proof.
  intros Hcore Hq. destruct Hq as [X q Hq|req req' _ _ Hreq|e e' He1 He2]; [done|simpl; by rewrite Hreq|]. simpl. unfold written.
  rewrite He1, He2. destruct (severity (core_level core) <=? severity LDebug) eqn:Hlev; [|done]. by destruct core as [enc []].
Qed.

(** Programs that are alike cannot be told apart. *)
Lemma run_alike {A} core (p p' : prog S A) w w' : core_level core ≠ LDebug → alike token token' p p' → alike_world w w' →
  (run env p w).1 = (run env' p' w').1 ∧ alike_world (run env p w).2 (run env' p' w').2 ∧
  omap (seen core) (calls env p w) = omap (seen core) (calls env' p' w').
Proof.
  intros Hcore Hp. revert w w'. induction Hp as [a|X e k k' Hi _ IH|X q q' k k' Hq _ IH|msg|msg]; intros w w' Hw; try done.
  - destruct (handle_alike e w w' Hi Hw) as [Ha Hw1]. destruct (IH (handle_eff env e w).1 _ _ Hw1) as (Hr & Hw2 & He).
    cbn [run calls]. rewrite <- Ha. split; [done|]. split; [done|]. rewrite !omap_app, He. by destruct e.
  - assert (Ha : env X q (w_tick w) = env' X q' (w_tick w')) by (rewrite (alike_tick _ _ Hw); by apply Hpeers).
    destruct (IH (env X q (w_tick w)) _ _ (tick_alike q q' w w' Hw)) as (Hr & Hw2 & He).
    cbn [run calls handle_eff fst snd]. rewrite <- Ha. split; [done|]. split; [done|]. rewrite !omap_app, He. f_equal.
    cbn -[seen]. by rewrite (seen_alike core q q').
Qed.

Lemma observed_alike {A} core (p p' : prog S A) w : core_level core ≠ LDebug → alike token token' p p' →
  observed env core p w = observed env' core p' w.
Proof.
  intros Hcore Hp. destruct (run_alike core p p' w w Hcore Hp) as (Hr & [] & He); [done|]. unfold observed. congruence.
Qed.
End runs.

(** ** The collector *)

(** retry-go treats functions that are alike alike: it only calls them. *)
Class RetryUniform {QA : QuantityApi} (S : Type) {R : Retry S} : Prop :=
  retry_alike token token' A n d (f f' : prog S (A + error)) :
    alike token token' f f' → alike token token' (DoWithData n d f) (DoWithData n d f').

#[global] Instance loop_RetryUniform {QA : QuantityApi} {S} : RetryUniform S.
Proof.
  intros token token' A n d f f' Hf. unfold DoWithData, loop_Retry. generalize (Z.to_nat n) as m.
  induction m as [|m IH]; simpl; [constructor|].
  apply alike_bind; [done|]. intros [a|e]; [constructor|]. case_decide; [constructor|].
  apply alike_Ext; [by apply alike_same|]. intros []. apply IH.
Qed.

Section collector.
Context {QA : QuantityApi} {S : Type} {SC : ScanConverter S} {R : Retry S} {RU : RetryUniform S}.
Context (json_Marshal : payload → string + error) (url_Parse : string → option error).
Context (c : Config) (token token' : string).
Abbreviation alike := (alike (S := S) token token').

(** Requests that differ in the token only, each with the token of its run. *)
Definition counterparts (req req' : HttpRequest) : Prop := bears token req ∧ bears token' req' ∧ redact req = redact req'.

(** The requests for the two tokens. *)
Lemma NewRequest_alike subAccountID :
  match NewRequest url_Parse (with_Token c token) subAccountID, NewRequest url_Parse (with_Token c token') subAccountID with
  | inl req, inl req' => counterparts req req'
  | inr err, inr err' => err = err'
  | _, _ => False
  end.
Proof.
  unfold NewRequest. change (getEDPURL (with_Token c ?t)) with (getEDPURL c). destruct (url_Parse _); [done|].
  split_and!; [intros value Hv; set_solver..|done].
Qed.

Lemma counterparts_with_Body req req' payload : counterparts req req' →
  counterparts (with_Body req payload) (with_Body req' payload).
Proof. intros (Hb & Hb' & Hreq). split_and!; [done..|]. revert Hreq. unfold redact. simpl. intros [=]. by f_equal. Qed.

(** A debug entry. *)
Lemma alike_logged {A} e e' (k k' : unit → prog S A) : log_level e = LDebug → log_level e' = LDebug → alike (k tt) (k' tt) →
  alike (Vis (Ext (Log e)) k) (Vis (Ext (Log e')) k').
Proof. intros He He' Hk. apply alike_Ext; [by apply alike_debug|]. by intros []. Qed.

Lemma sendOnce_alike req req' payload : counterparts req req' →
  alike (sendOnce (with_Token c token) req payload) (sendOnce (with_Token c token') req' payload).
Proof.
  intros Hreq. apply alike_Ext.
  { destruct (counterparts_with_Body req req' payload Hreq) as (? & ? & ?). by apply alike_http. }
  change (getEDPURL (with_Token c ?t)) with (getEDPURL c). intros [resp|urlErr].
  - apply alike_unsent, only_defer; [by split; [|intros []]|by case_decide].
  - simpl. apply alike_Vis; [done|]. intros []. apply alike_logged; [done..|]. by apply alike_unsent.
Qed.

Lemma Send_alike req req' payload : counterparts req req' →
  alike (Send (with_Token c token) req payload) (Send (with_Token c token') req' payload).
Proof.
  intros Hreq. apply alike_bind; [by apply retry_alike, sendOnce_alike|]. intros [resp|err]; [|constructor].
  apply alike_logged; [done..|]. constructor.
Qed.

Lemma sendPayload_alike pl subAccountID :
  alike (sendPayload json_Marshal url_Parse (with_Token c token) pl subAccountID)
    (sendPayload json_Marshal url_Parse (with_Token c token') pl subAccountID).
Proof.
  unfold sendPayload. destruct (json_Marshal pl) as [body|]; [|constructor]. pose proof (NewRequest_alike subAccountID) as Hreq.
  destruct (NewRequest url_Parse (with_Token c token) _), (NewRequest url_Parse (with_Token c token') _); try done.
  - apply alike_bind; [by apply Send_alike|]. intros [resp|err]; [|constructor]. destruct (isSuccess _); constructor.
  - subst. constructor.
Qed.

Context (scanners : list (Scanner S)) (Hscanners : Forall scanner_ok scanners).

Lemma fail_span_if_alike span err : alike (fail_span_if span err) (fail_span_if span err).
Proof. apply alike_unsent. by destruct err. Qed.

Lemma collectWithin_alike span info clients previous :
  alike (collectWithin json_Marshal url_Parse (with_Token c token) scanners span info clients previous)
    (collectWithin json_Marshal url_Parse (with_Token c token') scanners span info clients previous).
Proof.
  unfold collectWithin. apply alike_bind; [by apply alike_silent|]. intros now.
  apply alike_bind; [by apply alike_silent, executeScans_silent|]. intros [scans err].
  apply alike_bind; [apply fail_span_if_alike|]. intros [].
  apply alike_bind; [apply alike_silent, convertScans_silent|]. intros [[scans' ms] err'].
  apply alike_bind; [apply fail_span_if_alike|]. intros [].
  case_decide; [by apply alike_unsent|]. apply alike_bind; [apply sendPayload_alike|]. intros err''.
  apply alike_bind; [apply fail_span_if_alike|]. intros []. constructor.
Qed.

Lemma CollectAndSend_alike ctx info clients previous :
  alike (EdpCollector.CollectAndSend json_Marshal url_Parse (with_Token c token) scanners ctx info clients previous)
    (EdpCollector.CollectAndSend json_Marshal url_Parse (with_Token c token') scanners ctx info clients previous).
Proof.
  apply alike_bind; [by apply alike_unsent|]. intros span. apply alike_defer; [by apply alike_unsent|apply collectWithin_alike].
Qed.
End collector.

(** ** The worker *)

(** The provider, whatever the TTL is. *)
Lemma Get_alike {QA : QuantityApi} {S} token token' k runtimeID :
  alike (S := S) token token' (Get k runtimeID) (Get k runtimeID).
Proof.
  unfold Get. apply alike_bind; [by apply alike_unsent|]. intros []. apply alike_bind; [by apply alike_unsent|]. intros [].
  apply alike_bind; [|intros [v|]; constructor]. apply alike_bind; [by apply alike_unsent|]. intros [v|]; [constructor|].
  apply alike_bind; [by apply alike_unsent|]. intros []. apply alike_bind.
  - apply alike_unsent, only_bind; [|done]. split; [done|]. intros [secret|err]; [done|]. by apply only_bind; [apply logSecretError_only|].
  - intros [kc|err]; [|by apply alike_unsent]. apply alike_bind; [by apply alike_unsent|]. intros [].
    apply alike_bind; [|intros d; by apply alike_unsent]. unfold getJitterTTL, rand_Int63n.
    case_decide; [constructor|]. case_decide; [constructor|]. by apply alike_unsent.
Qed.

Section worker.
Context {QA : QuantityApi} {S : Type} {CP : ConfigProvider S} {CF : ClientFactory S} (token token' : string).
Abbreviation alike := (alike (S := S) token token').
Context (Hprovider : ∀ runtimeID, alike (ConfigProvider_Get runtimeID) (ConfigProvider_Get runtimeID)).
Context (Hfactory : ∀ rc, alike (Process.NewClients rc) (Process.NewClients rc)).
Context (cs cs' : CollectorSender S) (Hcs : ∀ ctx info clients scans, alike (cs ctx info clients scans) (cs' ctx info clients scans)).

Lemma handleError_alike p rec x j err : alike (handleError p rec x j err;; mret false) (handleError p rec x j err;; mret false).
Proof.
  apply alike_bind; [|intros []; constructor]. apply alike_bind; [by apply alike_unsent|]. intros [].
  apply alike_bind; [by apply alike_unsent|]. intros []. apply alike_bind; [by apply alike_unsent|]. intros [].
  destruct rec; [by apply alike_unsent|constructor].
Qed.

Lemma executeItem_alike p x j : alike (executeItem (CS := cs) p x j) (executeItem (CS := cs') p x j).
Proof.
  unfold executeItem. apply alike_bind; [|intros []; by apply alike_unsent].
  unfold processSubAccountID. apply alike_bind; [by apply alike_unsent|]. intros [].
  apply alike_Vis; [done|]. intros [[rec|]|]; [|apply handleError_alike|by apply alike_unsent].
  unfold processRecord. apply alike_bind; [by apply alike_unsent|]. intros [].
  apply alike_bind; [apply Hprovider|]. intros [kc|err]; [|apply handleError_alike].
  apply alike_bind; [by apply alike_unsent|]. intros [rc|err]; [|apply handleError_alike].
  apply alike_bind; [apply Hfactory|]. intros [clients|err]; [|apply handleError_alike].
  unfold collectWith. apply alike_defer; [by apply alike_unsent|].
  apply alike_bind; [apply Hcs|]. intros [scans [err|]]; by apply alike_unsent.
Qed.
End worker.

Section secrecy.
Context {QA : QuantityApi} {R : Retry AnyScan} {RU : RetryUniform AnyScan}.
Context {C Q M T : Type} {GC : GoCache (obj AnyScan) C} {WQ : WorkQueue Q} {PM : Prometheus M} {TC : TtlCache T}.
Context (MarshalJSON : string → string + error) (json_Unmarshal : string → list RedisInstance + error).
Context (url_Parse : string → option error) (specs : PublicCloudSpecs) (c : Config) (ttl : Z).
Implicit Types w : world C Q M T.

#[local] Existing Instance kmc_ClientFactory.
#[local] Instance secrecy_kubeconfigs : ConfigProvider AnyScan := kmc_ConfigProvider ttl.

(** The collector that [main] builds for this token. *)
Definition collector_with (token : string) : CollectorSender AnyScan :=
  kmc_Collector MarshalJSON json_Unmarshal url_Parse specs (with_Token c token).

(** C13 -- The EDP token goes nowhere but into the [Authorization] header of the requests to EDP.  Take two collectors with
    different tokens, each with an environment in which EDP knows its token, such that the two answer alike: a request with
    the one token in the one environment as the same request with the other token in the other, and every call without
    a token in the same way (an EDP that rejects all other tokens included).  Then whatever a worker does with a queue item is the same for both, if debug entries are
    not written: it ends alike, leaves cache, queue, metrics and cached kubeconfigs alike, and makes the same calls of the
    outside in the same order, to the Kubernetes API, the tracer, the log and EDP, but for the value of the [Authorization] header. *)
Theorem token_confined p x j core token token' env env' w : peers token token' env env' → core_level core ≠ LDebug →
  observed env core (executeItem (CS := collector_with token) p x j) w =
  observed env' core (executeItem (CS := collector_with token') p x j) w.
Proof.
  intros Hpeers Hcore. apply (observed_alike token token'); [done..|]. apply executeItem_alike.
  - intros runtimeID. apply Get_alike.
  - intros rc. apply alike_unsent. repeat (split; [done|]; intros [?|?]; [|done]). done.
  - intros ctx info clients scans. unfold collector_with, kmc_Collector. by apply CollectAndSend_alike, scanners_ok.
Qed.
End secrecy.

(** ** The leak *)

Section leak.
Context {QA : QuantityApi} {S C Q M T : Type}.
Context {GC : GoCache (obj S) C} {WQ : WorkQueue Q} {PM : Prometheus M} {TC : TtlCache T}.
Context (env : Env) (url_Parse : string → option error) (c : Config).

(** The client's debug entry on a request. *)
Definition debug_entry (req : HttpRequest) : LogEntry :=
  {| log_level := LDebug; log_logger := namedLogger; log_format := "req: %v"; log_args := [ArgRequest req] |}.

(** With debug entries it does not: when a request to EDP fails, the client writes the whole request, with the token in its
    [Authorization] header. *)
Theorem debug_discloses_token subAccountID req payload urlErr core (w : world C Q M T) :
  NewRequest url_Parse c subAccountID = inl req →
  env _ (HttpDo (with_Body req payload)) (w_tick w) = inr urlErr → core_level core = LDebug →
  ∃ entry req', (existT _ (Log entry, tt) : answered_call) ∈ omap (seen core) (calls env (sendOnce (S := S) c req payload) w) ∧
    ArgRequest req' ∈ log_args entry ∧ (authorizationKeyHeader, "Bearer " +:+ Token c) ∈ Header req'.
Proof.
  intros Hreq Henv Hcore. assert (Hw : ∀ e, written core e = true).
  { intros e. unfold written. rewrite Hcore. by destruct (log_level e). }
  exists (debug_entry (with_Body req payload)), (with_Body req payload). split; [|split; [by apply list_elem_of_singleton|]].
  - unfold sendOnce. simpl. rewrite Henv. simpl. rewrite Hw. destruct (env _ (Log _) _). apply elem_of_cons. right.
    by apply elem_of_cons; left.
  - unfold NewRequest in Hreq. destruct (url_Parse _); [done|]. injection Hreq as <-. simpl. rewrite !elem_of_cons. auto.
Qed.
End leak.

(** ** Concrete runs *)

(** An EDP that accepts one token and rejects every other one. *)
Definition authorized (token : string) (req : HttpRequest) : bool :=
  forallb (λ h, bool_decide (h.1 = authorizationKeyHeader → h.2 = "Bearer " +:+ token)) (Header req).
Definition edp_env (token : string) : Env := λ X q t,
  match q in request X return X with
  | HttpDo req => inl {| StatusCode := if authorized token req then 201 else 401; ResponseBody := inl "" |}
  | q => cluster_env _ q t
  end.

Lemma bears_authorized token req : bears token req → authorized token req = true.
Proof.
  intros Hb. apply Is_true_true, forallb_True, Forall_forall. intros [k v] Hin. apply bool_decide_pack. simpl. intros ->. by apply Hb.
Qed.

Lemma edp_peers token token' : peers token token' (edp_env token) (edp_env token').
Proof.
  intros X q q' t Hq. destruct Hq as [X q Hq|req req' Hb Hb' _|e e' _ _]; [by destruct q| |done].
  simpl. by rewrite (bears_authorized token), (bears_authorized token').
Qed.

Definition json_config : EncoderConfig := encoderConfig {|
  TimeKey := "ts"; LevelKey := "level"; NameKey := "logger"; CallerKey := "caller"; MessageKey := "msg";
  StacktraceKey := "stacktrace"; EncodeTime := "EpochTimeEncoder"; EncodeLevel := "LowercaseLevelEncoder";
  EncodeCaller := "ShortCallerEncoder" |}.
Definition info_core : Core := newLogger json_config outputFormat LInfo.

#[local] Existing Instance kmc_ClientFactory.
#[local] Instance sample_kubeconfigs : ConfigProvider AnyScan := kmc_ConfigProvider DefaultKubeconfigCacheTTL.
Abbreviation sample_worker token :=
  (executeItem (CS := collector_with inl sample_redis sample_Parse NodeScan.sample_specs sample_config token) sample_process "sa-1" 0).

(** The EDP of this witness reacts to the token: the collector with the wrong one bills nothing. *)
Lemma token_confined_witness :
  core_level info_core ≠ LDebug ∧
  length (w_http (run (edp_env "old") (sample_worker "old") kmc_world).2) = 1%nat ∧
  length (w_http (run (edp_env "old") (sample_worker "new") kmc_world).2) ≠ 1%nat ∧
  observed (edp_env "old") info_core (sample_worker "old") kmc_world =
  observed (edp_env "new") info_core (sample_worker "new") kmc_world.
Proof.
  split; [discriminate|]. split; [vm_compute; reflexivity|]. split; [vm_compute; discriminate|].
  apply (token_confined inl sample_redis sample_Parse NodeScan.sample_specs sample_config DefaultKubeconfigCacheTTL
    sample_process "sa-1" 0 info_core "old" "new" (edp_env "old") (edp_env "new") kmc_world (edp_peers "old" "new")). discriminate.
Defined.
