(* ===== verification/KebClient.v ===== *)
(** * KebClient: fetching all runtimes from KEB ([pkg/keb/client.go])

    [GetAllRuntimes] loops until it has seen as many records as KEB announces.  The loop can
    run forever, so its model takes fuel: [None] means the fuel is used up. *)
From S2P Require Import Prelude GoStd GoFloat Logger Resource PvcScan ClusterTracking Effects Libraries Clients Process Samples Retry.
From S2P Require Import EdpClient.
Local Open Scope Z_scope.
Local Open Scope list_scope.

(** [keb.Config]. *)
Record Config := {
  Config_URL : string;
  Config_Timeout : Z;
  RetryCount : Z;
  Config_PollWaitDuration : Z;
}.

Definition clientName : string := "keb-client".
Definition retryInterval : Z := 10 * 10 ^ 9.
Definition StatusOK : Z := 200.

(** The client's logger; [main] hands it the base logger. *)
Definition namedLogger : SugaredLogger := With "component" "KEB" (Named clientName NewLogger).

Section client.
Context {QA : QuantityApi} {S : Type} {R : Retry S}.
(** [json.Unmarshal] into a [RuntimesPage] and [url.ParseRequestURI]. *)
Context (json_Unmarshal : string → RuntimesPage + error).
Context (c : Config).

Definition NewRequest (url_ParseRequestURI : string → option error) : HttpRequest + error :=
  match url_ParseRequestURI (Config_URL c) with
  | Some err => inr err
  | None => inl {| Method := "GET"; URL := Config_URL c; RawQuery := ""; Header := []; Body := "" |}
  end.

Definition recordKEBLatency (statusCode : Z) (destSvc : string) : prog S unit :=
  call (MetricObserve kebLatency [pretty statusCode; destSvc]).

(** [req.URL.RawQuery = query.Encode()] *)
Definition with_page (req : HttpRequest) (pageNum : Z) : HttpRequest :=
  {| Method := Method req; URL := URL req; RawQuery := "page=" +:+ pretty pageNum; Header := Header req; Body := Body req |}.

(** [defer func() { if errClose := resp.Body.Close(); errClose != nil { ... } }()] *)
Definition closeBody (resp : HttpResponse) : prog S unit :=
  errClose ← ext (BodyClose resp);
  match errClose with
  | Some errClose =>
      logf LError (With KeyError (Error errClose) (With KeyResult ValueFail namedLogger)) "close body for KEB runtime request" []
  | None => mret ()
  end.

(** The function [getRuntimesPerPage] retries. *)
Definition fetchPage (req : HttpRequest) : prog S (RuntimesPage + error) :=
  result ← ext (HttpDo req);
  match result with
  | inr urlErr =>
      logf LWarn (With KeyRetry ValueTrue (With KeyError (Error (UrlErr urlErr)) (With KeyResult ValueFail namedLogger)))
        "getting runtimes from KEB" [];;
      let responseCode := if Timeout urlErr then StatusRequestTimeout else StatusBadRequest in
      recordKEBLatency responseCode (Config_URL c);;
      mret (inr (UrlErr urlErr))
  | inl resp =>
      recordKEBLatency (StatusCode resp) (Config_URL c);;
      defer (closeBody resp)
     (if decide (StatusCode resp = StatusOK) then
        match ResponseBody resp with
        | inr err =>
            logf LError (With KeyError (Error err) (With KeyResult ValueFail namedLogger)) "read response body" [];;
            mret (inr err)
        | inl body =>
            match json_Unmarshal body with
            | inr err => mret (inr (withMessage "failed to unmarshal runtimes response" err))
            | inl runtimesPage => mret (inl runtimesPage)
            end
        end
      else mret (inr (errorString ("KEB returned status code: " +:+ pretty (StatusCode resp)))))
  end.

(** The request is changed in place; it is returned with its new query. *)
Definition getRuntimesPerPage (req : HttpRequest) (pageNum : Z) : prog S ((RuntimesPage + error) * HttpRequest) :=
  logf LDebug NewLogger "polling for runtimes with URL: %s" [ArgURL (URL req) (RawQuery req)];;
  let req := with_page req pageNum in
  result ← DoWithData (uint64_of_int (RetryCount c)) retryInterval (fetchPage req);
  mret (result, req).

(** The loop, with its variables [pageNum], [recordsSeen] and [finalRuntimesPage.Data]. *)
Fixpoint getAllLoop (fuel : nat) (req : HttpRequest) (pageNum recordsSeen : Z) (data : list RuntimeDTO) :
    prog S (option ((RuntimesPage + error) * HttpRequest)) :=
  match fuel with
  | O => mret None
  | Datatypes.S fuel' =>
      '(result, req) ← getRuntimesPerPage req pageNum;
      match result with
      | inr err => mret (Some (inr (withMessage "failed to get runtimes from KEB" err), req))
      | inl runtimesPage =>
          let data := data ++ Data runtimesPage in
          let recordsSeen := add64 recordsSeen (PageCount runtimesPage) in
          logf LDebug namedLogger "count: %d, records-seen: %d, page-num: %d, total-count: %d"
            [ArgInt (PageCount runtimesPage); ArgInt recordsSeen; ArgInt pageNum; ArgInt (TotalCount runtimesPage)];;
          if decide (recordsSeen >= TotalCount runtimesPage) then
            mret (Some (inl {| Data := data; PageCount := Z.of_nat (length data); TotalCount := recordsSeen |}, req))
          else getAllLoop fuel' req (add64 pageNum 1) recordsSeen data
      end
  end.

Definition GetAllRuntimes (fuel : nat) (req : HttpRequest) : prog S (option ((RuntimesPage + error) * HttpRequest)) :=
  getAllLoop fuel req 1 0 [].

(** ** Behaviour *)

Lemma fetchPage_quiet req : quiet (fetchPage req).
Proof.
  split; [done|]. intros [resp|urlErr]; [|done]. split; [done|]. intros []. apply only_defer; [split; [done|]; by intros []|].
  case_decide; [|done]. destruct (ResponseBody resp); [|done]. by destruct (json_Unmarshal s).
Qed.

Context {RL : RetryLaws S} (Hretry : 0 < RetryCount c < 2 ^ 63).
Context {C Q M T : Type} {GC : GoCache (obj S) C} {WQ : WorkQueue Q} {PM : Prometheus M} {TC : TtlCache T}.
Context (env : Env).
Implicit Types w : world C Q M T.

Lemma getAllLoop_quiet fuel req pageNum seen data : quiet (getAllLoop fuel req pageNum seen data).
Proof.
  revert req pageNum seen data. induction fuel as [|fuel IH]; intros req pageNum seen data; [done|]. cbn [getAllLoop].
  apply only_bind; [|intros [[pg|err] req']; [|done]; split; [done|]; intros []; simpl; case_decide; [done|apply IH]].
  split; [done|]. intros []. apply only_bind; [|done].
  apply retry_only; [done| |apply fetchPage_quiet]. unfold uint64_of_int. rewrite Z.mod_small; lia.
Qed.

Lemma getRuntimesPerPage_run req pageNum w : ∃ l r w',
  run env (getRuntimesPerPage req pageNum) w = (Returned (r, with_page req pageNum), w') ∧
  retried env (fetchPage (with_page req pageNum)) (Z.to_nat (RetryCount c)) (later 1 w) l r w'.
Proof.
  assert (Hu : uint64_of_int (RetryCount c) = RetryCount c) by (unfold uint64_of_int; rewrite Z.mod_small; lia).
  destruct (retry_run env (RetryCount c) retryInterval (fetchPage (with_page req pageNum)) (later 1 w))
    as (r & w' & Hrun & Hret); [lia|apply fetchPage_quiet|]. eexists _, r, w'. split; [|exact Hret].
  unfold getRuntimesPerPage. rewrite Hu, run_logf_bind. cbv zeta. by rewrite run_bind, Hrun.
Qed.

(** KEB answers the request with this page, whenever it is asked. *)
Definition serves (req : HttpRequest) (pageNum : Z) (page : RuntimesPage) : Prop := ∀ t, ∃ resp body,
  env _ (HttpDo (with_page req pageNum)) t = inl resp ∧ StatusCode resp = StatusOK ∧
  ResponseBody resp = inl body ∧ json_Unmarshal body = inl page.

Lemma closeBody_run resp w : ∃ n, run env (closeBody resp) w = (Returned tt, later (Datatypes.S n) w).
Proof. unfold closeBody. rewrite run_bind, run_ext. destruct (env _ (BodyClose resp) _); [by exists 1%nat|by exists 0%nat]. Qed.

Lemma fetchPage_served req pageNum page w : serves req pageNum page → ∃ w',
  run env (fetchPage (with_page req pageNum)) w = (Returned (inl page), w').
Proof.
  intros Hs. destruct (Hs (w_tick w)) as (resp & body & Henv & Hok & Hb & Hp).
  unfold fetchPage. rewrite run_bind, run_ext, Henv. unfold recordKEBLatency. rewrite run_call_bind.
  rewrite decide_True by done. rewrite Hb, Hp.
  edestruct (closeBody_run resp) as [n Hn]. eexists. eapply run_defer_prog; [reflexivity|exact Hn].
Qed.

Lemma getRuntimesPerPage_served req pageNum page w : serves req pageNum page → ∃ w',
  run env (getRuntimesPerPage req pageNum) w = (Returned (inl page, with_page req pageNum), w').
Proof.
  intros Hs. destruct (getRuntimesPerPage_run req pageNum w) as (l & r & w' & Hrun & Hret). exists w'. rewrite Hrun.
  destruct (fetchPage_served req pageNum page (later 1 w) Hs) as [w1 Hfetch].
  inversion Hret; subst; rewrite Hfetch in *; simplify_eq. done.
Qed.

(** KEB's pages of [all], [size] runtimes each. *)
Definition keb_page (all : list RuntimeDTO) (size : nat) (pageNum : Z) : RuntimesPage :=
  let data := take size (drop (Z.to_nat (pageNum - 1) * size) all) in
  {| Data := data; PageCount := Z.of_nat (length data); TotalCount := Z.of_nat (length all) |}.

Lemma getAllLoop_complete all size req n fuel w : (0 < size)%nat → Z.of_nat (length all) < 2 ^ 62 →
  (∀ pageNum, 1 ≤ pageNum → serves req pageNum (keb_page all size pageNum)) →
  (n * size <= length all)%nat → (length all < fuel + n)%nat → (0 < fuel)%nat →
  ∃ req' w', run env (getAllLoop fuel req (1 + Z.of_nat n) (Z.of_nat (n * size)) (take (n * size) all)) w =
    (Returned (Some (inl {| Data := all; PageCount := Z.of_nat (length all); TotalCount := Z.of_nat (length all) |}, req')), w').
Proof.
  intros Hsize Hall Hserv. revert req n w Hserv. induction fuel as [|fuel IH]; intros req n w Hserv Hn Hfuel Hpos; [lia|].
  assert (n <= length all)%nat by nia.
  cbn [getAllLoop]. destruct (getRuntimesPerPage_served req (1 + Z.of_nat n) _ w (Hserv (1 + Z.of_nat n) ltac:(lia))) as [w1 Hrun].
  rewrite run_bind, Hrun, run_logf_bind. cbn [Data PageCount TotalCount keb_page].
  replace (Z.to_nat (1 + Z.of_nat n - 1)) with n by lia.
  rewrite length_take, length_drop, take_take_drop.
  rewrite add64_id by (unfold in_int64, min_int64, max_int64; lia).
  case_decide as Hdone.
  - eexists _, (later 1 w1). simpl. assert (length all <= n * size + size)%nat by lia. rewrite take_ge by lia.
    do 6 f_equal. lia.
  - rewrite add64_id by (unfold in_int64, min_int64, max_int64; lia).
    replace (1 + Z.of_nat n + 1) with (1 + Z.of_nat (Datatypes.S n)) by lia.
    replace (n * size + size)%nat with (Datatypes.S n * size)%nat by lia.
    replace (Z.of_nat (n * size) + Z.of_nat (size `min` (length all - n * size))) with (Z.of_nat (Datatypes.S n * size))
      by lia.
    apply IH; [exact Hserv|nia..].
Qed.

(** When KEB serves its runtimes in pages, [GetAllRuntimes] terminates with all of
    them, in order and without repetition, whatever the page size: one iteration more than
    there are runtimes is always enough. *)
Theorem GetAllRuntimes_complete all size req fuel w : (0 < size)%nat → Z.of_nat (length all) < 2 ^ 62 →
  (∀ pageNum, 1 ≤ pageNum → serves req pageNum (keb_page all size pageNum)) → (length all < fuel)%nat →
  ∃ req' w', run env (GetAllRuntimes fuel req) w =
    (Returned (Some (inl {| Data := all; PageCount := Z.of_nat (length all); TotalCount := Z.of_nat (length all) |}, req')), w').
Proof.
  intros Hsize Hall Hserv Hfuel.
  apply (getAllLoop_complete all size req 0 fuel w Hsize Hall Hserv).
  - apply Nat.le_0_l.
  - rewrite Nat.add_0_r. done.
  - lia.
Qed.

(** C39 -- [GetAllRuntimes] does not terminate when KEB announces more records than it
    delivers: with an empty page and a positive total count, every amount of fuel is used up. *)
Theorem GetAllRuntimes_diverges total req fuel w : 0 < total →
  (∀ pageNum, serves req pageNum {| Data := []; PageCount := 0; TotalCount := total |}) →
  ∃ w', run env (GetAllRuntimes fuel req) w = (Returned None, w').
Proof.
  intros Htotal Hserv. unfold GetAllRuntimes. generalize 1 as pageNum. revert req w Hserv.
  induction fuel as [|fuel IH]; intros req w Hserv pageNum; [by eexists|]. cbn [getAllLoop].
  destruct (getRuntimesPerPage_served req pageNum _ w (Hserv _)) as [w1 Hrun]. rewrite run_bind, Hrun, run_logf_bind.
  cbn [Data PageCount TotalCount]. change (add64 0 0) with 0. rewrite decide_False by lia. by apply IH.
Qed.

(** The page came from an answer of KEB with status 200. *)
Definition from_KEB (req : HttpRequest) (page : RuntimesPage) : Prop := ∃ pageNum t resp body,
  env _ (HttpDo (with_page req pageNum)) t = inl resp ∧ StatusCode resp = StatusOK ∧
  ResponseBody resp = inl body ∧ json_Unmarshal body = inl page.

Lemma fetchPage_inl req pageNum page w w' :
  run env (fetchPage (with_page req pageNum)) w = (Returned (inl page), w') → from_KEB req page.
Proof.
  unfold fetchPage, from_KEB. rewrite run_bind, run_ext. unfold recordKEBLatency.
  destruct (env _ _ _) as [resp|e] eqn:He; [rewrite run_call_bind|done]. cbn [handle_eff fst snd].
  set (w1 := with_metrics _ _). set (body := if decide _ then _ else _).
  assert (Hbody : ∃ r w2, run env body w1 = (Returned r, w2) ∧ (r = inl page →
    ∃ text, StatusCode resp = StatusOK ∧ ResponseBody resp = inl text ∧ json_Unmarshal text = inl page)).
  { unfold body. case_decide; [|by do 2 eexists]. destruct (ResponseBody resp) as [text|] eqn:Hb; [|by do 2 eexists].
    destruct (json_Unmarshal text) as [page'|] eqn:Hp; do 2 eexists; (split; [reflexivity|]); [|done].
    intros [= ->]. by exists text. }
  destruct Hbody as (r & w2 & Hrun & Hr). destruct (closeBody_run resp w2) as [n Hn].
  rewrite (run_defer_prog _ _ _ _ _ _ _ Hrun Hn). intros [= -> _]. destruct (Hr eq_refl) as (text & ? & ? & ?).
  by exists pageNum, (w_tick w), resp, text.
Qed.

Lemma getRuntimesPerPage_inl req pageNum page req' w w' :
  run env (getRuntimesPerPage req pageNum) w = (Returned (inl page, req'), w') → from_KEB req page.
Proof.
  intros Hrun. destruct (getRuntimesPerPage_run req pageNum w) as (l & r & w1 & Hrun' & Hret).
  rewrite Hrun in Hrun'. injection Hrun' as <- -> <-. clear Hrun.
  remember (inl page) as r eqn:Hr. induction Hret; simplify_eq; [by eapply fetchPage_inl|by apply IHHret].
Qed.

Lemma getAllLoop_inl fuel req pageNum seen data page req' w w' :
  run env (getAllLoop fuel req pageNum seen data) w = (Returned (Some (inl page, req')), w') → ∃ pages lastPage,
  Forall (from_KEB req) (pages ++ [lastPage]) ∧
  Data page = data ++ ((pages ++ [lastPage]) ≫= Data) ∧ PageCount page = Z.of_nat (length (Data page)) ∧
  TotalCount page = wrap64 (seen + Zsum (PageCount <$> pages ++ [lastPage])) ∧ TotalCount lastPage ≤ TotalCount page.
Proof.
  revert req pageNum seen data w. induction fuel as [|fuel IH]; intros req pageNum seen data w; [done|]. cbn [getAllLoop].
  rewrite run_bind. destruct (run env (getRuntimesPerPage req pageNum) w) as [[r|msg|msg] w1] eqn:Hrun; [|done|done].
  destruct r as [[pg|err] req1]; [|done]. apply getRuntimesPerPage_inl in Hrun as Hpg.
  destruct (getRuntimesPerPage_run req pageNum w) as (l & r & w1' & Hrun' & _). rewrite Hrun in Hrun'. injection Hrun' as <- -> <-.
  rewrite run_logf_bind. case_decide as Hdone.
  - intros [= <- _ _]. exists [], pg. cbn [Data PageCount TotalCount app]. split_and!.
    + by constructor.
    + simpl. by rewrite app_nil_r.
    + done.
    + simpl. by rewrite Z.add_0_r.
    + lia.
  - intros (pages & lastPage & HF & HD & HC & HT & Hle)%IH. exists (pg :: pages), lastPage. split_and!; [..|done].
    + by constructor.
    + rewrite HD. simpl. by rewrite <- app_assoc.
    + done.
    + rewrite HT. unfold add64. rewrite wrap64_wrap_l. rewrite <- Z.add_assoc. done.
Qed.

(** [GetAllRuntimes] is all or nothing: a successful result is the concatenation of
    pages that KEB answered with status 200, its count is the number of runtimes in it, its total
    is the number of records KEB claimed to deliver, and this total reaches the one announced by the
    last page.  If one page cannot be fetched the result is an error. *)
Theorem GetAllRuntimes_all_or_nothing fuel req page req' w w' :
  run env (GetAllRuntimes fuel req) w = (Returned (Some (inl page, req')), w') → ∃ pages lastPage,
  Forall (from_KEB req) (pages ++ [lastPage]) ∧ Data page = (pages ++ [lastPage]) ≫= Data ∧
  PageCount page = Z.of_nat (length (Data page)) ∧
  TotalCount page = wrap64 (Zsum (PageCount <$> pages ++ [lastPage])) ∧ TotalCount lastPage ≤ TotalCount page.
Proof. apply (getAllLoop_inl fuel req 1 0 []). Qed.
End client.

(** ** Concrete servers *)

Definition sample_keb : Config :=
  {| Config_URL := "http://keb/runtimes"; Config_Timeout := 30 * 10 ^ 9; RetryCount := 5;
     Config_PollWaitDuration := 600 * 10 ^ 9 |}.
Definition sample_get : HttpRequest :=
  {| Method := "GET"; URL := "http://keb/runtimes"; RawQuery := ""; Header := []; Body := "" |}.

(** A server whose answer repeats the query, and a decoder for the pages of it. *)
Definition echo_env : Env := λ X q t,
  match q in request X return X with
  | HttpDo req => inl {| StatusCode := 200; ResponseBody := inl (RawQuery req) |}
  | q => sample_env _ q t
  end.
Definition sample_fleet : list RuntimeDTO :=
  [sample_runtime "ga" "sa-1" "a" false; sample_runtime "ga" "sa-2" "b" false; sample_runtime "ga" "sa-3" "c" false].
Definition decode_fleet (body : string) : RuntimesPage + error :=
  inl (if decide (body = "page=1") then keb_page sample_fleet 3 1 else keb_page sample_fleet 3 2).
Definition decode_empty (body : string) : RuntimesPage + error := inl {| Data := []; PageCount := 0; TotalCount := 5 |}.

Lemma decode_fleet_serves pageNum : 1 ≤ pageNum →
  serves decode_fleet echo_env sample_get pageNum (keb_page sample_fleet 3 pageNum).
Proof.
  intros Hp t. do 2 eexists. split_and!; [reflexivity..|]. unfold decode_fleet. f_equal. case_decide as Hq.
  - assert (pageNum = 1) as -> by (apply (inj pretty), (inj (String.app "page=")); exact Hq). done.
  - assert (pageNum ≠ 1) by (intros ->; done). unfold keb_page.
    rewrite !drop_ge by (simpl; lia). done.
Qed.

Lemma GetAllRuntimes_complete_witness : ∃ req' w',
  run (S := unit) echo_env (GetAllRuntimes decode_fleet sample_keb 4 sample_get) empty_world =
    (Returned (Some (inl {| Data := sample_fleet; PageCount := 3; TotalCount := 3 |}, req')), w').
Proof.
  apply (GetAllRuntimes_complete (S := unit) decode_fleet sample_keb ltac:(simpl; lia) echo_env sample_fleet 3 sample_get 4
    empty_world); [lia|simpl; lia|exact decode_fleet_serves|simpl; lia].
Defined.

Lemma GetAllRuntimes_diverges_witness : ∃ w',
  run (S := unit) echo_env (GetAllRuntimes decode_empty sample_keb 100 sample_get) empty_world = (Returned None, w').
Proof.
  apply (GetAllRuntimes_diverges (S := unit) decode_empty sample_keb ltac:(simpl; lia) echo_env 5); [lia|].
  intros pageNum t. do 2 eexists. split_and!; reflexivity.
Defined.

Lemma GetAllRuntimes_all_or_nothing_witness : ∃ page w',
  run (S := unit) echo_env (GetAllRuntimes decode_fleet sample_keb 4 sample_get) empty_world =
    (Returned (Some (inl page, with_page sample_get 1)), w') ∧ PageCount page = Z.of_nat (length (Data page)).
Proof.
  pose (page := {| Data := sample_fleet; PageCount := 3; TotalCount := 3 |}).
  pose (w' := (run (S := unit) echo_env (GetAllRuntimes decode_fleet sample_keb 4 sample_get) empty_world).2).
  assert (Hrun : run (S := unit) echo_env (GetAllRuntimes decode_fleet sample_keb 4 sample_get) empty_world =
    (Returned (Some (inl page, with_page sample_get 1)), w')).
  { rewrite (surjective_pairing (run _ _ _)). unfold w'. f_equal. }
  exists page, w'. split; [exact Hrun|].
  destruct (GetAllRuntimes_all_or_nothing (S := unit) decode_fleet sample_keb ltac:(simpl; lia) echo_env 4 sample_get
    page _ empty_world w' Hrun) as (pages & lastPage & _ & _ & Hc & _).
  exact Hc.
Defined.
