(* ===== verification/Polling.v ===== *)
(** * Polling: the polling goroutine as a whole ([pollKEBForRuntimes])

    Fetching the runtimes from KEB (KebClient) and reconciling cache and queue with them (Process)
    are put together, and so are their theorems. *)
From S2P Require Import Prelude GoStd GoFloat Resource PvcScan ClusterTracking Effects Libraries Clients Process Samples.
From S2P Require Import ProcessSpec Concurrency Retry EdpClient KebClient.
Local Open Scope Z_scope.
Local Open Scope list_scope.

Section polling.
Context {QA : QuantityApi} {S : Type} {SS : SortSlice} {R : Retry S} {RL : RetryLaws S}.
Context {CS : CollectorSender S} {CP : ConfigProvider S} {CF : ClientFactory S}.
Context (json_Unmarshal : string → RuntimesPage + error) (url_ParseRequestURI : string → option error).
Context (c : KebClient.Config) (p : Process).

(** One iteration of the loop, and the request as the client left it; [None] if fetching used up its fuel. *)
Definition pollIteration (fuel : nat) (kebReq : HttpRequest) : prog S (option HttpRequest) :=
  answer ← GetAllRuntimes json_Unmarshal c fuel kebReq;
  match answer with
  | None => mret None
  | Some (answer, kebReq) => pollBody p answer;; mret (Some kebReq)
  end.

(** The first [n] iterations of the loop. *)
Fixpoint pollLoop (n fuel : nat) (kebReq : HttpRequest) : prog S unit :=
  match n with
  | O => mret ()
  | Datatypes.S n' =>
      kebReq ← pollIteration fuel kebReq;
      match kebReq with Some kebReq => pollLoop n' fuel kebReq | None => mret () end
  end.

Definition pollKEBForRuntimes (n fuel : nat) : prog S unit :=
  match KebClient.NewRequest c url_ParseRequestURI with
  | inr _ => Fatal "create a new request for KEB"
  | inl kebReq => pollLoop n fuel kebReq
  end.

Context (Hretry : 0 < RetryCount c < 2 ^ 63).
Context {C Q M T : Type} {GC : GoCache (obj S) C} {WQ : WorkQueue Q} {PM : Prometheus M} {TC : TtlCache T}.
Context {GCL : GoCacheLaws (obj S) C} {WQL : WorkQueueLaws Q} {PML : PrometheusLaws M}.
Context (env : Env).
Implicit Types w : world C Q M T.

Lemma GetAllRuntimes_run fuel req w : ∃ answer w1,
  run env (GetAllRuntimes json_Unmarshal c fuel req) w = (Returned answer, w1) ∧
  w_cache w1 = w_cache w ∧ w_queue w1 = w_queue w.
Proof. apply run_quiet. by apply getAllLoop_quiet. Qed.

(** The clusters in the cache. *)
Definition cached_count (ca : C) : Z := Z.of_nat (length (cache_items ca)).

(** What a poll with these runtimes does to cache, queue and gauge. *)
Record mirrors (rts : list RuntimeDTO) (w w' : world C Q M T) : Prop := {
  mirrors_cache : cache_ok (w_cache w');
  mirrors_decided x : decided p rts x (cache_get x (w_cache w)) (cache_get x (w_cache w'));
  mirrors_queued x : cache_get x (w_cache w) = None → is_Some (cache_get x (w_cache w')) → x ∈ q_pending (w_queue w');
  mirrors_kept : q_pending (w_queue w) ⊆ q_pending (w_queue w');
  mirrors_gauge : m_get itemsInCache [] (w_metrics w') = Some (float64_of_int64 (cached_count (w_cache w')));
}.

Lemma pollFetched_run page w w0 : cache_ok (w_cache w) → w_cache w0 = w_cache w → w_queue w0 = w_queue w → ∃ w',
  run env (pollFetched p page) w0 = (Returned (), w') ∧ mirrors (Data page) w w'.
Proof.
  intros Hok Hc0 Hq0. unfold pollFetched. rewrite run_logf_bind, run_bind.
  destruct (populateCacheAndQueue_run env p page (later 1 w0)) as (w1 & Hrun & Hc & Hq & _). rewrite Hrun.
  clear Hrun. destruct w0 as [c0 q0 m0 t0 h0]. cbn [later w_cache w_queue] in *. subst.
  eexists. split; [cbn; by destruct (env _ (Sleep _) _)|]. split; cbn.
  - by eapply populate_cache_ok.
  - intros x. rewrite Hc. by apply account_decided.
  - intros x Hnone Hsome. rewrite Hc, Hnone in Hsome. apply Hq. right. rewrite Hnone.
    apply account_queued. case_decide; [done|]. by destruct Hsome.
  - intros x Hx. apply Hq. by left.
  - rewrite m_get_set, decide_True by done. done.
Qed.

(** C4 -- When KEB serves its runtimes in pages, one iteration of the polling loop ends, whatever the
    page size, and the collector then mirrors all of them: for every sub-account the last runtime
    that is not skipped decides whether and with which shoot it is cached, everything else is gone from the
    cache, what is newly cached is queued, nothing leaves the queue, and the gauge of cached
    clusters shows their number. *)
Theorem poll_mirrors_KEB all size fuel req w : (0 < size)%nat → Z.of_nat (length all) < 2 ^ 62 →
  (∀ pageNum, 1 ≤ pageNum → serves json_Unmarshal env req pageNum (keb_page all size pageNum)) →
  (length all < fuel)%nat → cache_ok (w_cache w) → ∃ req' w',
  run env (pollIteration fuel req) w = (Returned (Some req'), w') ∧ mirrors all w w'.
Proof.
  intros Hsize Hall Hserv Hfuel Hok.
  destruct (getAllLoop_complete json_Unmarshal c Hretry env all size req 0 fuel w Hsize Hall Hserv) as (req' & w1 & Hrun);
    [apply Nat.le_0_l|lia|lia|]. change (Z.of_nat (0 * size)) with 0 in Hrun. change (take (0 * size) all) with (@nil RuntimeDTO) in Hrun.
  destruct (GetAllRuntimes_run fuel req w) as (answer & w1' & Hrun' & Hc & Hq).
  unfold pollIteration. unfold GetAllRuntimes in *. change (1 + Z.of_nat 0) with 1 in Hrun.
  rewrite Hrun in Hrun'. injection Hrun' as <- <-. rewrite run_bind, Hrun. cbn [pollBody].
  destruct (pollFetched_run {| Data := all; PageCount := Z.of_nat (length all); TotalCount := Z.of_nat (length all) |} w w1 Hok Hc Hq)
    as (w' & Hpoll & Hm). exists req', w'. rewrite run_bind, Hpoll. done.
Qed.

Lemma pollIteration_run fuel req w : cache_ok (w_cache w) → ∃ b w',
  run env (pollIteration fuel req) w = (Returned b, w') ∧
  (w_cache w' = w_cache w ∧ w_queue w' = w_queue w ∨
   ∃ pages lastPage, Forall (from_KEB json_Unmarshal env req) (pages ++ [lastPage]) ∧
     TotalCount lastPage ≤ wrap64 (Zsum (PageCount <$> pages ++ [lastPage])) ∧
     mirrors ((pages ++ [lastPage]) ≫= Data) w w').
Proof.
  intros Hok. destruct (GetAllRuntimes_run fuel req w) as (answer & w1 & Hrun & Hc & Hq).
  unfold pollIteration. rewrite run_bind, Hrun. destruct answer as [[[page|err] req']|].
  - apply getAllLoop_inl in Hrun as (pages & lastPage & HF & HD & _ & HT & Hle); [|apply _|exact Hretry].
    destruct (pollFetched_run page w w1 Hok Hc Hq) as (w' & Hpoll & Hm). rewrite HD in Hm. rewrite HT in Hle.
    exists (Some req'), w'. cbn [pollBody]. rewrite run_bind, Hpoll. split; [done|]. right. by exists pages, lastPage.
  - exists (Some req'). eexists. split; [reflexivity|]. by left.
  - exists None, w1. split; [done|]. by left.
Qed.
(** C20 -- A poll is all or nothing: whatever KEB answers, one iteration leaves cache and queue exactly as
    they were, unless every page was fetched with status 200; then it reconciles them with the
    concatenation of these pages and not with a part of it. *)
Theorem poll_all_or_nothing fuel req w : cache_ok (w_cache w) → ∃ b w',
  run env (pollIteration fuel req) w = (Returned b, w') ∧
  (w_cache w' = w_cache w ∧ w_queue w' = w_queue w ∨
   ∃ pages lastPage, Forall (from_KEB json_Unmarshal env req) (pages ++ [lastPage]) ∧
     TotalCount lastPage ≤ wrap64 (Zsum (PageCount <$> pages ++ [lastPage])) ∧
     mirrors ((pages ++ [lastPage]) ≫= Data) w w').
Proof. apply pollIteration_run. Qed.

(** The polling goroutine never stops the collector and keeps the cache well formed, unless KEB's URL
    is invalid; then the process exits before the first poll. *)
Lemma pollKEBForRuntimes_run n fuel w : cache_ok (w_cache w) → ∃ o w',
  run env (pollKEBForRuntimes n fuel) w = (o, w') ∧ cache_ok (w_cache w') ∧
  match url_ParseRequestURI (KebClient.Config_URL c) with
  | None => o = Returned ()
  | Some _ => o = Exited "create a new request for KEB" ∧ w' = w
  end.
Proof.
  intros Hok. unfold pollKEBForRuntimes, KebClient.NewRequest.
  destruct (url_ParseRequestURI _); [by do 2 eexists|]. generalize {| Method := "GET"; URL := KebClient.Config_URL c; RawQuery := ""; Header := []; Body := "" |} as req.
  revert w Hok. induction n as [|n IH]; intros w Hok req; [by do 2 eexists|]. cbn [pollLoop].
  destruct (pollIteration_run fuel req w Hok) as (b & w1 & Hrun & Hw1). rewrite run_bind, Hrun.
  assert (Hok1 : cache_ok (w_cache w1)).
  { destruct Hw1 as [[-> _]|(? & ? & _ & _ & Hm)]; [done|]. apply Hm. }
  destruct b; [by apply IH|]. by do 2 eexists.
Qed.
End polling.

(** ** Concrete polls *)

Lemma sample_keb_retries : 0 < RetryCount sample_keb < 2 ^ 63.
Proof. by split. Qed.

(** KEB has the three runtimes of [sample_fleet]; one of them is cached under another shoot, and so
    is one KEB does not know. *)
Definition polled_before : sample_world_type := cached_world [("sa-1", "old"); ("sa-9", "gone")].

Lemma polled_before_ok : cache_ok (w_cache polled_before).
Proof.
  intros x. destruct (cache_get x (w_cache polled_before)) as [o|] eqn:Ho; [|done].
  change (w_cache polled_before !! x = Some o) in Ho. apply elem_of_map_to_list in Ho.
  assert (Hall : Forall (λ '(x, o), entry_ok x (Some o)) (map_to_list (w_cache polled_before)))
    by (vm_compute; repeat constructor).
  exact (proj1 (Forall_forall _ _) Hall (x, o) Ho).
Qed.

Lemma poll_mirrors_KEB_witness : ∃ req' w',
  run echo_env (pollIteration decode_fleet sample_keb sample_process 4 sample_get) polled_before = (Returned (Some req'), w') ∧
  cached_shoot "sa-1" w' = Some "a" ∧ cache_get "sa-9" (w_cache w') = None ∧
  m_get itemsInCache [] (w_metrics w') = Some (float64_of_int64 (cached_count (w_cache w'))).
Proof.
  destruct (poll_mirrors_KEB decode_fleet sample_keb sample_process sample_keb_retries echo_env sample_fleet 3 4 sample_get
    polled_before ltac:(lia) ltac:(simpl; lia) decode_fleet_serves ltac:(simpl; lia) polled_before_ok) as (req' & w' & Hrun & [_ Hx _ _ Hg]).
  exists req', w'. split; [exact Hrun|]. split; [|split; [exact (Hx "sa-9")|exact Hg]].
  destruct (Hx "sa-1") as (rec & Hrec & _ & Hname & _). unfold cached_shoot. rewrite Hrec, Hname. reflexivity.
Defined.

Lemma poll_all_or_nothing_witness : cache_ok (w_cache polled_before) ∧ ∃ b w',
  run unavailable_env (pollIteration decode_fleet sample_keb sample_process 4 sample_get) polled_before = (Returned b, w') ∧
  w_cache w' = w_cache polled_before.
Proof.
  split; [exact polled_before_ok|].
  destruct (poll_all_or_nothing decode_fleet sample_keb sample_process sample_keb_retries unavailable_env 4 sample_get
    polled_before polled_before_ok) as (b & w' & Hrun & [[Hc _]|(pages & lastPage & Hall & _)]).
  - exists b, w'. split; [exact Hrun|exact Hc].
  - exfalso. rewrite Forall_app, Forall_singleton in Hall.
    destruct Hall as [_ (pageNum & t & resp & body & Henv & Hok & _)]. injection Henv as <-. discriminate Hok.
Defined.
