(* ===== verification/ResponseBodies.v ===== *)
(** * ResponseBodies: every HTTP response is closed

    [net/http] keeps the connection of a response until its body is closed.  The state is the response that is
    open; the clients of KEB and EDP have at most one open, and close it before they send the next request. *)
From S2P Require Import Prelude GoStd GoFloat Logger Resource CloudSpecs NodeScan PvcScan VscScan RedisScan Tracing ClusterTracking.
From S2P Require Import Effects Libraries Clients Process Samples ProcessSpec KubeconfigProvider Concurrency Retry.
From S2P Require Import EdpPayload PayloadJson EdpClient EdpCollector EdpCollectorSpec Scanners Kmc KebClient Polling.
Local Open Scope Z_scope.
Local Open Scope list_scope.

Section bodies.
Context {QA : QuantityApi}.

(** A request may be sent while no response is open; only the open response may be closed. *)
Definition body_ok {X} (q : request X) (open : option HttpResponse) : Prop :=
  match q with HttpDo _ => open = None | BodyClose resp => open = Some resp | _ => True end.
Definition body_after {X} (q : request X) (open : option HttpResponse) : X → option HttpResponse :=
  match q in request X return X → option HttpResponse with
  | HttpDo _ => λ answer, match answer with inl resp => Some resp | inr _ => None end
  | BodyClose _ => λ _, None
  | _ => λ _, open
  end.

(** The calls keep to this, and leave no response open. *)
Fixpoint all_closed (l : list answered_call) (open : option HttpResponse) : Prop :=
  match l with
  | [] => open = None
  | existT _ (q, answer) :: l' => body_ok q open ∧ all_closed l' (body_after q open answer)
  end.

(** ** Programs *)

Section programs.
Context {S : Type}.

(** The same of a program, whatever it is answered and however it ends. *)
Fixpoint closes {A} (open : option HttpResponse) (p : prog S A) : Prop :=
  match p with
  | Ret _ | Panic _ | Fatal _ => open = None
  | Vis e k =>
      match e with Ext q => body_ok q open | _ => True end ∧
      ∀ x, closes (match e in eff _ X return X → option HttpResponse with Ext q => body_after q open | _ => λ _, open end x) (k x)
  end.

(** Programs that neither send nor close. *)
Definition offline_eff {X} (e : eff S X) : Prop := match e with Ext (HttpDo _) | Ext (BodyClose _) => False | _ => True end.
Abbreviation offline := (only (λ X, offline_eff)).

Lemma offline_step {X} (e : eff S X) open : offline_eff e →
  match e with Ext q => body_ok q open | _ => True end ∧
  ∀ x, match e in eff _ X return X → option HttpResponse with Ext q => body_after q open | _ => λ _, open end x = open.
Proof. intros He. destruct e as [| | | | | | | | | | | | | | |X op|X q]; try done. by destruct q. Qed.

Lemma closes_bind {A B} open (p : prog S A) (k : A → prog S B) :
  closes open p → (∀ a, closes None (k a)) → closes open (p ≫= k).
Proof.
  intros Hp Hk. revert open Hp. induction p as [a|X e k' IH|msg|msg]; intros open Hp; simpl in *; [subst; apply Hk| |done|done].
  destruct Hp as [He Hp]. split; [done|]. intros x. by apply IH.
Qed.

Lemma closes_offline_bind {A B} open (p : prog S A) (k : A → prog S B) :
  offline p → (∀ a, closes open (k a)) → closes open (p ≫= k).
Proof.
  intros Hp Hk. induction p as [a|X e k' IH|msg|msg]; simpl in *; [apply Hk| |done|done].
  destruct Hp as [He Hp]. destruct (offline_step e open He) as [Hok Hafter]. split; [done|]. intros x. rewrite Hafter. by apply IH.
Qed.

Lemma closes_offline {A} (p : prog S A) : offline p → closes None p.
Proof.
  induction p as [a|X e k IH|msg|msg]; [done| |done|done]. intros [He Hp].
  destruct (offline_step e None He) as [Hok Hafter]. split; [done|]. intros x. rewrite Hafter. by apply IH.
Qed.

(** A deferred close; a deferred call that is offline. *)
Lemma closes_defer_close {A} open d (p : prog S A) : offline p → closes open d → closes open (defer d p).
Proof.
  intros Hp Hd. induction p as [a|X e k IH|msg|msg]; simpl in *; [by apply closes_bind| |done|done].
  destruct Hp as [He Hp]. destruct (offline_step e open He) as [Hok Hafter]. split; [done|]. intros x. rewrite Hafter. by apply IH.
Qed.

Lemma closes_defer {A} open d (p : prog S A) : offline d → closes open p → closes open (defer d p).
Proof.
  intros Hd. revert open. induction p as [a|X e k IH|msg|msg]; intros open Hp; simpl in *; [| | |done].
  - subst. apply closes_offline_bind; [done|]. done.
  - destruct Hp as [He Hp]. split; [done|]. intros x. by apply IH.
  - subst. by apply closes_offline_bind.
Qed.

Lemma silent_offline {A} (p : prog S A) : silent p → offline p.
Proof. apply only_mono. intros X e. destruct e as [| | | | | | | | | | | | | | |X op|X q]; try done. by destruct q. Qed.

Context {C Q M T : Type} {GC : GoCache (obj S) C} {WQ : WorkQueue Q} {PM : Prometheus M} {TC : TtlCache T}.

(** What the calls of a run amount to. *)
Lemma closes_calls {A} (env : Env) (p : prog S A) open (w : world C Q M T) : closes open p → all_closed (calls env p w) open.
Proof.
  revert open w. induction p as [a|X e k IH|msg|msg]; intros open w Hp; simpl in *; [done| |done|done].
  destruct Hp as [He Hp]. specialize (IH (handle_eff env e w).1 _ (handle_eff env e w).2 (Hp _)).
  destruct e as [| | | | | | | | | | | | | | |X op|X q]; [exact IH..|by split].
Qed.
End programs.
End bodies.
Abbreviation offline := (only (λ X, offline_eff)).

(** ** The clients *)

Section clients.
Context {QA : QuantityApi} {S : Type} {R : Retry S} {RC : RetryComposes S}.

(** Retrying a function that closes its responses. *)
Lemma retry_closes {A} n d (f : prog S (A + error)) : 0 < n → closes None f → closes None (DoWithData n d f).
Proof.
  intros Hn Hf. apply (retry_composed (S := S) A (λ B, closes None)); [done|done| |done|done].
  intros B D p k. apply closes_bind.
Qed.

Lemma uint64_pos n : 0 < n < 2 ^ 63 → 0 < uint64_of_int n.
Proof. unfold uint64_of_int. intros Hn. rewrite Z.mod_small; lia. Qed.

Lemma sendOnce_closes c req payload : closes (S := S) None (sendOnce c req payload).
Proof.
  split; [done|]. intros [resp|urlErr]; [|by apply closes_offline].
  apply closes_defer_close; [by case_decide|]. split; [done|]. by intros [].
Qed.

Lemma Send_closes c req payload : 0 < EventRetry c < 2 ^ 63 → closes (S := S) None (Send c req payload).
Proof.
  intros Hr. apply closes_bind; [by apply retry_closes; [apply uint64_pos|apply sendOnce_closes]|]. by intros [].
Qed.

Lemma fetchPage_closes json_Unmarshal c req : closes (S := S) None (fetchPage json_Unmarshal c req).
Proof.
  split; [done|]. intros [resp|urlErr]; [|by apply closes_offline]. split; [done|]. intros []. cbn [pbind].
  apply closes_defer_close.
  - case_decide; [|done]. destruct (ResponseBody resp) as [body|]; [|done]. by destruct (json_Unmarshal body).
  - split; [done|]. by intros [].
Qed.

Lemma getAllLoop_closes json_Unmarshal c fuel req pageNum seen data : 0 < RetryCount c < 2 ^ 63 →
  closes (S := S) None (getAllLoop json_Unmarshal c fuel req pageNum seen data).
Proof.
  intros Hr. revert req pageNum seen data. induction fuel as [|fuel IH]; intros req pageNum seen data; [done|]. cbn [getAllLoop].
  apply closes_bind.
  - apply closes_bind; [done|]. intros []. apply closes_bind; [|done]. apply retry_closes; [by apply uint64_pos|apply fetchPage_closes].
  - intros [[page|err] req']; [|done]. apply closes_bind; [done|]. intros []. case_decide; [done|apply IH].
Qed.
End clients.

(** ** The collector *)

Section collector.
Context {QA : QuantityApi} {S : Type} {SC : ScanConverter S} {R : Retry S} {RC : RetryComposes S}.
Context (json_Marshal : payload → string + error) (url_Parse : string → option error) (config : EdpClient.Config).
Context (Hretry : 0 < EventRetry config < 2 ^ 63) (scanners : list (Scanner S)) (Hscanners : Forall scanner_ok scanners).

Lemma sendPayload_closes pl subAccountID : closes None (sendPayload json_Marshal url_Parse config pl subAccountID).
Proof.
  unfold sendPayload. destruct (json_Marshal pl); [|done]. destruct (EdpClient.NewRequest _ _ _); [|done].
  apply closes_bind; [by apply Send_closes|]. intros [resp|err]; [|done]. by destruct (isSuccess _).
Qed.

Lemma fail_span_if_closes span err : closes (S := S) None (fail_span_if span err).
Proof. by destruct err. Qed.

Lemma CollectAndSend_closes ctx info clients previous :
  closes None (EdpCollector.CollectAndSend json_Marshal url_Parse config scanners ctx info clients previous).
Proof.
  split; [done|]. intros span. cbn [pbind]. apply closes_defer; [done|].
  apply closes_bind; [done|]. intros now.
  apply closes_bind; [by apply closes_offline, silent_offline, executeScans_silent|]. intros [scans err].
  apply closes_bind; [apply fail_span_if_closes|]. intros [].
  apply closes_bind; [apply closes_offline, silent_offline, convertScans_silent|]. intros [[scans' ms] err'].
  apply closes_bind; [apply fail_span_if_closes|]. intros []. case_decide; [done|].
  apply closes_bind; [apply sendPayload_closes|]. intros err''. apply closes_bind; [apply fail_span_if_closes|done].
Qed.
End collector.

(** ** The goroutines *)

Section goroutines.
Context {QA : QuantityApi} {SS : SortSlice} {R : Retry AnyScan} {RL : RetryLaws AnyScan} {RC : RetryComposes AnyScan}.
Context {C Q M T : Type} {GC : GoCache (obj AnyScan) C} {WQ : WorkQueue Q} {PM : Prometheus M} {TC : TtlCache T}.
Context (MarshalJSON : string → string + error) (json_Unmarshal : string → list RedisInstance + error).
Context (decode_page : string → RuntimesPage + error).
Context (url_Parse : string → option error) (specs : PublicCloudSpecs) (config : EdpClient.Config) (keb : KebClient.Config) (ttl : Z).
Context (Hretry : 0 < EventRetry config < 2 ^ 63) (Hkeb : 0 < RetryCount keb < 2 ^ 63) (Httl : jitter_ok ttl).
Context (env : Env) (p : Process).
Implicit Types w : world C Q M T.

#[local] Instance bodies_Collector : CollectorSender AnyScan := kmc_Collector MarshalJSON json_Unmarshal url_Parse specs config.
#[local] Instance bodies_ConfigProvider : ConfigProvider AnyScan := kmc_ConfigProvider ttl.
#[local] Existing Instance kmc_ClientFactory.

Lemma handleError_closes rec x j err : closes (S := AnyScan) None (handleError p rec x j err;; mret false).
Proof. do 3 (split; [done|]; intros ?). by destruct rec. Qed.

Lemma processRecord_closes rec x j : closes None (processRecord (S := AnyScan) p rec x j).
Proof.
  split; [done|]. intros []. apply closes_bind; [by apply closes_offline, silent_offline, Get_only|].
  intros [kc|err]; [|apply handleError_closes]. split; [done|]. intros [rc|err]; [|apply handleError_closes].
  apply closes_bind.
  { apply closes_offline. repeat (split; [done|]; intros [?|?]; [|done]). done. }
  intros [cl|err]; [|apply handleError_closes]. apply closes_defer; [by split; [|intros []]|].
  apply closes_bind; [by apply CollectAndSend_closes, scanners_ok|]. by intros [scans [err|]].
Qed.

Lemma executeItem_closes x j : closes None (executeItem (S := AnyScan) p x j).
Proof.
  apply closes_bind; [|by intros []]. split; [done|]. intros []. split; [done|].
  intros [[rec|]|]; [apply processRecord_closes|apply handleError_closes|done].
Qed.

(** The poller talks HTTP only while it fetches. *)
Lemma deletion_offline (rec : CacheRecord AnyScan) level l msg :
  offline (success ← deleteMetrics rec; if (success : bool) then mret () else logf level l msg []).
Proof. cbn. repeat (split; [done|]; intros ?). by case_match. Qed.

Lemma populateRuntime_offline st rt : offline (populateRuntime (S := AnyScan) p st rt).
Proof.
  unfold populateRuntime. case_decide; [done|]. split; [done|]. intros found. split; [done|]. intros []. cbn [pbind].
  destruct (skipRuntime p rt); [done|]. apply only_bind; [|done]. destruct (isRuntimeTrackable rt).
  - split; [done|]. intros []. cbn [pbind]. destruct found as [[rec|]|]; [|done|split; [done|]; by intros []].
    case_decide; [done|]. do 2 (split; [done|]; intros []). apply deletion_offline.
  - split; [done|]. intros []. cbn [pbind]. destruct found as [[rec|]|]; [|done..].
    do 2 (split; [done|]; intros []). apply deletion_offline.
Qed.

Lemma cleanupItem_offline v st item : offline (cleanupItem (S := AnyScan) v st item).
Proof.
  destruct item as [k o]. unfold cleanupItem. case_decide; [done|]. split; [done|]. intros [].
  apply only_bind; [by destruct o|]. intros []. apply deletion_offline.
Qed.

Lemma pollBody_offline answer : offline (pollBody (S := AnyScan) p answer).
Proof.
  destruct answer as [page|err]; [|done]. split; [done|]. intros []. apply only_bind; [|done]. split; [done|]. intros [].
  apply only_bind; [apply only_for_each; intros; apply populateRuntime_offline|]. intros v. split; [done|].
  intros items. apply only_for_each. intros. apply cleanupItem_offline.
Qed.

Lemma pollIteration_closes fuel req : closes None (pollIteration (S := AnyScan) decode_page keb p fuel req).
Proof.
  apply closes_bind; [by apply getAllLoop_closes|]. intros [[answer req']|]; [|done].
  apply closes_bind; [apply closes_offline, pollBody_offline|done].
Qed.

(** C16 -- No HTTP response is leaked: when a worker handles a queue item and when the poller fetches and reconciles the runtimes, every
    response that EDP or KEB gave is closed exactly once, whatever its status and whether or not its body could be read, and
    it is closed before the next request is sent; at the end none is open. *)
Theorem responses_closed x j fuel req w :
  all_closed (calls env (executeItem (S := AnyScan) p x j) w) None ∧
  all_closed (calls env (pollIteration (S := AnyScan) decode_page keb p fuel req) w) None.
Proof. split; apply closes_calls; [apply executeItem_closes|apply pollIteration_closes]. Qed.
End goroutines.

(** ** Concrete runs *)

#[local] Instance sample_bodies_Collector : CollectorSender AnyScan :=
  kmc_Collector inl sample_redis sample_Parse NodeScan.sample_specs sample_config.
#[local] Instance sample_bodies_ConfigProvider : ConfigProvider AnyScan := kmc_ConfigProvider DefaultKubeconfigCacheTTL.
#[local] Existing Instance kmc_ClientFactory.

(** How many responses were closed. *)
Definition closed_bodies (l : list answered_call) : nat :=
  length (omap (λ c : answered_call, match c with existT _ (BodyClose _, _) => Some tt | _ => None end) l).

Lemma responses_closed_witness :
  closed_bodies (calls cluster_env (executeItem sample_process "sa-1" 0) kmc_world) = 1%nat ∧
  all_closed (calls cluster_env (executeItem sample_process "sa-1" 0) kmc_world) None ∧
  all_closed (calls cluster_env (pollIteration decode_fleet sample_keb sample_process 4 sample_get) kmc_world) None.
Proof.
  split; [vm_compute; reflexivity|].
  apply (responses_closed inl sample_redis decode_fleet sample_Parse NodeScan.sample_specs sample_config sample_keb
    DefaultKubeconfigCacheTTL ltac:(simpl; lia) ltac:(simpl; lia) default_jitter cluster_env sample_process "sa-1" 0 4 sample_get kmc_world).
Defined.
