(* ===== verification/FilterClusters.v ===== *)
(** * FilterClusters: the accounts that are not billed ([pkg/process/filter_clusters.go], [process.New])

    The global accounts of a YAML file are skipped when runtimes are tracked. *)
From S2P Require Import Prelude GoStd GoFloat Resource PvcScan ClusterTracking Effects Libraries Process Samples.
Local Open Scope Z_scope.
Local Open Scope list_scope.

Section filter.
(** [os.ReadFile], [yaml.Unmarshal] of [accounts] and [uuid.Validate]. *)
Context (os_ReadFile : string → string + error).
Context (yaml_Unmarshal : string → list string + error).
Context (uuid_Validate : string → option error).

Definition readFilterFile (file : string) : string + error :=
  match os_ReadFile file with
  | inr err => inr err
  | inl data => inl data
  end.

(** One iteration over the accounts, on [skippedAccounts] and [invalidGlobalAccount]. *)
Definition filterStep (st : gset string * list string) (account : string) : gset string * list string :=
  match uuid_Validate account with
  | Some _ => (st.1, st.2 ++ [account])
  | None => ({[account]} ∪ st.1, st.2)
  end.

Definition parseRuntimesToBeFiltered (data : string) : gset string + error :=
  match yaml_Unmarshal data with
  | inr err => inr err
  | inl SkippedGlobalAccounts =>
      let '(skippedAccounts, invalidGlobalAccount) := foldl filterStep (∅, []) SkippedGlobalAccounts in
      if decide (0 < length invalidGlobalAccount)%nat
      then inr (errorString ("invalid global account IDs: " +:+ strings_Join invalidGlobalAccount ", "))
      else inl skippedAccounts
  end.

(** [New]; the first six arguments say which pointers and interfaces are not nil. *)
Definition New (logger configProvider publicCloudSpecs edpCollector edpClient kebClient : bool)
    (pollWaitDuration scrapeInterval workerPoolSize : Z) (fileName : string) : Process + error :=
  if negb (logger && configProvider && publicCloudSpecs && edpCollector && edpClient && kebClient)
  then inr (errorString "missing required parameter") else
  let process filterList := {| ScrapeInterval := scrapeInterval; WorkersPoolSize := workerPoolSize;
                               PollWaitDuration := pollWaitDuration; globalAccToBeFiltered := filterList |} in
  if decide (fileName = "") then inl (process ∅) else
  match readFilterFile fileName with
  | inr err => inr (errorString ("failed to read clusters to be filtered file: " +:+ Error err))
  | inl data =>
      match parseRuntimesToBeFiltered data with
      | inr err => inr (errorString ("failed to parse cluster list to filter list: " +:+ Error err))
      | inl filterList => inl (process filterList)
      end
  end.

(** ** Behaviour *)

Definition valid (account : string) : Prop := uuid_Validate account = None.
#[local] Instance valid_dec account : Decision (valid account).
Proof. unfold valid. apply _. Defined.

Lemma filterLoop l : foldl filterStep (∅, []) l =
  (list_to_set (filter valid l), filter (λ a, ¬ valid a) l).
Proof.
  induction l as [|a l IH] using rev_ind; [done|]. rewrite foldl_snoc, IH, !filter_app, !filter_cons, !filter_nil.
  unfold filterStep. assert (Hv : valid a ↔ uuid_Validate a = None) by done.
  destruct (uuid_Validate a) as [e|]; cbn [fst snd].
  - rewrite decide_False, decide_True by naive_solver. by rewrite app_nil_r.
  - rewrite decide_True, decide_False by naive_solver. rewrite app_nil_r, list_to_set_app_L. f_equal. set_solver.
Qed.

(** The filter file is applied completely or not at all. *)
Lemma parse_inl data accounts : parseRuntimesToBeFiltered data = inl accounts ↔
  ∃ l, yaml_Unmarshal data = inl l ∧ Forall valid l ∧ accounts = list_to_set l.
Proof.
  unfold parseRuntimesToBeFiltered. destruct (yaml_Unmarshal data) as [l|err]; [|naive_solver].
  rewrite filterLoop.
  assert (Hnil : filter (λ a, ¬ valid a) l = [] ↔ Forall valid l).
  { induction l as [|a l IH]; [done|]. rewrite filter_cons, Forall_cons.
    destruct (decide (valid a)) as [Hv|Hv].
    - rewrite decide_False by (by intros []). tauto.
    - rewrite decide_True by done. split; [done|]. by intros [? _]. }
  assert (Hall : Forall valid l → filter valid l = l).
  { clear Hnil. induction 1 as [|a l' Ha _ IH]; [done|]. rewrite filter_cons, decide_True by done. by f_equal. }
  case_decide as Hlen.
  - split; [done|]. intros (l' & [= <-] & HF & _). apply Hnil in HF. rewrite HF in Hlen. simpl in Hlen. lia.
  - assert (HF : Forall valid l) by (apply Hnil, nil_length_inv; lia). rewrite (Hall HF). naive_solver.
Qed.

(** A process created with a filter file skips exactly the runtimes of the global accounts in that
    file, and one created without a file skips none; a file that cannot be read or has an invalid account
    prevents the start. *)
Theorem New_skips_filtered l1 l2 l3 l4 l5 l6 poll scrape workers fileName p :
  New l1 l2 l3 l4 l5 l6 poll scrape workers fileName = inl p →
  (fileName = "" ∧ ∀ rt, skipRuntime p rt = false) ∨
  ∃ data l, os_ReadFile fileName = inl data ∧ yaml_Unmarshal data = inl l ∧ Forall valid l ∧
    ∀ rt, skipRuntime p rt = true ↔ ClusterTracking.GlobalAccountID rt ∈ l.
Proof.
  unfold New. destruct (negb _); [done|]. case_decide.
  { intros [= <-]. left. split; [done|]. intros rt. unfold skipRuntime. apply bool_decide_false. set_solver. }
  unfold readFilterFile. destruct (os_ReadFile fileName) as [data|] eqn:Hdata; [|done].
  destruct (parseRuntimesToBeFiltered data) as [accounts|] eqn:Hparse; [|done]. intros [= <-].
  apply parse_inl in Hparse as (l & Hyaml & HF & ->). right. exists data, l. split_and!; try done.
  intros rt. unfold skipRuntime. simpl. rewrite bool_decide_eq_true. set_solver.
Qed.
End filter.

(** ** Example *)

Definition sample_read (file : string) : string + error := inl file.
Definition sample_yaml (data : string) : list string + error := inl ["ga-internal"; "ga-test"].
Definition sample_uuid (account : string) : option error := None.

Lemma New_skips_filtered_witness : ∃ p,
  New sample_read sample_yaml sample_uuid true true true true true true 60 180 2 "filter.yaml" = inl p ∧
  skipRuntime p (sample_runtime "ga-test" "sa-1" "shoot" false) = true.
Proof.
  pose (p := {| ScrapeInterval := 180; WorkersPoolSize := 2; PollWaitDuration := 60;
                globalAccToBeFiltered := {["ga-internal"; "ga-test"]} |}).
  assert (Hnew : New sample_read sample_yaml sample_uuid true true true true true true 60 180 2 "filter.yaml" = inl p)
    by (vm_compute; reflexivity).
  exists p. split; [exact Hnew|].
  destruct (New_skips_filtered sample_read sample_yaml sample_uuid _ _ _ _ _ _ _ _ _ _ p Hnew)
    as [[Hf _]|(data & l & _ & Hl & _ & Hskip)]; [discriminate Hf|].
  apply Hskip. injection Hl as <-. right. left.
Defined.
