(* ===== verification/Metrics.v ===== *)
(** * Metrics: the Prometheus vectors and the calls that use them

    The vectors as the packages declare them ([pkg/process/metrics.go], [pkg/collector/metrics.go],
    [pkg/collector/edp/metrics.go], [pkg/keb/metrics.go], [pkg/runtime/kubeconfigprovider/metrics.go],
    [pkg/queue/metrics.go], [pkg/metrics/metrics.go]); the metrics provider of the work queue and the
    metrics of the TLS cache; that the declarations can be registered, and that every call gives a
    vector the labels it has. *)
From S2P Require Import Prelude GoStd GoFloat Resource PvcScan ClusterTracking Effects Libraries Clients Process Samples.
From S2P Require Import ProcessSpec Concurrency.
Local Open Scope Z_scope.
Local Open Scope list_scope.

(** ** Declarations *)

Inductive VecKind := GaugeVec | CounterVec | HistogramVec.

(** [prometheus.GaugeOpts], [CounterOpts] and [HistogramOpts], and the variable labels. *)
Record VecOpts := {
  vec_kind : VecKind;
  Namespace : string;
  Subsystem : string;
  Vec_Name : string;
  Help : string;
  Buckets : list float64;
  variableLabels : list string;
}.

(** [prometheus.BuildFQName] *)
Definition BuildFQName (namespace subsystem name : string) : string :=
  if decide (name = "") then "" else
  strings_Join (filter (λ s, s ≠ "") [namespace; subsystem; name]) "_".
Definition fqName (v : VecOpts) : string := BuildFQName (Namespace v) (Subsystem v) (Vec_Name v).

(** A decimal literal of the source: the float nearest to [n / d]. *)
Definition lit (n d : Z) : float64 := fdiv (float64_of_int64 n) (float64_of_int64 d).

(** [Duration.Seconds] *)
Definition Second : Z := 10 ^ 9.
Definition Seconds (d : Z) : float64 :=
  fadd (float64_of_int64 (Z.quot d Second)) (fdiv (float64_of_int64 (Z.rem d Second)) (float64_of_int64 Second)).

(** [prometheus.ExponentialBuckets] *)
Fixpoint ExponentialBuckets (start factor : float64) (count : nat) : list float64 :=
  match count with O => [] | S count' => start :: ExponentialBuckets (fmul start factor) factor count' end.

Definition process_vec kind name help labels : VecOpts :=
  {| vec_kind := kind; Namespace := "kmc"; Subsystem := "process"; Vec_Name := name; Help := help;
     Buckets := []; variableLabels := labels |}.
Definition itemsInCache_vec : VecOpts :=
  process_vec GaugeVec "items_in_cache" "Number of items in the kubeconfigprovider." [].
Definition subAccountProcessed_vec : VecOpts :=
  process_vec CounterVec "sub_account_total" "Number of processings per subaccount, including successful and failed."
    ["success"; "shoot_name"; "instance_id"; "runtime_id"; "sub_account_id"; "global_account_id"].
Definition subAccountProcessedTimeStamp_vec : VecOpts :=
  process_vec GaugeVec "sub_account_processed_timestamp_seconds"
    "Unix timestamp (in seconds) of last successful processing of subaccount."
    ["shoot_name"; "instance_id"; "runtime_id"; "sub_account_id"; "global_account_id"].
Definition kebFetchedClusters_vec : VecOpts :=
  process_vec CounterVec "fetched_clusters_total"
    "All clusters fetched from KEB, including trackable and not trackable."
    ["trackable"; "shoot_name"; "instance_id"; "runtime_id"; "sub_account_id"; "global_account_id"].

Definition collector_vec name help labels : VecOpts :=
  {| vec_kind := CounterVec; Namespace := "kmc"; Subsystem := "collector"; Vec_Name := name; Help := help;
     Buckets := []; variableLabels := labels |}.
Definition TotalScans_vec : VecOpts :=
  collector_vec "scans_total" "Total number of scans for each billable resource in SKR."
    ["success"; "resource_name"; "shoot_name"; "instance_id"; "runtime_id"; "sub_account_id"; "global_account_id"].
Definition TotalScansConverted_vec : VecOpts :=
  collector_vec "scans_converted_total"
    "Total number of scans converted to the measurement required by the backend."
    ["success"; "resource_name"; "backend_name"; "shoot_name"; "instance_id"; "runtime_id"; "sub_account_id";
     "global_account_id"].

Definition edpLatency_vec : VecOpts :=
  {| vec_kind := HistogramVec; Namespace := "kmc"; Subsystem := "edp"; Vec_Name := "request_duration_seconds";
     Help := "Duration of HTTP request to EDP in seconds.";
     Buckets := [lit 1 100; lit 2 100; lit 5 100; lit 1 10; lit 25 100; lit 5 10; lit 1 1; lit 2 1];
     variableLabels := ["status"; "request_url"] |}.
Definition kebLatency_vec : VecOpts :=
  {| vec_kind := HistogramVec; Namespace := "kmc"; Subsystem := "keb"; Vec_Name := "request_duration_seconds";
     Help := "Duration of HTTP request to KEB in seconds.";
     Buckets := [lit 5 10; lit 1 1; lit 2 1; lit 3 1; lit 4 1; lit 5 1; lit 75 10; lit 10 1];
     variableLabels := ["status"; "request_url"] |}.

Definition cacheSize_vec : VecOpts :=
  {| vec_kind := GaugeVec; Namespace := "kmc"; Subsystem := "kubeconfig_cache"; Vec_Name := "size";
     Help := "Number of items in the kubeconfig kubeconfigprovider."; Buckets := []; variableLabels := ["name"] |}.

Definition smallestBucket : float64 := fmul (float64_of_int64 10) (Seconds 1).
Definition queue_vec kind name help buckets : VecOpts :=
  {| vec_kind := kind; Namespace := "kmc"; Subsystem := "workqueue"; Vec_Name := name; Help := help;
     Buckets := buckets; variableLabels := ["name"] |}.
Definition queue_buckets : list float64 := ExponentialBuckets smallestBucket (float64_of_int64 10) 10.
Definition depth_vec : VecOpts := queue_vec GaugeVec "depth" "Current depth of workqueue." [].
Definition adds_vec : VecOpts := queue_vec CounterVec "adds_total" "Total number of adds handled by workqueue." [].
Definition latency_vec : VecOpts :=
  queue_vec HistogramVec "queue_duration_seconds"
    "Amount of time (in seconds) when an item stays in workqueue before being requested." queue_buckets.
Definition workDuration_vec : VecOpts :=
  queue_vec HistogramVec "work_duration_seconds"
    "Amount of time (in seconds) taken for processing an item from workqueue." queue_buckets.
Definition unfinished_vec : VecOpts :=
  queue_vec GaugeVec "unfinished_work_seconds"
    "Amount of time (in seconds) already taken by the work in progress that hasn't been observed by **work_duration**. Large values indicate stuck threads. You can deduce the number of stuck threads by observing the rate at which the metric increases." [].
Definition longestRunningProcessor_vec : VecOpts :=
  queue_vec GaugeVec "longest_running_processor_seconds"
    "Amount of time (in seconds) taken by the longest running processor for workqueue." [].
Definition retries_vec : VecOpts :=
  queue_vec CounterVec "retries_total" "Total number of retries handled by workqueue." [].

Definition creates_vec : VecOpts :=
  {| vec_kind := CounterVec; Namespace := "kmc"; Subsystem := "tls_cache"; Vec_Name := "create_total";
     Help := "Total number of create calls."; Buckets := []; variableLabels := ["result"] |}.
Definition entries_vec : VecOpts :=
  {| vec_kind := GaugeVec; Namespace := "kmc"; Subsystem := "tls_cache"; Vec_Name := "entries_total";
     Help := "Total number of entries in the cache."; Buckets := []; variableLabels := [] |}.

(** The declaration of each vector of Effects. *)
Definition declaration (m : metric) : VecOpts :=
  match m with
  | itemsInCache => itemsInCache_vec
  | subAccountProcessed => subAccountProcessed_vec
  | subAccountProcessedTimeStamp => subAccountProcessedTimeStamp_vec
  | kebFetchedClusters => kebFetchedClusters_vec
  | TotalScans => TotalScans_vec
  | TotalScansConverted => TotalScansConverted_vec
  | edpLatency => edpLatency_vec
  | kebLatency => kebLatency_vec
  | cacheSizeMetric => cacheSize_vec
  | queue_depth => depth_vec
  | queue_adds => adds_vec
  | queue_latency => latency_vec
  | queue_workDuration => workDuration_vec
  | queue_unfinished => unfinished_vec
  | queue_longestRunningProcessor => longestRunningProcessor_vec
  | queue_retries => retries_vec
  | tls_creates => creates_vec
  | tls_entries => entries_vec
  end.

Lemma declaration_labels m : variableLabels (declaration m) = metric_labels m.
Proof. by destruct m. Qed.

(** ** Registration

    [promauto] registers every vector when its package is initialised, and panics if it cannot. *)

Definition letter (c : Ascii.ascii) : bool :=
  let n := Ascii.nat_of_ascii c in
  bool_decide ((65 ≤ n ≤ 90 ∨ 97 ≤ n ≤ 122)%nat ∨ n = 95%nat).
Definition digit (c : Ascii.ascii) : bool := let n := Ascii.nat_of_ascii c in bool_decide (48 ≤ n ≤ 57)%nat.

(** An identifier of letters, digits and underscores that does not start with a digit. *)
Definition identifier (s : string) : bool :=
  match String.list_ascii_of_string s with
  | [] => false
  | c :: cs => letter c && forallb (λ c, letter c || digit c) cs
  end.

Fixpoint increasing (l : list float64) : bool :=
  match l with
  | x :: (y :: _) as l' => SFltb x y && increasing l'
  | _ => true
  end.

(** What the client library asks of a vector: a valid name, valid and distinct labels that are not
    reserved, and increasing buckets. *)
Definition well_formed (v : VecOpts) : Prop :=
  identifier (fqName v) = true ∧
  Forall (λ l, identifier l = true ∧ String.prefix "__" l = false) (variableLabels v) ∧
  NoDup (variableLabels v) ∧
  match vec_kind v with
  | HistogramVec => "le" ∉ variableLabels v ∧ increasing (Buckets v) = true ∧ (0 < length (Buckets v))%nat
  | _ => True
  end.
#[global] Instance well_formed_dec v : Decision (well_formed v).
Proof. unfold well_formed. destruct (vec_kind v); apply _. Defined.

(** [prometheus.Registerer]: a well-formed vector whose name is not taken can be registered. *)
Class Registerer (G : Type) := {
  register : VecOpts → G → option error * G;
  registered : G → list string;
}.
Class RegistererLaws (G : Type) {RG : Registerer G} : Prop :=
  register_fresh v g : well_formed v → fqName v ∉ registered g →
    (register v g).1 = None ∧ registered (register v g).2 = fqName v :: registered g.

(** [promauto]: [MustRegister], which panics on an error. *)
Definition MustRegister {G} {RG : Registerer G} (v : VecOpts) (g : G) : outcome G :=
  match register v g with
  | (None, g') => Returned g'
  | (Some err, _) => Panicked (Error err)
  end.

(** The package initialisers, in some order. *)
Fixpoint initialise {G} {RG : Registerer G} (vs : list VecOpts) (g : G) : outcome G :=
  match vs with
  | [] => Returned g
  | v :: vs' => match MustRegister v g with Returned g' => initialise vs' g' | o => o end
  end.

Definition all_metrics : list metric :=
  [itemsInCache; subAccountProcessed; subAccountProcessedTimeStamp; kebFetchedClusters; TotalScans; TotalScansConverted;
   edpLatency; kebLatency; cacheSizeMetric; queue_depth; queue_adds; queue_latency; queue_workDuration; queue_unfinished;
   queue_longestRunningProcessor; queue_retries; tls_creates; tls_entries].
Definition all_vectors : list VecOpts := declaration <$> all_metrics.

Lemma all_metrics_complete m : m ∈ all_metrics.
Proof. destruct m; vm_decide. Qed.

Lemma all_vectors_well_formed : Forall well_formed all_vectors.
Proof.
  apply Forall_fmap, Forall_forall. intros m _. destruct m; vm_decide.
Qed.

Lemma all_vectors_distinct : NoDup (fqName <$> all_vectors).
Proof. vm_decide. Qed.

(** Their names carry the collector's namespace. *)
Lemma all_vectors_namespace v : v ∈ all_vectors → String.prefix "kmc_" (fqName v) = true.
Proof. intros (m & -> & _)%list_elem_of_fmap. destruct m; vm_compute; reflexivity. Qed.

Section registration.
Context {G : Type} {RG : Registerer G} {RGL : RegistererLaws G}.

Lemma initialise_fresh vs g : Forall well_formed vs → NoDup (fqName <$> vs) →
  (∀ v, v ∈ vs → fqName v ∉ registered g) → ∃ g',
  initialise vs g = Returned g' ∧ registered g' = reverse (fqName <$> vs) ++ registered g.
Proof.
  revert g. induction vs as [|v vs IH]; intros g Hwf Hnd Hfresh; [by exists g|].
  apply Forall_cons in Hwf as [Hv Hwf]. rewrite fmap_cons in Hnd. apply NoDup_cons in Hnd as [Hnew Hnd].
  destruct (register_fresh v g Hv) as [Herr Hreg]; [apply Hfresh; set_solver|].
  simpl. unfold MustRegister. destruct (register v g) as [err g1]; simpl in *; subst err.
  destruct (IH g1) as (g' & Hg' & Hr); [done..| |].
  - intros v' Hv'. rewrite Hreg. intros [Heq|Hin]%elem_of_cons; [|by apply (Hfresh v'); set_solver].
    apply Hnew. rewrite <- Heq. by apply list_elem_of_fmap_2.
  - exists g'. split; [done|]. rewrite Hr, Hreg, reverse_cons, <- app_assoc. done.
Qed.

(** The collector starts: in whatever order Go initialises the packages, registering their
    eighteen metric vectors does not panic, because every declaration is valid (names, labels,
    histogram buckets as computed in [float64]) and no two vectors share a full name, nor one
    with a library that stays out of the namespace [kmc]. *)
Theorem metrics_register vs g : vs ≡ₚ all_vectors →
  Forall (λ name, String.prefix "kmc_" name = false) (registered g) → ∃ g',
  initialise vs g = Returned g' ∧ registered g' ≡ₚ (fqName <$> all_vectors) ++ registered g.
Proof.
  intros Hp Hg. destruct (initialise_fresh vs g) as (g' & Hg' & Hr).
  - rewrite Hp. apply all_vectors_well_formed.
  - rewrite Hp. apply all_vectors_distinct.
  - intros v Hv Hin. rewrite Hp in Hv. apply all_vectors_namespace in Hv.
    rewrite Forall_forall in Hg. apply Hg in Hin. congruence.
  - exists g'. split; [done|]. rewrite Hr, reverse_Permutation, Hp. done.
Qed.
End registration.

(** A registry that keeps the names. *)
#[global] Instance list_Registerer : Registerer (list string) := {|
  register v g := if decide (well_formed v ∧ fqName v ∉ g) then (None, fqName v :: g)
                  else (Some (extError 8 "duplicate metrics collector registration attempted"), g);
  registered g := g;
|}.
#[global] Instance list_RegistererLaws : RegistererLaws (list string).
Proof. intros v g Hv Hnew. simpl. by rewrite decide_True. Qed.

Lemma metrics_register_witness : ∃ g', initialise (rev all_vectors) ["go_goroutines"; "process_cpu_seconds_total"] = Returned g' ∧
  length g' = 20%nat.
Proof.
  destruct (metrics_register (rev all_vectors) ["go_goroutines"; "process_cpu_seconds_total"]) as (g' & Hg' & Hr).
  - symmetry. apply Permutation_rev.
  - vm_decide.
  - exists g'. split; [exact Hg'|]. exact (Permutation_length Hr).
Defined.

(** ** The documented metrics *)

(** The names listed in [docs/contributor/metrics.md]. *)
Definition documented : list string :=
  ["kmc_kubeconfig_cache_size"; "kmc_edp_request_duration_seconds"; "kmc_keb_request_duration_seconds";
   "kmc_process_items_in_cache"; "kmc_process_sub_account_total"; "kmc_process_sub_account_processed_timestamp_seconds";
   "kmc_process_old_metric_published"; "kmc_process_fetched_clusters_total"; "kmc_workqueue_depth"; "kmc_workqueue_adds_total";
   "kmc_workqueue_queue_duration_seconds"; "kmc_workqueue_work_duration_seconds"; "kmc_workqueue_unfinished_work_seconds";
   "kmc_workqueue_longest_running_processor_seconds"; "kmc_workqueue_retries_total"; "kmc_skr_query_total"].

(** Two of them are not declared any more, and four vectors are not documented. *)
Example documented_metrics :
  filter (λ name, name ∉ fqName <$> all_vectors) documented = ["kmc_process_old_metric_published"; "kmc_skr_query_total"] ∧
  filter (λ name, name ∉ documented) (fqName <$> all_vectors) =
    ["kmc_collector_scans_total"; "kmc_collector_scans_converted_total"; "kmc_tls_cache_create_total"; "kmc_tls_cache_entries_total"].
Proof. split; vm_compute; reflexivity. Qed.

(** ** The metrics of the work queue and of the TLS cache *)

(** [WithLabelValues]: the series, or a panic when the number of values is wrong. *)
Definition WithLabelValues (m : metric) (lvs : list string) : outcome (metric * list string) :=
  if decide (length lvs = length (variableLabels (declaration m))) then Returned (m, lvs)
  else Panicked "inconsistent label cardinality".

(** The methods of [prometheusMetricsProvider]. *)
Definition NewDepthMetric (name : string) := WithLabelValues queue_depth [name].
Definition NewAddsMetric (name : string) := WithLabelValues queue_adds [name].
Definition NewLatencyMetric (name : string) := WithLabelValues queue_latency [name].
Definition NewWorkDurationMetric (name : string) := WithLabelValues queue_workDuration [name].
Definition NewUnfinishedWorkSecondsMetric (name : string) := WithLabelValues queue_unfinished [name].
Definition NewLongestRunningProcessorSecondsMetric (name : string) := WithLabelValues queue_longestRunningProcessor [name].
Definition NewRetriesMetric (name : string) := WithLabelValues queue_retries [name].

(** The methods of [TLSCacheMetrics]. *)
Definition Increment {QA : QuantityApi} {S} (result : string) : prog S unit := call (MetricInc tls_creates [result]).
Definition Observe {QA : QuantityApi} {S} (value : Z) : prog S unit :=
  call (MetricSet tls_entries [] (float64_of_int64 value)).

(** ** Every call gives a vector the labels it has *)

Section labels.
Context {QA : QuantityApi} {S : Type}.

(** Values for all labels; names of labels only. *)
Definition labelled {X} (e : eff S X) : Prop :=
  match e with
  | MetricInc m ls | MetricSet m ls _ | MetricSetToCurrentTime m ls | MetricObserve m ls =>
      WithLabelValues m ls = Returned (m, ls)
  | MetricDeletePartialMatch m pairs => Forall (λ p, p.1 ∈ variableLabels (declaration m)) pairs
  | _ => True
  end.

(** So do all calls of a program. *)
Fixpoint typed {A} (p : prog S A) : Prop :=
  match p with
  | Vis e k => labelled e ∧ ∀ x, typed (k x)
  | _ => True
  end.

Lemma labels_ok_labelled m ls : labels_ok m ls → WithLabelValues m ls = Returned (m, ls).
Proof. intros H. unfold WithLabelValues. rewrite declaration_labels. by rewrite decide_True. Qed.

Lemma typed_bind {A B} (p : prog S A) (k : A → prog S B) : typed p → (∀ a, typed (k a)) → typed (p ≫= k).
Proof.
  intros Hp Hk. induction p as [a|X e k' IH|msg|msg]; simpl in *; [apply Hk| |done|done].
  destruct Hp as [He Hp]. split; [done|]. intros x. by apply IH.
Qed.

Lemma typed_defer {A} d (p : prog S A) : typed d → typed p → typed (defer d p).
Proof.
  intros Hd. induction p as [a|X e k IH|msg|msg]; simpl; [intros _; by apply typed_bind| |intros _; by apply typed_bind|done].
  intros [He Hp]. split; [done|]. intros x. by apply IH.
Qed.

Lemma typed_for_each {A St} (body : St → A → prog S St) st l :
  (∀ st x, typed (body st x)) → typed (for_each body st l).
Proof.
  intros Hbody. revert st. induction l as [|x l IH]; intros st; simpl; [done|].
  apply typed_bind; [apply Hbody|]. intros st'. apply IH.
Qed.

Lemma quiet_typed {A} (p : prog S A) : quiet p → typed p.
Proof.
  induction p as [a|X e k IH|msg|msg]; simpl; [done| |done|done]. intros [He Hk].
  split; [|intros x; by apply IH]. destruct e; try done; by apply labels_ok_labelled.
Qed.

Lemma deleteMetrics_typed (rec : CacheRecord S) : typed (deleteMetrics rec).
Proof. repeat (split; [vm_decide|]; intros ?). done. Qed.

Lemma deletion_typed (rec : CacheRecord S) level l msg :
  typed (success ← deleteMetrics rec; if (success : bool) then mret () else logf level l msg []).
Proof. apply typed_bind; [apply deleteMetrics_typed|]. by intros []. Qed.
End labels.
#[export] Hint Resolve typed_bind typed_for_each quiet_typed deletion_typed : kmc.

Section code.
Context {QA : QuantityApi} {S : Type} {SS : SortSlice}.
Context {CS : CollectorSender S} {CP : ConfigProvider S} {CF : ClientFactory S}.
Context {CSL : CollectorSenderLaws S} {CPL : ConfigProviderLaws S} {CFL : ClientFactoryLaws S}.
Context (p : Process).

Lemma recordFetched_typed b rt : typed (S := S) (recordFetched b rt).
Proof. done. Qed.
Lemma handleError_typed rec x j err : typed (S := S) (handleError p rec x j err).
Proof. do 3 (split; [done|]; intros ?). by destruct rec. Qed.

Lemma handleTrackable_typed rt found : typed (S := S) (handleTrackable rt found).
Proof.
  apply typed_bind; [done|]. intros []. destruct found as [[rec|]|]; [|done|].
  - case_decide; [done|]. do 2 (split; [done|]; intros []). apply deletion_typed.
  - split; [done|]. by intros [].
Qed.

Lemma handleUntrackable_typed rt found : typed (S := S) (handleUntrackable rt found).
Proof.
  apply typed_bind; [done|]. intros []. destruct found as [o|]; [|done]. do 2 (split; [done|]; intros []).
  destruct o; [|done]. apply deletion_typed.
Qed.

Lemma populateRuntime_typed st rt : typed (S := S) (populateRuntime p st rt).
Proof.
  unfold populateRuntime. case_decide; [done|]. split; [done|]. intros found. split; [done|]. intros []. cbn [pbind].
  destruct (skipRuntime p rt); [done|]. apply typed_bind; [|done].
  destruct (isRuntimeTrackable rt); [apply handleTrackable_typed|apply handleUntrackable_typed].
Qed.

Lemma cleanupItem_typed v st item : typed (S := S) (cleanupItem v st item).
Proof.
  destruct item as [k o]. unfold cleanupItem. case_decide; [done|]. split; [done|]. intros [].
  apply typed_bind; [by destruct o|]. intros []. apply deletion_typed.
Qed.

Lemma pollBody_typed answer : typed (S := S) (pollBody p answer).
Proof.
  destruct answer as [page|err]; [|done]. split; [done|]. intros []. apply typed_bind; [|done]. split; [done|]. intros [].
  apply typed_bind; [apply typed_for_each, populateRuntime_typed|]. intros v. split; [done|].
  intros items. apply typed_for_each, cleanupItem_typed.
Qed.

Lemma collectWith_typed rec x j clients : typed (S := S) (collectWith p rec x j clients).
Proof.
  apply typed_defer; [by split|]. apply typed_bind; [apply quiet_typed, CollectAndSend_quiet|]. by intros [scans [err|]].
Qed.

Lemma executeItem_typed x j : typed (S := S) (executeItem p x j).
Proof.
  apply typed_bind; [|by intros []]. do 2 (split; [done|]; intros ?).
  destruct x1 as [[rec|]|]; [|apply typed_bind; [apply handleError_typed|done]|done]. split; [done|]. intros [].
  apply typed_bind; [apply quiet_typed, ConfigProvider_Get_quiet|]. intros [kc|err]; [|done].
  split; [done|]. intros [rc|err]; [|done].
  apply typed_bind; [apply quiet_typed, NewClients_quiet|]. intros [cl|err]; [|done]. apply collectWith_typed.
Qed.

Context {C Q M T : Type} {GC : GoCache (obj S) C} {WQ : WorkQueue Q} {PM : Prometheus M} {TC : TtlCache T}.
Context (env : Env).

Lemma reachable_typed (s : system S C Q M T) : reachable env p s → ∀ i t, running s i t → typed (th_prog t).
Proof.
  induction 1 as [s (_ & kebReq & Hs)|a s s' _ IH Hstep]; intros i t Ht.
  { destruct (starting_thread _ _ _ _ Hs Ht) as [_ ->]. by destruct kebReq. }
  destruct Hstep as [answer s Hi|j x q' s Hj0 Hj Hget|j X e k item held s Hj|j item held s Hj|d s]; [..|by apply (IH i)];
    apply running_set_thread in Ht as [[<- Heq]|[_ Ht]]; try (by apply (IH i)); simplify_eq; simpl.
  - apply pollBody_typed.
  - apply executeItem_typed.
  - by apply (IH j _ Hj).
Qed.

(** C19 -- Metric calls are well typed in every interleaving: whatever call a goroutine of the
    collector is about to make, it passes as many label values as the vector was declared with,
    so that [WithLabelValues] does not panic, and it deletes series only by labels the vector has;
    the providers for the work queue and the TLS cache do the same. *)
Theorem metric_calls_typed (s : system S C Q M T) : reachable env p s →
  (∀ i t X (e : eff S X) k, running s i t → th_prog t = Vis e k → labelled e) ∧
  (∀ name new, new ∈ [NewDepthMetric; NewAddsMetric; NewLatencyMetric; NewWorkDurationMetric;
     NewUnfinishedWorkSecondsMetric; NewLongestRunningProcessorSecondsMetric; NewRetriesMetric] →
     ∃ m, new name = Returned (m, [name])) ∧
  (∀ result, typed (S := S) (Increment result)) ∧ (∀ value, typed (S := S) (Observe value)).
Proof.
  intros Hr. split_and!; [|..|done|done].
  - intros i t X e k Ht Hp. pose proof (reachable_typed s Hr i t Ht) as Hty. rewrite Hp in Hty. apply Hty.
  - intros name new Hnew. rewrite !elem_of_cons in Hnew.
    destruct Hnew as [->|[->|[->|[->|[->|[->|[->|[]%elem_of_nil]]]]]]]; by eexists.
Qed.
End code.

(** Worker 1 is about to count a scan. *)
Definition sys_counting : system unit sample_cache simple_queue metric_map ttl_map :=
  default sample_start (sample_trace (trace_taken ++ effects 1 9)).
Definition next_labels (s : system unit sample_cache simple_queue metric_map ttl_map) (i : nat) : option (list string) :=
  match sys_threads s !! i with
  | Some (Some {| th_prog := Vis (MetricInc m ls) _ |}) => Some ls
  | _ => None
  end.

Lemma metric_calls_typed_witness : reachable sample_env sample_process sys_counting ∧
  ∃ m ls, next_labels sys_counting 1 = Some ls ∧ length ls = 7%nat ∧ WithLabelValues m ls = Returned (m, ls).
Proof.
  assert (Hr : reachable sample_env sample_process sys_counting)
    by (apply completed_reachable; vm_compute; reflexivity).
  split; [exact Hr|].
  destruct (metric_calls_typed sample_process sample_env sys_counting Hr) as [Hty _].
  assert (Hn : match next_labels sys_counting 1 with Some ls => length ls = 7%nat | None => False end)
    by (vm_compute; reflexivity).
  unfold next_labels in *. destruct (sys_threads sys_counting !! 1%nat) as [[[q held]|]|] eqn:Ht; [|destruct Hn..].
  destruct q as [a|X e k|msg|msg]; [destruct Hn| |destruct Hn..].
  pose proof (Hty 1%nat _ X e k Ht eq_refl) as He.
  destruct e as [| | | | | | | | |m ls| | | | | |X op|]; try (exfalso; exact Hn).
  exists m, ls. split_and!; [reflexivity|exact Hn|exact He].
Defined.
