(* ===== verification/Liveness.v ===== *)
(** * Liveness: every cached cluster is processed again and again

    An execution is an infinite sequence of the steps of Concurrency.v.  It is fair when every
    goroutine in the middle of an iteration goes on, no worker waits forever while the queue has an
    item for it, and time passes.  In a fair execution every cached sub-account is handed to a worker,
    or removed from the cache. *)
From S2P Require Import Prelude GoStd GoFloat Resource PvcScan ClusterTracking Effects Libraries Clients Process.
From S2P Require Import Samples ProcessSpec Concurrency.
Local Open Scope Z_scope.
Local Open Scope list_scope.

(** ** A queue that forgets nobody *)

(** Where an item is: to be handed out after [rank] others, to be handed out once it is done, to be
    added when [due] has passed, or not in the queue. *)
Inductive place := Ready (rank : nat) | Again | Waiting (due : Z) | Out.

(** An item at [p'] is handed out no later than one at [p]. *)
Definition closer (p' p : place) : Prop :=
  match p, p' with
  | Ready r, Ready r' => (r' ≤ r)%nat
  | Ready _, _ => False
  | Again, (Ready _ | Again) => True
  | Again, _ => False
  | Waiting d, Waiting d' => d' ≤ d
  | Waiting _, Out => False
  | Waiting _, _ => True
  | Out, _ => True
  end.

#[global] Instance closer_preorder : PreOrder closer.
Proof. split; [intros []; simpl; lia|intros [] [] []; simpl; lia || done]. Qed.

(** client-go's queue is first in, first out, and an item is added when its delay is over. *)
Class FairQueue (Q : Type) {WQ : WorkQueue Q} := q_place : string → Q → place.

Class FairQueueLaws (Q : Type) {WQ : WorkQueue Q} {FQ : FairQueue Q} : Prop := {
  place_pending x q : x ∈ q_pending q → q_place x q ≠ Out;
  place_ready x q r : q_place x q = Ready r → x ∉ q_processing q ∧ q_get q ≠ None;
  place_again x q : q_place x q = Again → x ∈ q_processing q;
  place_get x y q q' : q_get q = Some (y, q') → y ≠ x → closer (q_place x q') (q_place x q);
  place_get_ready x y q q' r : q_get q = Some (y, q') → y ≠ x → q_place x q = Ready r →
    ∃ r', q_place x q' = Ready r' ∧ (r' < r)%nat;
  place_add x y q : closer (q_place x (q_add y q)) (q_place x q);
  place_add_after x y d q : closer (q_place x (q_add_after y d q)) (q_place x q);
  place_done x y q : (y = x → x ∈ q_processing q) → closer (q_place x (q_done y q)) (q_place x q);
  place_done_again x q : q_place x q = Again → ∃ r, q_place x (q_done x q) = Ready r;
  place_elapse x e q : closer (q_place x (q_elapse e q)) (q_place x q);
  place_elapse_due x e q d : q_place x q = Waiting d → closer (q_place x (q_elapse e q)) (if decide (d ≤ e) then Again else Waiting (d - e));
}.

(** ** The simple queue is fair *)

Fixpoint index_of (x : string) (l : list string) : nat :=
  match l with [] => O | y :: l' => if decide (x = y) then O else S (index_of x l') end.

Lemma index_of_app x l l' : x ∈ l → index_of x (l ++ l') = index_of x l.
Proof.
  induction l as [|y l IH]; intros Hx; [by apply elem_of_nil in Hx|]. simpl. case_decide; [done|].
  f_equal. apply IH. set_solver.
Qed.

Lemma index_of_filter x (P : string → Prop) `{∀ y, Decision (P y)} l :
  x ∈ l → P x → (index_of x (filter P l) ≤ index_of x l)%nat.
Proof.
  intros Hx HP. induction l as [|y l IH]; [by apply elem_of_nil in Hx|]. simpl.
  destruct (decide (x = y)) as [->|Hne].
  - rewrite filter_cons_True by done. simpl. by rewrite decide_True.
  - assert (Hl : x ∈ l) by set_solver. specialize (IH Hl).
    destruct (decide (P y)); [rewrite filter_cons_True by done; simpl; rewrite decide_False by done|
      rewrite filter_cons_False by done]; lia.
Qed.

#[global] Instance simple_FairQueue : FairQueue simple_queue := λ x q,
  if decide (x ∈ sq_items q) then
    if decide (x ∈ sq_busy q) then Again else Ready (index_of x (sq_ready q))
  else if decide (x ∈ sq_waiting q) then Waiting 0 else Out.

Lemma elem_of_sq_ready x q : x ∈ sq_ready q ↔ x ∈ sq_items q ∧ x ∉ sq_busy q.
Proof. unfold sq_ready. rewrite list_elem_of_filter. naive_solver. Qed.

(** Items of others move no one back. *)
Lemma sq_place_other x q q' : (x ∈ sq_items q → x ∈ sq_items q') → (x ∈ sq_busy q' ↔ x ∈ sq_busy q) →
  (x ∈ sq_waiting q → x ∈ sq_waiting q') →
  (x ∈ sq_ready q → (index_of x (sq_ready q') ≤ index_of x (sq_ready q))%nat) → closer (q_place x q') (q_place x q).
Proof.
  intros Hi Hb Hw Hr. unfold q_place, simple_FairQueue.
  destruct (decide (x ∈ sq_items q)) as [Hx|Hx].
  - rewrite decide_True by auto. destruct (decide (x ∈ sq_busy q)).
    + by rewrite decide_True by tauto.
    + rewrite decide_False by tauto. apply Hr. by apply elem_of_sq_ready.
  - destruct (decide (x ∈ sq_waiting q)); [|by repeat case_decide]. repeat case_decide; simpl; try done. tauto.
Qed.

Lemma sq_place_add x y q : closer (q_place x (sq_add y q)) (q_place x q).
Proof.
  unfold sq_add. case_decide; [done|]. apply sq_place_other; simpl; [set_solver|done|done|].
  intros Hx. unfold sq_ready. simpl. rewrite filter_app, index_of_app; [done|]. exact Hx.
Qed.

(** [q_get] takes the first of the ready items off. *)
Lemma sq_ready_get y q q' : q_get q = Some (y, q') → sq_ready q' = filter (λ z, z ≠ y) (sq_ready q).
Proof.
  intros (_ & _ & ->)%sq_get_Some. unfold sq_ready. simpl. rewrite !list_filter_filter.
  apply list_filter_iff. intros z. set_solver.
Qed.

Lemma sq_ready_done y q : sq_ready (q_done y q) =
  filter (λ z, z ≠ y) (sq_ready q) ++ (if decide (y ∈ sq_items q) then [y] else []).
Proof.
  unfold sq_ready. simpl. rewrite filter_app. f_equal.
  - rewrite !list_filter_filter. apply list_filter_iff. intros z. set_solver.
  - case_decide; [|done]. rewrite filter_cons_True by set_solver. done.
Qed.

Lemma sq_place_elapse x q : closer (q_place x (q_elapse 0 q)) (match q_place x q with Waiting _ => Again | p => p end).
Proof.
  enough (Hl : ∀ l q0, closer (q_place x (foldr sq_add q0 l)) (q_place x q0) ∧
    (x ∈ l → x ∈ sq_items (foldr sq_add q0 l))).
  { destruct (Hl (elements (sq_waiting q)) (sq_unwait q)) as [Hc Hin]. change (q_elapse 0 q) with (foldr sq_add (sq_unwait q) (elements (sq_waiting q))).
    assert (Hp : q_place x (sq_unwait q) = match q_place x q with Waiting _ => Out | p => p end)
      by (unfold q_place, simple_FairQueue; simpl; by repeat case_decide).
    rewrite Hp in Hc. destruct (q_place x q) eqn:Hx; try exact Hc.
    unfold q_place, simple_FairQueue in Hx. repeat case_decide; try done.
    unfold q_place, simple_FairQueue. rewrite decide_True by (apply Hin; by apply elem_of_elements). by case_decide. }
  intros l. induction l as [|y l IH]; intros q0; [split; [done|by intros ?%elem_of_nil]|]. destruct (IH q0) as [Hc Hin].
  split; [etrans; [apply sq_place_add|done]|]. simpl. unfold sq_add. case_decide; simpl; set_solver.
Qed.

#[global] Instance simple_FairQueueLaws : FairQueueLaws simple_queue.
Proof.
  split.
  - intros x q. simpl. unfold q_place, simple_FairQueue. repeat case_decide; set_solver.
  - intros x q r. unfold q_place, simple_FairQueue. repeat case_decide; intros [= <-]. split; [done|]. simpl.
    assert (Hx : x ∈ sq_ready q) by (by apply elem_of_sq_ready). destruct (sq_ready q); [by apply elem_of_nil in Hx|done].
  - intros x q. unfold q_place, simple_FairQueue. by repeat case_decide.
  - intros x y q q' Hget Hne. pose proof (sq_ready_get y q q' Hget) as Hr. apply sq_get_Some in Hget as (_ & _ & ->).
    apply sq_place_other; simpl; [rewrite list_elem_of_filter; auto|set_solver|done|].
    intros Hx. rewrite Hr. by apply index_of_filter.
  - intros x y q q' r Hget Hne. pose proof (sq_ready_get y q q' Hget) as Hr. pose proof (sq_get_Some y q q' Hget) as (Hy & Hb & ->).
    intros Hp. unfold q_place, simple_FairQueue in Hp. repeat case_decide; simplify_eq.
    unfold q_place, simple_FairQueue. rewrite Hr. simpl.
    rewrite decide_True by (apply list_elem_of_filter; auto). rewrite decide_False by set_solver.
    eexists. split; [reflexivity|]. simpl in Hget.
    assert (Hx : x ∈ sq_ready q) by (by apply elem_of_sq_ready).
    destruct (sq_ready q) as [|z l]; [done|]. injection Hget as -> . rewrite filter_cons_False by auto. simpl.
    rewrite decide_False by done. apply Nat.lt_succ_r, index_of_filter; [set_solver|done].
  - intros. apply sq_place_add.
  - intros x y d q. simpl. case_decide; [apply sq_place_add|]. apply sq_place_other; simpl; [done|done|set_solver|done].
  - intros x y q Hxy. destruct (decide (y = x)) as [->|Hne].
    + specialize (Hxy eq_refl). simpl in Hxy. unfold q_place, simple_FairQueue. simpl.
      destruct (decide (x ∈ sq_items q)).
      * rewrite (decide_True _ _ Hxy). repeat case_decide; done || set_solver.
      * repeat case_decide; done || set_solver.
    + apply sq_place_other.
      * simpl. rewrite elem_of_app, list_elem_of_filter. auto.
      * simpl. set_solver.
      * done.
      * intros Hx. rewrite sq_ready_done, index_of_app by (apply list_elem_of_filter; auto). by apply index_of_filter.
  - intros x q. unfold q_place at 1, simple_FairQueue at 1. repeat case_decide; try done. intros _.
    unfold q_place, simple_FairQueue. simpl. rewrite decide_True by (case_decide; set_solver).
    rewrite decide_False by set_solver. eauto.
  - intros x e q. change (q_elapse e q) with (q_elapse 0 q). etrans; [apply sq_place_elapse|]. by destruct (q_place x q).
  - intros x e q d Hd. change (q_elapse e q) with (q_elapse 0 q). pose proof (sq_place_elapse x q) as H. rewrite Hd in H.
    case_decide; [done|]. revert H. by destruct (q_place x (q_elapse 0 q)).
Qed.

(** ** Items in processing are held by a worker *)

Section holders.
Context {QA : QuantityApi} {S : Type} {SS : SortSlice}.
Context {C Q M T : Type} {GC : GoCache (obj S) C} {WQ : WorkQueue Q} {PM : Prometheus M} {TC : TtlCache T}.
Context {GCL : GoCacheLaws (obj S) C} {WQL : WorkQueueLaws Q}.
Context {CS : CollectorSender S} {CP : ConfigProvider S} {CF : ClientFactory S}.
Context {CSL : CollectorSenderLaws S} {CPL : ConfigProviderLaws S} {CFL : ClientFactoryLaws S}.
Context (env : Env) (p : Process).
Implicit Types s : system S C Q M T.

(** The code returns only after it gave back the item it holds. *)
Fixpoint gives_back {A} (held : option string) (q : prog S A) : Prop :=
  match q with
  | Ret _ => held = None
  | Vis e k => ∀ r, answer_ok e r → gives_back (release held e) (k r)
  | Panic _ | Fatal _ => True
  end.

Lemma gives_back_None {A} (q : prog S A) : gives_back None q.
Proof.
  induction q as [a|X e k IH|msg|msg]; simpl; [done| |done|done]. intros r _.
  replace (release None e) with (@None string) by (by destruct e). apply IH.
Qed.

Lemma gives_back_bind {A B} owner K Post held (q : prog S A) (k : A → prog S B) :
  safe owner K None Post q → (∀ a, gives_back held (k a)) → gives_back held (q ≫= k).
Proof.
  intros Hq Hk. revert K Hq. induction q as [a|X e k' IH|msg|msg]; intros K Hq; simpl in *; [apply Hk| |done|done].
  destruct Hq as [[Hal _] Hs]. intros r Hr. destruct (Hs r Hr) as [_ Hs'].
  replace (release held e) with held by (by destruct e). replace (release None e) with (@None string) in Hs' by (by destruct e).
  by eapply IH.
Qed.

Lemma executeItem_gives_back x j : gives_back (Some x) (executeItem (S := S) p x j).
Proof.
  eapply gives_back_bind; [apply processSubAccountID_safe|]. intros b r _. apply gives_back_None.
Qed.

Record held_inv s : Prop := {
  held_by x : x ∈ q_processing (sys_queue s) → ∃ i t, running s i t ∧ th_held t = Some x;
  held_back i t : running s i t → gives_back (th_held t) (th_prog t);
}.

Lemma handle_processing_inv {X} (e : eff S X) (w : world C Q M T) x :
  x ∈ q_processing (w_queue (handle_eff env e w).2) → x ∈ q_processing (w_queue w) ∧ ¬ completes e x.
Proof.
  destruct e as [| | | | | | | | | | | | | | |X op|]; try destruct op; simpl; rewrite ?q_processing_add, ?q_processing_add_after, ?q_processing_done; try (by auto).
  rewrite elem_of_difference, elem_of_singleton. naive_solver.
Qed.

(** A thread that was replaced held nothing that is still in processing. *)
Lemma held_set_thread s i t0 t w : held_inv s → sys_threads s !! i = Some t0 →
  (∀ t', t = Some t' → gives_back (th_held t') (th_prog t')) →
  (∀ x, x ∈ q_processing (w_queue w) →
     (∃ t', t = Some t' ∧ th_held t' = Some x) ∨
     (x ∈ q_processing (sys_queue s) ∧ ∀ u, t0 = Some u → th_held u ≠ Some x)) →
  held_inv (set_thread i t w s).
Proof.
  intros Hs Hi Hback Hx. split.
  - intros x Hin. destruct (Hx x Hin) as [(t' & -> & Ht')|[Hold Hne]].
    + exists i, t'. split; [by eapply running_self|done].
    + destruct (held_by _ Hs x Hold) as (j & u & Hu & Hh). exists j, u. split; [|done].
      apply running_other; [|done]. intros <-. unfold running in Hu. rewrite Hi in Hu. injection Hu as ->. by apply (Hne u).
  - intros j u [[<- Heq]|[_ Hu]]%running_set_thread; [by apply Hback|by apply (held_back _ Hs j)].
Qed.

Lemma reachable_held s : reachable env p s → held_inv s.
Proof.
  induction 1 as [s (Hproc & kebReq & Hs)|a s s' Hr IH Hstep].
  { split; [unfold sys_queue; rewrite Hproc; set_solver|]. intros i t Ht.
    destruct (starting_thread _ _ _ _ Hs Ht) as [_ ->]. apply gives_back_None. }
  destruct Hstep as [answer s Hi|i x q' s Hi0 Hi Hget|i X e k item held s Hi|i item held s Hi|d s].
  - eapply held_set_thread; [done..| |]; [intros ? [= <-]; apply gives_back_None|]. intros x Hx. by right.
  - eapply held_set_thread; [done..| |]; [intros ? [= <-]; apply executeItem_gives_back|].
    apply q_processing_get in Hget as [_ Hproc]. simpl. intros y. rewrite Hproc.
    intros [->%elem_of_singleton|Hy]%elem_of_union; [left; by eexists|by right].
  - apply reachable_inv in Hr as [Hinv|Hhalt]; [|by destruct (halted_setup s i _ Hhalt Hi) as (_ & err & ?)].
    destruct (effect_safe env s i e k item held Hinv Hi) as (K & _ & _ & Hal & _).
    eapply held_set_thread; [done..| |].
    + intros ? [= <-]. apply (held_back _ IH i _ Hi). apply handle_answer_ok, Hinv.
    + intros y [Hy Hc]%handle_processing_inv. destruct (decide (held = Some y)) as [->|Hne]; [left|right].
      * eexists. split; [done|]. simpl. destruct e; try done. simpl in *. congruence.
      * split; [done|]. by intros ? [= <-].
  - eapply held_set_thread; [done..|done|]. intros x Hx. right. split; [done|]. intros ? [= <-].
    pose proof (held_back _ IH i _ Hi) as Hb. simpl in *. congruence.
  - split; [|apply IH]. intros x. unfold sys_queue. simpl. rewrite q_processing_elapse. apply IH.
Qed.
End holders.

(** ** Fair executions *)

Section executions.
Context {QA : QuantityApi} {S : Type} {SS : SortSlice}.
Context {C Q M T : Type} {GC : GoCache (obj S) C} {WQ : WorkQueue Q} {PM : Prometheus M} {TC : TtlCache T} {FQ : FairQueue Q}.
Context {CS : CollectorSender S} {CP : ConfigProvider S} {CF : ClientFactory S}.
Context (env : Env) (p : Process) (σ : nat → system S C Q M T) (α : nat → action).

Definition execution : Prop :=
  reachable env p (σ 0%nat) ∧ ∀ n, step env p (α n) (σ n) (σ (Datatypes.S n)).

(** The time that passes in the [k] steps from [n] on. *)
Fixpoint elapsed (n k : nat) : Z :=
  match k with
  | O => 0
  | Datatypes.S k' => (match α n with Elapse d => Z.max 0 d | _ => 0 end) + elapsed (Datatypes.S n) k'
  end.

Definition acts (i : nat) (a : action) : Prop := a = Effect i ∨ a = Finish i.

Record fair : Prop := {
  fair_thread n i t : running (σ n) i t → ∃ m, (n ≤ m)%nat ∧ acts i (α m);
  fair_worker n i : i ≠ 0%nat → sys_threads (σ n) !! i = Some None →
    ∃ m, (n ≤ m)%nat ∧ (α m = Take i ∨ q_get (sys_queue (σ m)) = None);
  fair_time n d : ∃ k, d ≤ elapsed n k;
}.

(** Step [m] hands [x] to worker [i], which starts to process it. *)
Definition handed_out (x : string) (m i : nat) : Prop :=
  α m = Take i ∧ running (σ (Datatypes.S m)) i {| th_prog := executeItem p x (identifier i); th_item := Some x; th_held := Some x |}.

Context {GCL : GoCacheLaws (obj S) C} {WQL : WorkQueueLaws Q} {FQL : FairQueueLaws Q}.
Context {CSL : CollectorSenderLaws S} {CPL : ConfigProviderLaws S} {CFL : ClientFactoryLaws S}.
Context (Hexec : execution) (Hfair : fair).

Lemma exec_reachable n : reachable env p (σ n).
Proof. induction n as [|n IH]; [apply Hexec|]. by eapply reachable_step, Hexec. Qed.

Lemma exec_threads n : length (sys_threads (σ n)) = length (sys_threads (σ 0%nat)).
Proof.
  induction n as [|n IH]; [done|]. rewrite <- IH. destruct Hexec as [_ Hstep]. specialize (Hstep n).
  destruct Hstep; simpl; by rewrite ?length_insert.
Qed.

(** *** One thread *)

(** A thread that does not act stays as it is. *)
Lemma step_other a s s' i t : step env p a s s' → running s i t → ¬ acts i a → running s' i t.
Proof.
  unfold running, acts. destruct 1 as [answer s Hj|j x q' s Hj0 Hj Hget|j X e k item held s Hj|j item held s Hj|d s]; intros Hi Ha;
    [| | | |done]; cbn [set_thread sys_threads]; rewrite list_lookup_insert_ne; try done; intros Heq; rewrite Heq in *;
    first [congruence|by destruct Ha; auto].
Qed.

Lemma next_act n i t : running (σ n) i t → ∃ m, (n ≤ m)%nat ∧ running (σ m) i t ∧ acts i (α m).
Proof.
  intros Hr. destruct (fair_thread Hfair n i t Hr) as (m & Hm & Ha). remember (m - n)%nat as k eqn:Hk.
  revert n Hr Hm Hk. induction k as [|k IH]; intros n Hr Hm Hk; [assert (m = n) as -> by lia; by exists n|].
  assert (Hdec : Decision (acts i (α n))) by (unfold acts; destruct (α n) as [|j|j|j|];
    try (right; intros [?|?]; congruence); destruct (decide (j = i)) as [->|];
    solve [left; eauto | right; intros [?|?]; congruence]).
  destruct Hdec as [Han|Hna]; [by exists n|].
  destruct (IH (Datatypes.S n)) as (m' & ? & ? & ?); [|lia..|exists m'; split_and!; [lia|done..]].
  eapply step_other; [apply Hexec|done..].
Qed.

(** When it acts, it performs its next effect or finishes. *)
Lemma step_act a s s' i t : step env p a s s' → running s i t → acts i a →
  match th_prog t with
  | Vis e k => sys_world s' = (handle_eff env e (sys_world s)).2 ∧
      running s' i {| th_prog := k (handle_eff env e (sys_world s)).1; th_item := th_item t; th_held := release (th_held t) e |}
  | Ret _ => sys_threads s' !! i = Some None
  | _ => False
  end.
Proof.
  intros Hstep Hi Ha. unfold running in *.
  destruct Hstep as [answer s Hj|j x q' s Hj0 Hj Hget|j X e k item held s Hj|j item held s Hj|d s];
    destruct Ha as [[=]|[=]]; subst; rewrite Hi in Hj; injection Hj as ->; cbn [th_prog th_item th_held set_thread sys_threads sys_world];
    [split; [done|]|]; apply list_lookup_insert_eq; by eapply lookup_lt_Some.
Qed.

(** So the poller has a request for KEB. *)
Lemma exec_inv n : inv (σ n).
Proof.
  destruct (reachable_inv env p _ (exec_reachable n)) as [?|[err Hs]]; [done|].
  assert (Hr : running (σ n) 0 (setup (inr err))) by (destruct Hs as (_ & _ & workers & Ht & _); unfold running; by rewrite Ht).
  destruct (next_act _ _ _ Hr) as (m & _ & Hrm & Ha). by destruct (step_act _ _ _ _ _ (proj2 Hexec m) Hrm Ha).
Qed.

(** Every iteration ends. *)
Lemma eventually_idle n i t : running (σ n) i t → ∃ m, (n ≤ m)%nat ∧ sys_threads (σ m) !! i = Some None.
Proof.
  destruct t as [q item held]. revert n item held. induction q as [a|X e k IH|msg|msg]; intros n item held Hr;
    destruct (next_act _ _ _ Hr) as (m & Hm & Hrm & Ha); pose proof (step_act _ _ _ _ _ (proj2 Hexec m) Hrm Ha) as Hs;
    simpl in Hs; [by exists (Datatypes.S m); split; [lia|]| |done|done].
  destruct (IH _ _ _ _ (proj2 Hs)) as (m' & ? & ?). exists m'. split; [lia|done].
Qed.

(** *** From the cache to the queue *)

Definition gone (x : string) (m : nat) : Prop := cache_get x (sys_cache (σ m)) = None.

(** A thread that is bound to queue [x] does so, unless [x] is removed from the cache. *)
Lemma eventually_pending x n i t : running (σ n) i t → commits x (λ _, False) (th_prog t) →
  ∃ m, (n ≤ m)%nat ∧ (gone x m ∨ x ∈ q_pending (sys_queue (σ m))).
Proof.
  destruct t as [q item held]. revert n item held. induction q as [a|X e k IH|msg|msg]; intros n item held Hr Hc; simpl in Hc; [done| |done|done].
  destruct (next_act _ _ _ Hr) as (m & Hm & Hrm & Ha). pose proof (step_act _ _ _ _ _ (proj2 Hexec m) Hrm Ha) as [Hw Hr'].
  destruct (cache_get x (sys_cache (σ m))) as [o|] eqn:Hx; [|by exists m; auto].
  destruct Hc as [Hq|Hc].
  - exists (Datatypes.S m). split; [lia|]. right. unfold sys_queue. rewrite Hw. by apply (handle_pending env e (sys_world (σ m))).
  - destruct (IH (handle_eff env e (sys_world (σ m))).1 _ _ _ Hr') as (m' & ? & ?); [|exists m'; split; [lia|done]].
    apply Hc, handle_possible. unfold sys_cache in Hx. by rewrite Hx.
Qed.

Lemma cached_pending x n : is_Some (cache_get x (sys_cache (σ n))) →
  ∃ m, (n ≤ m)%nat ∧ (gone x m ∨ x ∈ q_pending (sys_queue (σ m))).
Proof.
  intros [Hp|(i & t & Ht & Hc)]%(inv_scheduled _ (exec_inv n)); [by exists n; auto|].
  by eapply eventually_pending.
Qed.

(** *** Through the queue *)

Definition place_at (x : string) (n : nat) : place := q_place x (sys_queue (σ n)).
Definition taken (x : string) (m : nat) : Prop := ∃ i, handed_out x m i.

(** An effect of a thread moves no item back. *)
Lemma effect_place x s i X (e : eff S X) k item held :
  inv s → running s i {| th_prog := Vis e k; th_item := item; th_held := held |} →
  closer (q_place x (w_queue (handle_eff env e (sys_world s)).2)) (q_place x (sys_queue s)).
Proof.
  intros Hinv Hi. destruct (effect_safe env s i e k item held Hinv Hi) as (K & _ & _ & Hal & _).
  destruct e as [| | | | | | | | | | | | | | |X op|]; try destruct op; try reflexivity; simpl; [apply place_add|apply place_add_after|apply place_done].
  intros ->. by apply (inv_held _ Hinv i _ _ Hi).
Qed.

(** In one step an item is taken, or does not move back. *)
Lemma step_place x n : taken x n ∨ closer (place_at x (Datatypes.S n)) (place_at x n).
Proof.
  pose proof (proj2 Hexec n) as Hstep. pose proof (exec_inv n) as Hinv.
  unfold taken, handed_out, place_at. remember (α n) as a eqn:Ha. remember (σ (Datatypes.S n)) as s' eqn:Hs'.
  remember (σ n) as s eqn:Hs. unfold sys_queue.
  destruct Hstep as [answer s Hj|j y q' s Hj0 Hj Hget|j X e k item held s Hj|j item held s Hj|d s]; simpl; try (by right).
  - destruct (decide (y = x)) as [->|Hne]; [left|right; by eapply place_get].
    exists j. split; [done|]. by eapply running_self.
  - right. by eapply effect_place.
  - right. apply place_elapse.
Qed.

Lemma persist x n m : (n ≤ m)%nat → (∃ k, (n ≤ k)%nat ∧ taken x k) ∨ closer (place_at x m) (place_at x n).
Proof.
  induction 1 as [|m Hm [?|IH]]; [by right|by left|].
  destruct (step_place x m) as [Ht|Hc]; [left; eauto|right]. by etrans.
Qed.

(** An item that was added while a worker processes it becomes ready when the worker is done. *)
Lemma again_ready x i n t : running (σ n) i t → th_held t = Some x → closer (place_at x n) Again →
  ∃ m, (n ≤ m)%nat ∧ (taken x m ∨ ∃ r, place_at x m = Ready r).
Proof.
  destruct t as [q item held]. simpl. intros Hr ->. revert n Hr. induction q as [a|X e k IH|msg|msg]; intros n Hr Hpl;
    destruct (next_act _ _ _ Hr) as (m & Hm & Hrm & Ha); pose proof (step_act _ _ _ _ _ (proj2 Hexec m) Hrm Ha) as Hs;
    simpl in Hs; [| |done|done].
  { pose proof (held_back _ (reachable_held env p _ (exec_reachable m)) i _ Hrm) as Hb. done. }
  destruct Hs as [Hw Hr']. destruct (persist x n m Hm) as [(l & ? & ?)|Hc]; [exists l; auto|].
  assert (Hpm : closer (place_at x m) Again) by (by etrans).
  destruct (effect_safe env (σ m) i e k item (Some x) (exec_inv m) Hrm) as (K & _ & _ & Hal & _).
  destruct (place_at x m) as [r| |d|] eqn:Hx; [by exists m; eauto| |done|done].
  assert (Hcase : (∃ r, place_at x (Datatypes.S m) = Ready r) ∨ release (Some x) e = Some x).
  { destruct e; auto. left. simpl in Hal. injection Hal as <-. unfold place_at, sys_queue. rewrite Hw. by apply place_done_again. }
  destruct Hcase as [?|Hheld]; [exists (Datatypes.S m); split; [lia|auto]|]. rewrite Hheld in Hr'.
  destruct (step_place x m) as [?|Hc']; [exists m; auto|]. rewrite Hx in Hc'.
  destruct (IH _ _ Hr' Hc') as (m' & ? & ?). exists m'. split; [lia|done].
Qed.

(** A delayed item is added when its time has come. *)
Lemma waiting_over x k n d : closer (place_at x n) (Waiting d) → Z.max 1 d ≤ elapsed n k →
  ∃ m, (n ≤ m)%nat ∧ (taken x m ∨ closer (place_at x m) Again).
Proof.
  revert n d. induction k as [|k IH]; intros n d Hpl Hk; simpl in Hk; [lia|].
  destruct (step_place x n) as [?|Hc]; [exists n; auto|].
  destruct (place_at x n) as [r| |d'|] eqn:Hx; [by exists n; rewrite Hx; auto..| |done].
  assert (Hnext : ∀ d'', closer (place_at x (Datatypes.S n)) (Waiting d'') → Z.max 1 d'' ≤ elapsed (Datatypes.S n) k →
    ∃ m, (n ≤ m)%nat ∧ (taken x m ∨ closer (place_at x m) Again)).
  { intros d'' Hc' Hk'. destruct (IH _ _ Hc' Hk') as (m & ? & ?). exists m. split; [lia|done]. }
  destruct (α n) as [answer|i|i|i|e] eqn:Ha; try (apply (Hnext d'); [done|simpl in Hpl; lia]).
  assert (Hel : closer (place_at x (Datatypes.S n)) (if decide (d' ≤ e) then Again else Waiting (d' - e))).
  { pose proof (proj2 Hexec n) as Hstep. rewrite Ha in Hstep. unfold place_at at 1, sys_queue.
    inversion Hstep as [| | | |e' s He Hs Hs']; subst. simpl. by apply place_elapse_due. }
  simpl in Hpl. case_decide; [exists (Datatypes.S n); split; [lia|auto]|].
  destruct (decide (e ≤ 0)); [apply (Hnext d'); [done|lia]|]. apply (Hnext (d' - e)); [done|lia].
Qed.

Lemma pending_ready x n : x ∈ q_pending (sys_queue (σ n)) →
  ∃ m, (n ≤ m)%nat ∧ (taken x m ∨ ∃ r, place_at x m = Ready r).
Proof.
  intros Hp%place_pending.
  assert (Hag : ∀ m, closer (place_at x m) Again → ∃ m', (m ≤ m')%nat ∧ (taken x m' ∨ ∃ r, place_at x m' = Ready r)).
  { intros m Hc. destruct (place_at x m) as [r| |d|] eqn:Hx; [by exists m; eauto| |done|done].
    destruct (held_by _ (reachable_held env p _ (exec_reachable m)) x) as (i & t & Ht & Hh); [by apply place_again|].
    eapply again_ready; [done..|]. by rewrite Hx. }
  change (q_place x (sys_queue (σ n))) with (place_at x n) in Hp.
  destruct (place_at x n) as [r| |d|] eqn:Hx; [by exists n; eauto|apply Hag; by rewrite Hx| |done].
  destruct (fair_time Hfair n (Z.max 1 d)) as [k Hk].
  destruct (waiting_over x k n d) as (m & Hm & [?|Hc]); [by rewrite Hx|done|by exists m; auto|].
  destruct (Hag m Hc) as (m' & ? & ?). exists m'. split; [lia|done].
Qed.

(** An item that is ready moves up until it is taken. *)
Lemma ready_taken i x r n : i ≠ 0%nat → (i < length (sys_threads (σ 0%nat)))%nat →
  place_at x n = Ready r → ∃ m, (n ≤ m)%nat ∧ taken x m.
Proof.
  intros Hi0 Hi. revert n. induction (lt_wf r) as [r _ IH]. intros n Hx.
  assert (Hidle : ∃ m, (n ≤ m)%nat ∧ sys_threads (σ m) !! i = Some None).
  { rewrite <- (exec_threads n) in Hi. apply lookup_lt_is_Some in Hi as [[t|] Ht]; [|by exists n].
    by eapply eventually_idle. }
  destruct Hidle as (m & Hm & Hidle). destruct (fair_worker Hfair m i Hi0 Hidle) as (m' & Hm' & Hact).
  destruct (persist x n m') as [?|Hc]; [lia|done|]. rewrite Hx in Hc.
  destruct (place_at x m') as [r'| | |] eqn:Hx'; simpl in Hc; [|done..].
  destruct Hact as [Hact|Hnone]; [|by destruct (place_ready x (sys_queue (σ m')) r' Hx') as [_ []]].
  assert (Hstep := proj2 Hexec m'). destruct (step_place x m') as [?|_]; [exists m'; split; [lia|done]|].
  rewrite Hact in Hstep. inversion Hstep as [|j y q' s Hj0 Hj Hget Heq1 Heq2 Heq3| | |]; subst.
  destruct (decide (y = x)) as [->|Hne].
  - exists m'. split; [lia|]. exists i. split; [done|]. rewrite <- Heq3. by eapply running_self.
  - destruct (place_get_ready x y _ q' r' Hget Hne Hx') as (r2 & Hr2 & Hlt).
    destruct (IH r2 ltac:(lia) (Datatypes.S m')) as (m2 & ? & ?); [|exists m2; split; [lia|done]].
    unfold place_at. rewrite <- Heq3. exact Hr2.
Qed.

(** C2 -- Liveness: in every fair execution of the poller and the workers, with at least one worker,
    a sub-account that is cached at any time is removed from the cache later on, or is handed to a
    worker, which starts to process it and ends its iteration.  Since this holds at any time, a
    cluster that stays cached is processed infinitely often. *)
Theorem cached_cluster_processed x n : (1 < length (sys_threads (σ 0%nat)))%nat →
  is_Some (cache_get x (sys_cache (σ n))) → ∃ m, (n ≤ m)%nat ∧
  (gone x m ∨ ∃ i m', handed_out x m i ∧ (m < m')%nat ∧ sys_threads (σ m') !! i = Some None).
Proof.
  intros Hw Hx. destruct (cached_pending x n Hx) as (m1 & ? & [?|Hp]); [by exists m1; auto|].
  assert (Hdone : ∀ m, (n ≤ m)%nat → taken x m → ∃ m, (n ≤ m)%nat ∧
    (gone x m ∨ ∃ i m', handed_out x m i ∧ (m < m')%nat ∧ sys_threads (σ m') !! i = Some None)).
  { intros m Hm [i Hi]. destruct (eventually_idle _ _ _ (proj2 Hi)) as (m' & ? & ?).
    exists m. split; [done|]. right. exists i, m'. split_and!; [done|lia|done]. }
  destruct (pending_ready x m1 Hp) as (m2 & ? & [?|[r Hr]]); [apply (Hdone m2); [lia|done]|].
  destruct (ready_taken 1 x r m2) as (m3 & ? & ?); [done|lia|done|]. apply (Hdone m3); [lia|done].
Qed.
End executions.

(** ** A fair execution

    One worker processes one cluster forever; the metrics are not kept. *)

#[local] Instance unit_Prometheus : Prometheus unit := {|
  m_get _ _ _ := None; m_inc _ _ _ := tt; m_set _ _ _ _ := tt; m_reset _ _ := tt; m_delete _ _ _ := (0, tt);
|}.

Abbreviation loop_system := (system unit sample_cache simple_queue unit ttl_map).

(** The cluster waits for its scrape interval; [t] calls of the environment were made. *)
Definition resting (t : nat) : loop_system :=
  {| sys_world := {| w_cache := {["sa-1" := ObjRecord (with_ScanMap (sample_record "sa-1" "shoot-a") {["node" := tt]})]};
                     w_queue := {| sq_items := []; sq_waiting := {["sa-1"]}; sq_busy := ∅ |};
                     w_metrics := tt; w_kube := ∅; w_tick := t; w_http := [] |};
     sys_threads := [None; None] |}.

Definition cycle : list action := [Elapse 1; Take 1] ++ effects 1 20 ++ [Finish 1].
Definition period : nat := 23.

Lemma cycle_resting t : trace sample_env sample_process cycle (resting t) = Some (resting (13 + t)).
Proof. vm_cast_no_check (eq_refl (Some (resting (13 + t)))). Qed.

Definition loop_action (n : nat) : action := nth (n mod period) cycle (Elapse 1).
Fixpoint loop_state (n : nat) : loop_system :=
  match n with
  | O => resting 19
  | S n' => default (loop_state n') (next sample_env sample_process (loop_action n') (loop_state n'))
  end.

#[local] Arguments loop_state : simpl never.

Lemma loop_state_S n : loop_state (S n) = default (loop_state n) (next sample_env sample_process (loop_action n) (loop_state n)).
Proof. reflexivity. Qed.

(** How the system got there. *)
Definition loop_start : loop_system :=
  {| sys_world := {| w_cache := ∅; w_queue := sq_empty; w_metrics := tt; w_kube := ∅; w_tick := 0; w_http := [] |};
     sys_threads := [Some (setup (inl sample_request)); None] |}.
Definition loop_prefix : list action :=
  [Finish 0; Poll (inl (sample_page [sample_runtime "ga" "sa-1" "shoot-a" false]))] ++ effects 0 15 ++ [Finish 0; Take 1] ++
  effects 1 20 ++ [Finish 1].

Lemma resting_reachable : reachable sample_env sample_process (resting 19).
Proof.
  apply (trace_reachable _ _ loop_prefix loop_start); [|vm_cast_no_check (eq_refl (Some (resting 19)))].
  apply reachable_init. split; [done|]. exists (inl sample_request). split_and!; [done..|]. exists [None]. by repeat constructor.
Qed.

(** A trace that succeeds is followed by the execution. *)
Lemma loop_follows k n s : trace sample_env sample_process (loop_action <$> seq n k) (loop_state n) = Some s →
  loop_state (n + k) = s ∧ ∀ j, (j < k)%nat →
    next sample_env sample_process (loop_action (n + j)) (loop_state (n + j)) = Some (loop_state (S (n + j))).
Proof.
  revert n. induction k as [|k IH]; intros n; simpl.
  - intros [= <-]. rewrite Nat.add_0_r. split; [done|lia].
  - destruct (next _ _ _ _) as [s1|] eqn:Hn; [|done]. intros Ht.
    assert (Hs1 : loop_state (S n) = s1) by (by rewrite loop_state_S, Hn). rewrite <- Hs1 in Ht.
    destruct (IH (S n) Ht) as [Hend Hall]. rewrite Nat.add_succ_r. split; [done|]. intros [|j] Hj.
    + rewrite Nat.add_0_r, Hs1. exact Hn.
    + rewrite Nat.add_succ_r. apply Hall. lia.
Qed.

Lemma loop_action_cycle j : loop_action <$> seq (j * period) period = cycle.
Proof.
  assert (Hr : ∀ r, (r < period)%nat → loop_action (j * period + r) = nth r cycle (Elapse 1)).
  { intros r Hr. unfold loop_action. f_equal. rewrite Nat.add_comm, Nat.Div0.mod_add, Nat.mod_small by lia. done. }
  apply list_eq. intros r. rewrite list_lookup_fmap. destruct (decide (r < period)%nat) as [Hlt|Hge].
  - rewrite lookup_seq_lt by done. simpl fmap. rewrite Hr by done. unfold period in Hlt.
    do 23 (destruct r as [|r]; [reflexivity|]). lia.
  - rewrite lookup_seq_ge by lia. symmetry. apply lookup_ge_None. unfold period in Hge. simpl. lia.
Qed.

Lemma loop_rests j : ∃ t, loop_state (j * period) = resting t.
Proof.
  induction j as [|j [t IH]]; [by exists 19%nat|]. exists (13 + t)%nat.
  destruct (loop_follows period (j * period) (resting (13 + t))) as [Hend _].
  { rewrite loop_action_cycle, IH. apply cycle_resting. }
  rewrite Nat.mul_succ_l. exact Hend.
Qed.

Lemma loop_next n : next sample_env sample_process (loop_action n) (loop_state n) = Some (loop_state (S n)).
Proof.
  destruct (loop_rests (n / period)) as [t Ht].
  destruct (loop_follows period (n / period * period) (resting (13 + t))) as [_ Hall].
  { rewrite loop_action_cycle, Ht. apply cycle_resting. }
  pose proof (Nat.mod_upper_bound n period ltac:(done)) as Hlt. specialize (Hall _ Hlt).
  replace (n / period * period + n mod period)%nat with n in Hall; [exact Hall|].
  rewrite Nat.mul_comm. apply Nat.div_mod_eq.
Qed.

Lemma loop_execution : execution sample_env sample_process loop_state loop_action.
Proof. split; [apply resting_reachable|]. intros n. apply next_step, loop_next. Qed.

(** Only worker 1 ever runs. *)
Lemma loop_action_cases n : loop_action n = Elapse 1 ∨ loop_action n = Take 1 ∨ loop_action n = Effect 1 ∨
  loop_action n = Finish 1.
Proof.
  unfold loop_action. pose proof (Nat.mod_upper_bound n period ltac:(done)) as Hlt.
  unfold period at 2 in Hlt. generalize dependent (n mod period)%nat. intros r Hr.
  do 23 (destruct r as [|r]; [simpl; auto|]). lia.
Qed.

Lemma loop_threads n : ∃ t, sys_threads (loop_state n) = [None; t].
Proof.
  induction n as [|n [t IH]]; [by eexists|]. pose proof (loop_next n) as Hn.
  destruct (loop_action_cases n) as [Ha|[Ha|[Ha|Ha]]]; rewrite Ha in Hn; simpl in Hn; rewrite ?IH in Hn; simpl in Hn;
    repeat case_match; simplify_eq; match goal with H : _ = loop_state (S n) |- _ => rewrite <- H end; simpl;
    rewrite ?IH; by eexists.
Qed.

(** Every action of the cycle comes again. *)
Lemma loop_recurs n r : (r < period)%nat → ∃ m, (n ≤ m)%nat ∧ loop_action m = nth r cycle (Elapse 1).
Proof.
  intros Hr. exists (n * period + r)%nat. split; [unfold period in *; lia|]. unfold loop_action. f_equal.
  rewrite Nat.add_comm, Nat.Div0.mod_add. by apply Nat.mod_small.
Qed.

Lemma elapsed_app α n a b : elapsed α n (a + b) = elapsed α n a + elapsed α (n + a) b.
Proof.
  revert n. induction a as [|a IH]; intros n; simpl; [by rewrite Nat.add_0_r|]. rewrite IH.
  replace (n + S a)%nat with (S n + a)%nat by lia. lia.
Qed.

Lemma elapsed_nonneg α n k : 0 ≤ elapsed α n k.
Proof. revert n. induction k as [|k IH]; intros n; simpl; [lia|]. specialize (IH (S n)). destruct (α n); lia. Qed.

Lemma loop_time n d : ∃ k, d ≤ elapsed loop_action n k.
Proof.
  enough (Hk : ∀ j : nat, ∃ k, Z.of_nat j ≤ elapsed loop_action n k).
  { destruct (Hk (Z.to_nat d)) as [k Hk']. exists k. lia. }
  induction j as [|j [k IH]]; [exists O; simpl; lia|].
  destruct (loop_recurs (n + k) 0) as (m & Hm & Ha); [unfold period; lia|].
  exists (k + ((m - (n + k)) + 1))%nat. rewrite !elapsed_app.
  pose proof (elapsed_nonneg loop_action (n + k) (m - (n + k))).
  replace (n + k + (m - (n + k)))%nat with m by lia. simpl elapsed at 3. rewrite Ha. simpl. lia.
Qed.

Lemma loop_fair : fair loop_state loop_action.
Proof.
  split.
  - intros n i t Ht. destruct (loop_threads n) as [u Hu]. unfold running in Ht. rewrite Hu in Ht.
    destruct i as [|[|i]]; [done| |done]. destruct (loop_recurs n 22) as (m & ? & ?); [unfold period; lia|].
    exists m. split; [done|]. by right.
  - intros n i Hi Ht. destruct (loop_threads n) as [u Hu]. rewrite Hu in Ht.
    destruct i as [|[|i]]; [done| |done]. destruct (loop_recurs n 1) as (m & ? & ?); [unfold period; lia|].
    exists m. auto.
  - apply loop_time.
Qed.

Lemma cached_cluster_processed_witness : execution sample_env sample_process loop_state loop_action ∧
  fair loop_state loop_action ∧ ∃ m, gone loop_state "sa-1" m ∨ ∃ i, handed_out sample_process loop_state loop_action "sa-1" m i.
Proof.
  split; [exact loop_execution|]. split; [exact loop_fair|].
  destruct (cached_cluster_processed sample_env sample_process loop_state loop_action loop_execution loop_fair "sa-1" 0)
    as (m & _ & [Hgone|(i & m' & Hout & _)]); [simpl; lia|eexists; reflexivity|by exists m; left|].
  exists m. right. by exists i.
Defined.
