(* ===== verification/Options.v ===== *)
(** * Options: the command line ([options/options.go])

    [ParseArgs] with the parts of Go's [flag], [strconv] and [time] packages it uses: the syntax of flags,
    [strconv.ParseInt] with base 0, [time.ParseDuration] and [time.Duration.String].  The log levels
    of zap are a parameter. *)
From S2P Require Import Prelude GoStd GoFloat Decimal Json Duration.
From Stdlib Require Import Ascii.
Local Open Scope Z_scope.
Local Open Scope list_scope.

(** ** strconv *)

Definition lower (c : ascii) : Z := Z.lor (code c) 32.

(** The digit a character stands for, in bases up to 36. *)
Definition base_digit (c : ascii) : option Z :=
  if decide (48 ≤ code c ≤ 57) then Some (code c - 48) else
  if decide (97 ≤ lower c ≤ 122) then Some (lower c - 97 + 10) else None.

Fixpoint base_value (base n : Z) (s : text) : option Z :=
  match s with
  | [] => Some n
  | c :: s' =>
      if decide (code c = 95) then base_value base n s' else
      match base_digit c with
      | Some d => if decide (d < base) then base_value base (n * base + d) s' else None
      | None => None
      end
  end.

(** [underscoreOK] after sign and base prefix; [prev] is the character before. *)
Inductive prev_char := PrevStart | PrevDigit | PrevUnderscore | PrevOther.
Fixpoint underscoreOK (hex : bool) (prev : prev_char) (s : text) : bool :=
  match s with
  | [] => match prev with PrevUnderscore => false | _ => true end
  | c :: s' =>
      if decide (48 ≤ code c ≤ 57) then underscoreOK hex PrevDigit s' else
      if hex && bool_decide (97 ≤ lower c ≤ 102) then underscoreOK hex PrevDigit s' else
      if decide (code c = 95) then
        match prev with PrevDigit => underscoreOK hex PrevUnderscore s' | _ => false end
      else match prev with PrevUnderscore => false | _ => underscoreOK hex PrevOther s' end
  end.

(** The base, whether a prefix with a letter named it, and what follows the prefix. *)
Definition base_prefix (s : text) : Z * bool * text :=
  match s with
  | z :: s' =>
      if decide (code z = 48) then
        match s' with
        | x :: (_ :: _) as rest =>
            if decide (lower x = 98) then (2, true, tail s') else
            if decide (lower x = 111) then (8, true, tail s') else
            if decide (lower x = 120) then (16, true, tail s') else (8, false, s')
        | _ => (8, false, s')
        end
      else (10, false, s)
  | [] => (10, false, [])
  end.

(** [ParseUint(s, 0, 64)]; the bound is checked by the caller. *)
Definition ParseUint (s : text) : option Z :=
  match s with
  | [] => None
  | _ =>
      let '(base, prefixed, digits) := base_prefix s in
      if (if prefixed then underscoreOK (bool_decide (base = 16)) PrevDigit digits
          else underscoreOK false PrevStart s)
      then base_value base 0 digits else None
  end.

(** [ParseInt(s, 0, 64)]; syntax and range errors are not told apart. *)
Definition ParseInt (s : text) : option Z :=
  let '(neg, digits) :=
    match s with
    | c :: s' => if decide (code c = 43) then (false, s') else if decide (code c = 45) then (true, s') else (false, s)
    | [] => (false, s)
    end in
  un ← ParseUint digits;
  let n := if (neg : bool) then - un else un in
  if decide (in_int64 n) then Some n else None.

(** The decimal text of a number. *)
Definition Int_String (n : Z) : text := (if decide (n < 0) then txt "-" else []) ++ fmtInt (Z.abs n).

Lemma digit_char_facts d : is_digit d → code (digit_char d) = 48 + d ∧ base_digit (digit_char d) = Some d.
Proof.
  intros Hd. pose proof (digit_char_code d Hd) as Hc. split; [done|]. unfold base_digit. rewrite Hc.
  unfold is_digit in Hd. rewrite decide_True by lia. f_equal. lia.
Qed.

Lemma base_value_digits ds n : Forall is_digit ds →
  base_value 10 n (print_digits ds) = Some (n * 10 ^ Z.of_nat (length ds) + value ds).
Proof.
  intros Hds. revert n. induction Hds as [|d ds Hd Hds IH]; intros n; [unfold value; simpl; f_equal; lia|].
  destruct (digit_char_facts d Hd) as [Hc Hb]. change (print_digits (d :: ds)) with (digit_char d :: print_digits ds).
  cbn [base_value]. unfold is_digit in Hd. rewrite (decide_False (P := code (digit_char d) = 95)) by lia. rewrite Hb.
  rewrite decide_True by lia. rewrite IH, value_cons. cbn [length]. rewrite Nat2Z.inj_succ, Z.pow_succ_r by lia. f_equal. ring.
Qed.

Lemma underscoreOK_digits ds hex prev : Forall is_digit ds → prev ≠ PrevUnderscore → underscoreOK hex prev (print_digits ds) = true.
Proof.
  intros Hds. revert prev. induction Hds as [|d ds Hd Hds IH]; intros prev Hp; [by destruct prev|].
  destruct (digit_char_facts d Hd) as [Hc _]. change (print_digits (d :: ds)) with (digit_char d :: print_digits ds).
  cbn [underscoreOK]. unfold is_digit in Hd. rewrite decide_True by lia. by apply IH.
Qed.

Lemma ParseUint_digits n : 0 ≤ n → ParseUint (print_digits (digits n)) = Some n.
Proof.
  intros Hn. destruct (decide (n = 0)) as [->|Hnz]; [reflexivity|].
  pose proof (digits_value n Hn) as Hv. pose proof (digits_digit n Hn) as Hd. pose proof (digits_head n Hn) as Hh.
  pose proof (digits_nonempty n Hn) as Hne. destruct (digits n) as [|d ds]; [done|].
  pose proof Hd as Hd'. apply Forall_cons in Hd' as [Hd0 _]. destruct (digit_char_facts d Hd0) as [Hc _].
  assert (d ≠ 0) by (intros ->; specialize (Hh eq_refl); subst ds; unfold value in Hv; simpl in Hv; lia).
  unfold ParseUint. change (print_digits (d :: ds)) with (digit_char d :: print_digits ds). cbn [base_prefix].
  rewrite decide_False by lia. change (digit_char d :: print_digits ds) with (print_digits (d :: ds)).
  rewrite underscoreOK_digits by done. rewrite base_value_digits by done. f_equal. lia.
Qed.

Lemma ParseInt_String n : in_int64 n → ParseInt (Int_String n) = Some n.
Proof.
  intros Hn. unfold ParseInt, Int_String, fmtInt. pose proof (ParseUint_digits (Z.abs n) ltac:(lia)) as Hu.
  destruct (decide (n < 0)) as [Hneg|Hneg].
  - change (txt "-" ++ ?x) with ("-"%char :: x). cbv beta iota. rewrite decide_False, decide_True by done.
    rewrite Hu. cbn [mbind option_bind]. replace (- Z.abs n) with n by lia. by rewrite decide_True.
  - pose proof (digits_digit (Z.abs n) ltac:(lia)) as Hd. pose proof (digits_nonempty (Z.abs n) ltac:(lia)) as Hne.
    change ([] ++ ?x) with x. destruct (digits (Z.abs n)) as [|d ds]; [done|]. apply Forall_cons in Hd as [Hd _].
    destruct (digit_char_facts d Hd) as [Hc _]. unfold is_digit in Hd.
    change (print_digits (d :: ds)) with (digit_char d :: print_digits ds) in *. cbv beta iota.
    rewrite (decide_False (P := code (digit_char d) = 43)) by lia. rewrite (decide_False (P := code (digit_char d) = 45)) by lia.
    rewrite Hu. cbn [mbind option_bind]. replace (Z.abs n) with n by lia. by rewrite decide_True.
Qed.

(** ** The flags *)

Definition DefaultScrapeInterval : Z := 3 * Minute.
Definition DefaultWorkerPoolSize : Z := 5.
Definition DefaultDebugPort : Z := 0.
Definition DefaultListenAddr : Z := 8080.
Definition DefaultKubeconfigCacheTTL : Z := 30 * Minute.

(** [zapcore.Level]: [Set] reads a name, [String] gives it. *)
Class ZapLevel (L : Type) := {
  InfoLevel : L;
  Level_Set : string → option L;
  Level_String : L → string;
}.
Class ZapLevelLaws (L : Type) {ZL : ZapLevel L} : Prop := {
  Level_Set_String l : Level_Set (Level_String l) = Some l;
}.

Inductive flag :=
| scrape_interval | worker_pool_size | log_level | listen_addr | debug_port | filter_runtime_file | kubeconfig_cache_ttl.

Definition flag_name (f : flag) : string :=
  match f with
  | scrape_interval => "scrape-interval"
  | worker_pool_size => "worker-pool-size"
  | log_level => "log-level"
  | listen_addr => "listen-addr"
  | debug_port => "debug-port"
  | filter_runtime_file => "filter-runtime-file"
  | kubeconfig_cache_ttl => "kubeconfig-cache-ttl"
  end.

Definition flags : list flag :=
  [scrape_interval; worker_pool_size; log_level; listen_addr; debug_port; filter_runtime_file; kubeconfig_cache_ttl].

(** [f.formal[name]] *)
Definition formal (name : string) : option flag := list_find (λ f, flag_name f = name) flags ≫= λ r, Some r.2.

(** The variables the flags are bound to. *)
Record variables := {
  scrapeInterval : Z;
  workerPoolSize : Z;
  logLevelStr : string;
  listenAddr : Z;
  debugPort : Z;
  filterRuntimeFile : string;
  kubeconfigCacheTTL : Z;
}.

(** [flag.Value.Set]; a value that is not accepted ends the program, so the variable does not matter. *)
Definition set (f : flag) (value : string) (v : variables) : option variables :=
  let '(Build_variables si wp ll la dp fr kt) := v in
  match f with
  | scrape_interval => d ← ParseDuration (txt value); Some (Build_variables d wp ll la dp fr kt)
  | worker_pool_size => n ← ParseInt (txt value); Some (Build_variables si n ll la dp fr kt)
  | log_level => Some (Build_variables si wp value la dp fr kt)
  | listen_addr => n ← ParseInt (txt value); Some (Build_variables si wp ll n dp fr kt)
  | debug_port => n ← ParseInt (txt value); Some (Build_variables si wp ll la n fr kt)
  | filter_runtime_file => Some (Build_variables si wp ll la dp value kt)
  | kubeconfig_cache_ttl => d ← ParseDuration (txt value); Some (Build_variables si wp ll la dp fr d)
  end.

(** Why [flag.Parse] ends the program: with status 0 for help, 2 otherwise. *)
Inductive flag_error :=
| BadFlagSyntax (s : string)
| FlagNotDefined (name : string)
| FlagNeedsArgument (name : string)
| InvalidValue (value name : string)
| ErrHelp.

(** The name and the value after the first equals sign that is not in front. *)
Fixpoint split_equals (s : string) : string * option string :=
  match s with
  | String c s' =>
      if decide (code c = 61) then ("", Some s')
      else let '(name, value) := split_equals s' in (String c name, value)
  | "" => ("", None)
  end.

(** What the first argument is. *)
Inductive arg := NoFlag | EndOfFlags | BadSyntax | Flag (name : string) (value : option string).

Definition parse_arg (s : string) : arg :=
  match s with
  | String c0 (String c1 rest) =>
      if decide (code c0 ≠ 45) then NoFlag else
      let dashes2 := bool_decide (code c1 = 45) in
      if dashes2 && bool_decide (rest = "") then EndOfFlags else
      match (if dashes2 then rest else String c1 rest) with
      | "" => BadSyntax
      | String n0 name' =>
          if decide (code n0 = 45 ∨ code n0 = 61) then BadSyntax else
          let '(name, value) := split_equals name' in Flag (String n0 name) value
      end
  | _ => NoFlag
  end.

(** [FlagSet.Parse], with the loop of [parseOne]. *)
Fixpoint parse_flags (fuel : nat) (args : list string) (v : variables) : variables + flag_error :=
  match fuel, args with
  | S fuel', s :: args' =>
      match parse_arg s with
      | NoFlag | EndOfFlags => inl v
      | BadSyntax => inr (BadFlagSyntax s)
      | Flag name value =>
          match formal name with
          | None => inr (if decide (name = "help" ∨ name = "h") then ErrHelp else FlagNotDefined name)
          | Some f =>
              match value, args' with
              | Some value, _ =>
                  match set f value v with
                  | Some v' => parse_flags fuel' args' v'
                  | None => inr (InvalidValue value name)
                  end
              | None, value :: args'' =>
                  match set f value v with
                  | Some v' => parse_flags fuel' args'' v'
                  | None => inr (InvalidValue value name)
                  end
              | None, [] => inr (FlagNeedsArgument name)
              end
          end
      end
  | _, _ => inl v
  end.

Section options.
Context {L : Type} {ZL : ZapLevel L}.

(** The fields about KEB are never set. *)
Record Options := {
  KEBPollWaitDuration : Z;
  KEBReqTimeout : Z;
  KEBRuntimeURL : option string;
  ScrapeInterval : Z;
  WorkerPoolSize : Z;
  DebugPort : Z;
  ListenAddr : Z;
  LogLevel : L;
  KubeconfigCacheTTL : Z;
  FilterRuntimeFile : string;
}.

(** How [ParseArgs] ends the program. *)
Inductive exit := FlagExit (e : flag_error) | LogFatal (msg : string).

Definition defaults : variables := {|
  scrapeInterval := DefaultScrapeInterval; workerPoolSize := DefaultWorkerPoolSize; logLevelStr := Level_String InfoLevel;
  listenAddr := DefaultListenAddr; debugPort := DefaultDebugPort; filterRuntimeFile := "";
  kubeconfigCacheTTL := DefaultKubeconfigCacheTTL |}.

Definition options_of (v : variables) (logLevel : L) : Options := {|
  KEBPollWaitDuration := 0; KEBReqTimeout := 0; KEBRuntimeURL := None;
  ScrapeInterval := scrapeInterval v; WorkerPoolSize := workerPoolSize v; DebugPort := debugPort v;
  LogLevel := logLevel; ListenAddr := listenAddr v; KubeconfigCacheTTL := kubeconfigCacheTTL v;
  FilterRuntimeFile := filterRuntimeFile v |}.

(** [args] is [os.Args[1:]].  The message prints the variable that was not set, whose zero value is
    [InfoLevel]. *)
Definition ParseArgs (args : list string) : Options + exit :=
  match parse_flags (length args) args defaults with
  | inr e => inr (FlagExit e)
  | inl v =>
      match Level_Set (logLevelStr v) with
      | None => inr (LogFatal ("failed to parse log level: " +:+ Level_String InfoLevel))
      | Some logLevel => inl (options_of v logLevel)
      end
  end.

(** ** Behaviour *)

(** The ways to write a flag with its value. *)
Inductive form := OneDash | TwoDashes | OneDashTwoArgs | TwoDashesTwoArgs.

Definition render (x : form * flag * string) : list string :=
  let '(fm, f, value) := x in
  match fm with
  | OneDash => ["-" +:+ flag_name f +:+ "=" +:+ value]
  | TwoDashes => ["--" +:+ flag_name f +:+ "=" +:+ value]
  | OneDashTwoArgs => ["-" +:+ flag_name f; value]
  | TwoDashesTwoArgs => ["--" +:+ flag_name f; value]
  end.

(** The flags are set from left to right; a value that does not parse stops this. *)
Fixpoint assign (l : list (form * flag * string)) (v : variables) : variables + flag_error :=
  match l with
  | [] => inl v
  | (_, f, value) :: l' =>
      match set f value v with Some v' => assign l' v' | None => inr (InvalidValue value (flag_name f)) end
  end.

(** Arguments in which no flag is looked for. *)
Definition operands (args : list string) : bool :=
  match args with
  | [] => true
  | s :: _ => match parse_arg s with NoFlag | EndOfFlags => true | _ => false end
  end.

Lemma parse_flags_operands fuel rest v : operands rest = true → parse_flags fuel rest v = inl v.
Proof. destruct fuel as [|fuel], rest as [|s rest]; try done. simpl. by destruct (parse_arg s). Qed.

Lemma parse_flags_render fuel x rest v : (length (render x ++ rest) ≤ fuel)%nat → ∃ fuel', (length rest ≤ fuel')%nat ∧
  parse_flags fuel (render x ++ rest) v =
    match set x.1.2 x.2 v with Some v' => parse_flags fuel' rest v' | None => inr (InvalidValue x.2 (flag_name x.1.2)) end.
Proof.
  destruct x as [[fm f] value]. intros Hf. destruct fuel as [|fuel]; [destruct fm; simpl in Hf; lia|].
  exists fuel. split; [rewrite length_app in Hf; destruct fm; simpl in Hf; lia|]. by destruct fm, f.
Qed.

Lemma parse_flags_assign l rest fuel v : operands rest = true → (length (concat (render <$> l) ++ rest) ≤ fuel)%nat →
  parse_flags fuel (concat (render <$> l) ++ rest) v = assign l v.
Proof.
  intros Hrest. revert fuel v. induction l as [|x l IH]; intros fuel v Hf; [by apply parse_flags_operands|].
  cbn [fmap list_fmap concat] in *. rewrite <- app_assoc in *.
  destruct (parse_flags_render fuel x (concat (render <$> l) ++ rest) v Hf) as (fuel' & Hf' & ->).
  destruct x as [[fm f] value]. cbn [assign fst snd]. destruct (set f value v); [by apply IH|done].
Qed.

(** The command line means what it says: flags in any order and in any of the four ways to write
    them are read from left to right over the defaults, so that the last value of a flag counts; the
    first value that does not parse, or a log level zap does not know, ends the program; what
    follows the flags is ignored. *)
Theorem ParseArgs_flags l rest : operands rest = true →
  ParseArgs (concat (render <$> l) ++ rest) =
    match assign l defaults with
    | inr e => inr (FlagExit e)
    | inl v =>
        match Level_Set (logLevelStr v) with
        | None => inr (LogFatal ("failed to parse log level: " +:+ Level_String InfoLevel))
        | Some logLevel => inl (options_of v logLevel)
        end
    end.
Proof. intros Hrest. unfold ParseArgs. by rewrite parse_flags_assign. Qed.

(** The command line for given options, in an order of its own. *)
Definition str (t : text) : string := String.string_of_list_ascii t.
Definition command_line (o : Options) : list string := concat (render <$> [
  (TwoDashes, scrape_interval, str (Duration_String (ScrapeInterval o)));
  (TwoDashes, worker_pool_size, str (Int_String (WorkerPoolSize o)));
  (OneDash, log_level, Level_String (LogLevel o));
  (OneDash, listen_addr, str (Int_String (ListenAddr o)));
  (TwoDashesTwoArgs, debug_port, str (Int_String (DebugPort o)));
  (OneDashTwoArgs, filter_runtime_file, FilterRuntimeFile o);
  (TwoDashes, kubeconfig_cache_ttl, str (Duration_String (KubeconfigCacheTTL o)))]).

(** The values fit their Go types, and the fields about KEB are unset. *)
Record options_ok (o : Options) : Prop := {
  ok_keb : KEBPollWaitDuration o = 0 ∧ KEBReqTimeout o = 0 ∧ KEBRuntimeURL o = None;
  ok_durations : in_int64 (ScrapeInterval o) ∧ in_int64 (KubeconfigCacheTTL o);
  ok_ints : in_int64 (WorkerPoolSize o) ∧ in_int64 (DebugPort o) ∧ in_int64 (ListenAddr o);
}.

Lemma txt_str t : txt (str t) = t.
Proof. apply String.list_ascii_of_string_of_list_ascii. Qed.

Context {ZLL : ZapLevelLaws L}.

(** C29 -- Every configuration can be given on the command line: printing its durations as Go does, its
    numbers in decimal and the log level by name gives arguments that [ParseArgs] turns into
    exactly these options. *)
Theorem ParseArgs_command_line o : options_ok o → ParseArgs (command_line o) = inl o.
Proof.
  intros [(? & ? & ?) (? & ?) (? & ? & ?)]. unfold ParseArgs, command_line.
  rewrite <- (app_nil_r (concat _)), parse_flags_assign by done. unfold defaults.
  repeat (progress cbn [assign set mbind option_bind] || rewrite txt_str || (rewrite ParseDuration_String by done) ||
    (rewrite ParseInt_String by done)). cbn [logLevelStr]. rewrite Level_Set_String. destruct o. simpl in *. subst. done.
Qed.

(** ** [Options.String] *)

(** The words of [Options.String], which puts blanks between them. *)
Definition String_words (o : Options) : list string :=
  ["--scrape-interval=" +:+ String.string_of_list_ascii (Duration_String (ScrapeInterval o));
   "--worker-pool-size=" +:+ pretty (WorkerPoolSize o);
   "--log-level=" +:+ Level_String (LogLevel o);
   "--listen-addr=" +:+ pretty (ListenAddr o) +:+ ",";
   "--debug-port=" +:+ pretty (DebugPort o)].
Definition Options_String (o : Options) : string := String.concat " " (String_words o).

(** A comma is neither a digit nor part of a prefix. *)
Lemma base_value_comma base n s : "," %char ∈ s → base_value base n s = None.
Proof.
  revert n. induction s as [|c s IH]; intros n Hin; [by apply not_elem_of_nil in Hin|]. cbn [base_value].
  apply elem_of_cons in Hin as [<-|Hin]; [reflexivity|]. rewrite !IH by done.
  case_decide; [done|]. destruct (base_digit c); [|done]. rewrite IH by done. by case_decide.
Qed.

Lemma base_prefix_comma s : "," %char ∈ s → "," %char ∈ (base_prefix s).2.
Proof.
  unfold base_prefix. destruct s as [|z s]; [done|]. intros Hin. case_decide as Hz; [|done].
  apply elem_of_cons in Hin as [<-|Hin]; [by vm_compute in Hz|].
  destruct s as [|x [|y s]]; [done..|].
  assert (Hx : lower x ≠ lower ","%char → "," %char ∈ y :: s).
  { intros Hx. apply elem_of_cons in Hin as [<-|?]; [done|done]. }
  repeat (case_decide as Hl; [apply Hx; rewrite Hl; vm_compute; discriminate|clear Hl]). exact Hin.
Qed.

Lemma ParseInt_comma s : "," %char ∈ s → ParseInt s = None.
Proof.
  intros Hin. assert (Hu : ∀ s, "," %char ∈ s → ParseUint s = None).
  { intros s' Hs. unfold ParseUint. destruct s' as [|c s']; [done|].
    apply base_prefix_comma in Hs. destruct (base_prefix (c :: s')) as [[base pre] ds]. cbn [snd] in Hs.
    rewrite base_value_comma by done. by case_match. }
  unfold ParseInt. destruct s as [|c s]; [by apply not_elem_of_nil in Hin|].
  assert (Htail : code c ≠ code ","%char → "," %char ∈ s) by (intros Hc; by apply elem_of_cons in Hin as [<-|?]).
  repeat (case_decide as Hc; [rewrite Hu; [done|]; apply Htail; rewrite Hc; vm_compute; discriminate|clear Hc]).
  by rewrite Hu.
Qed.

Lemma set_comma f value v : f ∈ [worker_pool_size; listen_addr; debug_port] → "," %char ∈ txt value → set f value v = None.
Proof.
  intros Hf Hin. destruct v. rewrite !elem_of_cons, elem_of_nil in Hf.
  destruct Hf as [->|[->|[->|[]]]]; cbn [set]; by rewrite ParseInt_comma.
Qed.

Lemma txt_app s s' : txt (s +:+ s') = txt s ++ txt s'.
Proof. induction s as [|c s IH]; [done|]. change (txt (String c s +:+ s')) with (c :: txt (s +:+ s')). by rewrite IH. Qed.

(** What [Options.String] prints looks like a command line but is not one: the comma it has
    after the port makes the value of [listen-addr] unreadable, for all options. *)
Theorem Options_String_unreadable o : ∃ e, ParseArgs (String_words o) = inr e.
Proof.
  unfold ParseArgs.
  change (String_words o) with (concat (render <$> [(TwoDashes, scrape_interval, String.string_of_list_ascii (Duration_String (ScrapeInterval o)));
    (TwoDashes, worker_pool_size, pretty (WorkerPoolSize o)); (TwoDashes, log_level, Level_String (LogLevel o));
    (TwoDashes, listen_addr, pretty (ListenAddr o) +:+ ","); (TwoDashes, debug_port, pretty (DebugPort o))]) ++ []).
  rewrite parse_flags_assign by done. cbn [assign].
  destruct (set scrape_interval _ _) as [v1|]; [|by eexists]. destruct (set worker_pool_size _ _) as [v2|]; [|by eexists].
  destruct (set log_level _ _) as [v3|]; [|by eexists]. rewrite set_comma; [by eexists|set_solver|].
  rewrite txt_app. apply elem_of_app. right. by left.
Qed.
End options.
#[global] Arguments Options : clear implicits.

(** ** Concrete command lines *)

(** Three of zap's levels. *)
Inductive sample_level := DebugLevel | Info_Level | WarnLevel.
#[global] Instance sample_ZapLevel : ZapLevel sample_level := {|
  InfoLevel := Info_Level;
  Level_Set := λ s, if decide (s = "debug") then Some DebugLevel else if decide (s = "info") then Some Info_Level else
                    if decide (s = "warn") then Some WarnLevel else None;
  Level_String := λ l, match l with DebugLevel => "debug" | Info_Level => "info" | WarnLevel => "warn" end;
|}.
#[global] Instance sample_ZapLevelLaws : ZapLevelLaws sample_level.
Proof. split. by intros []. Qed.

Lemma ParseArgs_flags_witness :
  ∃ o : Options sample_level, ParseArgs ["--scrape-interval=1m"; "-log-level"; "debug"; "--scrape-interval=1h30m"; "x"; "--y"] = inl o ∧
  ScrapeInterval o = 90 * Minute ∧ LogLevel o = DebugLevel ∧ ListenAddr o = 8080.
Proof.
  pose proof (ParseArgs_flags (L := sample_level) [(TwoDashes, scrape_interval, "1m"); (OneDashTwoArgs, log_level, "debug");
    (TwoDashes, scrape_interval, "1h30m")] ["x"; "--y"] eq_refl) as H.
  eexists. split; [exact H|]. split_and!; vm_compute; reflexivity.
Defined.

Definition sample_options : Options sample_level :=
  {| KEBPollWaitDuration := 0; KEBReqTimeout := 0; KEBRuntimeURL := None; ScrapeInterval := 90 * Second + 1; WorkerPoolSize := 20;
     DebugPort := 0; ListenAddr := 8081; LogLevel := WarnLevel; KubeconfigCacheTTL := 45 * Minute; FilterRuntimeFile := "/etc/filter.yaml" |}.

Lemma ParseArgs_command_line_witness :
  options_ok sample_options ∧ ParseArgs (command_line sample_options) = inl sample_options.
Proof.
  assert (Hok : options_ok sample_options) by (split; vm_compute; repeat split; discriminate).
  split; [exact Hok|]. exact (ParseArgs_command_line sample_options Hok).
Defined.
