(* ===== verification/Server.v ===== *)
(** * Server: serving HTTP until a signal ([pkg/service/server.go])

    [Start] runs [ListenAndServe] in a goroutine, waits for a signal, and shuts the server down.  The two
    goroutines, the operating system and [net/http] take turns in any order; what [net/http]
    documents is in the rules: [ListenAndServe] always returns an error, and it returns
    [http.ErrServerClosed] once [Shutdown] was called. *)
From S2P Require Import Prelude GoStd.
Local Open Scope Z_scope.
Local Open Scope list_scope.

Definition ErrServerClosed : error := Sentinel "http.ErrServerClosed" "http: Server closed".

(** [err == http.ErrServerClosed] *)
Definition isServerClosed (err : error) : bool :=
  match err with Sentinel name _ => bool_decide (name = "http.ErrServerClosed") | _ => false end.

Definition Second : Z := 10 ^ 9.
Definition serverReadTimeout : Z := 10 * Second.
Definition serverWriteTimeout : Z := 5 * Second.
Definition serverIdleTimeout : Z := 15 * Second.
Definition serverStopTimeout : Z := 5 * Second.

(** [service.Server] and the [http.Server] that [Start] builds of it. *)
Record Server {Router : Type} := { Addr : string; Server_Router : Router }.
#[global] Arguments Server : clear implicits.
Record HttpServer {Router : Type} := {
  http_Addr : string;
  Handler : Router;
  ReadTimeout : Z;
  WriteTimeout : Z;
  IdleTimeout : Z;
}.
#[global] Arguments HttpServer : clear implicits.

Definition httpServer {Router} (s : Server Router) : HttpServer Router :=
  {| http_Addr := Addr s; Handler := Server_Router s; ReadTimeout := serverReadTimeout;
     WriteTimeout := serverWriteTimeout; IdleTimeout := serverIdleTimeout |}.

(** ** The goroutines *)

(** The goroutine that serves: before [ListenAndServe] returned, and after it logged that. *)
Inductive serving := Serving | ServingStopped.
(** [Start] itself: before the signal, in [Shutdown] (with this grace period), and after it. *)
Inductive starting := WaitingForSignal | InShutdown (timeout : Z) | Returned.
(** The process runs, or [Fatal] ended it. *)
Inductive life := Alive | FatalExit (msg : string) (err : error).

(** The channel [done] holds one signal; more are dropped. *)
Record state := { st_serving : serving; st_start : starting; st_pending : bool; st_life : life }.

Definition initial : state := {| st_serving := Serving; st_start := WaitingForSignal; st_pending := false; st_life := Alive |}.

(** The check after [ListenAndServe]. *)
Definition serveReturns (err : error) (s : state) : state :=
  if isServerClosed err
  then {| st_serving := ServingStopped; st_start := st_start s; st_pending := st_pending s; st_life := st_life s |}
  else {| st_serving := st_serving s; st_start := st_start s; st_pending := st_pending s; st_life := FatalExit "start server" err |}.

(** The check after [Shutdown]. *)
Definition shutdownReturns (err : option error) (s : state) : state :=
  match err with
  | None => {| st_serving := st_serving s; st_start := Returned; st_pending := st_pending s; st_life := st_life s |}
  | Some err => {| st_serving := st_serving s; st_start := st_start s; st_pending := st_pending s;
                   st_life := FatalExit "server is shutting down" err |}
  end.

(** What happens: a signal arrives, [Start] calls [Shutdown], or one of the two calls of [net/http] returns. *)
Inductive event :=
| Signal
| ShutdownCalled (timeout : Z)
| ListenReturned (err : error)
| ShutdownReturned (err : option error).

Inductive step : event → state → state → Prop :=
| step_signal s : st_life s = Alive →
    step Signal s {| st_serving := st_serving s; st_start := st_start s; st_pending := true; st_life := Alive |}
| step_done s : st_life s = Alive → st_start s = WaitingForSignal → st_pending s = true →
    step (ShutdownCalled serverStopTimeout) s
      {| st_serving := st_serving s; st_start := InShutdown serverStopTimeout; st_pending := false; st_life := Alive |}
| step_serve err s : st_life s = Alive → st_serving s = Serving →
    (isServerClosed err = true → st_start s ≠ WaitingForSignal) → step (ListenReturned err) s (serveReturns err s)
| step_shutdown err timeout s : st_life s = Alive → st_start s = InShutdown timeout →
    step (ShutdownReturned err) s (shutdownReturns err s).

(** The events that lead to a state, in their order. *)
Inductive history : list event → state → Prop :=
| history_nil : history [] initial
| history_snoc h e s s' : history h s → step e s s' → history (h ++ [e]) s'.

(** ** What the events say about the state *)

(** A signal, and after it the call of [Shutdown] with its grace period. *)
Definition shutdown_begun : list event := [Signal; ShutdownCalled serverStopTimeout].

(** Why the process was ended. *)
Definition fatal_cause (h : list event) (msg : string) (err : error) : Prop :=
  (msg = "start server" ∧ isServerClosed err = false ∧ ListenReturned err ∈ h) ∨
  (msg = "server is shutting down" ∧ ShutdownReturned (Some err) ∈ h).

Record inv (h : list event) (s : state) : Prop := {
  inv_pending : st_pending s = true → Signal ∈ h;
  inv_begun : st_start s ≠ WaitingForSignal → shutdown_begun `sublist_of` h;
  inv_stopped : st_serving s = ServingStopped → st_start s ≠ WaitingForSignal;
  inv_returned : st_start s = Returned ↔ ShutdownReturned None ∈ h;
  inv_shutdown err : ShutdownReturned err ∈ h → (shutdown_begun ++ [ShutdownReturned err]) `sublist_of` h;
  inv_fatal msg err : st_life s = FatalExit msg err ↔ fatal_cause h msg err;
}.

Lemma snoc_other (h : list event) e e' : e ≠ e' → e ∈ h ++ [e'] ↔ e ∈ h.
Proof. intros Hne. rewrite elem_of_app, list_elem_of_singleton. naive_solver. Qed.

Lemma snoc_last (h : list event) e : e ∈ h ++ [e].
Proof. apply elem_of_app. right. by apply list_elem_of_singleton. Qed.

(** While the process runs there is no cause to end it. *)
Lemma inv_alive h s msg err : inv h s → st_life s = Alive → ¬ fatal_cause h msg err.
Proof. intros Hinv Ha [=]%(inv_fatal _ _ Hinv). congruence. Qed.

Lemma signal_inv h s : inv h s → st_life s = Alive →
  inv (h ++ [Signal]) {| st_serving := st_serving s; st_start := st_start s; st_pending := true; st_life := Alive |}.
Proof.
  intros Hinv Ha. split; simpl.
  - intros _. apply snoc_last.
  - intros Hw. by apply sublist_inserts_r, (inv_begun _ _ Hinv).
  - apply (inv_stopped _ _ Hinv).
  - rewrite snoc_other by done. apply (inv_returned _ _ Hinv).
  - intros err. rewrite snoc_other by done. intros Hin. by apply sublist_inserts_r, (inv_shutdown _ _ Hinv).
  - intros msg err. unfold fatal_cause. rewrite !snoc_other by done. split; [done|].
    intros Hc. by destruct (inv_alive h s msg err Hinv Ha).
Qed.

Lemma done_inv h s : inv h s → st_life s = Alive → st_start s = WaitingForSignal → st_pending s = true →
  inv (h ++ [ShutdownCalled serverStopTimeout])
    {| st_serving := st_serving s; st_start := InShutdown serverStopTimeout; st_pending := false; st_life := Alive |}.
Proof.
  intros Hinv Ha Hw Hp. split; simpl.
  - done.
  - intros _. apply (sublist_app [Signal] h); [|done]. by apply singleton_sublist_l, (inv_pending _ _ Hinv).
  - intros Hs. by destruct (inv_stopped _ _ Hinv Hs).
  - rewrite snoc_other by done. rewrite <- (inv_returned _ _ Hinv), Hw. done.
  - intros err. rewrite snoc_other by done. intros Hin. by apply sublist_inserts_r, (inv_shutdown _ _ Hinv).
  - intros msg err. unfold fatal_cause. rewrite !snoc_other by done. split; [done|].
    intros Hc. by destruct (inv_alive h s msg err Hinv Ha).
Qed.

Lemma serve_inv h s err : inv h s → st_life s = Alive → (isServerClosed err = true → st_start s ≠ WaitingForSignal) →
  inv (h ++ [ListenReturned err]) (serveReturns err s).
Proof.
  intros Hinv Ha Hclosed. unfold serveReturns. destruct (isServerClosed err) eqn:Herr; split; simpl; rewrite ?snoc_other by done;
    try apply Hinv; try (intros err'; rewrite snoc_other by done; intros Hin; by apply sublist_inserts_r, (inv_shutdown _ _ Hinv));
    try (intros Hw; by apply sublist_inserts_r, (inv_begun _ _ Hinv)); try (intros _; by apply Hclosed).
  all: intros msg err'; unfold fatal_cause; rewrite (snoc_other _ (ShutdownReturned _)) by done;
    rewrite elem_of_app, list_elem_of_singleton.
  - rewrite (inv_fatal _ _ Hinv). unfold fatal_cause. naive_solver congruence.
  - pose proof (inv_alive h s msg err' Hinv Ha) as Hno. unfold fatal_cause in Hno. naive_solver congruence.
Qed.

Lemma shutdown_inv h s err timeout : inv h s → st_life s = Alive → st_start s = InShutdown timeout →
  inv (h ++ [ShutdownReturned err]) (shutdownReturns err s).
Proof.
  intros Hinv Ha Hd. assert (Hbegun : shutdown_begun `sublist_of` h) by (apply (inv_begun _ _ Hinv); by rewrite Hd).
  assert (Hlast : ∀ err', ShutdownReturned err' ∈ h ++ [ShutdownReturned err] →
    (shutdown_begun ++ [ShutdownReturned err']) `sublist_of` (h ++ [ShutdownReturned err])).
  { intros err'. rewrite elem_of_app, list_elem_of_singleton. intros [Hin|[= ->]]; [|by apply sublist_app].
    by apply sublist_inserts_r, (inv_shutdown _ _ Hinv). }
  pose proof (inv_alive h s) as Hno. unfold fatal_cause in Hno.
  destruct err as [err|]; split; simpl; rewrite ?snoc_other by done; try apply Hinv; try exact Hlast;
    try (intros _; by apply sublist_inserts_r).
  - intros msg err'. unfold fatal_cause. rewrite snoc_other by done. rewrite elem_of_app, list_elem_of_singleton.
    specialize (Hno msg err' Hinv Ha). naive_solver.
  - done.
  - split; [|done]. intros _. apply snoc_last.
  - intros msg err'. unfold fatal_cause. rewrite !snoc_other by done. apply Hinv.
Qed.

Lemma server_inv h s : history h s → inv h s.
Proof.
  induction 1 as [|h e s s' _ IH Hstep].
  - split; simpl; try done; [split; [done|by intros ?%elem_of_nil]|by intros err ?%elem_of_nil|].
    intros msg err. split; [done|]. by intros [(_ & _ & ?%elem_of_nil)|[_ ?%elem_of_nil]].
  - destruct Hstep; [by apply signal_inv|by apply done_inv|by apply serve_inv|by eapply shutdown_inv].
Qed.

(** C35 -- [Start] returns exactly when [Shutdown] succeeded, and whatever [Shutdown] answers, it was called after a signal had arrived, with
    the grace period of five seconds.  The process is ended exactly if listening failed with an error other than the one a
    shutdown causes, or if [Shutdown] failed, and the message tells which.  The serving goroutine ends without ending the process only when a
    shutdown had begun, so a graceful stop is never mistaken for a failure. *)
Theorem Start_stops_gracefully h s : history h s →
  (st_start s = Returned ↔ ShutdownReturned None ∈ h) ∧
  (∀ err, ShutdownReturned err ∈ h →
     [Signal; ShutdownCalled serverStopTimeout; ShutdownReturned err] `sublist_of` h) ∧
  (∀ msg err, st_life s = FatalExit msg err ↔
     (msg = "start server" ∧ isServerClosed err = false ∧ ListenReturned err ∈ h) ∨
     (msg = "server is shutting down" ∧ ShutdownReturned (Some err) ∈ h)) ∧
  (st_serving s = ServingStopped → [Signal; ShutdownCalled serverStopTimeout] `sublist_of` h).
Proof.
  intros Hinv%server_inv. split_and!; try apply Hinv. intros Hs. by apply (inv_begun _ _ Hinv), (inv_stopped _ _ Hinv).
Qed.

(** ** A graceful stop *)

Definition stopped : state := {| st_serving := ServingStopped; st_start := Returned; st_pending := false; st_life := Alive |}.
Definition graceful : list event :=
  [Signal; ShutdownCalled serverStopTimeout; ListenReturned ErrServerClosed; ShutdownReturned None].

Lemma Start_stops_gracefully_witness : history graceful stopped ∧ ShutdownReturned None ∈ graceful ∧ st_life stopped = Alive.
Proof.
  assert (Hr : history graceful stopped).
  { apply (history_snoc [_; _; _] _ {| st_serving := ServingStopped; st_start := InShutdown serverStopTimeout; st_pending := false; st_life := Alive |});
      [|by apply (step_shutdown None serverStopTimeout)].
    apply (history_snoc [_; _] _ {| st_serving := Serving; st_start := InShutdown serverStopTimeout; st_pending := false; st_life := Alive |});
      [|by apply step_serve].
    apply (history_snoc [_] _ {| st_serving := Serving; st_start := WaitingForSignal; st_pending := true; st_life := Alive |}); [|by apply step_done].
    apply (history_snoc [] _ initial); [constructor|by apply step_signal]. }
  split; [exact Hr|]. split; [|reflexivity]. by apply (Start_stops_gracefully graceful stopped Hr).
Defined.
