(* ===== verification/Main.v ===== *)
(** * Main: starting the collector ([cmd/main.go], [pkg/otel/otel.go])

    [main] reads options, configuration and credentials one after the other, ends the process at the first one
    that is not usable, and otherwise starts the collector and the HTTP servers.  What the outside
    answers is a record; what [main] starts is a list of events. *)
From S2P Require Import Prelude GoStd GoFloat Resource CloudSpecs PvcScan ClusterTracking Effects Libraries Clients Process.
From S2P Require Import Samples Retry EdpPayload EdpClient KebClient KubeconfigProvider FilterClusters.
From S2P Require Import Decimal Json SpecsJson Duration Options Server.
Local Open Scope Z_scope.
Local Open Scope list_scope.

Definition metricsPath : string := "/metrics".
Definition healthzPath : string := "/healthz".
Definition edpCredentialsFile : string := "/edp-credentials/token".

(** What serves a path; the handlers of [net/http/pprof] by their names. *)
Inductive handler := HealthzHandler | PromHandler | PprofHandler (name : string).
Abbreviation Router := (list (string * handler)).

(** ** The outside *)

(** The library calls of [main] and their answers: the command line, [otlptrace.New], [envconfig.Process] for each
    configuration, [os.ReadFile], decoders, client-go, and in the end the server (Server.v). *)
Record Outside := {
  os_Args : list string;
  otlptrace_New : option error;
  process_env : string + error;
  process_keb : KebClient.Config + error;
  process_edp : EdpClient.Config + error;
  os_ReadFile : string → string + error;
  unmarshal_accounts : string → list string + error;
  uuid_Validate : string → option error;
  InClusterConfig : handle + error;
  NewForConfig : handle → handle + error;
  server_ends : Server.life;   (** how the wait of [main] for its server ends: [Start] returned, or the process was ended *)
}.

(** ** What main starts *)

(** The configuration with which the collector runs. *)
Record App := {
  app_process : Process;
  app_keb : KebClient.Config;
  app_edp : EdpClient.Config;
  app_specs : PublicCloudSpecs;
  app_secrets : handle;
  app_ttl : Z;
  app_cacheName : string;
}.

Inductive event :=
| SetTracerProvider
| RegisterTLSCacheMetrics
| GoStart (app : App)                    (** [go kmcProcess.Start()] *)
| GoServe (s : Server Router)            (** a server in a goroutine *)
| Serve (s : Server Router)              (** the server [main] waits for *)
| OTelShutdown.                          (** the deferred call, which [Fatal] skips *)

Inductive ending := OptionsExit (e : exit) | Fatal (msg : string) (err : error).

(** Code that emits events and may end the process. *)
Definition boot (A : Type) : Type := list event * (A + ending).
#[global] Instance boot_ret : MRet boot := λ A a, ([], inl a).
#[global] Instance boot_bind : MBind boot := λ A B k m,
  match m with
  | (evs, inl a) => let '(evs', r) := k a in (evs ++ evs', r)
  | (evs, inr e) => (evs, inr e)
  end.
Definition emit (e : event) : boot unit := ([e], inl ()).
(** [if err != nil { logger....Fatal(msg) }] *)
Definition orFatal {A} (msg : string) (r : A + error) : boot A :=
  match r with inl a => ([], inl a) | inr err => ([], inr (Fatal msg err)) end.

(** What becomes of [main] when its server ended. *)
Definition served (l : Server.life) : boot unit :=
  match l with Server.Alive => mret () | Server.FatalExit msg err => ([], inr (Fatal msg err)) end.

(** [strings.TrimSuffix] *)
Definition TrimSuffix (s suffix : string) : string :=
  let n := (String.length s - String.length suffix)%nat in
  if decide (s = String.substring 0 n s +:+ suffix) then String.substring 0 n s else s.
Definition newline : string := String (Ascii.ascii_of_nat 10) "".

Section main.
Context {L : Type} {ZL : ZapLevel L} (o : Outside).

Definition newTraceProvider : unit + error :=
  match otlptrace_New o with
  | Some err => inr (wrapError ("failed to create trace exporter: " +:+ Error err) err)
  | None => inl ()
  end.

Definition SetupSDK : boot (unit + error) :=
  match newTraceProvider with
  | inr err => mret (inr err)
  | inl _ => emit SetTracerProvider;; mret (inl ())
  end.

Definition getEDPToken : string + error :=
  match os_ReadFile o edpCredentialsFile with
  | inr err => inr err
  | inl token => inl (TrimSuffix token newline)
  end.

Definition enableDebugging (debugPort : Z) : boot unit :=
  emit (GoServe {| Addr := "127.0.0.1:" +:+ pretty debugPort;
    Server_Router := [("/debug/pprof/", PprofHandler "Index"); ("/debug/pprof/cmdline", PprofHandler "Cmdline");
      ("/debug/pprof/profile", PprofHandler "Profile"); ("/debug/pprof/symbol", PprofHandler "Symbol");
      ("/debug/pprof/trace", PprofHandler "Trace"); ("/debug/pprof/block", PprofHandler "block");
      ("/debug/pprof/goroutine", PprofHandler "goroutine"); ("/debug/pprof/heap", PprofHandler "heap");
      ("/debug/pprof/threadcreate", PprofHandler "threadcreate")] |}).

Definition main : boot unit :=
  match ParseArgs (L := L) (os_Args o) with
  | inr e => ([], inr (OptionsExit e))
  | inl opts =>
      sdk ← SetupSDK;
      _ ← orFatal "Set up OTel SDK" sdk;
      emit RegisterTLSCacheMetrics;;
      path ← orFatal "Load env config" (process_env o);
      publicCloudSpecs ← orFatal "Load public cloud spec" (LoadPublicCloudSpecs (os_ReadFile o) SpecsJson.Unmarshal path);
      k8sConfig ← orFatal "Load InCluster Config" (InClusterConfig o);
      secretCacheClient ← orFatal "Setup secrets client" (NewForConfig o k8sConfig);
      kebConfig ← orFatal "Load KEB config" (process_keb o);
      edpConfig ← orFatal "Load EDP config" (process_edp o);
      token ← orFatal "Load EDP token" getEDPToken;
      let edpConfig := with_Token edpConfig token in
      kmcProcess ← orFatal "Create KMC process"
        (FilterClusters.New (os_ReadFile o) (unmarshal_accounts o) (uuid_Validate o) true true true true true true
          (Config_PollWaitDuration kebConfig) (Options.ScrapeInterval opts) (WorkerPoolSize opts) (FilterRuntimeFile opts));
      emit (GoStart {| app_process := kmcProcess; app_keb := kebConfig; app_edp := edpConfig; app_specs := publicCloudSpecs;
                       app_secrets := secretCacheClient; app_ttl := KubeconfigCacheTTL opts;
                       app_cacheName := kubeconfigProviderName |});;
      (if decide (DebugPort opts > 0) then enableDebugging (DebugPort opts) else mret ());;
      emit (Serve {| Addr := ":" +:+ pretty (ListenAddr opts);
                     Server_Router := [(healthzPath, HealthzHandler); (metricsPath, PromHandler)] |});;
      served (server_ends o);;
      emit OTelShutdown
  end.

(** ** Behaviour *)

(** All that is needed is there, and [app] is made of it. *)
Record configured (opts : Options L) (app : App) : Prop := {
  cf_otel : otlptrace_New o = None;
  cf_specs : ∃ path, process_env o = inl path ∧
    LoadPublicCloudSpecs (os_ReadFile o) SpecsJson.Unmarshal path = inl (app_specs app);
  cf_secrets : ∃ k8sConfig, InClusterConfig o = inl k8sConfig ∧ NewForConfig o k8sConfig = inl (app_secrets app);
  cf_keb : process_keb o = inl (app_keb app);
  cf_edp : ∃ edpConfig token, process_edp o = inl edpConfig ∧ os_ReadFile o edpCredentialsFile = inl token ∧
    app_edp app = with_Token edpConfig (TrimSuffix token newline);
  cf_process : FilterClusters.New (os_ReadFile o) (unmarshal_accounts o) (uuid_Validate o) true true true true true true
    (Config_PollWaitDuration (app_keb app)) (Options.ScrapeInterval opts) (WorkerPoolSize opts) (FilterRuntimeFile opts) =
    inl (app_process app);
  cf_ttl : app_ttl app = KubeconfigCacheTTL opts ∧ app_cacheName app = kubeconfigProviderName;
}.

(** The servers [main] starts. *)
Definition servers (opts : Options L) : list event :=
  (if decide (DebugPort opts > 0) then (enableDebugging (DebugPort opts)).1 else []) ++
  [Serve {| Addr := ":" +:+ pretty (ListenAddr opts); Server_Router := [(healthzPath, HealthzHandler); (metricsPath, PromHandler)] |}].

(** The rest of [main]. *)
Definition ends (evs : list event) : boot unit :=
  match server_ends o with
  | Server.Alive => (evs ++ [OTelShutdown], inl ())
  | Server.FatalExit msg err => (evs, inr (Fatal msg err))
  end.

Definition preparation : list event := [SetTracerProvider; RegisterTLSCacheMetrics].

(** A configuration determines every answer. *)
Ltac no_configuration :=
  intros app [? (? & ? & ?) (? & ? & ?) ? (? & ? & ? & ? & ?) ? ?]; simplify_eq; try congruence.

Lemma configured_unique opts app app' : configured opts app → configured opts app' → app = app'.
Proof.
  intros [_ (? & ? & ?) (? & ? & ?) ? (? & ? & ? & ? & ?) ? [? ?]] [_ (? & ? & ?) (? & ? & ?) ? (? & ? & ? & ? & ?) ? [? ?]].
  destruct app, app'. simpl in *. f_equal; congruence.
Qed.

(** [main] fails after part of the preparations, or does everything. *)
Lemma main_cases :
  match ParseArgs (L := L) (os_Args o) with
  | inr e => main = ([], inr (OptionsExit e))
  | inl opts =>
      (∃ evs msg err, main = (evs, inr (Fatal msg err)) ∧ evs ⊆ preparation ∧ ∀ app, ¬ configured opts app) ∨
      (∃ app, configured opts app ∧ main = ends (preparation ++ [GoStart app] ++ servers opts))
  end.
Proof.
  unfold main. destruct (ParseArgs (os_Args o)) as [opts|e]; [|done].
  unfold SetupSDK, newTraceProvider. destruct (otlptrace_New o) as [err|] eqn:Hotel.
  { left. do 3 eexists. split; [reflexivity|]. split; [set_solver|]. no_configuration. }
  assert (Hfail : ∀ msg err, (∀ app, ¬ configured opts app) → ∃ evs msg' err',
    (preparation, inr (A := unit) (Fatal msg err)) = (evs, inr (Fatal msg' err')) ∧ evs ⊆ preparation ∧
    ∀ app, ¬ configured opts app) by (intros msg err Hno; by exists preparation, msg, err).
  destruct (process_env o) as [path|err] eqn:Henv; [|left; apply Hfail; no_configuration].
  destruct (LoadPublicCloudSpecs (os_ReadFile o) SpecsJson.Unmarshal path) as [specs|err] eqn:Hspecs;
    [|left; cbn -[FilterClusters.New LoadPublicCloudSpecs]; rewrite Hspecs; apply Hfail; no_configuration].
  cbn -[FilterClusters.New LoadPublicCloudSpecs]. rewrite Hspecs. cbn -[FilterClusters.New].
  destruct (InClusterConfig o) as [k8sConfig|err] eqn:Hk8s; [cbn -[FilterClusters.New]|left; apply Hfail; no_configuration].
  destruct (NewForConfig o k8sConfig) as [secrets|err] eqn:Hsec; [cbn -[FilterClusters.New]|left; apply Hfail; no_configuration].
  destruct (process_keb o) as [keb|err] eqn:Hkeb; [cbn -[FilterClusters.New]|left; apply Hfail; no_configuration].
  destruct (process_edp o) as [edp|err] eqn:Hedp; [cbn -[FilterClusters.New]|left; apply Hfail; no_configuration].
  unfold getEDPToken. destruct (os_ReadFile o edpCredentialsFile) as [token|err] eqn:Htok;
    [cbn -[FilterClusters.New]|left; apply Hfail; no_configuration].
  destruct (FilterClusters.New _ _ _ _ _ _ _ _ _ _ _ _ _) as [p|err] eqn:Hp; [cbn -[FilterClusters.New]|left; apply Hfail; no_configuration].
  right. eexists. split; [|unfold servers, ends; by case_decide; destruct (server_ends o)]. split; cbn; naive_solver.
Qed.

Lemma started_ends opts app : GoStart app ∈ (ends (preparation ++ [GoStart app] ++ servers opts)).1.
Proof. unfold ends, preparation. destruct (server_ends o); set_solver. Qed.

Lemma ends_started opts app app' : GoStart app' ∈ (ends (preparation ++ [GoStart app] ++ servers opts)).1 → app' = app.
Proof.
  assert (Hserv : GoStart app' ∉ servers opts).
  { unfold servers. rewrite elem_of_app. intros [Hin|Hin]; [|set_solver]. case_decide; [|by apply elem_of_nil in Hin].
    cbn in Hin. by apply list_elem_of_singleton in Hin. }
  unfold ends, preparation. destruct (server_ends o); cbn [fst]; rewrite !elem_of_app, ?list_elem_of_singleton; set_solver.
Qed.

(** C12 -- The collector starts completely or not at all.  It is started exactly if the options parse and every
    configuration, credential and filter file is usable, with the configuration made of these (the EDP token
    without its trailing newline); then [main] serves, and shuts tracing down exactly if its server returns, not if the process is
    ended while it serves.  Otherwise the process ends at the first unusable input, and
    no polling, worker or server was started. *)
Theorem main_all_or_nothing :
  (∀ app, GoStart app ∈ main.1 ↔ ∃ opts, ParseArgs (os_Args o) = inl opts ∧ configured opts app) ∧
  (main.1 ⊆ preparation ∧ (∃ e, main.2 = inr e) ∨
   ∃ opts app, ParseArgs (os_Args o) = inl opts ∧ configured opts app ∧
     match server_ends o with
     | Server.Alive => main = (preparation ++ [GoStart app] ++ servers opts ++ [OTelShutdown], inl ())
     | Server.FatalExit msg err => main = (preparation ++ [GoStart app] ++ servers opts, inr (Fatal msg err))
     end).
Proof.
  pose proof main_cases as Hcases. destruct (ParseArgs (L := L) (os_Args o)) as [opts|e] eqn:Hopts.
  - destruct Hcases as [(evs & msg & err & -> & Hsub & Hno)|(app & Hconf & Hmain)]; cbn [fst snd].
    + split; [|left; eauto]. intros app. split; [|naive_solver]. intros Hin%Hsub. unfold preparation in Hin. set_solver.
    + split; [|right; exists opts, app; rewrite Hmain; unfold ends; rewrite !app_assoc; by destruct (server_ends o)].
      intros app'. split; [|intros (opts' & [= <-] & Hconf')].
      * intros Hin. exists opts. split; [done|]. enough (app' = app) as -> by done. rewrite Hmain in Hin. by eapply ends_started.
      * rewrite (configured_unique opts app' app) by done. rewrite Hmain. apply started_ends.
  - rewrite Hcases. cbn. split; [|left; split; [set_solver|eauto]]. intros app. split; [intros Hin; by apply elem_of_nil in Hin|naive_solver].
Qed.
End main.

(** ** A concrete start *)

Definition sample_outside (args : list string) : Outside := {|
  os_Args := args;
  otlptrace_New := None;
  process_env := inl "/specs.json";
  process_keb := inl sample_keb;
  process_edp := inl (with_Token sample_config "");
  os_ReadFile := λ file, inl (if decide (file = edpCredentialsFile) then "secret" +:+ newline else fractional_json);
  unmarshal_accounts := λ _, inl [];
  uuid_Validate := λ _, None;
  InClusterConfig := inl 1%positive;
  NewForConfig := λ _, inl 2%positive;
  server_ends := Server.Alive;
|}.

(** The collector started with these arguments, if any. *)
Definition started (args : list string) : option App :=
  match (main (L := sample_level) (sample_outside args)).1 with _ :: _ :: GoStart app :: _ => Some app | _ => None end.

Example started_token : Token ∘ app_edp <$> started ["--worker-pool-size=20"] = Some "secret".
Proof. vm_compute. reflexivity. Qed.

(** The servers of a start with a debug port. *)
Example started_servers :
  omap (λ e, match e with GoServe s | Serve s => Some (Addr s) | _ => None end)
    (main (L := sample_level) (sample_outside ["-debug-port"; "8888"])).1 = ["127.0.0.1:8888"; ":8080"].
Proof. vm_compute. reflexivity. Qed.

(** A time to live of three minutes is accepted, with which the workers of Kmc panic. *)
Example short_ttl_accepted : app_ttl <$> started ["--kubeconfig-cache-ttl=3m"] = Some (180 * 10 ^ 9).
Proof. vm_compute. reflexivity. Qed.
