(* ===== verification/RandomString.v ===== *)
(** * RandomString: random names for tests ([GenerateRandomAlphaString] of [pkg/testing/helpers.go])

    Random bytes are drawn in buffers and turned into letters, dropping the bytes that are no letter's index.
    The loop is compared with a reference: the letters of the bytes it picks, in order. *)
From S2P Require Import Prelude GoFloat.
Local Open Scope Z_scope.
Local Open Scope list_scope.

Definition letterBytes : string := "abcdefghijklmnopqrstuvwxyzABCDEFGHIJKLMNOPQRSTUVWXYZ".
Definition letterIdxBits : Z := 6.
Definition letterIdxMask : Z := Z.shiftl 1 letterIdxBits - 1.

(** The letter of a byte: [letterBytes[idx]] if [idx] is in range. *)
Definition letter (b : Z) : option Ascii.ascii := String.get (Z.to_nat (Z.land b letterIdxMask)) letterBytes.

(** [float64(length) * 1.3], the constant rounded to the nearest float, and [int] of it. *)
Definition bufferScalingFactor : float64 := fdiv (float64_of_int64 13) (float64_of_int64 10).
Definition bufferSize (length : Z) : Z := int64_of_float64 (fmul (float64_of_int64 length) bufferScalingFactor).

(** How the function ends. *)
Inductive ending := Result (s : string) | Panic (msg : string) | LogFatal (msg : string).

Section generate.
(** The answer of the [k]-th [rand.Read] for a buffer of this size; [None] is an error. *)
Context (rand_Read : nat → Z → option (list Z)).
Context (len : Z).
#[local] Abbreviation size := (bufferSize len).

Definition secureRandomBytes (k : nat) : list Z + ending :=
  match rand_Read k size with
  | Some randomBytes => inl randomBytes
  | None => inr (LogFatal "Unable to generate random bytes")
  end.

(** The bytes at the start of an iteration; [k] buffers were drawn so far. *)
Definition refill (j : Z) (k : nat) (randomBytes : list Z) : (nat * list Z) + ending :=
  if decide (size = 0) then inr (Panic "integer divide by zero")
  else if decide (Z.rem j size = 0) then
    match secureRandomBytes k with inl fresh => inl (S k, fresh) | inr e => inr e end
  else inl (k, randomBytes).

(** The loop; [result] is the part of the slice written so far, [i] its length.  [None] means the fuel is used up. *)
Fixpoint generateLoop (fuel : nat) (j : Z) (k : nat) (randomBytes : list Z) (result : list Ascii.ascii) : option ending :=
  match fuel with
  | O => None
  | S fuel' =>
      if decide (Z.of_nat (length result) < len) then
        match refill j k randomBytes with
        | inr e => Some e
        | inl (k, randomBytes) =>
            match randomBytes !! Z.to_nat (Z.rem j len) with
            | None => Some (Panic "index out of range")
            | Some b =>
                let result := match letter b with Some c => result ++ [c] | None => result end in
                generateLoop fuel' (add64 j 1) k randomBytes result
            end
        end
      else Some (Result (String.string_of_list_ascii result))
  end.

Definition GenerateRandomAlphaString (fuel : nat) : option ending :=
  if decide (len < 0) then Some (Panic "makeslice: len out of range") else generateLoop fuel 0 0 [] [].

(** ** Reference *)

(** [rand.Read] fills its buffer; the contents of the [k]-th one. *)
Context (buffer : nat → list Z).
Context (Hread : ∀ k, rand_Read k size = Some (buffer k)) (Hfull : ∀ k, Z.of_nat (length (buffer k)) = size).

(** The byte the [j]-th iteration looks at, and the letters of the first [n] iterations. *)
Definition pick (j : nat) : option Z := buffer (j / Z.to_nat size)%nat !! (j mod Z.to_nat len)%nat.
Definition letters (n : nat) : list Ascii.ascii := omap (λ j, pick j ≫= letter) (seq 0 n).

Lemma letters_S n : letters (S n) = letters n ++ match pick n ≫= letter with Some c => [c] | None => [] end.
Proof. unfold letters. rewrite seq_S, omap_app. simpl. by destruct (pick n ≫= letter). Qed.

Lemma letters_prefix j n : letters j `prefix_of` letters (j + n).
Proof. unfold letters. rewrite seq_app, omap_app. by eexists. Qed.

Context (Hlen : 0 < len ≤ size) (Hsize : size < 2 ^ 31).

Lemma pick_Some j : is_Some (pick j).
Proof.
  apply lookup_lt_is_Some. specialize (Hfull (j / Z.to_nat size)).
  pose proof (Nat.mod_upper_bound j (Z.to_nat len)). lia.
Qed.

(** The state of the loop before iteration [j]: a buffer is due, or the current one is in use. *)
Definition drawing (j k : nat) (randomBytes : list Z) : Prop :=
  (if decide (j mod Z.to_nat size = 0) then k = j / Z.to_nat size
   else k = S (j / Z.to_nat size) ∧ randomBytes = buffer (j / Z.to_nat size))%nat.

Lemma refill_spec j k randomBytes : drawing j k randomBytes →
  refill (Z.of_nat j) k randomBytes = inl (S (j / Z.to_nat size), buffer (j / Z.to_nat size))%nat.
Proof.
  unfold drawing, refill, secureRandomBytes. intros Hst. destruct (decide (size = 0)) as [|_]; [lia|].
  assert (Hrem : Z.rem (Z.of_nat j) size = Z.of_nat (j mod Z.to_nat size))
    by (rewrite Nat2Z.inj_mod, Z2Nat.id by lia; apply Z.rem_mod_nonneg; lia).
  rewrite Hrem. destruct (decide (Z.of_nat _ = 0)) as [Hz|Hz].
  - rewrite decide_True in Hst by lia. subst k. by rewrite Hread.
  - rewrite decide_False in Hst by lia. by destruct Hst as [-> ->].
Qed.

Lemma drawing_S j : drawing (S j) (S (j / Z.to_nat size)) (buffer (j / Z.to_nat size)).
Proof.
  unfold drawing. set (s := Z.to_nat size). assert (s ≠ 0)%nat by lia.
  pose proof (Nat.div_mod_eq j s) as Hj. pose proof (Nat.mod_upper_bound j s ltac:(done)) as Hm.
  pose proof (Nat.div_mod_eq (S j) s) as HS. pose proof (Nat.mod_upper_bound (S j) s ltac:(done)) as HmS.
  case_decide as Hz; [|assert (S j / s = j / s)%nat as -> by nia; done].
  nia.
Qed.

Lemma generateLoop_spec n j k randomBytes : drawing j k randomBytes → Z.of_nat (j + n) < 2 ^ 62 →
  len ≤ Z.of_nat (length (letters (j + n))) → Z.of_nat (length (letters j)) ≤ len →
  generateLoop (S n) (Z.of_nat j) k randomBytes (letters j) =
    Some (Result (String.string_of_list_ascii (take (Z.to_nat len) (letters (j + n))))).
Proof.
  revert j k randomBytes. induction n as [|n IH]; intros j k randomBytes Hst Hn Hge Hle; cbn [generateLoop].
  - rewrite decide_False by (rewrite Nat.add_0_r in Hge; lia). rewrite Nat.add_0_r, take_ge by lia. done.
  - case_decide as Hmore.
    + rewrite (refill_spec j k randomBytes Hst).
      assert (Hrem : Z.to_nat (Z.rem (Z.of_nat j) len) = (j mod Z.to_nat len)%nat).
      { rewrite Z.rem_mod_nonneg by lia. rewrite <- (Z2Nat.id len) at 1 by lia. rewrite <- Nat2Z.inj_mod. lia. }
      rewrite Hrem. destruct (pick_Some j) as [b Hb]. unfold pick in Hb. rewrite Hb.
      assert (HS : letters (S j) = match letter b with Some c => letters j ++ [c] | None => letters j end).
      { rewrite letters_S. unfold pick. rewrite Hb. cbn [mbind option_bind]. destruct (letter b); [done|apply app_nil_r]. }
      rewrite <- HS. rewrite add64_id by (unfold in_int64, min_int64, max_int64; lia).
      replace (Z.of_nat j + 1) with (Z.of_nat (S j)) by lia. replace (j + S n)%nat with (S j + n)%nat in * by lia.
      apply IH; [apply drawing_S|done|done|]. rewrite HS. destruct (letter b); [rewrite length_app; simpl|]; lia.
    + destruct (letters_prefix j (S n)) as [l Hl]. rewrite Hl, take_app_length' by lia. done.
Qed.

(** Enough fuel gives the first letters the picked bytes spell. *)
Theorem generate_spec n : Z.of_nat n < 2 ^ 62 → len ≤ Z.of_nat (length (letters n)) →
  GenerateRandomAlphaString (S n) = Some (Result (String.string_of_list_ascii (take (Z.to_nat len) (letters n)))).
Proof.
  intros Hn Hl. unfold GenerateRandomAlphaString. rewrite decide_False by lia.
  apply (generateLoop_spec n 0 0 []); [|done|done|simpl; lia]. unfold drawing.
  by rewrite Nat.Div0.mod_0_l, Nat.Div0.div_0_l, decide_True.
Qed.

(** When every buffer has a letter among the bytes that are looked at, every buffer gives one. *)
Lemma letters_rounds r : (∀ k, ∃ d b, (d < Z.to_nat len)%nat ∧ buffer k !! d = Some b ∧ is_Some (letter b)) →
  (r <= length (letters (r * Z.to_nat size)))%nat.
Proof.
  intros Hgood. induction r as [|r IH]; [simpl; lia|]. set (s := Z.to_nat size) in *. set (l := Z.to_nat len) in *.
  destruct (Hgood r) as (d & b & Hd & Hb & [c Hc]).
  pose proof (Nat.mod_upper_bound (r * s) l ltac:(lia)) as Hm.
  assert (∃ e, (e < s)%nat ∧ ((r * s + e) mod l = d)%nat) as (e & He & Hed).
  { exists ((d + l - (r * s) mod l) mod l)%nat. pose proof (Nat.mod_upper_bound (d + l - (r * s) mod l) l ltac:(lia)).
    split; [lia|]. rewrite <- Nat.Div0.add_mod_idemp_l, Nat.Div0.add_mod_idemp_r.
    replace ((r * s) mod l + (d + l - (r * s) mod l))%nat with (d + 1 * l)%nat by lia.
    rewrite Nat.Div0.mod_add, Nat.mod_small by lia. done. }
  assert (Hpick : pick (r * s + e) = Some b).
  { unfold pick. fold s l. rewrite Hed, Nat.div_add_l by lia. by rewrite Nat.div_small, Nat.add_0_r by lia. }
  destruct (letters_prefix (S (r * s + e)) (s - S e)) as [t Ht].
  destruct (letters_prefix (r * s) e) as [t' Ht'].
  replace (S r * s)%nat with (S (r * s + e) + (s - S e))%nat by lia.
  rewrite Ht, length_app, letters_S, Hpick. cbn [mbind option_bind]. rewrite Hc, Ht', !length_app. simpl. lia.
Qed.

(** Then the function returns a string of the length asked for, all of whose characters are letters. *)
Lemma letters_all n : Forall (λ c, ∃ b, letter b = Some c) (letters n).
Proof.
  apply Forall_forall. intros c (j & _ & Hj)%list_elem_of_omap. apply bind_Some in Hj as (b & _ & Hb). by exists b.
Qed.

Theorem generate_terminates :
  (∀ k, ∃ d b, (d < Z.to_nat len)%nat ∧ buffer k !! d = Some b ∧ is_Some (letter b)) → ∃ cs,
  GenerateRandomAlphaString (S (Z.to_nat len * Z.to_nat size)) = Some (Result (String.string_of_list_ascii cs)) ∧
  Z.of_nat (length cs) = len ∧ Forall (λ c, ∃ b, letter b = Some c) cs.
Proof.
  intros Hgood. pose proof (letters_rounds (Z.to_nat len) Hgood) as Hl.
  eexists. split; [apply generate_spec; nia|]. split; [rewrite length_take; lia|]. apply Forall_take, letters_all.
Qed.

(** The bytes of a buffer from [len] on are never looked at: the iterations there look at the first ones again. *)
Theorem pick_repeats j : (Z.to_nat len + j < Z.to_nat size)%nat → pick (Z.to_nat len + j) = pick j.
Proof.
  intros Hj. unfold pick. rewrite !(Nat.div_small _ (Z.to_nat size)) by lia.
  replace (Z.to_nat len + j)%nat with (j + 1 * Z.to_nat len)%nat by lia. by rewrite Nat.Div0.mod_add.
Qed.
End generate.

(** ** The lengths tests ask for *)

(** A buffer is at least as long as the string, and not much longer. *)
Lemma bufferSize_bounds len : 0 < len ≤ 2048 → len ≤ bufferSize len ≤ len + len / 3.
Proof.
  intros Hlen. assert (Hall : Forall (λ n, Z.of_nat n ≤ bufferSize (Z.of_nat n) ≤ Z.of_nat n + Z.of_nat n / 3) (seq 1 2048))
    by vm_decide.
  rewrite Forall_forall in Hall. specialize (Hall (Z.to_nat len)). rewrite Z2Nat.id in Hall by lia.
  apply Hall, elem_of_seq. lia.
Qed.

(** A failing source of random bytes ends the tests; the empty string needs none. *)
Example generate_fatal : GenerateRandomAlphaString (λ _ _, None) 5 1 = Some (LogFatal "Unable to generate random bytes").
Proof. reflexivity. Qed.
Example generate_empty rand_Read : GenerateRandomAlphaString rand_Read 0 1 = Some (Result "").
Proof. reflexivity. Qed.

(** Thirteen different bytes for ten letters: the fifth is no letter, and the first is used again for the last one. *)
Example generate_repeats :
  GenerateRandomAlphaString (λ _ _, Some [0; 1; 2; 3; 60; 5; 6; 7; 8; 9; 10; 11; 12]) 10 12 = Some (Result "abcdfghija").
Proof. vm_compute. reflexivity. Qed.
