(* ===== verification/Fixtures.v ===== *)
(** * Fixtures: the stubs and test data of the repository ([pkg/*/stubs], [pkg/testing/helpers.go])

    The stubs implement the interfaces of the components with fixed answers, and keep their laws.  The helpers build runtimes,
    claims and secrets; of the Kubernetes objects only the fields the collector reads are kept. *)
From S2P Require Import Prelude GoStd GoFloat Rfc3339 Resource Tracing CloudSpecs NodeScan PvcScan ClusterTracking Effects Libraries.
From S2P Require Import Clients Process EdpCollector.
Local Open Scope Z_scope.
Local Open Scope list_scope.

(** ** Scans *)

(** A scan that measures nothing (process/stubs/scan.go), and one with a given result (collector/edp/stubs/scan.go). *)
Module ProcessStubs.
Record Scan := { resources : list string }.
Definition NewScan (resources : list string) : Scan := {| resources := resources |}.
Definition UM (duration : Z) (s : Scan) : UMMeasurement * option error := (Build_UMMeasurement, None).
Definition EDP (ord : RangeOrder) (s : Scan) : EDPMeasurement * option error := (zeroMeasurement, None).
#[global] Instance process_ScanConverter : ScanConverter Scan := {| Resource.UM := UM; Resource.EDP := EDP |}.
#[global] Instance process_ScanConverterLaws : ScanConverterLaws Scan.
Proof. by intros ord ord' s _ _. Qed.
End ProcessStubs.

Module EdpStubs.
Record Scan := { measured : EDPMeasurement; EDPError : option error }.
Definition NewScan (m : EDPMeasurement) (err : option error) : Scan := {| measured := m; EDPError := err |}.
Definition UM (duration : Z) (s : Scan) : UMMeasurement * option error := (Build_UMMeasurement, None).
Definition EDP (ord : RangeOrder) (s : Scan) : EDPMeasurement * option error := (measured s, EDPError s).
#[global] Instance edp_ScanConverter : ScanConverter Scan := {| Resource.UM := UM; Resource.EDP := EDP |}.
#[global] Instance edp_ScanConverterLaws : ScanConverterLaws Scan.
Proof. by intros ord ord' s _ _. Qed.

(** collector/edp/stubs/scanner.go; the scan is not used when there is an error. *)
Definition NewScanner {QA : QuantityApi} {S} (scanConverter : S) (scanError : option error) (id : ScannerID) : Scanner S :=
  {| ID := id; EdpCollector.Scan := λ ctx info clients, mret (match scanError with None => inl scanConverter | Some err => inr err end) |}.

Lemma stub_scanner_ok {QA : QuantityApi} {S} (s : S) err id : scanner_ok (NewScanner s err id).
Proof. done. Qed.
End EdpStubs.

(** ** Components *)

Section components.
Context {QA : QuantityApi} {S : Type}.

(** process/stubs/collector.go *)
Definition StubCollector (newScanMap : gmap ScannerID S) (err : option error) : CollectorSender S :=
  λ ctx info clients previousScans, mret (newScanMap, err).
Lemma StubCollector_laws scans err : CollectorSenderLaws S (CS := StubCollector scans err).
Proof. done. Qed.

(** runtime/stubs/clients.go: the factory hands out the given clients. *)
Definition StubClientFactory (clients : Clients) : ClientFactory S := λ config, mret (inl clients).
Lemma StubClientFactory_laws clients : ClientFactoryLaws S (CF := StubClientFactory clients).
Proof. done. Qed.
End components.

(** ** Runtimes *)

(** [time.Date(year, month, day, 0, 0, 0, 0, time.UTC)] in nanoseconds, and the zero value of [time.Time]. *)
Definition midnight (y m d : Z) : Z := (dayNumber {| year := y; month := m; day := d |} - epoch) * secondsPerDay * 10 ^ 9.
Definition zeroTime : Z := midnight 1 1 1.

Definition StateFailed : string := "failed".
Definition StateDeprovisioned : string := "deprovisioned".

(** The zero value [kebruntime.RuntimeStatus{}]. *)
Definition zeroStatus : RuntimeStatus :=
  {| Status_State := ""; Provisioning := None; Deprovisioning := None; UpgradingKyma := None; UpgradingCluster := None;
     Update := None; Suspension := None; Unsuspension := None |}.
Definition runtime_with (subAccountID shootName : string) (status : RuntimeStatus) : RuntimeDTO :=
  {| ClusterTracking.InstanceID := ""; ClusterTracking.RuntimeID := ""; ClusterTracking.GlobalAccountID := "";
     ClusterTracking.SubAccountID := subAccountID; ClusterTracking.ShootName := shootName; Provider := ""; Status := status |}.

Definition update_status (f : RuntimeStatus → RuntimeStatus) (runtime : RuntimeDTO) : RuntimeDTO :=
  {| ClusterTracking.InstanceID := ClusterTracking.InstanceID runtime; ClusterTracking.RuntimeID := ClusterTracking.RuntimeID runtime;
     ClusterTracking.GlobalAccountID := ClusterTracking.GlobalAccountID runtime;
     ClusterTracking.SubAccountID := ClusterTracking.SubAccountID runtime; ClusterTracking.ShootName := ClusterTracking.ShootName runtime;
     Provider := Provider runtime; Status := f (Status runtime) |}.
Definition set_state (st : string) (s : RuntimeStatus) : RuntimeStatus :=
  {| Status_State := st; Provisioning := Provisioning s; Deprovisioning := Deprovisioning s; UpgradingKyma := UpgradingKyma s;
     UpgradingCluster := UpgradingCluster s; Update := Update s; Suspension := Suspension s; Unsuspension := Unsuspension s |}.
Definition set_provisioning (op : Operation) (s : RuntimeStatus) : RuntimeStatus :=
  {| Status_State := Status_State s; Provisioning := Some op; Deprovisioning := Deprovisioning s; UpgradingKyma := UpgradingKyma s;
     UpgradingCluster := UpgradingCluster s; Update := Update s; Suspension := Suspension s; Unsuspension := Unsuspension s |}.
Definition set_deprovisioning (op : Operation) (s : RuntimeStatus) : RuntimeStatus :=
  {| Status_State := Status_State s; Provisioning := Provisioning s; Deprovisioning := Some op; UpgradingKyma := UpgradingKyma s;
     UpgradingCluster := UpgradingCluster s; Update := Update s; Suspension := Suspension s; Unsuspension := Unsuspension s |}.

Definition NewRuntimesDTO (subAccountID shootName : string) (opts : list (RuntimeDTO → RuntimeDTO)) : RuntimeDTO :=
  let runtime := runtime_with subAccountID shootName
    (set_provisioning {| State := "succeeded"; CreatedAt := zeroTime |} zeroStatus) in
  foldl (λ runtime opt, opt runtime) runtime opts.

Definition WithProvisioningSucceededStatus (statusState : string) : RuntimeDTO → RuntimeDTO :=
  update_status (λ s, set_provisioning {| State := StateSucceeded; CreatedAt := zeroTime |} (set_state statusState s)).
Definition WithState (st : string) : RuntimeDTO → RuntimeDTO := update_status (set_state st).
Definition WithProvisioningFailedState : RuntimeDTO → RuntimeDTO :=
  update_status (set_provisioning {| State := StateFailed; CreatedAt := zeroTime |}).
Definition WithProvisionedAndDeprovisionedStatus (statusState : string) : RuntimeDTO → RuntimeDTO :=
  update_status (λ s, set_deprovisioning {| State := StateSucceeded; CreatedAt := midnight 2100 1 1 |}
    (set_provisioning {| State := StateSucceeded; CreatedAt := midnight 1900 1 1 |} (set_state statusState s))).

(** ** Cluster resources *)

Definition GetNode (name vmType : string) : PartialObjectMetadata :=
  {| NodeScan.Labels := {[nodeInstanceTypeLabel := vmType; "node.kubernetes.io/role" := "node"]} |}.
Definition Get2Nodes : list PartialObjectMetadata := [GetNode "node1" "Standard_D8_v3"; GetNode "node2" "Standard_D8_v3"].
Definition Get2NodesOpenStack : list PartialObjectMetadata := [GetNode "node1" "g_c12_m48"; GetNode "node2" "g_c12_m48"].
Definition Get3NodesWithStandardD8v3VMType : list PartialObjectMetadata :=
  [GetNode "node1" "Standard_D8_v3"; GetNode "node2" "Standard_D8_v3"; GetNode "node3" "Standard_D8_v3"].
Definition Get3NodesWithFooVMType : list PartialObjectMetadata := [GetNode "node1" "foo"; GetNode "node2" "foo"; GetNode "node3" "foo"].

Section claims.
Context {QA : QuantityApi}.

(** [resource.MustParse] panics on what does not parse: then there is no claim. *)
Definition bound_claim (labels : gmap string string) (capacity : string) : option PersistentVolumeClaim :=
  match ParseQuantity capacity with
  | inl q => Some {| PvcScan.Labels := labels; Status_Phase := ClaimBound; Storage := q |}
  | inr _ => None
  end.
Definition GetPV (name namespace capacity : string) : option PersistentVolumeClaim := bound_claim ∅ capacity.
Definition GetNFSPV (name namespace capacity : string) : option PersistentVolumeClaim :=
  bound_claim {["app.kubernetes.io/component" := "cloud-manager"; "app.kubernetes.io/part-of" := "kyma";
    "app.kubernetes.io/managed-by" := "cloud-manager"]} capacity.
Definition Get1NFSPVC : option (list PersistentVolumeClaim) := mapM id [GetNFSPV "foo-20G" "bar" "20Gi"].
Definition Get3PVCs : option (list PersistentVolumeClaim) :=
  mapM id [GetPV "foo-5G" "foo" "5Gi"; GetPV "foo-10G" "foo" "10Gi"; GetPV "foo-20G" "bar" "20Gi"].
Definition GetPVCs : option (list PersistentVolumeClaim) := mapM id [GetPV "foo-10G" "foo" "10Gi"; GetPV "foo-20G" "bar" "20Gi"].
End claims.

(** The name of the secret and its data. *)
Definition NewKCPStoredSecret (shootName kubeconfigVal : string) : string * Secret :=
  ("kubeconfig-" +:+ shootName, {| Secret_Data := {["config" := kubeconfigVal]} |}).
