(* ===== verification/ScanTests.v ===== *)
(** * ScanTests: the repository's unit tests of scans and tracking, on the model

    The tables of [scan_test.go] of the four resources, of [cluster_tracking_test.go], [filter_clusters_test.go],
    [public_cloud_specs_test.go] and of [TestSkipGlobalAccountID], evaluated on the definitions.  They tie the model to what
    the authors of the code expect of it. *)
From S2P Require Import Prelude GoStd GoFloat Decimal Json Rfc3339 Resource CloudSpecs SpecsJson NodeScan PvcScan VscScan RedisScan.
From S2P Require Import Tracing ClusterTracking Effects Libraries Process FilterClusters Fixtures.
Local Open Scope Z_scope.
Local Open Scope list_scope.

(** Decimal literals of float64 constants. *)
Definition lit (s : string) : float64 :=
  match parse_number (String.list_ascii_of_string s) with Some (n, _) => float_of_number n | None => S754_nan end.
Definition volumes_are (total rounded count : Z) : ProvisionedVolumes :=
  {| SizeGbTotal := total; Count := count; SizeGbRounded := rounded |}.
Definition is_error (name : string) (err : option error) : bool :=
  match err with Some e => errors_Is e name | None => false end.

(** ** pkg/resource/node/scan_test.go *)

Definition feature (cpu memory : string) : Feature := {| CpuCores := lit cpu; Memory := lit memory |}.
Definition node_test_specs : PublicCloudSpecs := {|
  Specs_Providers := {|
    P_AWS := {["t2.micro" := feature "1" "1"; "m5.large" := feature "2" "8";
               "gpu.fake.fractional" := feature "1234.1234455" "1234.1234455"]};
    P_Azure := {["a1.standard" := feature "1" "1.75"]};
    P_GCP := {["n1-standard-1" := feature "1" "3.75"]};
    P_OpenStack := ∅ |};
  Specs_Redis := ∅ |}.
Definition node_test (types : list string) : EDPMeasurement * option error :=
  NodeScan.EDP id {| NodeScan.providerType := AWS; NodeScan.specs := node_test_specs;
    Items := (λ t, {| NodeScan.Labels := {["node.kubernetes.io/instance-type" := t]} |}) <$> types |}.
Definition node_result (types : list string) : float64 * float64 * list (string * Z) * option error :=
  let r := node_test types in
  (ProvisionedCPUs r.1, ProvisionedRAMGb r.1, (λ v, (Resource.Name v, VMCount v)) <$> VMTypes r.1, r.2).

Example node_no_list : node_result [] = (lit "0", lit "0", [], None).
Proof. vm_compute. reflexivity. Qed.
Example node_single : node_result ["t2.micro"] = (lit "1", lit "1", [("t2.micro", 1)], None).
Proof. vm_compute. reflexivity. Qed.
Example node_gpu : node_result ["gpu.fake.fractional"] =
  (lit "1234.1234455", lit "1234.1234455", [("gpu.fake.fractional", 1)], None).
Proof. vm_compute. reflexivity. Qed.
Example node_gpus : node_result ["gpu.fake.fractional"; "gpu.fake.fractional"] =
  (lit "2468.246891", lit "2468.246891", [("gpu.fake.fractional", 2)], None).
Proof. vm_compute. reflexivity. Qed.
Example node_unknown : (node_test ["unknown-type"]).1 = zeroMeasurement ∧
  is_error "node.ErrUnknownVM" (node_test ["unknown-type"]).2 = true.
Proof. vm_compute. done. Qed.
Example node_mixed : (node_result ["t2.micro"; "unknown-type"]).1 = (lit "1", lit "1", [("t2.micro", 1)]) ∧
  is_error "node.ErrUnknownVM" (node_test ["t2.micro"; "unknown-type"]).2 = true.
Proof. vm_compute. done. Qed.
Example node_multiple : (node_result ["t2.micro"; "m5.large"]).1.1 = (lit "3", lit "9") ∧
  (node_result ["t2.micro"; "m5.large"]).1.2 ≡ₚ [("t2.micro", 1); ("m5.large", 1)] ∧ (node_test ["t2.micro"; "m5.large"]).2 = None.
Proof. split; [vm_compute; done|]. split; [|vm_compute; done]. vm_compute. apply perm_swap || apply Permutation_refl. Qed.

(** ** pkg/resource/pvc/scan_test.go *)

(** Quantities as milli-values; the parser knows decimal numbers of Gi. *)
Definition parse_Gi (s : string) : Z + error :=
  match parse_digits (String.list_ascii_of_string s) with
  | ((_ :: _) as ds, rest) => if decide (rest = String.list_ascii_of_string "Gi") then inl (value ds * GiB * 1000)
                            else inr (extError 1 "unable to parse quantity's suffix")
  | _ => inr (extError 1 "quantities must match the regular expression")
  end.
#[local] Instance gi_QuantityApi : QuantityApi :=
  {| Quantity := Z; MilliValue := wrap64; ParseQuantity := parse_Gi; MilliValue_int64 := wrap64_in |}.

Definition claim (labels : gmap string string) (capacity : string) : list PersistentVolumeClaim := option_list (bound_claim labels capacity).
Definition pvc_test (claims : list PersistentVolumeClaim) : EDPMeasurement * option error := PvcScan.EDP id {| pvcs := claims |}.
Definition with_capacity (v : string) : gmap string string :=
  <["cloud-resources.kyma-project.io/nfsVolumeStorageCapacity" := v]> nfsLabels.

Example pvc_none : pvc_test [] = (zeroMeasurement, None).
Proof. vm_compute. reflexivity. Qed.
Example pvc_single : Volumes (pvc_test (claim ∅ "10Gi")).1 = volumes_are 10 32 1.
Proof. vm_compute. reflexivity. Qed.
Example pvc_nfs : Volumes (pvc_test (claim nfsLabels "20Gi")).1 = volumes_are 60 64 1.
Proof. vm_compute. reflexivity. Qed.
Example pvc_mixed : Volumes (pvc_test (claim ∅ "10Gi" ++ claim nfsLabels "20Gi")).1 = volumes_are 70 96 2.
Proof. vm_compute. reflexivity. Qed.
Example pvc_label : Volumes (pvc_test (claim (with_capacity "40Gi") "20Gi")).1 = volumes_are 120 128 1.
Proof. vm_compute. reflexivity. Qed.
Example pvc_bad_label : Volumes (pvc_test (claim (with_capacity "invalid value") "20Gi")).1 = volumes_are 60 64 1.
Proof. vm_compute. reflexivity. Qed.
(** The claims of the helpers. *)
Example pvc_helpers : (λ l, Volumes (pvc_test l).1) <$> Get3PVCs = Some (volumes_are 35 96 3) ∧
  (λ l, Volumes (pvc_test l).1) <$> Get1NFSPVC = Some (volumes_are 60 64 1) ∧
  (λ l, Volumes (pvc_test l).1) <$> GetPVCs = Some (volumes_are 30 64 2).
Proof. vm_compute. done. Qed.

(** ** pkg/resource/vsc/scan_test.go *)

Definition snapshot (name : string) (status : option (bool * option Z)) : VolumeSnapshotContent :=
  {| VscScan.Name := name;
     VscScan.Status := (λ '(ready, size), {| ReadyToUse := Some ready; RestoreSize := size |}) <$> status |}.
Definition vsc_test (l : list VolumeSnapshotContent) : EDPMeasurement * option error := VscScan.EDP id {| vscs := l |}.
Definition TenGB : Z := 10737418240.

Example vsc_none : vsc_test [] = (zeroMeasurement, None).
Proof. vm_compute. reflexivity. Qed.
Example vsc_single : Volumes (vsc_test [snapshot "" (Some (true, Some TenGB))]).1 = volumes_are 10 32 1.
Proof. vm_compute. reflexivity. Qed.
Example vsc_mixed : Volumes (vsc_test [snapshot "" (Some (true, Some TenGB)); snapshot "" (Some (true, Some (2 * TenGB)))]).1 =
  volumes_are 30 64 2.
Proof. vm_compute. reflexivity. Qed.
Example vsc_sizes : Volumes (vsc_test [snapshot "" (Some (true, Some (5 * GiB))); snapshot "" (Some (true, Some (15 * GiB)))]).1 =
  volumes_are 20 64 2.
Proof. vm_compute. reflexivity. Qed.
Example vsc_not_ready : vsc_test [snapshot "" (Some (false, Some TenGB))] = (zeroMeasurement, None).
Proof. vm_compute. reflexivity. Qed.
Example vsc_no_status : vsc_test [snapshot "vsc1" None] = (zeroMeasurement, None).
Proof. vm_compute. reflexivity. Qed.
Example vsc_no_size : (vsc_test [snapshot "vsc1" (Some (true, None))]).1 = zeroMeasurement ∧
  is_error "vsc.ErrRestoreSizeNotSet" (vsc_test [snapshot "vsc1" (Some (true, None))]).2 = true.
Proof. vm_compute. done. Qed.

(** ** pkg/resource/redis/scan_test.go *)

Definition redis_test_specs : PublicCloudSpecs :=
  {| Specs_Providers := zeroProviders;
     Specs_Redis := {["s1" := {| PriceStorageGB := 10; PriceCapacityUnits := 0 |}; "p1" := {| PriceStorageGB := 50; PriceCapacityUnits := 0 |}]} |}.
Definition redis_test (aws azure gcp : list string) : ProvisionedVolumes * option error :=
  let r := RedisScan.EDP id {| RedisScan.specs := redis_test_specs; RedisScan.aws := Build_RedisInstance <$> aws;
    RedisScan.azure := Build_RedisInstance <$> azure; RedisScan.gcp := Build_RedisInstance <$> gcp |} in
  (Volumes r.1, r.2).

Example redis_none : redis_test [] [] [] = (volumes_are 0 0 0, None).
Proof. vm_compute. reflexivity. Qed.
Example redis_aws : redis_test ["s1"] [] [] = (volumes_are 10 10 1, None).
Proof. vm_compute. reflexivity. Qed.
Example redis_azure : redis_test [] ["p1"] [] = (volumes_are 50 50 1, None).
Proof. vm_compute. reflexivity. Qed.
Example redis_gcp : redis_test [] [] ["s1"] = (volumes_are 10 10 1, None).
Proof. vm_compute. reflexivity. Qed.
Example redis_invalid : (redis_test [] ["invalid-tier"] []).1 = volumes_are 0 0 0 ∧
  is_error "redis.ErrUnknownRedisTier" (redis_test [] ["invalid-tier"] []).2 = true.
Proof. vm_compute. done. Qed.
Example redis_mixed : (redis_test ["s1"] ["invalid-tier"] []).1 = volumes_are 10 10 1 ∧
  is_error "redis.ErrUnknownRedisTier" (redis_test ["s1"] ["invalid-tier"] []).2 = true.
Proof. vm_compute. done. Qed.

(** ** pkg/process/cluster_tracking_test.go *)

#[local] Existing Instance insertion_SortSlice.
Definition op_at (d : Z) : Operation := {| State := ""; CreatedAt := midnight 2023 1 d |}.
Definition states (status : RuntimeStatus) : list runtimeState := state <$> sortOperations (runtime_with "" "" status).

Example sorted_by_time : states {| Status_State := ""; Provisioning := Some (op_at 1); Deprovisioning := Some (op_at 2);
    UpgradingKyma := Some [op_at 3]; UpgradingCluster := Some [op_at 4]; Update := Some [op_at 5]; Suspension := Some [op_at 6];
    Unsuspension := Some [op_at 7] |} =
  [provisioning; deprovisioning; upgradingkyma; upgradingcluster; update; suspension; unsuspension].
Proof. vm_compute. reflexivity. Qed.
Example sorted_suspensions : states {| Status_State := ""; Provisioning := None; Deprovisioning := None; UpgradingKyma := None;
    UpgradingCluster := None; Update := None; Suspension := Some [op_at 6; op_at 8]; Unsuspension := Some [op_at 7; op_at 9] |} =
  [suspension; unsuspension; suspension; unsuspension].
Proof. vm_compute. reflexivity. Qed.
Example sorted_empty : states zeroStatus = [].
Proof. vm_compute. reflexivity. Qed.
Example sorted_nil_times : states {| Status_State := ""; Provisioning := Some {| State := ""; CreatedAt := zeroTime |};
    Deprovisioning := Some {| State := ""; CreatedAt := zeroTime |}; UpgradingKyma := None; UpgradingCluster := None; Update := None;
    Suspension := None; Unsuspension := None |} = [provisioning; deprovisioning].
Proof. vm_compute. reflexivity. Qed.

(** One operation at some time. *)
Definition only_op (kind : runtimeState) (st : string) (now : Z) : RuntimeDTO :=
  let op := {| State := st; CreatedAt := now |} in
  let at_kind k := if decide (kind = k) then Some [op] else None in
  runtime_with "" "" {| Status_State := ""; Provisioning := if decide (kind = provisioning) then Some op else None;
    Deprovisioning := if decide (kind = deprovisioning) then Some op else None; UpgradingKyma := at_kind upgradingkyma;
    UpgradingCluster := at_kind upgradingcluster; Update := at_kind update; Suspension := at_kind suspension;
    Unsuspension := at_kind unsuspension |}.

Example trackable_table now : isRuntimeTrackable (only_op provisioning "succeeded" now) = true ∧
  isRuntimeTrackable (only_op suspension "" now) = false ∧ isRuntimeTrackable (only_op provisioning "failed" now) = false ∧
  isRuntimeTrackable (only_op unsuspension "failed" now) = false ∧ isRuntimeTrackable (only_op unsuspension "succeeded" now) = true ∧
  isRuntimeTrackable (only_op deprovisioning "" now) = false ∧ isRuntimeTrackable (runtime_with "" "" zeroStatus) = false ∧
  isRuntimeTrackable (only_op update "" now) = true.
Proof. split_and!; reflexivity. Qed.

(** ** pkg/process/filter_clusters_test.go and TestSkipGlobalAccountID *)

Definition uuid1 : string := "8946D5DE-E59A-4F4D-B65D-4595758D1FB1".
Definition uuid2 : string := "E653F9B0-97F1-4BF4-AAF2-268C5217CF49".
(** The accounts of the file, and a validator that counts characters. *)
Definition filter_test (accounts : list string + error) : gset string + error :=
  parseRuntimesToBeFiltered (λ _, accounts) (λ s, if decide (String.length s = 36%nat) then None else Some (errorString "invalid UUID length")) "".

Example filter_single : filter_test (inl [uuid1]) = inl {[uuid1]}.
Proof. vm_compute. reflexivity. Qed.
Example filter_duplicate : filter_test (inl [uuid1; uuid1]) = inl {[uuid1]}.
Proof. vm_compute. reflexivity. Qed.
Example filter_multiple : filter_test (inl [uuid1; uuid2]) = inl {[uuid1; uuid2]}.
Proof. vm_compute. reflexivity. Qed.
Example filter_invalid : filter_test (inl ["a" +:+ uuid1; "b" +:+ uuid2]) =
  inr (errorString ("invalid global account IDs: a" +:+ uuid1 +:+ ", b" +:+ uuid2)).
Proof. vm_compute. reflexivity. Qed.
Example filter_empty : filter_test (inl []) = inl ∅.
Proof. vm_compute. reflexivity. Qed.
Example filter_bad_yaml err : filter_test (inr err) = inr err.
Proof. reflexivity. Qed.

Definition skip_test (globalAccount : string) (filter : gset string) : bool :=
  skipRuntime {| ScrapeInterval := 0; WorkersPoolSize := 0; PollWaitDuration := 0; globalAccToBeFiltered := filter |}
    {| ClusterTracking.InstanceID := ""; ClusterTracking.RuntimeID := ""; ClusterTracking.GlobalAccountID := globalAccount;
       ClusterTracking.SubAccountID := ""; ClusterTracking.ShootName := ""; Provider := ""; Status := zeroStatus |}.
Example skip_table : skip_test uuid1 {[uuid1]} = true ∧ skip_test uuid1 {[uuid2]} = false ∧ skip_test uuid1 ∅ = false.
Proof. vm_compute. done. Qed.

(** ** pkg/config/public_cloud_specs_test.go, on the file public_cloud_specs_fractional.json *)

Example fractional_table :
  GetFeature fractional_specs "azure" "standard_a1_v2" = Some (feature "1.1" "2.1") ∧
  GetFeature fractional_specs "aws" "m4.large" = Some (feature "2.2" "8.2") ∧
  GetFeature fractional_specs "gcp" "n1-standard-4" = Some (feature "4.3" "15.3") ∧
  GetFeature fractional_specs "sapconvergedcloud" "g_c12_m48" = Some (feature "12.4" "48.4") ∧
  GetFeature fractional_specs "aws" "m5.2xlarge.foo" = None ∧ GetRedisInfo fractional_specs "foo" = None.
Proof. vm_compute. done. Qed.
