(* ===== verification/FlowTests.v ===== *)
(** * FlowTests: the repository's unit tests of clients, collector and process, on the model

    [kubeconfig_test.go], [client_test.go] of EDP and KEB, [collector_test.go], the [scanner_test.go] files and
    [process_test.go]: the calls of the tests are run against the answers their servers and fake clients give. *)
From S2P Require Import Prelude GoStd GoFloat Rfc3339 Resource CloudSpecs SpecsJson NodeScan PvcScan VscScan RedisScan Tracing.
From S2P Require Import ClusterTracking Effects Libraries Clients Process Samples Retry KubeconfigProvider.
From S2P Require Import EdpPayload PayloadJson EdpClient EdpCollector EdpCollectorSpec Scanners KebClient Fixtures.
Local Open Scope Z_scope.
Local Open Scope list_scope.

Abbreviation test_world S := (world (gmap string (obj S)) simple_queue metric_map ttl_map).
Definition fresh {S} : test_world S :=
  {| w_cache := ∅; w_queue := sq_empty; w_metrics := ∅; w_kube := ∅; w_tick := 0; w_http := [] |}.
Definition result {A} (o : outcome A) : option A := match o with Returned a => Some a | _ => None end.
Definition contains (sub s : string) : bool := bool_decide (is_Some (String.index 0 sub s)).

(** ** pkg/runtime/kubeconfigprovider/kubeconfig_test.go *)

(** The secret always holds [test]; a second passes at the sleep, which is call number 8. *)
Definition kubeconfig_env : Env := λ X q t,
  match q in request X return X with
  | GetSecret _ _ => inl {| Secret_Data := {["config" := "test"]} |}
  | Clock => if decide (t ≤ 8)%nat then 0 else 10 ^ 9 + 1
  | q => sample_env _ q t
  end.
Definition secret_calls (l : list answered_call) : nat :=
  length (omap (λ c : answered_call, match c with existT _ (GetSecret _ _, _) => Some tt | _ => None end) l).
Definition provider_test : prog unit (Z * (string + error) * Z * (string + error) * Z * Z * (string + error) * Z) :=
  let provider := KubeconfigProvider.New (10 ^ 9) "test" in
  n0 ← call (Ttl TtlLen);
  got1 ← KubeconfigProvider.Get provider "test";
  n1 ← call (Ttl TtlLen);
  got2 ← KubeconfigProvider.Get provider "test";
  n2 ← call (Ttl TtlLen);
  ext (Sleep (10 ^ 9));;
  call (Ttl TtlDeleteExpired);;
  n3 ← call (Ttl TtlLen);
  got3 ← KubeconfigProvider.Get provider "test";
  n4 ← call (Ttl TtlLen);
  mret (n0, got1, n1, got2, n2, n3, got3, n4).

Example provider_Get : result (run kubeconfig_env provider_test fresh).1 =
  Some (0, inl "test", 1, inl "test", 1, 0, inl "test", 1) ∧ secret_calls (calls kubeconfig_env provider_test fresh) = 2%nat.
Proof. vm_compute. done. Qed.

(** ** pkg/collector/edp/client_test.go *)

Definition edp_test_config (retries : Z) : EdpClient.Config :=
  {| EdpClient.Config_URL := "http://127.0.0.1"; Namespace := "namespace"; DataStreamName := "dataStream"; DataStreamVersion := "v1";
     DataStreamEnv := "env"; EdpClient.Config_Timeout := 5 * 10 ^ 9; EventRetry := retries; Token := "token" |}.
Definition edp_path (tenant : string) : string :=
  "http://127.0.0.1/namespaces/namespace/dataStreams/dataStream/v1/dataTenants/" +:+ tenant +:+ "/env/events".
Definition status_env (status : Z) : Env := λ X q t,
  match q in request X return X with
  | HttpDo _ => inl {| StatusCode := status; ResponseBody := inl "" |}
  | q => sample_env _ q t
  end.
Definition edp_request : HttpRequest :=
  {| Method := "POST"; URL := edp_path "testTenant"; RawQuery := "";
     Header := [("User-Agent", "kyma-metrics-collector"); ("Content-Type", "application/json;charset=utf-8");
                ("Authorization", "Bearer token")]; Body := "" |}.

Example edp_NewRequest : EdpClient.NewRequest sample_Parse (edp_test_config 2) "testTenant" = inl edp_request.
Proof. vm_compute. reflexivity. Qed.

Definition edp_run (status : Z) := run (status_env status) (Send (S := unit) (edp_test_config 2) edp_request "foodata") fresh.
Example edp_Send : (StatusCode <$> (result (edp_run 201).1 ≫= λ r, match r with inl resp => Some resp | inr _ => None end)) = Some 201 ∧
  Body <$> w_http (edp_run 201).2 = ["foodata"] ∧
  m_get edpLatency ["201"; edp_path "<subAccountId>"] (w_metrics (edp_run 201).2) = Some (float64_of_int64 1).
Proof. vm_compute. done. Qed.
Example edp_Retry : match (edp_run 500).1 with
    | Returned (inr err) => contains "failed to send event stream as EDP returned HTTP: 500" (Error err)
    | _ => false end = true ∧
  length (w_http (edp_run 500).2) = 2%nat ∧
  m_get edpLatency ["500"; edp_path "<subAccountId>"] (w_metrics (edp_run 500).2) = Some (float64_of_int64 2).
Proof. vm_compute. done. Qed.

(** ** pkg/keb/client_test.go *)

(** The four runtimes of the fixture, of which the collector sees the shoots here. *)
Definition keb_runtimes : list RuntimeDTO :=
  [NewRuntimesDTO "" "foo1" []; NewRuntimesDTO "" "foo2" []; NewRuntimesDTO "" "" [WithProvisioningFailedState];
   NewRuntimesDTO "" "" [WithProvisioningFailedState]].
Definition keb_page (body : string) : RuntimesPage + error :=
  if decide (body = "page1") then inl {| Data := take 2 keb_runtimes; PageCount := 2; TotalCount := 4 |}
  else if decide (body = "page2") then inl {| Data := drop 2 keb_runtimes; PageCount := 2; TotalCount := 4 |}
  else if decide (body = "all") then inl {| Data := keb_runtimes; PageCount := 4; TotalCount := 4 |}
  else inr (errorString "unexpected end of JSON input").
Definition keb_config (url : string) : KebClient.Config :=
  {| KebClient.Config_URL := url; KebClient.Config_Timeout := 3 * 10 ^ 9; RetryCount := 1; Config_PollWaitDuration := 600 * 10 ^ 9 |}.
(** The handler of the test server. *)
Definition keb_env : Env := λ X q t,
  match q in request X return X with
  | HttpDo req =>
      if decide (URL req = "/runtimes") then
        inl {| StatusCode := 200; ResponseBody := inl (if decide (RawQuery req = "page=1") then "page1" else "page2") |}
      else if decide (URL req = "/runtimes/with1page") then inl {| StatusCode := 200; ResponseBody := inl "all" |}
      else if decide (URL req = "/runtimes/nopaging") then inl {| StatusCode := 404; ResponseBody := inl "" |}
      else inl {| StatusCode := 500; ResponseBody := inl "" |}
  | q => sample_env _ q t
  end.
Definition keb_run (url : string) : option (option (RuntimesPage + error)) :=
  match KebClient.NewRequest (keb_config url) sample_Parse with
  | inl req => option_map (option_map fst) (result (run keb_env (GetAllRuntimes (S := unit) keb_page (keb_config url) 3 req) fresh).1)
  | inr _ => None
  end.

Example keb_two_pages : keb_run "/runtimes" = Some (Some (inl {| Data := keb_runtimes; PageCount := 4; TotalCount := 4 |})).
Proof. vm_compute. reflexivity. Qed.
Example keb_one_page : keb_run "/runtimes/with1page" = Some (Some (inl {| Data := keb_runtimes; PageCount := 4; TotalCount := 4 |})).
Proof. vm_compute. reflexivity. Qed.
Definition keb_fails (url text : string) : bool :=
  match keb_run url with Some (Some (inr err)) => contains text (Error err) | _ => false end.
Example keb_errors : keb_fails "/runtimes/nopaging" "KEB returned status code: 404" = true ∧
  keb_fails "/broken" "KEB returned status code: 500" = true.
Proof. vm_compute. done. Qed.

(** ** The scanner tests *)

(** Clusters whose lists are given. *)
Definition cluster (nodes : list PartialObjectMetadata + error) (pvcs : list PersistentVolumeClaim + error)
    (vscs : list VolumeSnapshotContent + error) (redis : string + ApiError) : Env := λ X q t,
  match q in request X return X with
  | ListNodes _ => nodes
  | ListPVCs _ => pvcs
  | ListVSCs _ => vscs
  | ListRedis _ gvr => if decide (ResourceName gvr = "awsredisinstances") then redis else inl "none"
  | q => sample_env _ q t
  end.
Definition two_nodes : list PartialObjectMetadata := [{| NodeScan.Labels := ∅ |}; {| NodeScan.Labels := ∅ |}].
Definition two_vscs : list VolumeSnapshotContent :=
  [{| VscScan.Name := "vsc1"; VscScan.Status := None |}; {| VscScan.Name := "vsc2"; VscScan.Status := None |}].
Definition two_claims : list PersistentVolumeClaim :=
  [{| PvcScan.Labels := ∅; Status_Phase := OtherPhase ""; Storage := 0 |}; {| PvcScan.Labels := ∅; Status_Phase := OtherPhase ""; Storage := 0 |}].
Definition two_redis : list RedisInstance := [{| RedisTier := "" |}; {| RedisTier := "" |}].
Definition redis_json (body : string) : list RedisInstance + error := inl (if decide (body = "two") then two_redis else []).

Definition test_info : Info := {| Info_InstanceID := ""; Info_RuntimeID := ""; Info_SubAccountID := ""; Info_GlobalAccountID := "";
  Info_ShootName := ""; Info_ProviderType := "test-provider" |}.
Definition scan_run (env : Env) (s : Scanner AnyScan) : option (AnyScan + error) :=
  result (run env (Scan s Background test_info sample_clients) (fresh : test_world AnyScan)).1.
Definition test_scanners : list (Scanner AnyScan) := scanners inl redis_json zeroSpecs.
Definition good_cluster : Env := cluster (inl two_nodes) (inl two_claims) (inl two_vscs) (inl "two").
Definition bad_cluster : Env := cluster (inr (errorString "failed to list nodes")) (inr (errorString "failed to list pvcs"))
  (inr (errorString "failed to list vscs")) (inr {| ReasonForError := StatusReasonOther; apiErr := errorString "failed to list aws redis instances" |}).

Example scanner_IDs : ID <$> test_scanners = ["node"; "pvc"; "redis"; "vsc"].
Proof. reflexivity. Qed.
Example scans_succeed : scan_run good_cluster <$> test_scanners =
  [Some (inl (NodeScan_ {| NodeScan.providerType := "test-provider"; NodeScan.specs := zeroSpecs; Items := two_nodes |}));
   Some (inl (PvcScan_ {| pvcs := two_claims |}));
   Some (inl (RedisScan_ {| RedisScan.specs := zeroSpecs; aws := two_redis; azure := []; gcp := [] |}));
   Some (inl (VscScan_ {| vscs := two_vscs |}))].
Proof. reflexivity. Qed.
Example scans_fail :
  forallb (λ r, match r with Some (inr _) => true | _ => false end) (scan_run bad_cluster <$> test_scanners) = true.
Proof. vm_compute. reflexivity. Qed.

(** ** pkg/collector/edp/collector_test.go *)

Section collector_test.
Abbreviation StubScan := EdpStubs.Scan.

Definition vm (name : string) : VMType := {| Resource.Name := name; VMCount := 1 |}.
Definition measure (types : list string) (n : Z) : EDPMeasurement :=
  {| VMTypes := vm <$> types; ProvisionedCPUs := float64_of_int64 n; ProvisionedRAMGb := float64_of_int64 n;
     Volumes := {| SizeGbTotal := n; Count := n; SizeGbRounded := n |} |}.
Definition scan1 : StubScan := EdpStubs.NewScan (measure ["t2.micro"] 1) None.
Definition good2 : StubScan := EdpStubs.NewScan (measure ["m5.large"] 2) None.
Definition bad2 : StubScan := EdpStubs.NewScan zeroMeasurement (Some (errorString "failed to convert scan to EDP measurement")).
Definition test_runtime : Info := {| Info_InstanceID := "instance"; Info_RuntimeID := "runtime"; Info_SubAccountID := "subaccount";
  Info_GlobalAccountID := "global"; Info_ShootName := "shoot"; Info_ProviderType := "" |}.

Definition collect_run (scan2 : StubScan) (scanError2 : option error) (previous : gmap ScannerID StubScan) :=
  run (status_env 201) (EdpCollector.CollectAndSend Marshal sample_Parse (edp_test_config 1)
    [EdpStubs.NewScanner scan1 None "scanner1"; EdpStubs.NewScanner scan2 scanError2 "scanner2"] Background test_runtime sample_clients
    previous) (fresh : test_world StubScan).

(** What the test server receives and expects. *)
Definition received_ok (expected : EDPMeasurement) (req : HttpRequest) : bool :=
  bool_decide (URL req = edp_path "subaccount" ∧ Method req = "POST") &&
  match Unmarshal (Body req) with
  | Some pl => bool_decide (VMTypes (Compute pl) ≡ₚ VMTypes expected ∧ ProvisionedCPUs (Compute pl) = ProvisionedCPUs expected ∧
      ProvisionedRAMGb (Compute pl) = ProvisionedRAMGb expected ∧ Volumes (Compute pl) = Volumes expected)
  | None => false
  end.
(** A counter of the registry was incremented once. *)
Definition counted_once {S} (m : metric) (labels : list string) (w : test_world S) : bool :=
  bool_decide (m_get m labels (w_metrics w) = Some (float64_of_int64 1)).
Definition test_labels : list string := ["shoot"; "instance"; "runtime"; "subaccount"; "global"].
Definition same_scan (a b : option StubScan) : bool :=
  match a, b with
  | None, None => true
  | Some a, Some b => bool_decide (Volumes (EdpStubs.measured a) = Volumes (EdpStubs.measured b)) &&
      bool_decide (is_Some (EdpStubs.EDPError a) ↔ is_Some (EdpStubs.EDPError b))
  | _, _ => false
  end.

Definition collect_test (scan2 : StubScan) (scanError2 : option error) (previous : gmap ScannerID StubScan) (expected : EDPMeasurement)
    (kept2 : option StubScan) (fails converted2 : bool) : bool :=
  let r := collect_run scan2 scanError2 previous in
  match r.1, w_http r.2 with
  | Returned (scans, err), [req] =>
      received_ok expected req && bool_decide (is_Some err ↔ fails = true) &&
      bool_decide (size scans = if kept2 is Some _ then 2%nat else 1%nat) &&
      same_scan (scans !! "scanner1") (Some scan1) && same_scan (scans !! "scanner2") kept2 &&
      counted_once TotalScans ("true" :: "scanner1" :: test_labels) r.2 &&
      counted_once TotalScans (FormatBool (if scanError2 is Some _ then false else true) :: "scanner2" :: test_labels) r.2 &&
      counted_once TotalScansConverted ("true" :: "scanner1" :: "edp" :: test_labels) r.2 &&
      counted_once TotalScansConverted (FormatBool converted2 :: "scanner2" :: "edp" :: test_labels) r.2
  | _, _ => false
  end.
Definition scanFailed : option error := Some (errorString "failed to scan").
Definition both : EDPMeasurement := measure ["m5.large"; "t2.micro"] 3.

Example collect_both : collect_test good2 None ∅ both (Some good2) false true = true.
Proof. vm_compute. reflexivity. Qed.
Example collect_scan_fallback : collect_test bad2 scanFailed {["scanner2" := good2]} both (Some good2) true true = true.
Proof. vm_compute. reflexivity. Qed.
Example collect_scan_lost : collect_test bad2 scanFailed ∅ (measure ["t2.micro"] 1) None true false = true.
Proof. vm_compute. reflexivity. Qed.
Example collect_convert_fallback : collect_test bad2 None {["scanner2" := good2]} both (Some good2) true false = true.
Proof. vm_compute. reflexivity. Qed.
Example collect_convert_lost : collect_test bad2 None ∅ (measure ["t2.micro"] 1) None true false = true.
Proof. vm_compute. reflexivity. Qed.
End collector_test.

(** ** pkg/process/process_test.go *)

Section process_test.
Abbreviation TestScan := ProcessStubs.Scan.
Abbreviation process_world := (test_world TestScan).

Definition test_process : Process :=
  {| ScrapeInterval := 3 * 10 ^ 9; WorkersPoolSize := 0; PollWaitDuration := 0; globalAccToBeFiltered := ∅ |}.
Definition test_record (subAccountID shootName : string) : CacheRecord TestScan :=
  {| InstanceID := ""; RuntimeID := ""; SubAccountID := subAccountID; GlobalAccountID := ""; ShootName := shootName; ProviderType := "";
     ScanMap := ∅ |}.
Definition page (l : list RuntimeDTO) : RuntimesPage := {| Data := l; PageCount := 0; TotalCount := 0 |}.
Definition provisioned (subAccountID shootName : string) : RuntimeDTO :=
  NewRuntimesDTO subAccountID shootName [WithProvisioningSucceededStatus "succeeded"].
Definition gone (subAccountID shootName : string) : RuntimeDTO :=
  NewRuntimesDTO subAccountID shootName [WithProvisionedAndDeprovisionedStatus StateDeprovisioned].

Definition populated (l : list RuntimeDTO) (w : process_world) : process_world :=
  (run sample_env (populateCacheAndQueue test_process (page l)) w).2.
(** The cached sub-accounts with their shoots, and the queue. *)
Definition cache_is (l : list (string * string)) (w : process_world) : bool :=
  bool_decide (size (w_cache w) = length l) &&
  forallb (λ '(x, shoot), match w_cache w !! x with
    | Some (ObjRecord rec) => bool_decide (SubAccountID rec = x ∧ ShootName rec = shoot ∧ size (ScanMap rec) = 0%nat)
    | _ => false end) l.
(** The counter of the fetched clusters. *)
Definition fetched_series (w : process_world) : nat :=
  length (omap (λ '((m, _), _), if decide (m = kebFetchedClusters) then Some tt else None) (map_to_list (w_metrics w))).
Definition fetched (rt : RuntimeDTO) (w : process_world) : option float64 :=
  m_get kebFetchedClusters [FormatBool (isRuntimeTrackable rt); ClusterTracking.ShootName rt; ""; ""; ClusterTracking.SubAccountID rt; ""]
    (w_metrics w).

(** Provisioned runtimes and others that failed, or that were deprovisioned. *)
Definition populate_test (others : list RuntimeDTO) : bool :=
  let l := [provisioned "sa-1" "shoot-1"; provisioned "sa-2" "shoot-2"] ++ others in
  let w := populated l fresh in
  cache_is [("sa-1", "shoot-1"); ("sa-2", "shoot-2")] w && bool_decide (sq_items (w_queue w) = ["sa-1"; "sa-2"]) &&
  bool_decide (fetched_series w = 4%nat) && forallb (λ rt, bool_decide (fetched rt w = Some (float64_of_int64 1))) l.
Example populate_failed : populate_test [NewRuntimesDTO "sa-3" "shoot-3" [WithProvisioningFailedState];
  NewRuntimesDTO "sa-4" "shoot-4" [WithProvisioningFailedState]] = true.
Proof. vm_compute. reflexivity. Qed.
Example populate_deprovisioned : populate_test [gone "sa-3" "shoot-3"; gone "sa-4" "shoot-4"] = true.
Proof. vm_compute. reflexivity. Qed.

Definition loaded (l : list (CacheRecord TestScan)) : process_world :=
  with_cache (list_to_map ((λ rec, (SubAccountID rec, ObjRecord rec)) <$> l)) fresh.
Example populate_none : cache_is [] (populated [] (loaded [test_record "sa-1" "shoot-old"])) = true ∧
  sq_items (w_queue (populated [] (loaded [test_record "sa-1" "shoot-old"]))) = [] ∧
  fetched_series (populated [] (loaded [test_record "sa-1" "shoot-old"])) = 0%nat.
Proof. vm_compute. done. Qed.
Definition reprovisioned_before : process_world := populated [gone "sa-1" "shoot-old"] (loaded [test_record "sa-1" "shoot-old"]).
Definition reprovisioned_after : process_world := populated [provisioned "sa-1" "shoot-new"] reprovisioned_before.
Example populate_reprovisioned : cache_is [] reprovisioned_before = true ∧ sq_items (w_queue reprovisioned_before) = [] ∧
  cache_is [("sa-1", "shoot-new")] reprovisioned_after = true ∧ fst <$> q_get (w_queue reprovisioned_after) = Some "sa-1" ∧
  fetched_series reprovisioned_after = 1%nat ∧ fetched (gone "sa-1" "shoot-old") reprovisioned_after = None.
Proof. vm_compute. done. Qed.

(** Metrics of shoots that are gone or renamed are removed, those of others are kept. *)
Definition full_record (subAccountID shootName : string) : CacheRecord TestScan :=
  {| InstanceID := "i-" +:+ subAccountID; RuntimeID := "r-" +:+ subAccountID; SubAccountID := subAccountID;
     GlobalAccountID := "g-" +:+ subAccountID; ShootName := shootName; ProviderType := "azure"; ScanMap := ∅ |}.
Definition record_all (rec : CacheRecord TestScan) : prog TestScan unit :=
  recordSubAccountProcessed false rec;;
  recordSubAccountProcessedTimeStamp rec;;
  RecordScan false "node" (runtimeInfo rec);;
  RecordScanConversion false "node" "edp" (runtimeInfo rec).
Definition has_metrics (rec : CacheRecord TestScan) (w : process_world) : list bool :=
  let has m ls := bool_decide (is_Some (m_get m (ls ++ shootValues rec) (w_metrics w))) in
  [has subAccountProcessed ["false"]; has subAccountProcessedTimeStamp []; has TotalScans ["false"; "node"];
   has TotalScansConverted ["false"; "node"; "edp"]].
Definition removal_test (shoot2 : list RuntimeDTO) : list bool * list bool :=
  let r1 := full_record "sa-1" "shoot-1" in
  let r2 := full_record "sa-2" "shoot-2" in
  let w := (run sample_env (record_all r1;; record_all r2;; populateCacheAndQueue test_process (page (provisioned "sa-1" "shoot-1" :: shoot2)))
    (loaded [r1; r2])).2 in
  (has_metrics r1 w, has_metrics r2 w).
Example metrics_removed : removal_test [] = (replicate 4 true, replicate 4 false) ∧
  removal_test [gone "sa-2" "shoot-2"] = (replicate 4 true, replicate 4 false) ∧
  removal_test [provisioned "sa-2" "shoot-2-new"] = (replicate 4 true, replicate 4 false).
Proof. vm_compute. done. Qed.

(** Processing three times with a collector that succeeds, or fails. *)
Definition processed_thrice (scans : gmap ScannerID TestScan) (err : option error) : process_world :=
  let CS := StubCollector scans err in
  let CP : ConfigProvider TestScan := KubeconfigProvider.Get (KubeconfigProvider.New (60 * 10 ^ 9) "test") in
  let CF := StubClientFactory sample_clients in
  let once := processSubAccountID (CS := CS) (CP := CP) (CF := CF) test_process "sa-1" in
  (run sample_env (once 0;; once 1;; once 2) (loaded [full_record "sa-1" "shoot-1"])).2.
Definition processed_metrics (success : string) (w : process_world) : option float64 * bool :=
  (m_get subAccountProcessed (success :: shootValues (full_record "sa-1" "shoot-1")) (w_metrics w),
   bool_decide (is_Some (m_get subAccountProcessedTimeStamp (shootValues (full_record "sa-1" "shoot-1")) (w_metrics w)))).
Example process_metrics : processed_metrics "true" (processed_thrice ∅ None) = (Some (float64_of_int64 3), true) ∧
  processed_metrics "false" (processed_thrice ∅ (Some (errorString "fake error"))) = (Some (float64_of_int64 3), false).
Proof. vm_compute. done. Qed.

(** [TestExecute]: the scans of the collector are cached and the item is scheduled again; once the cluster is gone the item
    is dropped. *)
Definition test_scans : gmap ScannerID TestScan :=
  {["node" := ProcessStubs.NewScan ["node1"; "node2"]; "redis" := ProcessStubs.NewScan ["redis1"; "redis2"]]}.
Definition execute_once : prog TestScan unit :=
  executeItem (CS := StubCollector test_scans None)
    (CP := (KubeconfigProvider.Get (KubeconfigProvider.New (60 * 10 ^ 9) "test") : ConfigProvider TestScan))
    (CF := StubClientFactory sample_clients) test_process "sa-1" 1.
Definition executed : process_world := (run sample_env execute_once (loaded [full_record "sa-1" "shoot-1"])).2.
Definition executed_again : process_world :=
  (run sample_env execute_once (with_cache ∅ (with_queue sq_empty executed))).2.
Example execute_test : match w_cache executed !! "sa-1" with
    | Some (ObjRecord rec) => ProcessStubs.resources <$> (ScanMap rec !! "redis")
    | _ => None end = Some ["redis1"; "redis2"] ∧
  bool_decide ("sa-1" ∈ q_pending (w_queue executed)) = true ∧ bool_decide (q_pending (w_queue executed_again) = ∅) = true.
Proof. vm_compute. done. Qed.
End process_test.
